(* ===== verification/_CoqProject ===== *)
-Q . S2P
Prelude.v
PyStr.v
PyJson.v
JsonText.v
Url.v
Auth.v
ApiSession.v
Messaging.v
Broker.v
Markdown.v
Grouping.v
CxOne.v
Cloner.v
Config.v
Workflows.v
Wire.v
ScmConfig.v
Bootstrap.v
Content.v
ScmServices.v
ScmHosts.v
Polling.v
Feedback.v
Resolver.v
Runner.v
AgentConfig.v
Orchestration.v
ScanAgent.v
Dispatch.v
System.v
Deployment.v
Journey.v
Watching.v
Kickoff.v
KickoffClient.v
Github.v
Gitlab.v
Adoe.v
Bitbucket.v
TaskManager.v
Logging.v
Wsgi.v
Reentry.v
Server.v
Signatures.v
Amqp.v
Naming.v
Environment.v
Conformance.v
Examples.v
