(* ===== verification/Prelude.v ===== *)
(** * CxOneFlow: verification library

    CxOneFlow receives the webhook events of source code hosts, scans the code
    with Checkmarx One, and reports the results.  This library models the program
    as it is written - its server, its workflow agents, its scan agents and its
    kickoff client - and proves what its parts promise each other.

    ** The program and its parts

    An event arrives at an endpoint ([src/wsgi.py]: [Wsgi]).  The endpoint makes an
    orchestrator of it ([src/orchestration/gh.py], [gl.py], [adoe.py],
    [bitbucket/]: [Github], [Gitlab], [Adoe], [Bitbucket]) and hands the dispatch
    of the event to a background loop ([src/task_management/]: [TaskManager]).  The
    dispatch ([src/orchestration/__init__.py]: [Dispatch]) looks up the services of
    the route of the event ([src/config/server/]: [Config], [ScmConfig],
    [Bootstrap]; [src/config/__init__.py]: [Config], [Environment]), checks the
    signature, and runs the workflow of the event ([src/orchestration/base.py]:
    [Orchestration]).  The workflow clones ([src/scm_services/cloner.py]:
    [Cloner]), names the project ([src/naming_services/]: [Naming]), creates or
    updates it with its groups and submits a scan ([src/cxone_service/]: [CxOne],
    [Grouping]), or delegates the scan ([src/workflows/resolver_workflow.py] and
    [resolver_scan_service.py]: [Resolver]) to a scan agent
    ([src/agent/resolver/runner_agent.py]: [ScanAgent]) that runs the dependency
    resolver ([src/agent/resolver/]: [Runner]; [src/config/resolver/]:
    [AgentConfig]) and answers; requests are signed ([src/api_utils/signatures.py]:
    [Signatures]).  A scan that executes is followed by messages
    ([src/workflows/]: [Messaging], [Workflows]) through the exchanges and queues
    of the broker ([src/rabbit_config.py]: [Broker] for one service, [Deployment]
    for all of them and for the consumers that [src/workflow_agent.py] starts; the
    connections: [Amqp]): it
    is polled ([scan_polling_service.py]: [Polling]) until it ends, and then its
    pull request is decorated or its SARIF log delivered
    ([feedback_services/], [src/workflow_agent.py]: [Feedback]) with a comment
    ([pr_content.py]: [Markdown], [Content]) that a service of the host posts
    ([src/scm_services/]: [ScmServices], [ScmHosts]).  A kickoff request scans a
    repository for the first time ([src/kickoff_services/],
    [src/orchestration/kickoff/]: [Kickoff]; the client of that API:
    [KickoffClient]).  Underneath are the REST sessions with their pages
    ([src/api_utils/]: [ApiSession]), their credentials ([Auth]), URLs ([Url]),
    the values of JSON and YAML ([PyJson]), the text of JSON ([JsonText]), strings
    ([PyStr]) and the redaction of the log ([src/cxoneflow_logging/]: [Logging]).
    The messages are dataclasses ([src/workflows/messaging/]) with their fields and
    their encoding in [Wire]; [Server] puts the endpoints, the background tasks and
    the dispatch together.

    ** How the code is modelled

    This file has the exceptions of the program, the results of Python calls
    ([outcome]) and effectful programs ([prog]): a coroutine is a tree of the calls
    it makes on the outside world, and [exec p tr o] says that [p] can make the
    calls of the trace [tr], with the answers in it, and end with [o].  Every call
    may answer anything of its type or raise any exception, so a theorem about all
    [tr] holds whatever the world does.  [catch] and [finally] are Python's; a
    property or method of the source is a definition with the name of the source,
    its guards in the order of the code.  State that the code keeps in objects or
    classes (token caches, group caches, routes, the registry of secrets, the list
    of tasks) is an explicit argument and result.  So is the payload of an event
    where GitHub's orchestrator alters it ([gh_pr_state] gives the altered context),
    and a decoded message has its context made anew from the text of the payload
    ([reread], [reread_body]), as the constructor of the class does.  The threads of
    [TaskManager] are a transition system whose steps are the points where the
    threads can see each other, with the coroutines they wait for and those they do
    not.  A component that calls another one embeds its programs ([embed]), so
    that the theorems of the one are used by the other; [System] puts the programs
    of the feedback and resolver services in place of the calls of a workflow, and
    a run of the result is a run of the workflow with these calls expanded;
    [Journey] adds the other readers of messages, with the messages on their way
    between them as an inductive relation, and [Reentry] the construction of an
    orchestrator from the result of a delegated scan.  The interfaces are classes
    or records: [webhook] is what the dispatch needs of an orchestrator,
    [orchestrator] the overridable members of a workflow, [HandlesOnly] what a
    poll needs of a feedback service, [AmqpBroker] what the deployment needs of a
    broker, [DataclassesJson] what messages need of their encoder, [runner] the
    execution contexts of an agent.

    Libraries are parameters: JSONPath queries, JSON parsing and the check of
    responses, date parsing, HMAC and the cryptography of keys, JWT, the URL
    parsers of the Checkmarx One client, its SARIF writer with its options and scan
    inspector, the order in which Python iterates a set, and [SortedList].  RabbitMQ's routing,
    Python's [str], [urllib], [fnmatch] and the part of [re] used for the log are
    modelled.  A string is a sequence of 8-bit characters.

    ** What is proved

    - Authorization.  Nothing is done for an event, a kickoff request or a delegated
      scan before its signature or token is checked, from the endpoint to the calls
      of the workflow ([Wsgi], [Dispatch], [Kickoff], [ScanAgent], [Signatures],
      [Github]); the route of an event decides its services ([Bootstrap]).
    - Scans.  Only protected branches are scanned; what each workflow submits and
      starts; a clone is retried once with new credentials and always cleaned up
      ([Orchestration], [Cloner], [Adoe], [CxOne], [ApiSession]).
    - Messages.  Every message published for a service whose name is one word of a
      topic, without a dot, reaches the one handler made for it
      ([Broker.dotted_unaddressed] is what happens to the others); every
      handler settles its message, with a reason ([Workflows], [Broker], [Polling],
      [Feedback], [Resolver]); polling and delegation end.  Whatever message an
      event leads to, at once or after many polls, is due to a workflow that the
      signature of the event allowed, and a scan that executes is polled ([System])
      until it stops, and then reported once, when Checkmarx One and the broker
      answer ([Watching]).  What is published for a
      message is read as that message, its event parsed again ([Wire]), so that a
      signature still holds when a delegated scan has gone to its agent and come
      back, unless the parsed event had been altered, as it is for a pull request of
      GitHub with an assignee ([Signatures]).
    - The whole.  The brokers that the services share have the topology that each
      service needs, with a consumer for every queue ([Deployment]).  The comments
      and deliveries that an event leads to, through polls, agents and delegated
      results, concern the scan and the pull request of the event ([Journey]) and
      are made through the service that accepted its signature ([Reentry]).
    - Reports.  A comment has the rows it must have, in order, within the limit of
      its host, and is posted on its pull request, as a comment or in a check run
      ([Markdown], [Content], [ScmHosts], [ScmServices]).
    - The server.  Whatever the threads do, what runs in the background is the
      dispatch of the event of a request, once each, and it acts only if the request
      was signed; when the server has shut down, every event that it answered as
      accepted was dispatched ([Server]).  A shutdown waits for all tasks in the
      background, not for the kickoffs ([TaskManager.foreground_abandoned]), and can
      complete, and the lock of the tasks is released except in one interleaving,
      which is exhibited ([TaskManager]); secrets are masked in the log, under the
      conditions that are needed ([Logging]).

    Several theorems show a defect of the code instead: the deadlock of
    [TaskManager.background_deadlock], the leaks [Logging.format_swallowed],
    [Logging.format_prefix] and [Logging.format_multiline], the service whose name
    has a dot ([Broker.dotted_unaddressed]), the delegated scans that agents refuse
    ([Signatures.assigned_request_refused]), the kickoff of a reference that always fails
    ([Kickoff.kickoff_of_a_ref_fails]), the failure that Azure DevOps never reports
    ([Adoe.ado_hard_fail_unreported]), the push that is attributed to its first
    change ([Bitbucket.dc_push_first_change]), the results that services lose on a
    broker they share ([Deployment.shared_broker_loses_results]) and the one whose
    log is not UTF-8 ([Resolver.undecodable_logs_lose_result]), the token that
    GitHub hosts share when their installation ids coincide
    ([Auth.token_crosses_hosts]), and others next to the code they are about.

    ** Bounds and fuel

    A loop that the code bounds has that bound: the clone loop has three rounds of
    fuel and needs at most three, because two failures of authentication end it
    ([exec_clone_scan_spec] has no case for the fuel); the attempts of a REST call
    are counted by the code.  A loop over what a server sends has fuel as an
    argument, and a theorem gives what is enough: more fuel than elements for the
    page generator ([page_generator_complete]), one step per page for Azure DevOps
    ([ado_protected_branches_spec]), twenty polls for a report
    ([poll_report_terminates]).  The lists of kickoff scans and of tagged scans and
    the submission loop of the kickoff client are as long as the server makes
    them; their theorems hold for every fuel, and a run that is out of it ends with
    [OutOfFuel], which no [except] catches.  The matcher of topics has the length of
    both words as fuel, [fnmatch] that of its two arguments, the search of the log
    twice the length of the message ([find_from_covers] shows that it is enough),
    and the reader of JSON that of the text ([json_read_dumps]).  A message class has
    at most five levels of bases ([fields_from]).
    The walk through a clone nests as deep as the interpreter lets calls nest
    ([recursion_limit]); what is nested deeper raises, as it does there.

    ** What is not modelled

    The text of log messages, except where it raises or decides what is done; the
    code of [dataclasses_json], whose documented behaviour is the interface
    [DataclassesJson]; the files that Flask serves, among them the artifacts
    endpoint; numbers that are not integers; what [urlsplit] does with blanks,
    control characters and brackets; the loading of the YAML file; the temporary key file of an SSH clone
    and the processes a Git command leaves behind.  The two verdicts of the GitHub
    installation check are only logged by the code.  Abstract classes whose methods
    raise are modelled by their implementations.  The scripts
    that build the documentation are not part of the program; what its unit tests
    assert is evaluated on the model in [Conformance], and the naming scripts of the
    manual and the receivers of signed SARIF logs are in [Examples]. *)

From Stdlib Require Export ZArith String Ascii Lia.
From stdpp Require Export base tactics option list sets strings pretty.

(** ** Exceptions

    The Python exceptions the modelled code raises or catches.  The classes
    that the program declares keep their names; [OtherException] and
    [OtherBaseException] stand for an exception of a library, derived from
    [Exception] or directly from [BaseException].  [OutOfFuel] is not a Python
    exception: it marks a loop of the model whose fuel ran out, and no
    [except] clause of the model selects it. *)
Inductive exn : Type :=
| KeyError (key : string)
| IndexError
| TypeError
| AttributeError
| ValueError
| NotImplementedError
| AssertionError
| ModuleNotFoundError
| ConfigurationException (msg : string)
| RouteNotFoundException
| CxOneException (msg : string)
| CxOnePermissionException
| ResponseException
| SCMAuthException
| RetriesExhausted
| AuthFactoryException
| ResolverAgentException
| CalledProcessError (returncode : Z) (stdout stderr : string)
| OrchestrationException (msg : string)
| WorkflowException (msg : string)
| CloneAuthException (msg : string)
| CloneException
| KickoffScanExistsException
| TooManyRunningScansExeception
| NotAuthorizedException
| KickoffClientException
| CancelledError
| OtherException (what : string)
| OtherBaseException (what : string)
| OutOfFuel.

#[export] Instance exn_eq_dec : EqDecision exn.
Proof. solve_decision. Defined.

(** [except Exception] catches these; the others derive from [BaseException]
    only. *)
Definition is_Exception (e : exn) : bool :=
  match e with
  | OrchestrationException _ | WorkflowException _ | CloneAuthException _
  | CloneException | KickoffScanExistsException | TooManyRunningScansExeception
  | NotAuthorizedException | KickoffClientException | CancelledError
  | AuthFactoryException | OtherBaseException _ | OutOfFuel => false
  | _ => true
  end.

(** [except CxOneException] also catches its subclass. *)
Definition is_CxOneException (e : exn) : bool :=
  match e with CxOneException _ | CxOnePermissionException => true | _ => false end.

Definition is_WorkflowException (e : exn) : bool :=
  match e with WorkflowException _ => true | _ => false end.

Definition is_CloneAuthException (e : exn) : bool :=
  match e with CloneAuthException _ => true | _ => false end.

Definition is_CalledProcessError (e : exn) : bool :=
  match e with CalledProcessError _ _ _ => true | _ => false end.

(** [except BaseException] catches everything but the fuel marker. *)
Definition is_BaseException (e : exn) : bool :=
  match e with OutOfFuel => false | _ => true end.

(** ** Outcomes: the result of a Python call. *)
Inductive outcome (A : Type) : Type :=
| Ok (a : A)
| Err (e : exn).
Arguments Ok {A} a.
Arguments Err {A} e.

#[export] Instance outcome_eq_dec {A} `{EqDecision A} : EqDecision (outcome A).
Proof. solve_decision. Defined.

Definition bindO {A B} (o : outcome A) (f : A → outcome B) : outcome B :=
  match o with Ok a => f a | Err e => Err e end.

Notation "'let?' x := o 'in' q" := (bindO o (fun x => q))
  (at level 200, x name, o at level 100, q at level 200,
   format "'[v' 'let?'  x  :=  o  'in' '//' q ']'").
Notation "'let?' ' p := o 'in' q" := (bindO o (fun x => match x with p => q end))
  (at level 200, p pattern, o at level 100, q at level 200,
   format "'[v' 'let?'  ' p  :=  o  'in' '//' q ']'").

Definition is_ok {A} (o : outcome A) : bool :=
  match o with Ok _ => true | Err _ => false end.

(** [x] when there is one, otherwise the exception [e]. *)
Definition of_option {A} (e : exn) (o : option A) : outcome A :=
  match o with Some a => Ok a | None => Err e end.

(** Evaluate [f] on every element, left to right; the first exception wins. *)
Fixpoint mapO {A B} (f : A -> outcome B) (l : list A) : outcome (list B) :=
  match l with
  | [] => Ok []
  | a :: l' => let? b := f a in let? bs := mapO f l' in Ok (b :: bs)
  end.

(** A loop over a list that changes a state and may fail. *)
Fixpoint foldO {A S} (f : A → S → outcome S) (l : list A) (s : S) : outcome S :=
  match l with
  | [] => Ok s
  | x :: l' => let? s' := f x s in foldO f l' s'
  end.

Lemma bindO_ok {A B} (o : outcome A) (f : A → outcome B) b :
  bindO o f = Ok b ↔ ∃ a, o = Ok a ∧ f a = Ok b.
Proof.
  destruct o; simpl; split; [by eauto|by intros (? & [= <-] & ?)|done|].
  intros (? & [=] & ?).
Qed.

Lemma foldO_app {A S} (f : A → S → outcome S) l1 l2 s :
  foldO f (l1 ++ l2) s = let? s' := foldO f l1 s in foldO f l2 s'.
Proof. revert s. induction l1 as [|x l1 IH]; intros s; simpl; [done|]. destruct (f x s); simpl; [apply IH|done]. Qed.

(** What each step of a loop preserves holds after it. *)
Lemma foldO_inv {A S} (I : S → Prop) (f : A → S → outcome S) l s s' :
  (∀ x s s', f x s = Ok s' → I s → I s') → foldO f l s = Ok s' → I s → I s'.
Proof.
  intros Hf. revert s. induction l as [|x l IH]; intros s H Hs; simpl in H; [by simplify_eq|].
  apply bindO_ok in H as (s1 & H1 & H). eauto.
Qed.

(** The steps of a computation that returned. *)
Ltac inv_ok :=
  repeat match goal with
  | H : bindO _ _ = Ok _ |- _ => apply bindO_ok in H as (? & ? & H)
  | H : Ok _ = Ok _ |- _ => injection H as <- || injection H as ->
  | H : (let '(_, _) := ?p in _) = Ok _ |- _ => destruct p
  end.

(** ** Effectful programs

    A coroutine of the source is a [prog]: a tree of calls to the outside
    world.  [Ev] is the type of the calls a component makes and [Resp e] the
    type of what the call [e] returns; every call may raise instead.  A loop is
    a recursive function that builds such a tree, with fuel when the source has
    no bound. *)
Inductive prog (Ev : Type) (Resp : Ev → Type) (A : Type) : Type :=
| Ret (a : A)
| Raise (e : exn)
| Call (e : Ev) (k : outcome (Resp e) → prog Ev Resp A).
Arguments Ret {Ev Resp A} a.
Arguments Raise {Ev Resp A} e.
Arguments Call {Ev Resp A} e k.

Fixpoint bindP {Ev Resp A B} (p : prog Ev Resp A)
    (f : A → prog Ev Resp B) : prog Ev Resp B :=
  match p with
  | Ret a => f a
  | Raise e => Raise e
  | Call e k => Call e (λ r, bindP (k r) f)
  end.

Notation "'let!' x := p 'in' q" := (bindP p (fun x => q))
  (at level 200, x name, p at level 100, q at level 200,
   format "'[v' 'let!'  x  :=  p  'in' '//' q ']'").
Notation "'let!' ' x := p 'in' q" := (bindP p (fun y => match y with x => q end))
  (at level 200, x pattern, p at level 100, q at level 200,
   format "'[v' 'let!'  ' x  :=  p  'in' '//' q ']'").
(** Run [p] for its effect. *)
Notation "'do!' p 'in' q" := (bindP p (fun _ => q))
  (at level 200, p at level 100, q at level 200,
   format "'[v' 'do!'  p  'in' '//' q ']'").

(** The outcome of a pure step, inside a program. *)
Definition lift {Ev Resp A} (o : outcome A) : prog Ev Resp A :=
  match o with Ok a => Ret a | Err e => Raise e end.

(** [await] a call: its value, or its exception. *)
Definition call {Ev Resp} (e : Ev) : prog Ev Resp (Resp e) := Call e lift.

(** Run [p] and hand its outcome to [f]: the general form of [try]. *)
Fixpoint on_outcome {Ev Resp A B} (f : outcome A → prog Ev Resp B)
    (p : prog Ev Resp A) : prog Ev Resp B :=
  match p with
  | Ret a => f (Ok a)
  | Raise e => f (Err e)
  | Call e k => Call e (λ r, on_outcome f (k r))
  end.

(** [try p except (those x with sel x) as x: h x]. *)
Definition catch {Ev Resp A} (sel : exn → bool) (p : prog Ev Resp A)
    (h : exn → prog Ev Resp A) : prog Ev Resp A :=
  on_outcome (λ o, match o with
                   | Ok a => Ret a
                   | Err e => if sel e then h e else Raise e
                   end) p.

(** [try p finally q]: [q] runs on every path; its exception replaces the one
    of [p]. *)
Definition finally {Ev Resp A} (p : prog Ev Resp A) (q : prog Ev Resp unit) :
    prog Ev Resp A :=
  on_outcome (λ o, do! q in lift o) p.

(** Evaluate [f] on every element, in order. *)
Fixpoint mapP {Ev Resp A B} (f : A → prog Ev Resp B) (l : list A) :
    prog Ev Resp (list B) :=
  match l with
  | [] => Ret []
  | a :: l' => let! b := f a in let! bs := mapP f l' in Ret (b :: bs)
  end.

(** The calls of a component that uses another one: its own or the other's. *)
Definition sum_resp {E1 E2} (R1 : E1 → Type) (R2 : E2 → Type) (e : E1 + E2) : Type :=
  match e with inl e => R1 e | inr e => R2 e end.

(** A program of the used component, inside the one that uses it. *)
Fixpoint embed {E1 E2 R1 R2 A} (p : prog E1 R1 A) : prog (E1 + E2) (sum_resp R1 R2) A :=
  match p with
  | Ret a => Ret a
  | Raise e => Raise e
  | Call e k => Call (inl e : E1 + E2) (λ r : outcome (R1 e), embed (k r))
  end.

Fixpoint embed_r {E1 E2 R1 R2 A} (p : prog E2 R2 A) : prog (E1 + E2) (sum_resp R1 R2) A :=
  match p with
  | Ret a => Ret a
  | Raise e => Raise e
  | Call e k => Call (inr e : E1 + E2) (λ r : outcome (R2 e), embed_r (k r))
  end.

(** ** What a program can do

    An observation is a call with what it returned.  [exec p tr o] says that
    [p] makes exactly the calls of [tr], in that order, when they return what
    [tr] says, and that it then ends with [o].  The environment is arbitrary: a
    theorem about every [tr] holds whatever the outside world answers. *)
Definition obs (Ev : Type) (Resp : Ev → Type) : Type :=
  {e : Ev & outcome (Resp e)}.

Definition Obs {Ev} {Resp : Ev → Type} (e : Ev) (r : outcome (Resp e)) :
  obs Ev Resp := existT e r.

Fixpoint exec {Ev Resp A} (p : prog Ev Resp A) (tr : list (obs Ev Resp))
    (o : outcome A) : Prop :=
  match p with
  | Ret a => tr = [] ∧ o = Ok a
  | Raise e => tr = [] ∧ o = Err e
  | Call e k => ∃ r tr', tr = Obs e r :: tr' ∧ exec (k r) tr' o
  end.

(** The calls of a trace, without what they returned. *)
Definition events {Ev Resp} (tr : list (obs Ev Resp)) : list Ev := projT1 <$> tr.

(** Run a program against a scripted world: a state and a function that
    answers a call from it.  Gives the trace, the outcome and the last state. *)
Fixpoint run {Ev Resp S A} (world : S → ∀ e : Ev, outcome (Resp e) * S)
    (s : S) (p : prog Ev Resp A) : list (obs Ev Resp) * outcome A * S :=
  match p with
  | Ret a => ([], Ok a, s)
  | Raise e => ([], Err e, s)
  | Call e k =>
      let '(r, s1) := world s e in
      let '(tr, o, s2) := run world s1 (k r) in
      (Obs e r :: tr, o, s2)
  end.

(** The names of a run, for the witnesses: its trace and its outcome. *)
Definition run_trace {Ev Resp S A} (world : S → ∀ e : Ev, outcome (Resp e) * S)
    (s : S) (p : prog Ev Resp A) : list (obs Ev Resp) := (run world s p).1.1.
Definition run_outcome {Ev Resp S A} (world : S → ∀ e : Ev, outcome (Resp e) * S)
    (s : S) (p : prog Ev Resp A) : outcome A := (run world s p).1.2.

(** *** Laws of [exec] *)
Section exec_laws.
Context {Ev : Type} {Resp : Ev → Type}.
Implicit Types tr : list (obs Ev Resp).

Lemma exec_run {S A} (world : S → ∀ e : Ev, outcome (Resp e) * S) (s : S)
    (p : prog Ev Resp A) :
  exec p (run_trace world s p) (run_outcome world s p).
Proof.
  unfold run_trace, run_outcome. revert s.
  induction p as [a|e|e k IH]; intros s; simpl; [done..|].
  destruct (world s e) as [r s1]. specialize (IH r s1).
  destruct (run world s1 (k r)) as [[tr o] s2]; simpl in *.
  exists r, tr. done.
Qed.

(** A program always ends: its trace is finite whatever the world answers. *)
Lemma exec_total {A} (p : prog Ev Resp A) (answer : ∀ e : Ev, outcome (Resp e)) :
  ∃ tr o, exec p tr o.
Proof. eexists _, _. apply (exec_run (λ (_ : unit) e, (answer e, tt)) tt). Qed.

Lemma exec_lift {A} (o' : outcome A) tr o :
  exec (Ev:=Ev) (Resp:=Resp) (lift o') tr o ↔ tr = [] ∧ o = o'.
Proof. by destruct o'. Qed.

Lemma exec_call (e : Ev) tr o :
  exec (call e) tr o ↔ tr = [Obs e o].
Proof.
  unfold call; simpl. split.
  - intros (r & tr' & -> & H). apply exec_lift in H as [-> ->]. done.
  - intros ->. exists o, []. split; [done|]. by apply exec_lift.
Qed.

Lemma exec_bind {A B} (p : prog Ev Resp A) (f : A → prog Ev Resp B) tr o :
  exec (bindP p f) tr o ↔
  (∃ a tr1 tr2, tr = tr1 ++ tr2 ∧ exec p tr1 (Ok a) ∧ exec (f a) tr2 o)
  ∨ (∃ e, exec p tr (Err e) ∧ o = Err e).
Proof.
  revert tr. induction p as [a|e|e k IH]; intros tr; simpl.
  - split.
    + intros H. left. by exists a, [], tr.
    + intros [(a' & tr1 & tr2 & -> & [-> Ha] & H)|(e & [_ ?] & _)]; by simplify_eq.
  - split.
    + intros [-> ->]. right. by exists e.
    + intros [(a & tr1 & tr2 & _ & [_ ?] & _)|(e' & [-> He] & ->)]; by simplify_eq.
  - split.
    + intros (r & tr' & -> & H). apply IH in H as [H|H].
      * destruct H as (a & tr1 & tr2 & -> & H1 & H2). left.
        exists a, (Obs e r :: tr1), tr2. split_and!; eauto.
      * destruct H as (e' & H & ->). right. exists e'. eauto.
    + intros [(a & tr1 & tr2 & -> & (r & tr' & -> & H1) & H2)
             |(e' & (r & tr' & -> & H) & ->)].
      * exists r, (tr' ++ tr2). split; [done|]. apply IH. left. eauto 6.
      * exists r, tr'. split; [done|]. apply IH. eauto.
Qed.

Lemma exec_on_outcome {A B} (f : outcome A → prog Ev Resp B)
    (p : prog Ev Resp A) tr o :
  exec (on_outcome f p) tr o ↔
  ∃ o1 tr1 tr2, tr = tr1 ++ tr2 ∧ exec p tr1 o1 ∧ exec (f o1) tr2 o.
Proof.
  revert tr. induction p as [a|e|e k IH]; intros tr; simpl.
  - split.
    + intros H. by exists (Ok a), [], tr.
    + by intros (o1 & tr1 & tr2 & -> & [-> ->] & H).
  - split.
    + intros H. by exists (Err e), [], tr.
    + by intros (o1 & tr1 & tr2 & -> & [-> ->] & H).
  - split.
    + intros (r & tr' & -> & H). apply IH in H as (o1 & tr1 & tr2 & -> & H1 & H2).
      exists o1, (Obs e r :: tr1), tr2. split_and!; eauto.
    + intros (o1 & tr1 & tr2 & -> & (r & tr' & -> & H1) & H2).
      exists r, (tr' ++ tr2). split; [done|]. apply IH. eauto 6.
Qed.

Lemma exec_bind_ok {A B} (p : prog Ev Resp A) (f : A → prog Ev Resp B) tr b :
  exec (bindP p f) tr (Ok b) ↔
  ∃ a tr1 tr2, tr = tr1 ++ tr2 ∧ exec p tr1 (Ok a) ∧ exec (f a) tr2 (Ok b).
Proof.
  rewrite exec_bind. split; [|by left].
  by intros [H|(e & _ & ?)].
Qed.

Lemma exec_lift_bind {A B} (x : outcome A) (f : A → prog Ev Resp B) tr o :
  exec (bindP (lift x) f) tr o ↔
  (∃ a, x = Ok a ∧ exec (f a) tr o) ∨ (∃ e, x = Err e ∧ tr = [] ∧ o = Err e).
Proof.
  destruct x as [a|e]; simpl; split.
  - intros H. left. eauto.
  - intros [(a' & ? & H)|(e & ? & _)]; by simplify_eq.
  - intros [-> ->]. right. eauto.
  - intros [(a' & ? & H)|(e' & ? & -> & ->)]; by simplify_eq.
Qed.

Lemma exec_lift_bind_ok {A B} (x : outcome A) (f : A → prog Ev Resp B) tr b :
  exec (bindP (lift x) f) tr (Ok b) ↔ ∃ a, x = Ok a ∧ exec (f a) tr (Ok b).
Proof.
  rewrite exec_lift_bind. split; [|by left].
  by intros [H|(e & _ & _ & ?)].
Qed.

Lemma exec_call_bind {B} (e : Ev) (f : Resp e → prog Ev Resp B) tr o :
  exec (bindP (call e) f) tr o ↔
  (∃ a tr', tr = Obs e (Ok a) :: tr' ∧ exec (f a) tr' o)
  ∨ (∃ x, tr = [Obs e (Err x)] ∧ o = Err x).
Proof.
  rewrite exec_bind. split.
  - intros [(a & tr1 & tr2 & -> & H1 & H)|(x & H & ->)].
    + apply exec_call in H1 as ->. left. eauto.
    + apply exec_call in H as ->. right. eauto.
  - intros [(a & tr' & -> & H)|(x & -> & ->)].
    + left. exists a, [Obs e (Ok a)], tr'. split_and!; try done. by apply exec_call.
    + right. exists x. by rewrite exec_call.
Qed.

Lemma exec_call_bind_ok {B} (e : Ev) (f : Resp e → prog Ev Resp B) tr b :
  exec (bindP (call e) f) tr (Ok b) ↔
  ∃ a tr', tr = Obs e (Ok a) :: tr' ∧ exec (f a) tr' (Ok b).
Proof.
  rewrite exec_call_bind. split; [|by left].
  by intros [H|(e' & _ & ?)].
Qed.

End exec_laws.

#[global] Arguments exec : simpl never.
#[global] Arguments bindP : simpl never.
#[global] Arguments on_outcome : simpl never.
#[global] Arguments call : simpl never.

(** ** Reasoning about programs *)

(** Take the calls of a program apart: each hypothesis [exec p tr o] on a
    concrete [p] becomes the shape of [tr] and [o]. *)
Ltac use_call_bind H :=
  lazymatch type of H with
  | exec (bindP (@call ?Ev ?Resp ?e) ?f) ?tr ?o =>
      apply (exec_call_bind (Ev:=Ev) (Resp:=Resp) e f tr o) in H
  end.
(** A last call, whose outcome is the program's. *)
Ltac last_call H :=
  lazymatch type of H with
  | exec (@call ?Ev ?Resp ?e) ?tr ?o =>
      apply (exec_call (Ev:=Ev) (Resp:=Resp) e tr o) in H
  end.
(** The next call of [H]: it answers, or it raises. *)
Tactic Notation "call_step" hyp(H) "as" simple_intropattern(p) :=
  use_call_bind H; destruct H as p.

Ltac inv_exec1 :=
  match goal with
  | H : exec (bindP (Ret ?a) ?f) ?tr ?o |- _ => change (exec (f a) tr o) in H; cbv beta iota in H
  | H : exec (bindP (Raise ?e) ?f) ?tr ?o |- _ => change (tr = [] ∧ o = Err e) in H; destruct H as [? ?]
  | H : exec (bindP (lift _) _) _ (Ok _) |- _ =>
      apply exec_lift_bind_ok in H as (? & ? & H)
  | H : exec (bindP (lift _) _) _ _ |- _ =>
      apply exec_lift_bind in H as [(? & ? & H)|(? & ? & ? & ?)]
  | H : exec (bindP (call _) _) _ (Ok _) |- _ =>
      call_step H as [(? & ? & ? & H)|(? & ? & ?)]; [|done]
  | H : exec (bindP (call _) _) _ _ |- _ =>
      call_step H as [(? & ? & ? & H)|(? & ? & ?)]
  | H : exec (bindP _ _) _ (Ok _) |- _ =>
      apply exec_bind_ok in H as (? & ? & ? & ? & ? & H)
  | H : exec (bindP _ _) _ _ |- _ =>
      apply exec_bind in H as [(? & ? & ? & ? & ? & H)|(? & H & ?)];
      cbv beta in H
  | H : exec (lift _) _ _ |- _ => apply exec_lift in H as [? ?]
  | H : exec (call _) _ _ |- _ => last_call H
  | H : exec (Ret _) _ _ |- _ => destruct H as [? ?]
  | H : exec (Raise _) _ _ |- _ => destruct H as [? ?]
  end.
Ltac inv_exec := repeat (inv_exec1; simplify_eq).

(** An embedded program does what the program does. *)
Definition obs_inl {E1 E2 R1 R2} (ob : obs E1 R1) : obs (E1 + E2) (sum_resp R1 R2) :=
  match ob with existT e r => existT (P := λ e, outcome (sum_resp R1 R2 e)) (inl e) r end.

Lemma exec_embed {E1 E2 R1 R2 A} (p : prog E1 R1 A) tr o :
  exec (embed p : prog (E1 + E2) (sum_resp R1 R2) A) tr o ↔
  ∃ tr', exec p tr' o ∧ tr = obs_inl <$> tr'.
Proof.
  revert tr. induction p as [a|e|e k IH]; intros tr; simpl.
  - split; [intros [-> ->]; by exists []|]. by intros (tr' & [-> ->] & ->).
  - split; [intros [-> ->]; by exists []|]. by intros (tr' & [-> ->] & ->).
  - split.
    + intros (r & tr1 & -> & H). apply IH in H as (tr' & H & ->).
      exists (Obs e r :: tr'). split; [|done]. by exists r, tr'.
    + intros (tr' & (r & tr1 & -> & H) & ->). exists r, (obs_inl <$> tr1).
      split; [done|]. apply IH. by exists tr1.
Qed.

Definition obs_inr {E1 E2 R1 R2} (ob : obs E2 R2) : obs (E1 + E2) (sum_resp R1 R2) :=
  match ob with existT e r => existT (P := λ e, outcome (sum_resp R1 R2 e)) (inr e) r end.

Lemma exec_embed_r {E1 E2 R1 R2 A} (p : prog E2 R2 A) tr o :
  exec (embed_r p : prog (E1 + E2) (sum_resp R1 R2) A) tr o ↔
  ∃ tr', exec p tr' o ∧ tr = obs_inr <$> tr'.
Proof.
  revert tr. induction p as [a|e|e k IH]; intros tr; simpl.
  - split; [intros [-> ->]; by exists []|]. by intros (tr' & [-> ->] & ->).
  - split; [intros [-> ->]; by exists []|]. by intros (tr' & [-> ->] & ->).
  - split.
    + intros (r & tr1 & -> & H). apply IH in H as (tr' & H & ->).
      exists (Obs e r :: tr'). split; [|done]. by exists r, tr'.
    + intros (tr' & (r & tr1 & -> & H) & ->). exists r, (obs_inr <$> tr1).
      split; [done|]. apply IH. by exists tr1.
Qed.

Lemma events_embed {E1 E2 R1 R2} (tr : list (obs E1 R1)) :
  events ((obs_inl <$> tr) : list (obs (E1 + E2) (sum_resp R1 R2))) = inl <$> events tr.
Proof. induction tr as [|[e r] tr IH]; [done|]. unfold events in *. simpl. by f_equal. Qed.
Lemma events_embed_r {E1 E2 R1 R2} (tr : list (obs E2 R2)) :
  events ((obs_inr <$> tr) : list (obs (E1 + E2) (sum_resp R1 R2))) = inr <$> events tr.
Proof. induction tr as [|[e r] tr IH]; [done|]. unfold events in *. simpl. by f_equal. Qed.

(** *** Which calls a program may make *)
Section only_calls.
Context {Ev : Type} {Resp : Ev → Type}.

(** Every call [p] makes, on every path, satisfies [Q]. *)
Definition only {A} (Q : Ev → Prop) (p : prog Ev Resp A) : Prop :=
  ∀ tr o, exec p tr o → Forall Q (events tr).

Lemma events_app (tr1 tr2 : list (obs Ev Resp)) :
  events (tr1 ++ tr2) = events tr1 ++ events tr2.
Proof. apply fmap_app. Qed.

Lemma only_ret {A} Q (a : A) : only Q (Ret a).
Proof. intros tr o [-> ->]. constructor. Qed.

Lemma only_raise {A} Q e : only Q (Raise e : prog Ev Resp A).
Proof. intros tr o [-> ->]. constructor. Qed.

Lemma only_lift {A} Q (x : outcome A) : only Q (lift x).
Proof. destruct x; [apply only_ret|apply only_raise]. Qed.

Lemma only_lift_bind {A B} Q (x : outcome A) (f : A → prog Ev Resp B) :
  (∀ a, x = Ok a → only Q (f a)) → only Q (bindP (lift x) f).
Proof.
  intros Hf tr o [(a & Ha & H)|(e & _ & -> & _)]%exec_lift_bind; [by eapply Hf|constructor].
Qed.

Lemma only_call (Q : Ev → Prop) e : Q e → only Q (call e).
Proof. intros HQ tr o H. apply exec_call in H as ->. repeat constructor. done. Qed.

Lemma only_bind {A B} Q (p : prog Ev Resp A) (f : A → prog Ev Resp B) :
  only Q p → (∀ a, only Q (f a)) → only Q (bindP p f).
Proof.
  intros Hp Hf tr o H.
  apply exec_bind in H as [(a & tr1 & tr2 & -> & H1 & H2)|(e & H & ->)]; [|by eapply Hp].
  rewrite events_app. apply Forall_app. split; [by eapply Hp|by eapply Hf].
Qed.

Lemma only_on_outcome {A B} Q (f : outcome A → prog Ev Resp B) p :
  only Q p → (∀ x, only Q (f x)) → only Q (on_outcome f p).
Proof.
  intros Hp Hf tr o H.
  apply exec_on_outcome in H as (o1 & tr1 & tr2 & -> & H1 & H2).
  rewrite events_app. apply Forall_app. split; [by eapply Hp|by eapply Hf].
Qed.

Lemma only_catch {A} Q sel (p : prog Ev Resp A) h :
  only Q p → (∀ e, only Q (h e)) → only Q (catch sel p h).
Proof.
  intros Hp Hh. apply only_on_outcome; [done|]. intros [a|e]; [apply only_ret|].
  destruct (sel e); [done|apply only_raise].
Qed.

Lemma only_finally {A} Q (p : prog Ev Resp A) q :
  only Q p → only Q q → only Q (finally p q).
Proof.
  intros Hp Hq. apply only_on_outcome; [done|]. intros x.
  apply only_bind; [done|]. intros _. apply only_lift.
Qed.

Lemma only_mapP {A B} Q (f : A → prog Ev Resp B) l :
  (∀ a, only Q (f a)) → only Q (mapP f l).
Proof.
  intros Hf. induction l as [|a l IH]; simpl; [apply only_ret|].
  apply only_bind; [done|]. intros b. apply only_bind; [done|].
  intros bs. apply only_ret.
Qed.

Lemma only_weaken {A} (Q Q' : Ev → Prop) (p : prog Ev Resp A) :
  (∀ e, Q e → Q' e) → only Q p → only Q' p.
Proof. intros HQ Hp tr o H. eapply Forall_impl; [by eapply Hp|done]. Qed.

(** Every call that [f] selects is made in a situation that [J] allows: [J] holds
    of all that was observed before it, from [hist] on. *)
Definition guarded {A} (f : Ev → bool) (J : list (obs Ev Resp) → Prop)
    (hist : list (obs Ev Resp)) (p : prog Ev Resp A) : Prop :=
  ∀ tr o, exec p tr o → ∀ pre ob post, tr = pre ++ ob :: post → f (projT1 ob) = true →
    J (hist ++ pre).

Lemma guarded_only {A} f J hist (p : prog Ev Resp A) :
  only (λ e, f e = false) p → guarded f J hist p.
Proof.
  intros Hp tr o H pre ob post -> Hf. specialize (Hp _ _ H).
  unfold events in Hp. rewrite fmap_app, Forall_app in Hp. destruct Hp as [_ Hp].
  inversion Hp; subst. congruence.
Qed.

Lemma guarded_call f (J : list (obs Ev Resp) → Prop) hist e :
  J hist → guarded f J hist (call e).
Proof.
  intros HJ tr o H pre ob post Htr Hf. apply exec_call in H as ->.
  destruct pre as [|? [|? pre]]; simplify_eq. by rewrite app_nil_r.
Qed.

Lemma guarded_step {A B} f J hist (p : prog Ev Resp A) tr1 o1 (q : prog Ev Resp B) tr2 o2 :
  guarded f J hist p → guarded f J (hist ++ tr1) q → exec p tr1 o1 → exec q tr2 o2 →
  ∀ pre ob post, tr1 ++ tr2 = pre ++ ob :: post → f (projT1 ob) = true → J (hist ++ pre).
Proof.
  intros Hp Hq H1 H2 pre ob post Heq Hf.
  apply app_eq_inv in Heq as [(l & -> & Hl)|(l & -> & ->)].
  - destruct l as [|ob' l]; simplify_list_eq; [|by eapply Hp].
    rewrite <- (app_nil_r pre), (assoc_L (++)). by eapply Hq.
  - rewrite (assoc_L (++)). by eapply Hq.
Qed.

Lemma guarded_weaken {A} f (J J' : list (obs Ev Resp) → Prop) hist (p : prog Ev Resp A) :
  (∀ h, J h → J' h) → guarded f J hist p → guarded f J' hist p.
Proof. intros HJ Hp tr o H pre ob post Heq Hf. by eapply HJ, Hp. Qed.

Lemma guarded_bind {A B} f J hist (p : prog Ev Resp A) (k : A → prog Ev Resp B) :
  guarded f J hist p → (∀ a tr1, exec p tr1 (Ok a) → guarded f J (hist ++ tr1) (k a)) →
  guarded f J hist (bindP p k).
Proof.
  intros Hp Hk tr o H.
  apply exec_bind in H as [(a & tr1 & tr2 & -> & H1 & H2)|(e & H & ->)]; [|by eapply Hp].
  by eapply guarded_step; eauto.
Qed.

Lemma guarded_on_outcome {A B} f J hist (k : outcome A → prog Ev Resp B) p :
  guarded f J hist p → (∀ o1 tr1, exec p tr1 o1 → guarded f J (hist ++ tr1) (k o1)) →
  guarded f J hist (on_outcome k p).
Proof.
  intros Hp Hk tr o H. apply exec_on_outcome in H as (o1 & tr1 & tr2 & -> & H1 & H2).
  by eapply guarded_step; eauto.
Qed.

End only_calls.

(** An embedded program makes the calls of the used component only. *)
Lemma only_embed {E1 E2 R1 R2 A} (Q : E1 + E2 → Prop) (p : prog E1 R1 A) :
  only (λ e, Q (inl e)) p → only Q (embed p : prog (E1 + E2) (sum_resp R1 R2) A).
Proof.
  intros Hp tr o H. apply exec_embed in H as (tr' & H & ->). rewrite events_embed.
  apply Forall_fmap. exact (Hp _ _ H).
Qed.
Lemma only_embed_r {E1 E2 R1 R2 A} (Q : E1 + E2 → Prop) (p : prog E2 R2 A) :
  only (λ e, Q (inr e)) p → only Q (embed_r p : prog (E1 + E2) (sum_resp R1 R2) A).
Proof.
  intros Hp tr o H. apply exec_embed_r in H as (tr' & H & ->). rewrite events_embed_r.
  apply Forall_fmap. exact (Hp _ _ H).
Qed.
Lemma only_trivial {Ev Resp A} (Q : Ev → Prop) (p : prog Ev Resp A) : (∀ e, Q e) → only Q p.
Proof. intros HQ tr o _. by apply Forall_true. Qed.

(** A program that makes the calls of [l] for their effect, in that order, until
    one of them raises. *)
Section straight_line.
Context {Ev : Type} {Resp : Ev → Type}.

Definition does (l : list Ev) (p : prog Ev Resp unit) : Prop :=
  ∀ tr o, exec p tr o →
    (o = Ok tt ∧ events tr = l) ∨ (∃ e, o = Err e ∧ events tr `prefix_of` l).

Lemma does_ret : does [] (Ret tt).
Proof. intros tr o [-> ->]. by left. Qed.

Lemma does_lift (x : outcome unit) : does [] (lift x).
Proof.
  intros tr o H. apply exec_lift in H as [-> ->].
  destruct x as [[]|e]; [by left|right; by exists e].
Qed.

Lemma does_bind l1 l2 (p q : prog Ev Resp unit) :
  does l1 p → does l2 q → does (l1 ++ l2) (do! p in q).
Proof.
  intros Hp Hq tr o H. apply exec_bind in H as [([] & tr1 & tr2 & -> & H1 & H2)|(e & H & ->)].
  - rewrite events_app.
    destruct (Hp _ _ H1) as [[_ ->]|(e & ? & _)]; [|done].
    destruct (Hq _ _ H2) as [[-> ->]|(e & -> & He)]; [by left|right].
    exists e. split; [done|]. by apply prefix_app.
  - right. exists e. split; [done|]. destruct (Hp _ _ H) as [[? _]|(e' & _ & He)]; [done|].
    by apply prefix_app_r.
Qed.
End straight_line.

Create HintDb effects discriminated.
#[export] Hint Resolve only_ret only_raise only_lift only_call only_bind
  only_on_outcome only_catch only_finally only_mapP : effects.

(** Prove [only Q p] by the shape of [p], opening its case analyses. *)
Ltac only_calls :=
  repeat first
    [ progress intros
    | apply only_ret | apply only_raise | apply only_lift
    | lazymatch goal with
      | |- only ?Q (@call ?Ev ?Resp ?e) =>
          apply (only_call (Ev:=Ev) (Resp:=Resp) Q e); try (simpl; done)
      end
    | apply only_bind | apply only_catch | apply only_finally
    | apply only_mapP | apply only_on_outcome
    | case_match
    | done ].

(** How many calls of a trace are of the kind [f] selects. *)
Definition count {Ev Resp} (f : Ev → bool) (tr : list (obs Ev Resp)) : nat :=
  length (filter (λ o, f (projT1 o) = true) tr).

Lemma count_app {Ev Resp} (f : Ev → bool) (tr1 tr2 : list (obs Ev Resp)) :
  count f (tr1 ++ tr2) = count f tr1 + count f tr2.
Proof. unfold count. by rewrite filter_app, length_app. Qed.

Lemma count_nil {Ev Resp} (f : Ev → bool) : count f ([] : list (obs Ev Resp)) = 0.
Proof. done. Qed.

Lemma count_cons {Ev Resp} (f : Ev → bool) (o : obs Ev Resp) tr :
  count f (o :: tr) = (if f (projT1 o) then 1 else 0) + count f tr.
Proof.
  unfold count. rewrite filter_cons. case_decide as H.
  - rewrite H. done.
  - destruct (f (projT1 o)); [done|]. done.
Qed.

Lemma count_only {Ev Resp} (f : Ev → bool) (tr : list (obs Ev Resp)) :
  Forall (λ e, f e = false) (events tr) → count f tr = 0.
Proof.
  induction tr as [|o tr IH]; intros H; [done|].
  rewrite count_cons. inversion H as [|? ? Hf Htr]; subst.
  rewrite Hf, IH; [done|exact Htr].
Qed.

Lemma count_middle {Ev Resp} (f : Ev → bool) (tr1 tr2 : list (obs Ev Resp))
    (ob : obs Ev Resp) :
  f (projT1 ob) = true → count f (tr1 ++ ob :: tr2) ≠ 0.
Proof. intros Hf. rewrite count_app, count_cons, Hf. lia. Qed.

(** Where a selected call of a trace is, next to the first one. *)
Lemma count_split {Ev Resp} (f : Ev → bool) (tr1 tr2 pre post : list (obs Ev Resp))
    (ob ob' : obs Ev Resp) :
  count f tr1 = 0 → f (projT1 ob') = true → tr1 ++ ob :: tr2 = pre ++ ob' :: post →
  (pre = tr1 ∧ ob = ob' ∧ tr2 = post) ∨
  (∃ pre', pre = tr1 ++ ob :: pre' ∧ tr2 = pre' ++ ob' :: post).
Proof.
  intros H0 Hf. revert pre H0. induction tr1 as [|o1 tr1 IH]; intros [|o2 pre] H0 Heq; simpl in *.
  - injection Heq as -> ->. by left.
  - injection Heq as -> ->. right. by exists pre.
  - injection Heq as -> _. rewrite count_cons, Hf in H0. lia.
  - injection Heq as -> Heq. rewrite count_cons in H0.
    destruct (IH pre ltac:(lia) Heq) as [(-> & -> & ->)|(pre' & -> & ->)]; [by left|].
    right. by exists pre'.
Qed.

Create Rewrite HintDb effects_rw.
#[export] Hint Rewrite @count_app @count_nil @count_cons : effects_rw.
