(* ===== verification/PyStr.v ===== *)
(** * Python strings

    The [str] methods the program uses, on [string].  A Python string is a
    sequence of code points; here it is a sequence of 8-bit characters, so [len]
    counts characters as Python does for text in that range. *)
From S2P Require Import Prelude.
Open Scope string_scope.
Open Scope nat_scope.
Open Scope list_scope.

#[global] Arguments String.append : simpl nomatch.

Definition nl : string := String "010"%char "".
Definition cr : string := String "013"%char "".

(** [c in chars] for one character. *)
Fixpoint str_elem (c : ascii) (chars : string) : bool :=
  match chars with
  | "" => false
  | String c' r => if Ascii.eqb c c' then true else str_elem c r
  end.

(** [s.lstrip(chars)] *)
Fixpoint lstrip (chars s : string) : string :=
  match s with
  | "" => ""
  | String c r => if str_elem c chars then lstrip chars r else s
  end.

(** [s.rstrip(chars)] *)
Fixpoint rstrip (chars s : string) : string :=
  match s with
  | "" => ""
  | String c r =>
      match rstrip chars r with
      | "" => if str_elem c chars then "" else String c ""
      | r' => String c r'
      end
  end.

(** [s.startswith(p)] *)
Fixpoint startswith (p s : string) : bool :=
  match p, s with
  | "", _ => true
  | String c p', String c' s' => if Ascii.eqb c c' then startswith p' s' else false
  | String _ _, "" => false
  end.

(** [w in s] *)
Fixpoint str_contains (w s : string) : bool :=
  if startswith w s then true
  else match s with "" => false | String _ r => str_contains w r end.

(** [s.replace(old, new)] for a non-empty [old]: left to right, without overlap.
    [skip] counts the characters of the current match still to drop. *)
Fixpoint replace_from (old new : string) (skip : nat) (s : string) : string :=
  match s with
  | "" => ""
  | String c r =>
      match skip with
      | S k => replace_from old new k r
      | O => if startswith old s
             then new +:+ replace_from old new (String.length old - 1)%nat r
             else String c (replace_from old new 0 r)
      end
  end.
Definition replace (old new s : string) : string := replace_from old new 0 s.

(** [s.split(sep)] for a one-character separator: never empty. *)
Fixpoint split (sep : ascii) (s : string) : list string :=
  match s with
  | "" => [""]
  | String c r =>
      if Ascii.eqb c sep then "" :: split sep r
      else match split sep r with
           | w :: ws => String c w :: ws
           | [] => [String c ""]
           end
  end.

(** [sep.join(l)] *)
Fixpoint join (sep : string) (l : list string) : string :=
  match l with
  | [] => ""
  | [w] => w
  | w :: ws => w +:+ sep +:+ join sep ws
  end.

(** [s[0:n]] for [0 <= n]. *)
Fixpoint take_str (n : nat) (s : string) : string :=
  match n, s with
  | S n', String c r => String c (take_str n' r)
  | _, _ => ""
  end.

(** [s[-1:]] *)
Fixpoint last_str (s : string) : string :=
  match s with
  | "" => ""
  | String c "" => s
  | String _ r => last_str r
  end.

(** [s * n] *)
Fixpoint repeat_str (n : nat) (s : string) : string :=
  match n with O => "" | S n' => s +:+ repeat_str n' s end.

Definition lower_ascii (c : ascii) : ascii :=
  let n := nat_of_ascii c in
  if Nat.leb 65 n && Nat.leb n 90 then ascii_of_nat (n + 32)%nat else c.

(** [s.lower()] *)
Fixpoint lower (s : string) : string :=
  match s with "" => "" | String c r => String (lower_ascii c) (lower r) end.

(** [len([c for c in s if c in chars])] *)
Fixpoint count_in (chars s : string) : nat :=
  match s with
  | "" => 0
  | String c r => (if str_elem c chars then 1 else 0) + count_in chars r
  end.

Definition ascii_uppercase : string := "ABCDEFGHIJKLMNOPQRSTUVWXYZ".
Definition digits : string := "0123456789".
(** [string.punctuation]; character 34 is the double quote. *)
Definition punctuation : string :=
  "!" +:+ String "034"%char "#$%&'()*+,-./:;<=>?@[\]^_`{|}~".

(** [str(n)] *)
Definition str_Z (n : Z) : string := pretty n.

(** [f"{n:03}"]: at least three characters, zeros after the sign. *)
Definition zpad (w : nat) (s : string) : string :=
  repeat_str (w - String.length s) "0" +:+ s.
Definition format_03 (n : Z) : string :=
  if (n <? 0)%Z then "-" +:+ zpad 2 (pretty (- n)%Z) else zpad 3 (pretty n).

Definition is_digit (c : ascii) : bool :=
  let n := nat_of_ascii c in Nat.leb 48 n && Nat.leb n 57.
Definition digit_val (c : ascii) : Z := Z.of_nat (nat_of_ascii c) - 48.

(** The digits of [int(s)]: single underscores may separate them.  [prev] is
    whether the previous character was a digit. *)
Fixpoint int_digits (prev : bool) (acc : Z) (s : string) : option Z :=
  match s with
  | "" => if prev then Some acc else None
  | String c r =>
      if is_digit c then int_digits true (10 * acc + digit_val c)%Z r
      else if Ascii.eqb c "_"%char then
             if prev then
               match r with
               | String c' _ => if is_digit c' then int_digits false acc r else None
               | "" => None
               end
             else None
           else None
  end.

(** The white space [int] ignores around the number. *)
Definition whitespace : string :=
  " " +:+ String "009"%char (nl +:+ String "011"%char (String "012"%char cr)).

(** [int(s)]: [None] is [ValueError]. *)
Definition int_of_str (s : string) : option Z :=
  match rstrip whitespace (lstrip whitespace s) with
  | String "-" r => Z.opp <$> int_digits false 0 r
  | String "+" r => int_digits false 0 r
  | t => int_digits false 0 t
  end.

(** ** Lemmas *)

Lemma length_app_str (s t : string) :
  String.length (s +:+ t) = String.length s + String.length t.
Proof. induction s as [|c s IH]; simpl; [done|by rewrite IH]. Qed.

Lemma app_str_nil_r (s : string) : s +:+ "" = s.
Proof. induction s as [|c s IH]; simpl; [done|by rewrite IH]. Qed.

Lemma app_str_assoc (s t u : string) : s +:+ (t +:+ u) = (s +:+ t) +:+ u.
Proof. induction s as [|c s IH]; simpl; [done|by rewrite IH]. Qed.

Lemma app_str_inj_r (s t u : string) : s +:+ u = t +:+ u → s = t.
Proof.
  intros H. pose proof (f_equal String.length H) as Hl. rewrite !length_app_str in Hl.
  revert t H Hl. induction s as [|c s IH]; intros [|c' t] H Hl; simpl in *; try lia; [done|].
  injection H as -> H. f_equal. apply IH; [done|lia].
Qed.

Lemma length_take_str n s : String.length (take_str n s) ≤ n.
Proof.
  revert s. induction n as [|n IH]; intros [|c s]; simpl; try lia.
  specialize (IH s). lia.
Qed.

Lemma take_str_all n s : String.length s ≤ n → take_str n s = s.
Proof.
  revert s. induction n as [|n IH]; intros [|c s]; simpl; try done; try lia.
  intros. rewrite IH; [done|lia].
Qed.

Lemma startswith_app (p s : string) : startswith p (p +:+ s) = true.
Proof. induction p as [|c p IH]; simpl; [done|]. by rewrite Ascii.eqb_refl. Qed.

Lemma startswith_spec (p s : string) :
  startswith p s = true ↔ ∃ r, s = p +:+ r.
Proof.
  split.
  - revert s. induction p as [|c p IH]; intros s; simpl; [by exists s|].
    destruct s as [|c' s]; [done|]. destruct (Ascii.eqb_spec c c') as [<-|]; [|done].
    intros H. destruct (IH _ H) as [r ->]. by exists r.
  - intros [r ->]. apply startswith_app.
Qed.

Lemma take_str_startswith n s : startswith (take_str n s) s = true.
Proof.
  revert s. induction n as [|n IH]; intros [|c s]; simpl; try done.
  rewrite Ascii.eqb_refl. apply IH.
Qed.

Lemma str_elem_app c s t : str_elem c (s +:+ t) = str_elem c s || str_elem c t.
Proof. induction s as [|c' s IH]; simpl; [done|]. by destruct (Ascii.eqb c c'). Qed.

Lemma lstrip_idemp chars s : lstrip chars (lstrip chars s) = lstrip chars s.
Proof.
  induction s as [|c s IH]; simpl; [done|].
  destruct (str_elem c chars) eqn:E; [done|]. simpl. by rewrite E.
Qed.

Lemma count_in_app chars s t :
  count_in chars (s +:+ t) = count_in chars s + count_in chars t.
Proof. induction s as [|c s IH]; simpl; [done|]. rewrite IH. lia. Qed.

Lemma count_in_le chars s : count_in chars s ≤ String.length s.
Proof. induction s as [|c s IH]; simpl; [done|]. destruct (str_elem c chars); lia. Qed.

Lemma split_nonempty sep s : split sep s ≠ [].
Proof.
  destruct s as [|c s]; simpl; [done|].
  destruct (Ascii.eqb c sep); [done|]. by destruct (split sep s).
Qed.

Lemma join_split sep s : join (String sep "") (split sep s) = s.
Proof.
  induction s as [|c s IH]; simpl; [done|].
  pose proof (split_nonempty sep s) as Hne.
  destruct (Ascii.eqb_spec c sep) as [->|Hc].
  - destruct (split sep s) as [|w ws]; [done|].
    change (String sep (join (String sep "") (w :: ws)) = String sep s).
    by rewrite IH.
  - destruct (split sep s) as [|w ws]; [done|]. simpl in *.
    destruct ws; simpl in *; by rewrite IH.
Qed.

Lemma split_no_sep sep s : str_elem sep s = false → split sep s = [s].
Proof.
  induction s as [|c s IH]; simpl; [done|].
  destruct (Ascii.eqb_spec sep c) as [->|Hne]; [done|]. intros H.
  destruct (Ascii.eqb_spec c sep) as [->|]; [done|]. by rewrite IH.
Qed.

Lemma split_app_sep sep s t :
  str_elem sep s = false → split sep (s +:+ String sep t) = s :: split sep t.
Proof.
  induction s as [|c s IH]; simpl; [by rewrite Ascii.eqb_refl|].
  destruct (Ascii.eqb_spec sep c) as [->|Hne]; [done|]. intros H.
  destruct (Ascii.eqb_spec c sep) as [->|]; [done|]. by rewrite IH.
Qed.

Lemma split_parts_no_sep sep s w : w ∈ split sep s → str_elem sep w = false.
Proof.
  revert w. induction s as [|c s IH]; intros w; simpl; [set_solver|].
  destruct (Ascii.eqb_spec c sep) as [->|Hc]; [set_solver|].
  pose proof (split_nonempty sep s) as Hne.
  destruct (split sep s) as [|v vs]; [done|]. intros [->|Hw]%elem_of_cons.
  - simpl. destruct (Ascii.eqb_spec sep c); [congruence|]. apply IH. set_solver.
  - apply IH. set_solver.
Qed.

(** Splitting in two: the only way is around the one separator. *)
Lemma split_two sep s a b :
  split sep s = [a; b] ↔
  s = a +:+ String sep b ∧ str_elem sep a = false ∧ str_elem sep b = false.
Proof.
  split.
  - intros H. split; [|split; apply (split_parts_no_sep _ s); rewrite H; set_solver].
    rewrite <- (join_split sep s), H. simpl.
    by induction a as [|c a IH]; simpl; [|f_equal; apply IH].
  - intros (-> & Ha & Hb). rewrite split_app_sep by done. by rewrite split_no_sep.
Qed.

Lemma split_app_last sep p m :
  str_elem sep m = false → split sep (p +:+ String sep m) = split sep p ++ [m].
Proof.
  intros Hm. induction p as [|c p IH]; simpl.
  - rewrite Ascii.eqb_refl. by rewrite split_no_sep.
  - rewrite IH. destruct (Ascii.eqb_spec c sep); [done|].
    pose proof (split_nonempty sep p). by destruct (split sep p).
Qed.

Lemma split_app_sep_gen sep p s :
  split sep (p +:+ String sep s) = split sep p ++ split sep s.
Proof.
  induction p as [|c p IH]; simpl; [by rewrite Ascii.eqb_refl|].
  rewrite IH. destruct (Ascii.eqb_spec c sep); [done|].
  pose proof (split_nonempty sep p). by destruct (split sep p).
Qed.

Lemma split_sep_elem sep s :
  str_elem sep s = true → ∃ a b ws, split sep s = a :: b :: ws.
Proof.
  induction s as [|c s IH]; simpl; [done|]. intros H.
  pose proof (split_nonempty sep s) as Hne. rewrite Ascii.eqb_sym in H.
  destruct (Ascii.eqb c sep); simpl in H.
  - destruct (split sep s) as [|b ws]; [done|]. by exists "", b, ws.
  - destruct (IH H) as (a & b & ws & ->). by exists (String c a), b, ws.
Qed.

(** ** Shell patterns: [fnmatch.fnmatch] *)

(** A bracket expression after its opening bracket: the members, as ranges, and
    the rest of the pattern; [None] when it is not closed. *)
Fixpoint bracket_body (first : bool) (p : string) : option (string * string) :=
  match p with
  | "" => None
  | String c r =>
      if Ascii.eqb c "]" && negb first then Some ("", r)
      else match bracket_body false r with
           | Some (b, rest) => Some (String c b, rest)
           | None => None
           end
  end.

Fixpoint bracket_member (x : ascii) (b : string) : bool :=
  match b with
  | "" => false
  | String lo (String "-" (String hi r)) =>
      ((nat_of_ascii lo <=? nat_of_ascii x) && (nat_of_ascii x <=? nat_of_ascii hi))%nat
      || bracket_member x r
  | String c r => Ascii.eqb x c || bracket_member x r
  end.

Definition tail_str (s : string) : string := match s with "" => "" | String _ r => r end.

Fixpoint fnmatch_fuel (fuel : nat) (name pat : string) : bool :=
  match fuel with
  | 0 => false
  | S fuel' =>
      match pat with
      | "" => match name with "" => true | _ => false end
      | String "*" p =>
          fnmatch_fuel fuel' name p
          || match name with "" => false | String _ n => fnmatch_fuel fuel' n pat end
      | String "?" p => match name with "" => false | String _ n => fnmatch_fuel fuel' n p end
      | String "[" p =>
          let neg := match p with String "!" _ => true | _ => false end in
          match bracket_body true (if neg then tail_str p else p) with
          | Some (b, rest) =>
              match name with
              | "" => false
              | String x n => xorb neg (bracket_member x b) && fnmatch_fuel fuel' n rest
              end
          | None => match name with
                    | String "[" n => fnmatch_fuel fuel' n p
                    | _ => false
                    end
          end
      | String c p => match name with
                      | String x n => Ascii.eqb x c && fnmatch_fuel fuel' n p
                      | "" => false
                      end
      end
  end.
Definition fnmatch (name pat : string) : bool :=
  fnmatch_fuel (S (String.length name + String.length pat)) name pat.

(** A pattern without metacharacters matches itself only. *)
Lemma fnmatch_plain name pat :
  count_in "*?[" pat = 0 → fnmatch name pat = bool_decide (name = pat).
Proof.
  unfold fnmatch. intros Hp.
  assert (Hgen : ∀ fuel pat name, count_in "*?[" pat = 0 → String.length pat < fuel →
            fnmatch_fuel fuel name pat = bool_decide (name = pat)); [|apply Hgen; [done|lia]].
  clear. induction fuel as [|fuel IH]; intros pat name Hp Hf; [lia|].
  destruct pat as [|c pat].
  - by destruct name.
  - cbn [count_in] in Hp. destruct (str_elem c "*?[") eqn:Hc; [done|]. simpl in Hf.
    assert (fnmatch_fuel (S fuel) name (String c pat) =
      match name with
      | String x n => Ascii.eqb x c && fnmatch_fuel fuel n pat | "" => false end) as ->.
    { by destruct c as [[] [] [] [] [] [] [] []]. }
    destruct name as [|x n]; [by rewrite bool_decide_false|].
    rewrite IH by (done || lia). destruct (Ascii.eqb_spec x c) as [->|Hne]; simpl.
    + apply bool_decide_ext. split; [by intros ->|by intros [= ->]].
    + rewrite bool_decide_false; [done|]. by intros [= ? _].
Qed.

(** ** [bytes.decode] *)

(** Whether the bytes are UTF-8: no continuation byte on its own, no overlong
    form, no surrogate and nothing above U+10FFFF. *)
Definition byte_in (lo hi : nat) (c : ascii) : bool :=
  (lo <=? nat_of_ascii c) && (nat_of_ascii c <=? hi).
Definition continuation : ascii → bool := byte_in 128 191.
Fixpoint utf8_valid (s : string) : bool :=
  match s with
  | "" => true
  | String a s1 =>
      if byte_in 0 127 a then utf8_valid s1
      else match s1 with
      | "" => false
      | String b s2 =>
          if byte_in 194 223 a then continuation b && utf8_valid s2
          else match s2 with
          | "" => false
          | String c s3 =>
              if byte_in 224 239 a then
                byte_in (if byte_in 224 224 a then 160 else 128)
                        (if byte_in 237 237 a then 159 else 191) b
                && continuation c && utf8_valid s3
              else match s3 with
              | "" => false
              | String d s4 =>
                  byte_in 240 244 a
                  && byte_in (if byte_in 240 240 a then 144 else 128)
                             (if byte_in 244 244 a then 143 else 191) b
                  && continuation c && continuation d && utf8_valid s4
              end
          end
      end
  end.

(** [data.decode()]: its text is only logged. *)
Definition decode_utf8 (s : string) : outcome string :=
  if utf8_valid s then Ok s else Err ValueError.

(** ASCII is UTF-8. *)
Lemma utf8_ascii s : forallb (byte_in 0 127) (list_ascii_of_string s) = true → utf8_valid s = true.
Proof.
  induction s as [|a s IH]; [done|]. cbn [list_ascii_of_string forallb utf8_valid].
  rewrite andb_true_iff. intros [-> Hs]. by apply IH.
Qed.
