(* ===== verification/PyJson.v ===== *)
(** * Python values and dictionaries

    The values the program reads out of JSON payloads, YAML files and HTTP
    responses, and the dictionary operations it applies to them.  A dictionary
    is an association list with one binding per key, in insertion order, because
    the program iterates dictionaries in that order. *)
From S2P Require Import Prelude PyStr.
Open Scope string_scope.
Open Scope nat_scope.
Open Scope list_scope.

(** ** Dictionaries *)
Definition dict (V : Type) : Type := list (string * V).

Section dict.
Context {V : Type}.
Implicit Types d : dict V.

(** [d.get(k)] *)
Fixpoint dget (k : string) d : option V :=
  match d with
  | [] => None
  | (k', v) :: d' => if String.eqb k k' then Some v else dget k d'
  end.

(** [k in d] *)
Definition dhas (k : string) d : bool :=
  match dget k d with Some _ => true | None => false end.

(** [d[k] = v]: in place when the key is there, at the end otherwise. *)
Fixpoint dset (k : string) (v : V) d : dict V :=
  match d with
  | [] => [(k, v)]
  | (k', v') :: d' => if String.eqb k k' then (k', v) :: d' else (k', v') :: dset k v d'
  end.

(** [del d[k]], for a key that is there. *)
Fixpoint ddel (k : string) d : dict V :=
  match d with
  | [] => []
  | (k', v') :: d' => if String.eqb k k' then d' else (k', v') :: ddel k d'
  end.

(** [d1 | d2] and [d1.update(d2)]: the bindings of [d2] win. *)
Definition dunion d1 d2 : dict V := foldl (λ acc kv, dset kv.1 kv.2 acc) d1 d2.

Definition dkeys d : list string := d.*1.
Definition dvalues d : list V := d.*2.

(** [d[k]] *)
Definition dindex (k : string) d : outcome V := of_option (KeyError k) (dget k d).

Lemma dget_dset k k' v d :
  dget k (dset k' v d) = if String.eqb k k' then Some v else dget k d.
Proof.
  induction d as [|[k1 v1] d IH]; simpl; [done|].
  destruct (String.eqb_spec k' k1) as [->|Hk]; simpl.
  - by destruct (String.eqb k k1).
  - rewrite IH. destruct (String.eqb_spec k k1) as [->|]; [|done].
    by destruct (String.eqb_spec k1 k') as [->|].
Qed.

(** The boolean test of a lookup as the decision of an equality. *)
Lemma eqb_decide {A} (k k' : string) (x y : A) :
  (if String.eqb k k' then x else y) = if decide (k = k') then x else y.
Proof. by destruct (String.eqb_spec k k'), (decide (k = k')). Qed.

Lemma dget_dset_eq k v d : dget k (dset k v d) = Some v.
Proof. by rewrite dget_dset, String.eqb_refl. Qed.

Lemma dget_dset_ne k k' v d : k ≠ k' → dget k (dset k' v d) = dget k d.
Proof. intros Hk. rewrite dget_dset. by destruct (String.eqb_spec k k'). Qed.

Lemma dkeys_cons k v d : dkeys ((k, v) :: d) = k :: dkeys d.
Proof. done. Qed.

Lemma dget_in k v d : dget k d = Some v → (k, v) ∈ d.
Proof.
  induction d as [|[k' w] d IH]; [done|]. simpl. destruct (String.eqb_spec k k') as [->|];
    [intros [= ->]; left|intros; right; by apply IH].
Qed.
Lemma dget_None k d : dget k d = None ↔ k ∉ dkeys d.
Proof.
  induction d as [|[k' v] d IH].
  - split; [|done]. intros _ H. by apply elem_of_nil in H.
  - rewrite dkeys_cons, not_elem_of_cons, <- IH. simpl.
    destruct (String.eqb_spec k k') as [->|Hk].
    + split; [done|]. by intros [? _].
    + split; [done|]. by intros [_ ?].
Qed.

Lemma dhas_spec k d : dhas k d = true ↔ k ∈ dkeys d.
Proof.
  unfold dhas. pose proof (dget_None k d) as H. destruct (dget k d) as [v|].
  - split; [|done]. intros _. destruct (decide (k ∈ dkeys d)) as [?|Hn]; [done|].
    by apply H in Hn.
  - split; [done|]. intros Hk. by destruct (proj1 H eq_refl).
Qed.

Lemma dkeys_dset_in k v d : k ∈ dkeys d → dkeys (dset k v d) = dkeys d.
Proof.
  induction d as [|[k' v'] d IH]; [by intros ?%elem_of_nil|].
  rewrite dkeys_cons. simpl. destruct (String.eqb_spec k k') as [->|]; [done|].
  intros [?|?]%elem_of_cons; [done|]. by rewrite dkeys_cons, IH.
Qed.

Lemma dset_notin k v d : k ∉ dkeys d → dset k v d = d ++ [(k, v)].
Proof.
  induction d as [|[k' v'] d IH]; [done|].
  rewrite dkeys_cons. simpl. intros [Hk Hnin]%not_elem_of_cons.
  destruct (String.eqb_spec k k'); [done|]. by rewrite IH.
Qed.

Lemma dget_dunion k d1 d2 :
  NoDup (dkeys d2) →
  dget k (dunion d1 d2) = match dget k d2 with Some v => Some v | None => dget k d1 end.
Proof.
  unfold dunion. revert d1. induction d2 as [|[k2 v2] d2 IH]; intros d1; simpl; [done|].
  intros Hnd. apply NoDup_cons in Hnd as [Hnin Hnd]. rewrite IH by done.
  rewrite dget_dset. destruct (String.eqb_spec k k2) as [->|]; [|done].
  assert (dget k2 d2 = None) as -> by (by apply dget_None). done.
Qed.

(** Without the side condition: a key that the right side lacks keeps its
    binding. *)
Lemma dget_dunion_None k d1 d2 :
  dget k d2 = None → dget k (dunion d1 d2) = dget k d1.
Proof.
  unfold dunion. revert d1. induction d2 as [|[k2 v2] d2 IH]; intros d1; simpl; [done|].
  destruct (String.eqb_spec k k2) as [->|Hk]; [done|]. intros H.
  rewrite IH by done. by apply dget_dset_ne.
Qed.

Lemma dget_ddel_ne k k' d : k ≠ k' → dget k (ddel k' d) = dget k d.
Proof.
  intros Hk. induction d as [|[k1 v1] d IH]; simpl; [done|].
  destruct (String.eqb_spec k' k1) as [->|]; simpl.
  - destruct (String.eqb_spec k k1) as [->|]; done.
  - by rewrite IH.
Qed.
End dict.

#[export] Hint Rewrite @dget_dset_eq : effects_rw.

(** ** Values *)
Inductive json : Type :=
| JNull
| JBool (b : bool)
| JInt (n : Z)
| JStr (s : string)
| JArr (l : list json)
| JObj (d : list (string * json)).

#[export] Instance json_inhabited : Inhabited json := populate JNull.

#[export] Instance json_eq_dec : EqDecision json.
Proof.
  refine (fix go (x y : json) : Decision (x = y) :=
    match x, y with
    | JNull, JNull => left eq_refl
    | JBool b1, JBool b2 => cast_if (decide (b1 = b2))
    | JInt n1, JInt n2 => cast_if (decide (n1 = n2))
    | JStr s1, JStr s2 => cast_if (decide (s1 = s2))
    | JArr l1, JArr l2 =>
        cast_if (@decide (l1 = l2) (@list_eq_dec _ go l1 l2))
    | JObj d1, JObj d2 =>
        cast_if (@decide (d1 = d2) (@list_eq_dec _ (@prod_eq_dec _ _ _ go) d1 d2))
    | _, _ => right _
    end); clear go; abstract congruence.
Defined.

(** [bool(v)] *)
Definition truthy (v : json) : bool :=
  match v with
  | JNull => false
  | JBool b => b
  | JInt n => negb (n =? 0)%Z
  | JStr s => negb (String.eqb s "")
  | JArr l => match l with [] => false | _ => true end
  | JObj d => match d with [] => false | _ => true end
  end.

(** [v is not None] *)
Definition not_none (v : json) : bool :=
  match v with JNull => false | _ => true end.

(** [v[k]] for a string key. *)
Definition jindex (k : string) (v : json) : outcome json :=
  match v with JObj d => dindex k d | _ => Err TypeError end.

(** [v[k1][k2]...] *)
Definition item_at (keys : list string) (v : json) : outcome json := foldO jindex keys v.

(** [v.get(k)]; [None] for a missing key. *)
Definition jget (k : string) (v : json) : outcome json :=
  match v with
  | JObj d => Ok (default JNull (dget k d))
  | _ => Err AttributeError
  end.

(** [k in v.keys()] *)
Definition jhas (k : string) (v : json) : outcome bool :=
  match v with JObj d => Ok (dhas k d) | _ => Err AttributeError end.

(** A value used as a string, list or dictionary; anything else has not the
    attribute the program then asks for. *)
Definition as_str (v : json) : outcome string :=
  match v with JStr s => Ok s | _ => Err AttributeError end.
Definition as_arr (v : json) : outcome (list json) :=
  match v with JArr l => Ok l | _ => Err TypeError end.
Definition as_obj (v : json) : outcome (list (string * json)) :=
  match v with JObj d => Ok d | _ => Err AttributeError end.

(** [int(v)] *)
Definition py_int (v : json) : outcome Z :=
  match v with
  | JInt n => Ok n
  | JBool b => Ok (Z.b2z b)
  | JStr s => of_option ValueError (int_of_str s)
  | _ => Err TypeError
  end.

(** The values [for x in v] goes through. *)
Fixpoint chars_of (s : string) : list json :=
  match s with "" => [] | String c r => JStr (String c "") :: chars_of r end.
Definition py_iter (v : json) : outcome (list json) :=
  match v with
  | JArr l => Ok l
  | JStr s => Ok (chars_of s)
  | JObj d => Ok (JStr <$> dkeys d)
  | _ => Err TypeError
  end.

(** [f( **v)] needs a mapping. *)
Definition as_kwargs (v : json) : outcome (list (string * json)) :=
  match v with JObj d => Ok d | _ => Err TypeError end.

(** [str(v)]; [repr] prints the containers. *)
Definition py_str (repr : json → string) (v : json) : string :=
  match v with
  | JNull => "None"
  | JBool true => "True"
  | JBool false => "False"
  | JInt n => str_Z n
  | JStr s => s
  | JArr _ | JObj _ => repr v
  end.

(** [set(l)] and [x in s] need hashable values. *)
Definition hashable (v : json) : bool :=
  match v with JArr _ | JObj _ => false | _ => true end.

Definition py_set (l : list json) : outcome (list json) :=
  if forallb hashable l then Ok (remove_dups l) else Err TypeError.

(** [l[0]] and [l.pop()] on the result of a query. *)
Definition first {A} (l : list A) : outcome A :=
  match l with a :: _ => Ok a | [] => Err IndexError end.
Definition pop {A} (l : list A) : outcome A :=
  match last l with Some a => Ok a | None => Err IndexError end.

Lemma elem_of_py_set l s v : py_set l = Ok s → v ∈ s ↔ v ∈ l.
Proof.
  unfold py_set. destruct (forallb hashable l); [|done]. intros [= <-].
  apply elem_of_remove_dups.
Qed.

Lemma NoDup_dset {V} k (v : V) d : NoDup (dkeys d) → NoDup (dkeys (dset k v d)).
Proof.
  intros Hnd. destruct (decide (k ∈ dkeys d)) as [Hin|Hnin].
  - by rewrite dkeys_dset_in.
  - rewrite dset_notin by done.
    unfold dkeys. rewrite fmap_app. apply NoDup_app. split_and!; [done| |].
    + intros x Hx. simpl. rewrite list_elem_of_singleton. intros ->. done.
    + apply NoDup_singleton.
Qed.

Lemma NoDup_dunion {V} (d1 d2 : dict V) : NoDup (dkeys d1) → NoDup (dkeys (dunion d1 d2)).
Proof.
  unfold dunion. revert d1. induction d2 as [|[k v] d2 IH]; intros d1 H; simpl; [done|].
  apply IH. by apply NoDup_dset.
Qed.
