(* ===== verification/JsonText.v ===== *)
(** * JSON text: [json.dumps] and [json.loads] of Python's standard library

    The text that [dataclasses_json] makes of a message with [json.dumps], and a
    reader of it.  [json_dumps] writes what [json.dumps] writes with its default
    separators and [ensure_ascii]; [json_read] reads that back.  It also reads
    white space where JSON allows it, but no fractions, no exponents and no
    characters beyond the 8 bits of the strings of this library. *)
From Stdlib Require Import DecimalString DecimalZ DecimalFacts.
From S2P Require Import Prelude PyStr PyJson.
Open Scope string_scope.
Open Scope nat_scope.
Open Scope list_scope.

(** ** Characters *)
Definition quote : ascii := "034".
Definition backslash : ascii := "092".

Definition hex_digit (n : nat) : ascii :=
  match String.get n "0123456789abcdef" with Some c => c | None => "0" end.
Definition hex_val (c : ascii) : option nat := String.index 0 (String c "") "0123456789abcdef".

(** One character of a string; [None] stands for itself. *)
Definition short_escape (c : ascii) : option ascii :=
  match nat_of_ascii c with
  | 34 => Some quote | 92 => Some backslash | 10 => Some "n"%char | 13 => Some "r"%char
  | 9 => Some "t"%char | 12 => Some "f"%char | 8 => Some "b"%char
  | _ => None
  end.
Definition unescape (c : ascii) : option ascii :=
  if Ascii.eqb c quote then Some quote
  else if Ascii.eqb c backslash then Some backslash
  else if Ascii.eqb c "/" then Some "/"%char
  else if Ascii.eqb c "n" then Some "010"%char
  else if Ascii.eqb c "r" then Some "013"%char
  else if Ascii.eqb c "t" then Some "009"%char
  else if Ascii.eqb c "f" then Some "012"%char
  else if Ascii.eqb c "b" then Some "008"%char
  else None.

(** [ESCAPE_ASCII]: the printable characters stay. *)
Definition esc_char (c : ascii) : string :=
  match short_escape c with
  | Some e => String backslash (String e "")
  | None =>
      if byte_in 32 126 c then String c ""
      else String backslash (String "u" (String "0" (String "0"
             (String (hex_digit (nat_of_ascii c / 16))
                (String (hex_digit (nat_of_ascii c mod 16)) "")))))
  end.

Fixpoint escape (s : string) : string :=
  match s with "" => "" | String c s' => esc_char c +:+ escape s' end.
Definition dump_str (s : string) : string :=
  String quote (escape s +:+ String quote "").

(** ** [json.dumps] *)
Fixpoint json_dumps (j : json) : string :=
  match j with
  | JNull => "null"
  | JBool b => if b then "true" else "false"
  | JInt n => NilZero.string_of_int (Z.to_int n)
  | JStr s => dump_str s
  | JArr l => "[" +:+ join ", " (List.map json_dumps l) +:+ "]"
  | JObj d =>
      "{" +:+ join ", " (List.map (λ kv, dump_str kv.1 +:+ ": " +:+ json_dumps kv.2) d) +:+ "}"
  end.

(** ** The reader *)
Definition bad_json : exn := ValueError.

Fixpoint skip_ws (s : string) : string :=
  match s with
  | String c s' => if byte_in 32 32 c || byte_in 9 10 c || byte_in 13 13 c then skip_ws s' else s
  | "" => ""
  end.

(** The characters up to the closing quotation mark. *)
Fixpoint read_chars (s : string) : outcome (string * string) :=
  match s with
  | "" => Err bad_json
  | String c s' =>
      if Ascii.eqb c quote then Ok ("", s')
      else if Ascii.eqb c backslash then
        match s' with
        | String "u" (String z1 (String z2 (String h1 (String h2 s2)))) =>
            match Ascii.eqb z1 "0" && Ascii.eqb z2 "0", hex_val h1, hex_val h2 with
            | true, Some n1, Some n2 =>
                let? r := read_chars s2 in Ok (String (ascii_of_nat (16 * n1 + n2)) r.1, r.2)
            | _, _, _ => Err bad_json
            end
        | String e s2 =>
            match unescape e with
            | Some c' => let? r := read_chars s2 in Ok (String c' r.1, r.2)
            | None => Err bad_json
            end
        | "" => Err bad_json
        end
      else let? r := read_chars s' in Ok (String c r.1, r.2)
  end.

Fixpoint read_digits (s : string) : string * string :=
  match s with
  | String c s' => if is_digit c then let r := read_digits s' in (String c r.1, r.2) else ("", s)
  | "" => ("", "")
  end.
Definition read_int (s : string) : outcome (json * string) :=
  let '(sign, s1) := match s with String "-" s1 => ("-", s1) | _ => ("", s) end in
  let '(ds, rest) := read_digits s1 in
  let? n := of_option bad_json (NilZero.int_of_string (sign +:+ ds)) in
  Ok (JInt (Z.of_int n), rest).

(** The rest after a word. *)
Fixpoint read_word (w s : string) : outcome string :=
  match w, s with
  | "", _ => Ok s
  | String c w', String c' s' => if Ascii.eqb c c' then read_word w' s' else Err bad_json
  | _, _ => Err bad_json
  end.

(** Items up to the closing bracket, with their commas. *)
Fixpoint read_items {A} (item : string → outcome (A * string)) (close : ascii) (fuel : nat)
    (s : string) : outcome (list A * string) :=
  match fuel with
  | O => Err OutOfFuel
  | S n =>
      let? ' (a, s1) := item (skip_ws s) in
      match skip_ws s1 with
      | String c s2 =>
          if Ascii.eqb c close then Ok ([a], s2)
          else if Ascii.eqb c "," then
            let? ' (l, s3) := read_items item close n s2 in Ok (a :: l, s3)
          else Err bad_json
      | "" => Err bad_json
      end
  end.
Definition read_list {A} (item : string → outcome (A * string)) (close : ascii) (fuel : nat)
    (s : string) : outcome (list A * string) :=
  match skip_ws s with
  | String c s1 => if Ascii.eqb c close then Ok ([], s1) else read_items item close fuel s
  | "" => Err bad_json
  end.

Definition read_pair (value : string → outcome (json * string)) (s : string) :
    outcome ((string * json) * string) :=
  match s with
  | String c s1 =>
      if Ascii.eqb c quote then
        let? ' (k, s2) := read_chars s1 in
        let? s3 := read_word ":" (skip_ws s2) in
        let? ' (v, s4) := value (skip_ws s3) in Ok ((k, v), s4)
      else Err bad_json
  | "" => Err bad_json
  end.

Fixpoint read_value (fuel : nat) (s : string) : outcome (json * string) :=
  match fuel with
  | O => Err OutOfFuel
  | S n =>
      match s with
      | "" => Err bad_json
      | String c s' =>
          if Ascii.eqb c "n" then let? r := read_word "null" s in Ok (JNull, r)
          else if Ascii.eqb c "t" then let? r := read_word "true" s in Ok (JBool true, r)
          else if Ascii.eqb c "f" then let? r := read_word "false" s in Ok (JBool false, r)
          else if Ascii.eqb c quote then
            let? ' (x, r) := read_chars s' in Ok (JStr x, r)
          else if Ascii.eqb c "[" then
            let? ' (l, r) := read_list (read_value n) "]" (String.length s) s' in Ok (JArr l, r)
          else if Ascii.eqb c "{" then
            let? ' (l, r) := read_list (read_pair (read_value n)) "}" (String.length s) s' in
            Ok (JObj (dunion [] l), r)
          else read_int s
      end
  end.

Definition json_read (s : string) : outcome json :=
  let? ' (j, r) := read_value (S (String.length s)) (skip_ws s) in
  match skip_ws r with "" => Ok j | _ => Err bad_json end.

(** ** Reading back what was written *)

(** Lists that hold pairs, one level down: the induction on values. *)
Lemma json_nested_ind (P : json → Prop) :
  P JNull → (∀ b, P (JBool b)) → (∀ n, P (JInt n)) → (∀ s, P (JStr s)) →
  (∀ l, Forall P l → P (JArr l)) → (∀ d, Forall (λ kv, P kv.2) d → P (JObj d)) →
  ∀ j, P j.
Proof.
  intros Hnull Hbool Hint Hstr Harr Hobj. fix IH 1. intros [| | | |l|d]; [done|done|done|done| |].
  - apply Harr. induction l as [|j l IHl]; constructor; [apply IH|exact IHl].
  - apply Hobj. induction d as [|[k j] d IHd]; constructor; [apply IH|exact IHd].
Qed.

(** Dictionaries have one binding for each key. *)
Fixpoint json_wf (j : json) : Prop :=
  match j with
  | JArr l => fold_right (λ x P, json_wf x ∧ P) True l
  | JObj d => NoDup (dkeys d) ∧ fold_right (λ kv P, json_wf kv.2 ∧ P) True d
  | _ => True
  end.

Lemma read_esc_char c s :
  read_chars (esc_char c +:+ s) = let? r := read_chars s in Ok (String c r.1, r.2).
Proof. destruct c as [[] [] [] [] [] [] [] []]; reflexivity. Qed.

Lemma read_escape s rest : read_chars (escape s +:+ String quote rest) = Ok (s, rest).
Proof.
  induction s as [|c s IH]; [done|]. simpl escape.
  by rewrite <- app_str_assoc, read_esc_char, IH.
Qed.

Definition no_digit (s : string) : bool :=
  match s with String c _ => negb (is_digit c) | "" => true end.

Lemma read_digits_uint d rest :
  no_digit rest = true →
  read_digits (NilEmpty.string_of_uint d +:+ rest) = (NilEmpty.string_of_uint d, rest).
Proof.
  intros Hr. induction d as [|d IH|d IH|d IH|d IH|d IH|d IH|d IH|d IH|d IH|d IH];
    simpl; try by rewrite IH.
  destruct rest as [|c rest]; simpl in *; [done|]. by destruct (is_digit c).
Qed.

Lemma read_int_dumps n rest :
  no_digit rest = true →
  read_int (NilZero.string_of_int (Z.to_int n) +:+ rest) = Ok (JInt n, rest).
Proof.
  intros Hr.
  assert (Hpos : ∀ p, Pos.to_uint p ≠ Decimal.Nil) by apply DecimalPos.Unsigned.to_uint_nonnil.
  assert (Hd : ∀ d, d ≠ Decimal.Nil → NilZero.string_of_uint d = NilEmpty.string_of_uint d)
    by (by intros []).
  assert (Hisi : NilZero.int_of_string (NilZero.string_of_int (Z.to_int n)) = Some (Z.to_int n)).
  { apply NilZero.isi; destruct n; simpl; try done; intros [=]; by eapply Hpos. }
  rewrite <- (DecimalZ.of_to n) at 2. unfold read_int.
  assert (Hs : ∀ d, d ≠ Decimal.Nil → ∀ s1 : string,
    match NilEmpty.string_of_uint d +:+ s1 with String "-" s1 => ("-", s1) | _ => ("", NilEmpty.string_of_uint d +:+ s1) end
      = ("", NilEmpty.string_of_uint d +:+ s1)) by (by intros []).
  destruct n as [|p|p]; simpl in *.
  - pose proof (read_digits_uint Decimal.Nil rest Hr) as Hn. simpl in Hn. by rewrite Hn.
  - rewrite Hd in * by done. rewrite Hs by done. rewrite read_digits_uint by done. simpl.
    by rewrite Hisi.
  - rewrite Hd in * by done. rewrite read_digits_uint by done. simpl. by rewrite Hisi.
Qed.

(** Values do not begin with white space, nor with a closing bracket. *)
Definition starts_value (c : ascii) : bool :=
  negb (byte_in 32 32 c || byte_in 9 10 c || byte_in 13 13 c) &&
  negb (Ascii.eqb c "]") && negb (Ascii.eqb c "}") && negb (Ascii.eqb c ",").
Definition value_text (s : string) : Prop :=
  match s with String c _ => starts_value c = true | "" => False end.

Lemma int_text n : value_text (NilZero.string_of_int (Z.to_int n)).
Proof.
  destruct n as [|p|p]; [done| |done]. simpl.
  pose proof (DecimalPos.Unsigned.to_uint_nonnil p). by destruct (Pos.to_uint p).
Qed.
Lemma dumps_text j : value_text (json_dumps j).
Proof. destruct j as [|[]| | | |]; try done. apply int_text. Qed.

Lemma value_text_app s t : value_text s → value_text (s +:+ t).
Proof. by destruct s. Qed.
Lemma skip_ws_text s : value_text s → skip_ws s = s.
Proof.
  destruct s as [|c s]; [done|]. simpl. unfold starts_value.
  destruct (_ || _); [done|reflexivity].
Qed.

Lemma join_cons (sep w : string) ws :
  ws ≠ [] → join sep (w :: ws) = w +:+ sep +:+ join sep ws.
Proof. by destruct ws. Qed.

Lemma join_length (sep : string) ws w :
  w ∈ ws → String.length w ≤ String.length (join sep ws).
Proof.
  induction ws as [|x ws IH]; [by intros ?%elem_of_nil|].
  destruct (decide (ws = [])) as [->|Hne].
  - by intros ->%list_elem_of_singleton.
  - rewrite join_cons, !length_app_str by done. intros [->|Hin%IH]%elem_of_cons; lia.
Qed.
Lemma join_items (sep : string) ws :
  Forall (λ w, w ≠ "") ws → length ws ≤ String.length (join sep ws).
Proof.
  induction 1 as [|x ws Hx _ IH]; [done|].
  destruct (decide (ws = [])) as [->|Hne].
  - destruct x; simpl; [done|lia].
  - rewrite join_cons, !length_app_str by done. destruct x; simpl; [done|lia].
Qed.

Lemma read_items_space {A} (item : string → outcome (A * string)) close n s :
  read_items item close n (String " " s) = read_items item close n s.
Proof. by destruct n. Qed.

(** Items, each of which is read back. *)
Lemma read_items_join {A} (item : string → outcome (A * string)) (f : A → string) close l n rest :
  l ≠ [] → length l ≤ n → (close = "]"%char ∨ close = "}"%char) →
  Forall (λ a, value_text (f a) ∧ ∀ r, no_digit r = true → item (f a +:+ r) = Ok (a, r)) l →
  read_items item close n (join ", " (List.map f l) +:+ String close rest) = Ok (l, rest).
Proof.
  intros Hne Hlen Hc Hl. revert n Hlen. induction Hl as [|a l [Ht Ha] Hl IH]; [done|].
  intros [|n] Hlen; simpl in Hlen; [lia|].
  destruct (decide (l = [])) as [->|Hne'].
  - cbn [List.map join read_items]. rewrite skip_ws_text by by apply value_text_app.
    rewrite Ha by by destruct Hc as [->| ->]. simpl.
    destruct Hc as [->| ->]; done.
  - cbn [List.map]. rewrite join_cons by (by destruct l). cbn [read_items].
    rewrite <- !app_str_assoc. rewrite skip_ws_text by by apply value_text_app.
    rewrite Ha by done. simpl.
    specialize (IH Hne' n ltac:(lia)).
    destruct Hc as [->| ->]; cbn; by rewrite read_items_space, IH.
Qed.

Lemma read_list_join {A} (item : string → outcome (A * string)) (f : A → string) close l rest n :
  (close = "]"%char ∨ close = "}"%char) →
  length l ≤ n →
  Forall (λ a, value_text (f a) ∧ ∀ r, no_digit r = true → item (f a +:+ r) = Ok (a, r)) l →
  read_list item close n (join ", " (List.map f l) +:+ String close rest) = Ok (l, rest).
Proof.
  intros Hc Hn Hl. unfold read_list.
  destruct (decide (l = [])) as [->|Hne]; [by destruct Hc as [->| ->]|].
  assert (Ht : value_text (join ", " (List.map f l))).
  { destruct l as [|a [|b l]]; [done| |].
    - apply Forall_cons in Hl as [[? _] _]. done.
    - apply Forall_cons in Hl as [[? _] _]. cbn [List.map]. rewrite join_cons by done.
      by apply value_text_app. }
  rewrite skip_ws_text by by apply value_text_app.
  destruct (join ", " (List.map f l)) as [|c s] eqn:Hj; [done|]. simpl.
  assert (Hcc : Ascii.eqb c close = false).
  { simpl in Ht. unfold starts_value in Ht. rewrite !andb_true_iff, !negb_true_iff in Ht.
    destruct Hc as [->| ->]; tauto. }
  rewrite Hcc. change (String c (s +:+ String close rest)) with (String c s +:+ String close rest).
  rewrite <- Hj. by apply read_items_join.
Qed.

(** ** The round trip *)
Lemma read_pair_dumps value k j r :
  (∀ r, no_digit r = true → value (json_dumps j +:+ r) = Ok (j, r)) → no_digit r = true →
  read_pair value ((dump_str k +:+ ": " +:+ json_dumps j) +:+ r) = Ok ((k, j), r).
Proof.
  intros Hv Hr. unfold dump_str. simpl. rewrite <- !app_str_assoc. simpl. rewrite read_escape. simpl.
  rewrite skip_ws_text by (apply value_text_app, dumps_text). by rewrite Hv.
Qed.

Lemma dunion_nodup {V} (d : dict V) : NoDup (dkeys d) → dunion [] d = d.
Proof.
  intros Hnd. unfold dunion.
  assert (H : ∀ acc : dict V, NoDup (dkeys (acc ++ d)) →
    foldl (λ acc kv, dset kv.1 kv.2 acc) acc d = acc ++ d).
  { clear Hnd. induction d as [|[k v] d IH]; intros acc Hnd; simpl; [by rewrite app_nil_r|].
    assert (Hk : k ∉ dkeys acc).
    { unfold dkeys in Hnd. rewrite fmap_app in Hnd. apply NoDup_app in Hnd as (_ & Hdis & _).
      intros Hin. apply (Hdis k Hin). by left. }
    rewrite dset_notin by done. rewrite IH; by rewrite <- app_assoc. }
  by apply (H []).
Qed.

Lemma fold_and_Forall {A} (P : A → Prop) l :
  fold_right (λ x Q, P x ∧ Q) True l ↔ Forall P l.
Proof. induction l; simpl; [done|]. rewrite Forall_cons. tauto. Qed.

Lemma read_value_dumps j :
  json_wf j → ∀ n r, String.length (json_dumps j) < n → no_digit r = true →
  read_value n (json_dumps j +:+ r) = Ok (j, r).
Proof.
  induction j as [|b|m|s|l IH|d IH] using json_nested_ind; intros Hwf n r Hn Hr;
    (destruct n as [|n]; [simpl in Hn; lia|]).
  - done.
  - by destruct b.
  - cbn [json_dumps read_value]. rewrite <- (read_int_dumps m r Hr).
    destruct m as [|p|p]; [done| |done]. simpl.
    pose proof (DecimalPos.Unsigned.to_uint_nonnil p). by destruct (Pos.to_uint p).
  - simpl. rewrite <- app_str_assoc. simpl. by rewrite read_escape.
  - apply fold_and_Forall in Hwf. cbn [json_dumps] in *. rewrite <- !app_str_assoc. simpl.
    rewrite read_list_join; [done|by left| |].
    + rewrite length_app_str. apply le_S, Nat.le_trans with (2 := Nat.le_add_r _ _).
      rewrite <- (length_map json_dumps). apply join_items, Forall_map, Forall_true.
      intros j E. pose proof (dumps_text j) as Ht. by rewrite E in Ht.
    + rewrite Forall_forall in *. intros j Hj. split; [apply dumps_text|].
      intros r' Hr'. apply (IH j Hj (Hwf j Hj)); [|done]. rewrite !length_app_str in Hn. simpl in Hn.
      pose proof (join_length ", " (List.map json_dumps l) (json_dumps j)
        (list_elem_of_fmap_2 json_dumps l j Hj)). lia.
  - destruct Hwf as [Hnd Hwf].
    apply (fold_and_Forall (λ kv, json_wf kv.2)) in Hwf.
    cbn [json_dumps] in *. rewrite <- !app_str_assoc. simpl.
    set (f := λ kv : string * json, dump_str kv.1 +:+ ": " +:+ json_dumps kv.2) in *.
    rewrite (read_list_join _ f); [simpl; by rewrite dunion_nodup|by right| |].
    + rewrite length_app_str. apply le_S, Nat.le_trans with (2 := Nat.le_add_r _ _).
      rewrite <- (length_map f). by apply join_items, Forall_map, Forall_true.
    + rewrite Forall_forall in *. intros [k j] Hj. split; [done|].
      intros r' Hr'. apply (read_pair_dumps _ k j r'); [|done].
      intros r0 Hr0. apply (IH (k, j) Hj (Hwf (k, j) Hj)); [|done]. rewrite !length_app_str in Hn. simpl in Hn.
      pose proof (join_length ", " (List.map f d) (f (k, j)) (list_elem_of_fmap_2 f d _ Hj)) as Hle.
      assert (Hf : String.length (json_dumps j) ≤ String.length (f (k, j)))
        by (unfold f; simpl; rewrite !length_app_str; simpl; lia).
      simpl. lia.
Qed.

Lemma json_read_dumps j : json_wf j → json_read (json_dumps j) = Ok j.
Proof.
  intros Hwf. unfold json_read. rewrite skip_ws_text by apply dumps_text.
  rewrite <- (app_str_nil_r (json_dumps j)) at 2.
  rewrite read_value_dumps by (done || lia). done.
Qed.

(** What is written is ASCII, so that its encoding as UTF-8 is itself. *)
Definition ascii_text (s : string) : bool := forallb (byte_in 0 127) (list_ascii_of_string s).

Lemma ascii_text_app s t : ascii_text (s +:+ t) = ascii_text s && ascii_text t.
Proof.
  unfold ascii_text. induction s as [|c s IH]; [done|]. simpl. by rewrite IH, andb_assoc.
Qed.
Lemma ascii_text_join sep l :
  ascii_text sep = true → Forall (λ w, ascii_text w = true) l → ascii_text (join sep l) = true.
Proof.
  intros Hs. induction 1 as [|w l Hw Hl IH]; [done|].
  destruct (decide (l = [])) as [->|Hne]; [done|].
  by rewrite join_cons, !ascii_text_app, Hw, Hs, IH.
Qed.
Lemma dump_str_ascii s : ascii_text (dump_str s) = true.
Proof.
  unfold dump_str. change (ascii_text (escape s +:+ String quote "") = true).
  rewrite ascii_text_app, andb_true_r. induction s as [|c s IH]; [done|].
  simpl. rewrite ascii_text_app, IH, andb_true_r.
  by destruct c as [[] [] [] [] [] [] [] []].
Qed.
Lemma dumps_ascii j : ascii_text (json_dumps j) = true.
Proof.
  induction j as [|[]|n|s|l IH|d IH] using json_nested_ind; try done.
  - assert (Hu : ∀ d, ascii_text (NilEmpty.string_of_uint d) = true) by (induction d; done).
    assert (Hz : ∀ d, ascii_text (NilZero.string_of_uint d) = true) by (intros []; [done|apply Hu..]).
    simpl. destruct (Z.to_int n); [apply Hz|]. apply (Hz d).
  - apply dump_str_ascii.
  - cbn [json_dumps]. rewrite !ascii_text_app, andb_true_r.
    apply ascii_text_join; [done|]. by apply Forall_map.
  - cbn [json_dumps]. rewrite !ascii_text_app, andb_true_r.
    apply ascii_text_join; [done|]. apply Forall_map. eapply Forall_impl; [exact IH|].
    intros [k j] Hj. cbn [fst snd] in *. by rewrite !ascii_text_app, dump_str_ascii, Hj.
Qed.
