(* ===== verification/Url.v ===== *)
(** * URLs

    The parts of [urllib.parse] the program uses, and the URL builders of
    [src/api_utils/__init__.py] and [src/api_utils/apisession.py]. *)
From S2P Require Import Prelude PyStr PyJson.
Open Scope string_scope.
Open Scope nat_scope.
Open Scope list_scope.

(** ** [urllib.parse.quote] *)
Definition is_alnum (c : ascii) : bool :=
  let n := nat_of_ascii c in
  (Nat.leb 48 n && Nat.leb n 57) || (Nat.leb 65 n && Nat.leb n 90)
  || (Nat.leb 97 n && Nat.leb n 122).

(** Letters, digits and these are never quoted. *)
Definition unreserved (c : ascii) : bool := is_alnum c || str_elem c "_.-~".

Definition hex_digit (n : nat) : ascii :=
  ascii_of_nat (if Nat.ltb n 10 then 48 + n else 55 + n).
Definition pct (n : nat) : string :=
  String "%" (String (hex_digit (n / 16)) (String (hex_digit (n mod 16)) "")).

(** One character: the percent form of its UTF-8 bytes. *)
Definition quote_char (c : ascii) : string :=
  let n := nat_of_ascii c in
  if Nat.ltb n 128 then pct n
  else pct (192 + n / 64) +:+ pct (128 + n mod 64).

(** [quote(s, safe)] *)
Fixpoint quote_safe (safe s : string) : string :=
  match s with
  | "" => ""
  | String c r =>
      (if unreserved c || str_elem c safe then String c "" else quote_char c)
        +:+ quote_safe safe r
  end.
Definition quote (s : string) : string := quote_safe "/" s.

(** [quote_plus(s)]: a blank becomes a plus. *)
Fixpoint quote_plus (s : string) : string :=
  match s with
  | "" => ""
  | String c r =>
      (if Ascii.eqb c " " then "+"
       else if unreserved c then String c "" else quote_char c) +:+ quote_plus r
  end.

(** ** Builders *)

(** The [kwargs] of [form_url], each value already passed through [str]. *)
Definition url_args (kwargs : dict string) : list string :=
  (λ kv, kv.1 +:+ "=" +:+ quote kv.2) <$> kwargs.

Definition form_url (endpoint url_path : string) (anchor : option string)
    (kwargs : dict string) : string :=
  let base := rstrip "/" endpoint in
  let suffix := quote (lstrip "/" url_path) in
  let args := url_args kwargs in
  base +:+ "/" +:+ suffix
    +:+ (match args with [] => "" | _ => "?" end) +:+ join "&" args
    +:+ (match anchor with Some a => "#" +:+ a | None => "" end).

Definition form_api_endpoint (base_endpoint : string) (suffix : option string) : string :=
  let ret := rstrip "/" base_endpoint in
  match suffix with
  | Some s => if Nat.ltb 0 (String.length s)
              then ret +:+ "/" +:+ rstrip "/" (lstrip "/" s) else ret
  | None => ret
  end.

Definition concat_path_to_endpoint (api_endpoint path : string) : string :=
  rstrip "/" api_endpoint +:+ "/" +:+ lstrip "/" path.

(** [for var in url_vars.keys(): url = url.replace(f":{var}", url_vars[var])] *)
Definition apply_url_vars (url : string) (url_vars : option (dict string)) : string :=
  match url_vars with
  | None => url
  | Some vars => foldl (λ u kv, replace (":" +:+ kv.1) kv.2 u) url vars
  end.

(** ** Lemmas *)

(** What [quote_plus] produces holds no slash and no colon: safe to substitute
    into a path segment. *)
Definition url_special (c : ascii) : bool := str_elem c "/:?# &=@".

Lemma hex_digit_not_special n : n < 16 → url_special (hex_digit n) = false.
Proof. intros Hn. do 16 (destruct n as [|n]; [done|]). lia. Qed.

Lemma pct_not_special n c :
  n < 256 → url_special c = true → str_elem c (pct n) = false.
Proof.
  intros Hn Hc. unfold pct.
  assert (n / 16 < 16) by (apply Nat.Div0.div_lt_upper_bound; lia).
  assert (n mod 16 < 16) by (apply Nat.mod_upper_bound; lia).
  assert (∀ d, url_special d = false → Ascii.eqb c d = false) as Hne.
  { intros d Hd. apply Ascii.eqb_neq. congruence. }
  simpl. rewrite !Hne; auto using hex_digit_not_special.
Qed.

Lemma nat_of_ascii_lt c : nat_of_ascii c < 256.
Proof. apply nat_ascii_bounded. Qed.

Lemma quote_char_not_special c d :
  url_special d = true → str_elem d (quote_char c) = false.
Proof.
  intros Hd. unfold quote_char. pose proof (nat_of_ascii_lt c) as Hc.
  destruct (Nat.ltb_spec (nat_of_ascii c) 128).
  - apply pct_not_special; [lia|done].
  - rewrite str_elem_app.
    assert (nat_of_ascii c / 64 < 4) by (apply Nat.Div0.div_lt_upper_bound; lia).
    assert (nat_of_ascii c mod 64 < 64) by (apply Nat.mod_upper_bound; lia).
    rewrite !pct_not_special; try done; lia.
Qed.

Lemma unreserved_not_special c d :
  url_special d = true → unreserved c = true → str_elem d (String c "") = false.
Proof.
  intros Hd Hu. simpl. destruct (Ascii.eqb_spec d c) as [->|]; [|done].
  revert Hd Hu. clear. destruct c as [[] [] [] [] [] [] [] []]; vm_compute; congruence.
Qed.

Lemma quote_safe_no_special s d :
  url_special d = true → str_elem d (quote_safe "" s) = false.
Proof.
  intros Hd. induction s as [|c s IH]; simpl; [done|].
  rewrite str_elem_app, IH, orb_false_r, orb_false_r.
  destruct (unreserved c) eqn:Hu; [by apply unreserved_not_special|by apply quote_char_not_special].
Qed.

Lemma quote_plus_no_special s d :
  url_special d = true → str_elem d (quote_plus s) = false.
Proof.
  intros Hd. induction s as [|c s IH]; simpl; [done|].
  rewrite str_elem_app, IH, orb_false_r.
  destruct (Ascii.eqb_spec c " ") as [->|].
  - simpl. destruct (Ascii.eqb_spec d "+") as [->|]; done.
  - destruct (unreserved c) eqn:Hu; [by apply unreserved_not_special|by apply quote_char_not_special].
Qed.

(** ** [urllib.parse.urlparse] *)
Record split_url : Type := SplitUrl {
  u_scheme : string; u_netloc : string; u_path : string; u_query : string;
  u_fragment : string }.

(** The text before and after the first of the given characters. *)
Fixpoint cut_at (chars s : string) : string * string :=
  match s with
  | "" => ("", "")
  | String c r => if str_elem c chars then ("", s)
                  else let '(a, b) := cut_at chars r in (String c a, b)
  end.

(** [s.partition(c)], without the separator. *)
Definition partition_at (c : ascii) (s : string) : string * string :=
  match cut_at (String c "") s with
  | (a, String _ b) => (a, b)
  | (a, "") => (a, "")
  end.

Definition is_alpha (c : ascii) : bool := is_alnum c && negb (is_digit c).
Fixpoint all_chars (p : ascii → bool) (s : string) : bool :=
  match s with "" => true | String c r => p c && all_chars p r end.

Definition scheme_char (c : ascii) : bool := is_alnum c || str_elem c "+-.".

(** The scheme, lower-cased, and the rest; then the network location. *)
Definition split_scheme (url : string) : string * string :=
  match cut_at ":" url with
  | (String c s, String _ r) =>
      if is_alpha c && all_chars scheme_char (String c s)
      then (lower (String c s), r) else ("", url)
  | _ => ("", url)
  end.
Definition split_netloc (rest : string) : string * string :=
  match rest with
  | String "/" (String "/" r) => cut_at "/?#" r
  | _ => ("", rest)
  end.

(** [urlsplit] of a URL without blanks, control characters and brackets. *)
Definition urlsplit (url : string) : split_url :=
  let '(scheme, rest) := split_scheme url in
  let '(netloc, rest) := split_netloc rest in
  let '(rest, fragment) := partition_at "#" rest in
  let '(path, query) := partition_at "?" rest in
  SplitUrl scheme netloc path query fragment.

(** [urlunsplit], for a network location that is not empty, as in its one use. *)
Definition urlunsplit (u : split_url) : string :=
  (if bool_decide (u_scheme u = "") then "" else u_scheme u +:+ ":")
  +:+ "//" +:+ u_netloc u
  +:+ (if bool_decide (u_path u = "") || startswith "/" (u_path u) then "" else "/")
  +:+ u_path u
  +:+ (if bool_decide (u_query u = "") then "" else "?" +:+ u_query u)
  +:+ (if bool_decide (u_fragment u = "") then "" else "#" +:+ u_fragment u).

(** [urlparse] splits parameters off the last part of the path; [urlunparse] puts
    the six parts together. *)
Record parsed_url : Type := ParsedUrl {
  p_scheme : string; p_netloc : string; p_path : string; p_params : string;
  p_query : string; p_fragment : string }.

Definition uses_params : list string :=
  [""; "ftp"; "hdl"; "prospero"; "http"; "https"; "shttp"; "rtsp"; "rtsps"; "rtspu"; "sip";
   "sips"; "mms"; "sftp"; "tel"].
Definition uses_netloc : list string :=
  [""; "ftp"; "http"; "gopher"; "nntp"; "telnet"; "imap"; "wais"; "file"; "mms"; "https";
   "shttp"; "snews"; "prospero"; "rtsp"; "rtsps"; "rtspu"; "rsync"; "svn"; "svn+ssh"; "sftp";
   "nfs"; "git"; "git+ssh"; "ws"; "wss"].

Definition split_params (path : string) : string * string :=
  let segments := split "/" path in
  let '(last, params) := partition_at ";" (List.last segments "") in
  (join "/" (removelast segments ++ [last]), params).

Definition urlparse (url : string) : parsed_url :=
  let u := urlsplit url in
  let '(path, params) := if bool_decide (u_scheme u ∈ uses_params) then split_params (u_path u)
                         else (u_path u, "") in
  ParsedUrl (u_scheme u) (u_netloc u) path params (u_query u) (u_fragment u).

Definition urlunparse (p : parsed_url) : string :=
  let path := if bool_decide (p_params p = "") then p_path p else p_path p +:+ ";" +:+ p_params p in
  let url :=
    if negb (bool_decide (p_netloc p = "")) then
      "//" +:+ p_netloc p +:+ (if bool_decide (path = "") || startswith "/" path then "" else "/")
      +:+ path
    else if startswith "//" path then "//" +:+ path
    else if negb (bool_decide (p_scheme p = "")) && bool_decide (p_scheme p ∈ uses_netloc)
            && (bool_decide (path = "") || startswith "/" path) then "//" +:+ path
    else path in
  (if bool_decide (p_scheme p = "") then "" else p_scheme p +:+ ":") +:+ url
  +:+ (if bool_decide (p_query p = "") then "" else "?" +:+ p_query p)
  +:+ (if bool_decide (p_fragment p = "") then "" else "#" +:+ p_fragment p).

(** [Path(p).name] *)
Definition path_name (p : string) : string :=
  List.last (filter (λ w, w ≠ "" ∧ w ≠ ".") (split "/" p)) "".

(** ** Splitting and joining URLs *)

Lemma cut_at_app chars a b :
  (∀ c, str_elem c a = true → str_elem c chars = false) →
  (b = "" ∨ ∃ c r, b = String c r ∧ str_elem c chars = true) →
  cut_at chars (a +:+ b) = (a, b).
Proof.
  intros Ha Hb. induction a as [|c a IH]; simpl.
  - destruct Hb as [->|(c & r & -> & Hc)]; [done|]. simpl. by rewrite Hc.
  - rewrite Ha by (simpl; by rewrite Ascii.eqb_refl). rewrite IH; [done|].
    intros d Hd. apply Ha. simpl. by destruct (Ascii.eqb d c).
Qed.

Lemma cut_at_spec chars s a b :
  cut_at chars s = (a, b) →
  s = a +:+ b ∧ (∀ c, str_elem c a = true → str_elem c chars = false) ∧
  (b = "" ∨ ∃ c r, b = String c r ∧ str_elem c chars = true).
Proof.
  revert a b. induction s as [|c s IH]; intros a b; simpl.
  - intros [= <- <-]. split_and!; [done..|by left].
  - destruct (str_elem c chars) eqn:Hc.
    + intros [= <- <-]. split_and!; [done..|]. right. by exists c, s.
    + destruct (cut_at chars s) as [a' b'] eqn:Hcut. intros [= <- <-].
      destruct (IH _ _ eq_refl) as (-> & Ha & Hb). split_and!; [done| |done].
      intros d. simpl. destruct (Ascii.eqb_spec d c) as [->|]; [done|by apply Ha].
Qed.

Lemma partition_at_app c a b :
  str_elem c a = false →
  partition_at c (a +:+ (if bool_decide (b = "") then "" else String c b)) = (a, b).
Proof.
  intros Ha. unfold partition_at. rewrite cut_at_app.
  - case_bool_decide; [by subst|done].
  - intros d Hd. simpl. destruct (Ascii.eqb_spec d c) as [->|]; [congruence|done].
  - case_bool_decide; [by left|right]. exists c, b. simpl. by rewrite Ascii.eqb_refl.
Qed.

Lemma partition_at_fst c s a b :
  partition_at c s = (a, b) → str_elem c a = false ∧ (∀ d, str_elem d s = false →
    str_elem d a = false ∧ str_elem d b = false) ∧ (s = a ∨ s = a +:+ String c b).
Proof.
  unfold partition_at. destruct (cut_at (String c "") s) as [a' b'] eqn:Hcut.
  apply cut_at_spec in Hcut as (-> & Ha & Hb). intros H.
  assert (a' = a) as ->. { destruct b'; by injection H. }
  split.
  { destruct (str_elem c a) eqn:Hc; [|done]. specialize (Ha c Hc). simpl in Ha.
    by rewrite Ascii.eqb_refl in Ha. }
  destruct b' as [|d b']; simplify_eq/=.
  - rewrite app_str_nil_r. by split; [|left].
  - destruct Hb as [?|(d' & r & [= <- <-] & Hd)]; [done|]. simpl in Hd.
    destruct (Ascii.eqb_spec d c) as [->|]; [|done]. split; [|by right].
    intros x. rewrite str_elem_app. simpl. intros [-> Hx]%orb_false_iff.
    by destruct (Ascii.eqb x c).
Qed.

(** No character of [s] is one of [chars]. *)
Definition free_of (chars s : string) : Prop :=
  ∀ c, str_elem c s = true → str_elem c chars = false.

Lemma free_of_app chars s t : free_of chars (s +:+ t) ↔ free_of chars s ∧ free_of chars t.
Proof.
  unfold free_of. setoid_rewrite str_elem_app. split.
  - intros H. split; intros c Hc; apply H; rewrite Hc; [done|apply orb_true_r].
  - intros [H1 H2] c [Hc|Hc]%orb_true_iff; auto.
Qed.

Lemma free_of_elem chars s c : free_of chars s → str_elem c chars = true → str_elem c s = false.
Proof. intros H Hc. destruct (str_elem c s) eqn:E; [|done]. apply H in E. congruence. Qed.

(** The results of [urlsplit] on a URL with a scheme and a network location. *)
Record absolute_url (u : split_url) : Prop := AbsoluteUrl {
  abs_scheme : ∃ c s, u_scheme u = String c s ∧ is_alpha c = true ∧
    all_chars scheme_char (u_scheme u) = true ∧
    lower (u_scheme u) = u_scheme u;
  abs_netloc : free_of "/?#" (u_netloc u);
  abs_path : free_of "?#" (u_path u) ∧ (u_path u = "" ∨ startswith "/" (u_path u) = true);
  abs_query : free_of "#" (u_query u) }.

Lemma str_elem_cons c d s : str_elem c (String d s) = Ascii.eqb c d || str_elem c s.
Proof. done. Qed.

Lemma scheme_no_colon s : all_chars scheme_char s = true → str_elem ":" s = false.
Proof.
  induction s as [|c s IH]; [done|]. cbn [all_chars]. intros [Hc Hs]%andb_true_iff.
  rewrite str_elem_cons, IH by done.
  destruct (Ascii.eqb_spec ":" c) as [<-|]; [by vm_compute in Hc|done].
Qed.

(** What follows the network location, and how it is taken apart. *)
Definition url_tail (path query fragment : string) : string :=
  path +:+ (if bool_decide (query = "") then "" else "?" +:+ query)
       +:+ (if bool_decide (fragment = "") then "" else "#" +:+ fragment).

Lemma split_tail path query fragment :
  free_of "?#" path → free_of "#" query →
  partition_at "#" (url_tail path query fragment)
    = (path +:+ (if bool_decide (query = "") then "" else "?" +:+ query), fragment) ∧
  partition_at "?" (path +:+ (if bool_decide (query = "") then "" else "?" +:+ query))
    = (path, query).
Proof.
  intros Hp Hq. unfold url_tail. split.
  - rewrite app_str_assoc. apply (partition_at_app "#").
    rewrite str_elem_app, (free_of_elem "?#") by done. case_bool_decide; [done|].
    change ("?" +:+ query) with (String "?" query). rewrite str_elem_cons.
    by rewrite (free_of_elem "#").
  - apply (partition_at_app "?"). by rewrite (free_of_elem "?#").
Qed.

Lemma urlsplit_urlunsplit u : absolute_url u → urlsplit (urlunsplit u) = u.
Proof.
  intros [(c & s & Hs & Halpha & Hall & Hlow) Hn [Hp Hp'] Hq].
  destruct u as [scheme netloc path query fragment].
  cbn [u_scheme u_netloc u_path u_query u_fragment] in *.
  unfold urlunsplit, urlsplit, split_scheme, split_netloc. cbn [u_scheme u_netloc u_path u_query u_fragment].
  rewrite bool_decide_eq_false_2 by congruence. rewrite <- app_str_assoc.
  assert ((if bool_decide (path = "") || startswith "/" path then "" else "/") = "") as ->.
  { destruct Hp' as [Hp'|Hp']; [by rewrite bool_decide_eq_true_2|].
    by rewrite Hp', orb_true_r. }
  change (":" +:+ "//" +:+ ?x) with (String ":" (String "/" (String "/" x))).
  change ("" +:+ ?x) with x. fold (url_tail path query fragment).
  rewrite (cut_at_app ":" scheme);
    [|intros d Hd; rewrite str_elem_cons; destruct (Ascii.eqb_spec d ":") as [->|]; [|done];
      by rewrite scheme_no_colon in Hd
     |right; by eexists _, _].
  subst scheme. cbv iota beta. rewrite Halpha, Hall. simpl andb. cbv iota.
  rewrite Hlow. rewrite (cut_at_app "/?#" netloc); [|exact Hn|].
  - destruct (split_tail path query fragment Hp Hq) as [-> ->]. done.
  - unfold url_tail. destruct Hp' as [->|Hp'].
    + case_bool_decide; [|right; by eexists _, _].
      case_bool_decide; [by left|right; by eexists _, _].
    + right. apply startswith_spec in Hp' as [r ->]. by eexists _, _.
Qed.

Lemma lower_idemp s : lower (lower s) = lower s.
Proof.
  induction s as [|c s IH]; [done|]. cbn [lower]. f_equal; [|done].
  destruct c as [[] [] [] [] [] [] [] []]; done.
Qed.

Lemma lower_scheme c s :
  is_alpha c = true → all_chars scheme_char (String c s) = true →
  ∃ c' s', lower (String c s) = String c' s' ∧ is_alpha c' = true ∧
    all_chars scheme_char (lower (String c s)) = true.
Proof.
  intros Ha Hall. eexists _, _. split; [done|]. split.
  - destruct c as [[] [] [] [] [] [] [] []]; vm_compute in Ha |- *; congruence.
  - clear Ha. revert Hall. generalize (String c s). intros t.
    induction t as [|d t IH]; [done|]. cbn [all_chars lower].
    intros [Hd Ht]%andb_true_iff. rewrite IH by done. rewrite andb_true_r.
    destruct d as [[] [] [] [] [] [] [] []]; vm_compute in Hd |- *; congruence.
Qed.

(** [urlsplit] gives parts that can be put together again. *)
Lemma urlsplit_absolute url :
  u_scheme (urlsplit url) ≠ "" → u_netloc (urlsplit url) ≠ "" → absolute_url (urlsplit url).
Proof.
  unfold urlsplit.
  assert (Hscheme : (split_scheme url).1 ≠ "" → ∃ c s, (split_scheme url).1 = String c s ∧
    is_alpha c = true ∧ all_chars scheme_char (split_scheme url).1 = true ∧
    lower (split_scheme url).1 = (split_scheme url).1).
  { unfold split_scheme. destruct (cut_at ":" url) as [[|c s] [|d r]]; try done.
    destruct (is_alpha c) eqn:Ha; [|done]. destruct (all_chars scheme_char (String c s)) eqn:Hall; [|done].
    intros _. destruct (lower_scheme c s Ha Hall) as (c' & s' & Hl & Ha' & Hall').
    exists c', s'. split_and!; [done..|]. apply lower_idemp. }
  destruct (split_scheme url) as [scheme rest]. cbn [fst] in Hscheme.
  assert (Hnet : (split_netloc rest).1 ≠ "" → free_of "/?#" (split_netloc rest).1 ∧
    ((split_netloc rest).2 = "" ∨
     ∃ c r, (split_netloc rest).2 = String c r ∧ str_elem c "/?#" = true)).
  { unfold split_netloc. repeat (case_match; try done). intros _.
    destruct (cut_at "/?#" _) as [n r0] eqn:Hcut. by apply cut_at_spec in Hcut as (_ & ? & ?). }
  destruct (split_netloc rest) as [netloc rest']. cbn [fst snd] in Hnet.
  destruct (partition_at "#" rest') as [rest2 fragment] eqn:Hf.
  destruct (partition_at "?" rest2) as [path query] eqn:Hq.
  cbn [u_scheme u_netloc]. intros Hs Hn. destruct (Hnet Hn) as [Hfree Hrest]. clear Hnet.
  apply partition_at_fst in Hf as (Hf1 & _ & Hf2).
  apply partition_at_fst in Hq as (Hq1 & Hq2 & Hq3).
  destruct (Hq2 _ Hf1) as [Hp1 Hq4]. clear Hq2.
  constructor; cbn [u_scheme u_netloc u_path u_query]; [auto|done| |].
  - split.
    + intros c Hc. rewrite !str_elem_cons.
      destruct (Ascii.eqb_spec c "?") as [->|]; [congruence|].
      destruct (Ascii.eqb_spec c "#") as [->|]; [congruence|done].
    + destruct path as [|c path]; [by left|right].
      assert (∃ r, rest' = String c r) as [r Hr].
      { destruct Hf2 as [->| ->], Hq3 as [->| ->]; by eexists. }
      destruct Hrest as [?|(c' & r' & Hr' & Hc)]; [congruence|].
      assert (c' = c) as -> by congruence. revert Hc Hq1 Hp1. rewrite !str_elem_cons.
      destruct (Ascii.eqb_spec c "/") as [->|]; [done|].
      destruct (Ascii.eqb_spec c "?") as [->|]; [done|].
      destruct (Ascii.eqb_spec c "#") as [->|]; done.
  - intros c Hc. rewrite str_elem_cons. destruct (Ascii.eqb_spec c "#") as [->|]; [congruence|done].
Qed.

Lemma quote_safe_free s : free_of "/?#" (quote_safe "" s).
Proof.
  intros c Hc. destruct (str_elem c "/?#") eqn:E; [|done].
  rewrite quote_safe_no_special in Hc; [done|]. revert E. clear.
  destruct c as [[] [] [] [] [] [] [] []]; vm_compute; congruence.
Qed.
