(* ===== verification/Auth.v ===== *)
(** * Credentials of API calls: [src/api_utils/auth_factories.py]

    HTTP responses, the webhook event context, and the two authorization
    factories that cache a token: the GitHub app factory, whose class-level
    cache is keyed by installation id, and the Azure DevOps service principal
    factory, whose instance holds one token.  A cache is explicit state: an
    operation takes it and returns the one it leaves. *)
From S2P Require Import Prelude PyStr PyJson Url.
Open Scope string_scope.
Open Scope nat_scope.
Open Scope list_scope.

(** ** HTTP responses *)

(** What the program reads of a [requests.Response]. *)
Record response : Type := Response {
  r_ok : bool;
  r_status_code : Z;
  r_json : outcome json;
  r_headers : dict string;
  r_text : string }.

(** ** Event contexts *)
Record EventContext : Type := MkEventContext {
  raw_event_payload : string;
  headers : dict string;
  message : json }.

(** [EventContext(raw, headers)]: [__post_init__] parses the payload. *)
Definition event_context_new (json_loads : string → outcome json)
    (raw : string) (hdrs : dict string) : outcome EventContext :=
  let? m := json_loads raw in Ok (MkEventContext raw hdrs m).

(** [HeaderFilteredEventContext]: keep the headers whose name the pattern
    matches. *)
Definition filtered_event_context (json_loads : string → outcome json)
    (pattern_match : string → bool) (raw : string) (hdrs : dict string) :
    outcome EventContext :=
  event_context_new json_loads raw (filter (λ kv, pattern_match kv.1 = true) hdrs).

(** Decoding a message makes its context anew: the payload is parsed again, whatever
    [message] was when it was encoded. *)
Definition reread (json_loads : string → outcome json) (x : EventContext) : EventContext :=
  match json_loads (raw_event_payload x) with
  | Ok m => MkEventContext (raw_event_payload x) (headers x) m
  | Err _ => x
  end.

(** Contexts of one event: they may differ in what was done to [message]. *)
Definition same_event (x y : EventContext) : Prop :=
  raw_event_payload x = raw_event_payload y ∧ headers x = headers y.

Lemma reread_idemp json_loads x : reread json_loads (reread json_loads x) = reread json_loads x.
Proof. unfold reread. destruct (json_loads (raw_event_payload x)) eqn:H; simpl; by rewrite H. Qed.
Lemma reread_same json_loads x y :
  json_loads (raw_event_payload y) = Ok (message y) → same_event x y → reread json_loads x = y.
Proof. intros Hy [Hr Hh]. unfold reread. rewrite Hr, Hh, Hy. by destruct y. Qed.
Lemma reread_parsed json_loads x :
  json_loads (raw_event_payload x) = Ok (message x) → reread json_loads x = x.
Proof. intros H. by apply reread_same. Qed.
Lemma reread_unaltered json_loads x :
  message (reread json_loads x) = message x → reread json_loads x = x.
Proof.
  unfold reread. destruct (json_loads (raw_event_payload x)); [|done].
  destruct x; simpl. by intros ->.
Qed.
Lemma event_context_new_parsed json_loads raw hdrs x :
  event_context_new json_loads raw hdrs = Ok x →
  json_loads (raw_event_payload x) = Ok (message x).
Proof. unfold event_context_new. by destruct (json_loads raw) eqn:H; intros [= <-]. Qed.

(** ** Calls *)
Inductive auth_ev : Type :=
| Now                                        (* the clock, in seconds *)
| PostToken (url : string) (bearer : option string) (form : dict string).

Definition auth_resp (e : auth_ev) : Type :=
  match e with Now => Z | PostToken _ _ _ => response end.

#[global] Arguments auth_resp : simpl never.

Definition is_post (e : auth_ev) : bool :=
  match e with PostToken _ _ _ => true | Now => false end.

Abbreviation auth_prog := (prog auth_ev auth_resp).

(** A GitHub app token and the time it expires. *)
Abbreviation token_tuple := (json * Z)%type.
Abbreviation token_cache := (list (json * token_tuple)).

(** [GithubAppAuthFactory.__token_cache] *)
Fixpoint cache_get (k : json) (c : token_cache) : option token_tuple :=
  match c with
  | [] => None
  | (k', v) :: c' => if decide (k = k') then Some v else cache_get k c'
  end.
Fixpoint cache_set (k : json) (v : token_tuple) (c : token_cache) : token_cache :=
  match c with
  | [] => [(k, v)]
  | (k', v') :: c' =>
      if decide (k = k') then (k', v) :: c' else (k', v') :: cache_set k v c'
  end.

(** The JSONPath queries of [GithubAppAuthFactory]. *)
Definition event_installation_id : string := "$.installation.id".
Definition kickoff_installation_id : string := "$.install_id".
Definition kickoff_app_id : string := "$.app_id".

Section auth.
(** [jp q m] is the values that the JSONPath query [q] finds in [m]; the other
    parameters are the libraries' JSON response check, JWT encoder and date
    parser, and [repr]. *)
Context (jp : string → json → list json).
Context (json_on_ok : response → outcome json).
Context (jwt_encode : json → string → outcome string).
Context (fromisoformat : string → outcome Z).
Context (repr : json → string).

Definition find_install_id (ctx : EventContext) : outcome json :=
  match jp event_installation_id (message ctx) with
  | v :: _ => Ok v
  | [] => match jp kickoff_installation_id (message ctx) with
          | v :: _ => Ok v
          | [] => Err AuthFactoryException
          end
  end.

Definition app_id_header : string := "X-Github-Hook-Installation-Target-Id".

Definition find_app_id (ctx : EventContext) : outcome json :=
  match dget app_id_header (headers ctx) with
  | Some v => Ok (JStr v)
  | None => match jp kickoff_app_id (message ctx) with
            | v :: _ => Ok v
            | [] => Err AuthFactoryException
            end
  end.

(** [__encoded_jwt_factory]: the parameter is called install_id in the source,
    and it is given the app id. *)
Definition encoded_jwt_factory (pkey : string) (install_id : json) : auth_prog string :=
  let! iat := call Now in
  let! exp := call Now in
  lift (jwt_encode (JObj [("iat", JInt iat); ("exp", JInt (exp + 600));
                          ("iss", JStr (py_str repr install_id));
                          ("alg", JStr "RS256")]) pkey).

Definition get_token_tuple (pkey api_url : string) (cache : token_cache)
    (ctx : EventContext) (force_reauth : bool) : auth_prog (token_tuple * token_cache) :=
  let! install_id := lift (find_install_id ctx) in
  let! app_id := lift (find_app_id ctx) in
  if negb (not_none install_id) || negb (not_none app_id)
  then Raise AuthFactoryException
  else
    let! cached := match cache_get install_id cache
                         return auth_prog (option token_tuple) with
                   | Some t => let! now := call Now in
                               Ret (if (t.2 <=? now)%Z then None else Some t)
                   | None => Ret None
                   end in
    match (if force_reauth then None else cached) with
    | Some t => Ret (t, cache)
    | None =>
        let! bearer := encoded_jwt_factory pkey app_id in
        let! resp := call (PostToken (rstrip "/" api_url +:+ "/app/installations/"
                                  +:+ py_str repr install_id +:+ "/access_tokens")
                               (Some bearer) []) in
        let! token_response := lift (json_on_ok resp) in
        let! token := lift (jindex "token" token_response) in
        let! expires := lift (let? e := jindex "expires_at" token_response in
                             let? s := as_str e in fromisoformat s) in
        Ret ((token, expires), cache_set install_id (token, expires) cache)
    end.

(** [GithubAppAuthFactory.get_token] *)
Definition gh_app_get_token (pkey api_url : string) (cache : token_cache)
    (event_context : option EventContext) (force_reauth : bool) :
    auth_prog (json * token_cache) :=
  match event_context with
  | None => Raise AuthFactoryException
  | Some ctx =>
      let! r := get_token_tuple pkey api_url cache ctx force_reauth in
      Ret (r.1.1, r.2)
  end.

(** [ADOSPClientSecretAuthFactory]: its configuration and its cached token. *)
Record ado_sp : Type := AdoSp {
  tenant_id : string; client_id : string; client_secret : string }.
Record ado_state : Type := AdoState {
  cached_token : option json; token_exp : option Z }.

Definition ado_initial : ado_state := AdoState None None.

Definition oauth_token_api_url (f : ado_sp) : string :=
  "https://login.microsoftonline.com/" +:+ tenant_id f +:+ "/oauth2/v2.0/token".

Definition form_payload (f : ado_sp) : dict string :=
  [("client_id", client_id f);
   ("scope", "https://app.vssps.visualstudio.com/.default");
   ("client_secret", client_secret f);
   ("grant_type", "client_credentials")].

Definition as_int (v : json) : outcome Z :=
  match v with JInt n => Ok n | _ => Err TypeError end.

(** [ADOSPClientSecretAuthFactory.get_token].  The instance keeps what was
    assigned before an exception, so the state left is part of every result. *)
Definition ado_get_token (f : ado_sp) (s : ado_state) (force_reauth : bool) :
    auth_prog (outcome (option json) * ado_state) :=
  let! s := match cached_token s, token_exp s return auth_prog ado_state with
            | Some _, Some e => let! now := call Now in
                                Ret (if (e <=? now)%Z then AdoState None None else s)
            | _, _ => Ret s
            end in
  match (if force_reauth then None else cached_token s) with
  | Some t => Ret (Ok (Some t), s)
  | None =>
      on_outcome (λ r, match r with
        | Err e => Ret (Err e, s)
        | Ok (token, token_response) =>
            on_outcome (λ r, match r with
              | Err e => Ret (Err e, AdoState (Some token) (token_exp s))
              | Ok exp => Ret (Ok (Some token), AdoState (Some token) (Some exp))
              end)
              (let! now := call Now in
               let! expires_in := lift (let? e := jindex "expires_in" token_response in
                                        as_int e) in
               Ret (now + expires_in)%Z)
        end)
        (let! resp := call (PostToken (oauth_token_api_url f) None (form_payload f)) in
         let! token_response := lift (json_on_ok resp) in
         let! token := lift (jindex "access_token" token_response) in
         Ret (token, token_response))
  end.

End auth.

(** ** Lemmas *)

Lemma cache_get_set k k' v c :
  cache_get k (cache_set k' v c) = if decide (k = k') then Some v else cache_get k c.
Proof.
  induction c as [|[k1 v1] c IH]; simpl; [done|].
  destruct (decide (k' = k1)) as [->|]; simpl.
  - by destruct (decide (k = k1)).
  - rewrite IH. destruct (decide (k = k1)) as [->|]; [|done].
    by rewrite decide_False by congruence.
Qed.

(** ** Theorems *)
Section theorems.
Context (jp : string → json → list json).
Context (json_on_ok : response → outcome json).
Context (jwt_encode : json → string → outcome string).
Context (fromisoformat : string → outcome Z).
Context (repr : json → string).

Lemma encoded_jwt_posts pkey app_id :
  only (λ e, is_post e = false) (encoded_jwt_factory jwt_encode repr pkey app_id).
Proof. unfold encoded_jwt_factory. only_calls. Qed.

(** A GitHub app token that is handed out is either the one cached for the
    installation of the event, not forced to be renewed and not expired at the
    time the clock was read, or the one GitHub's last answer holds, and then it
    is cached for that installation and for no other. *)
Theorem gh_app_token_fresh pkey api_url cache ctx force tr tok cache' :
  exec (gh_app_get_token jp json_on_ok jwt_encode fromisoformat repr
          pkey api_url cache (Some ctx) force) tr (Ok (tok, cache')) →
  ∃ id, find_install_id jp ctx = Ok id ∧
  ((∃ exp now, force = false ∧ cache_get id cache = Some (tok, exp) ∧
     tr = [Obs Now (Ok now)] ∧ (now < exp)%Z ∧ cache' = cache)
   ∨ (∃ pre url bearer resp v exp,
       tr = pre ++ [Obs (PostToken url (Some bearer) []) (Ok resp)] ∧
       Forall (λ e, is_post e = false) (events pre) ∧
       json_on_ok resp = Ok v ∧ jindex "token" v = Ok tok ∧
       ∀ id', cache_get id' cache' =
              if decide (id' = id) then Some (tok, exp) else cache_get id' cache)).
Proof.
  unfold gh_app_get_token, get_token_tuple. intros H.
  apply exec_bind_ok in H as ([t c] & tr1 & tr2 & -> & H & [-> Ht]).
  simpl in Ht. simplify_eq. rewrite app_nil_r.
  apply exec_lift_bind_ok in H as (id & Hid & H).
  apply exec_lift_bind_ok in H as (app & _ & H).
  exists id. split; [done|].
  destruct (_ || _); [by destruct H|].
  apply exec_bind_ok in H as (cached & tr0 & tr2 & -> & Hc & H).
  assert (Hcached : (cached = None ∧ Forall (λ e, is_post e = false) (events tr0)) ∨
    ∃ t now, cached = Some t ∧ cache_get id cache = Some t ∧
             tr0 = [Obs Now (Ok now)] ∧ (now < t.2)%Z).
  { destruct (cache_get id cache) as [t'|]; inv_exec; [|by left].
    destruct (_ <=? _)%Z eqn:Hexp; [left|right].
    - split; [done|]. by repeat constructor.
    - eexists _, _. split_and!; try done. lia. }
  clear Hc. destruct (if force then None else cached) as [t'|] eqn:Hf.
  - destruct H as [-> [= -> ->]]. left. destruct force; [done|]. subst cached.
    destruct Hcached as [[? _]|(t0 & now & [= ->] & Hget & -> & Hlt)]; [done|].
    exists t0.2, now. rewrite app_nil_r. by destruct t0.
  - right. apply exec_bind_ok in H as (bearer & tr3 & tr4 & -> & Hjwt & H).
    inv_exec. exists (tr0 ++ tr3). eexists _, _, _, _, _.
    split_and!; [by rewrite <- app_assoc| |done|done|by intros id'; apply cache_get_set].
    rewrite events_app. apply Forall_app. split; [|by eapply encoded_jwt_posts].
    destruct Hcached as [[_ ?]|(? & now & _ & _ & -> & _)]; [done|by repeat constructor].
Qed.

(** The Azure DevOps service principal hands out its cached token, with no
    request, only when it is not told to renew it and the token's known
    expiration is in the future; otherwise it makes one request, to its
    tenant's URL with its own form, caches the token of the answer, and sets
    the expiration from a clock read after the answer. *)
Theorem ado_token_cache f s force tr tok s' :
  exec (ado_get_token json_on_ok f s force) tr (Ok (Ok (Some tok), s')) →
  (force = false ∧ cached_token s = Some tok ∧ s' = s ∧
   match token_exp s with
   | Some exp => ∃ now, tr = [Obs Now (Ok now)] ∧ (now < exp)%Z
   | None => tr = []
   end)
  ∨ (∃ pre resp v now n,
      Forall (λ e, is_post e = false) (events pre) ∧
      tr = pre ++ [Obs (PostToken (oauth_token_api_url f) None (form_payload f)) (Ok resp);
                   Obs Now (Ok now)] ∧
      json_on_ok resp = Ok v ∧ jindex "access_token" v = Ok tok ∧
      jindex "expires_in" v = Ok (JInt n) ∧
      s' = AdoState (Some tok) (Some (now + n)%Z)).
Proof.
  unfold ado_get_token. intros H.
  apply exec_bind_ok in H as (s1 & tr0 & tr2 & -> & Hc & H).
  assert (Hs : Forall (λ e, is_post e = false) (events tr0) ∧
    (cached_token s1 = None ∨ s1 = s ∧ (is_Some (cached_token s) →
       match token_exp s with
       | Some exp => ∃ now, tr0 = [Obs Now (Ok now)] ∧ (now < exp)%Z
       | None => tr0 = []
       end))).
  { destruct (cached_token s) as [t|] eqn:Ht, (token_exp s) as [exp|] eqn:He;
      inv_exec; try (split; [by repeat constructor|]); [|by right|..].
    - destruct (_ <=? _)%Z eqn:Hexp; [by left|]. right. split; [done|].
      intros _. eexists. split; [done|lia].
    - by left.
    - by left. }
  clear Hc. destruct Hs as [Hpre Hs].
  destruct (if force then None else cached_token s1) as [t|] eqn:Hf.
  - destruct H as [-> [= -> ->]]. left. destruct force; [done|].
    destruct Hs as [?|[-> Hs]]; [congruence|]. rewrite app_nil_r.
    split_and!; try done. by apply Hs.
  - right. apply exec_on_outcome in H as (o1 & tr3 & tr4 & -> & H1 & H).
    destruct o1 as [[tok1 v]|]; [|by destruct H].
    apply exec_on_outcome in H as (o2 & tr5 & tr6 & -> & H2 & H).
    destruct o2 as [exp|]; [|by destruct H]. destruct H as [-> [= -> ->]].
    inv_exec. destruct (jindex "expires_in" _) as [e|] eqn:He; [|done]. simpl in *.
    destruct e; simplify_eq/=. eexists tr0, _, _, _, _. split_and!; done.
Qed.
(** The cache belongs to the class and knows an installation by its id alone:
    a token that is in it is handed out for an event of that installation id
    whatever the factory's API and key are, with no request, until it expires.
    Two GitHub hosts that number an installation alike share its token. *)
Theorem token_crosses_hosts pkey api_url cache ctx id app tok exp now :
  find_install_id jp ctx = Ok id → find_app_id jp ctx = Ok app →
  not_none id = true → not_none app = true →
  cache_get id cache = Some (tok, exp) → (now < exp)%Z →
  exec (gh_app_get_token jp json_on_ok jwt_encode fromisoformat repr
          pkey api_url cache (Some ctx) false) [Obs Now (Ok now)] (Ok (tok, cache)).
Proof.
  intros Hid Happ Hi Ha Hc Hlt. unfold gh_app_get_token.
  apply exec_bind. left. exists (tok, exp, cache), [Obs Now (Ok now)], [].
  split_and!; [done| |done].
  apply exec_lift_bind_ok. exists id. split; [done|].
  apply exec_lift_bind_ok. exists app. split; [done|].
  rewrite Hi, Ha, Hc. apply exec_bind_ok.
  exists (Some (tok, exp)), [Obs Now (Ok now)], []. split_and!; [done| |done].
  apply exec_call_bind_ok. exists now, []. split; [done|].
  cbn [exec snd]. by rewrite (proj2 (Z.leb_gt exp now) Hlt).
Qed.
End theorems.

(** ** Witnesses: one installation, one answer of the token endpoint. *)
Definition demo_jp (q : string) (m : json) : list json :=
  if decide (q = "$.app_id") then [JInt 7]
  else if decide (q = "$.install_id") then [JInt 42] else [].
Definition demo_answer : json :=
  JObj [("token", JStr "tok"); ("access_token", JStr "tok");
        ("expires_at", JStr "2030"); ("expires_in", JInt 300)].
Definition demo_response (v : json) : response := Response true 200 (Ok v) [] "".
Definition demo_auth_world (clock : Z) (e : auth_ev) : outcome (auth_resp e) * Z :=
  match e return outcome (auth_resp e) * Z with
  | Now => (Ok clock, clock + 1)%Z
  | PostToken _ _ _ => (Ok (demo_response demo_answer), clock)
  end.
Definition demo_context : EventContext := MkEventContext "" [] (JObj []).
Definition demo_date (s : string) : outcome Z := Ok 500%Z.

Definition demo_gh (cache : token_cache) : auth_prog (json * token_cache) :=
  gh_app_get_token demo_jp r_json (λ _ _, Ok "jwt") demo_date (λ _, "42")
    "key" "https://api" cache (Some demo_context) false.
Definition demo_ado (s : ado_state) : auth_prog (outcome (option json) * ado_state) :=
  ado_get_token r_json (AdoSp "t" "c" "s") s false.

Lemma gh_app_token_fresh_witness : ∃ id exp now,
  find_install_id demo_jp demo_context = Ok id ∧
  run_trace demo_auth_world 100%Z (demo_gh [(JInt 42, (JStr "old", 200%Z))]) =
    [Obs Now (Ok now)] ∧ (now < exp)%Z.
Proof.
  destruct (gh_app_token_fresh demo_jp r_json (λ _ _, Ok "jwt") demo_date (λ _, "42")
              "key" "https://api" [(JInt 42, (JStr "old", 200%Z))] demo_context false
              _ _ _ (exec_run demo_auth_world 100%Z
                       (demo_gh [(JInt 42, (JStr "old", 200%Z))])))
    as (id & Hid & [(exp & now & _ & _ & Htr & Hlt & _)|(pre & u & b & r & v & e & _ & _ & _ & Htok & _)]).
  - by exists id, exp, now.
  - exists id, 200%Z, 100%Z. split; [exact Hid|]. split; [reflexivity|lia].
Defined.

(** The factory of one host obtains a token and caches it; the factory of
    another host, with its own key, then hands that token out. *)
Definition demo_two_hosts : auth_prog (json * token_cache) :=
  let! first := demo_gh [] in
  gh_app_get_token demo_jp r_json (λ _ _, Ok "other jwt") demo_date (λ _, "42")
    "other key" "https://other" first.2 (Some demo_context) false.

Lemma token_crosses_hosts_witness :
  run_trace demo_auth_world 100%Z demo_two_hosts =
    run_trace demo_auth_world 100%Z (demo_gh []) ++ [Obs Now (Ok 102%Z)] ∧
  exec (gh_app_get_token demo_jp r_json (λ _ _, Ok "other jwt") demo_date (λ _, "42")
          "other key" "https://other" [(JInt 42, (JStr "tok", 500%Z))]
          (Some demo_context) false)
    [Obs Now (Ok 102%Z)] (Ok (JStr "tok", [(JInt 42, (JStr "tok", 500%Z))])).
Proof.
  split; [reflexivity|].
  by apply (token_crosses_hosts demo_jp r_json (λ _ _, Ok "other jwt") demo_date
              (λ _, "42") "other key" "https://other" _ demo_context (JInt 42) (JInt 7)
              (JStr "tok") 500%Z 102%Z).
Defined.

Lemma ado_token_cache_witness : ∃ pre resp now,
  run_trace demo_auth_world 100%Z (demo_ado ado_initial) =
    pre ++ [Obs (PostToken (oauth_token_api_url (AdoSp "t" "c" "s")) None
                   (form_payload (AdoSp "t" "c" "s"))) (Ok resp); Obs Now (Ok now)].
Proof.
  destruct (ado_token_cache r_json (AdoSp "t" "c" "s") ado_initial false _ (JStr "tok") _
              (exec_run demo_auth_world 100%Z (demo_ado ado_initial)))
    as [(_ & H & _)|(pre & resp & v & now & n & _ & Htr & _)].
  - discriminate H.
  - exists pre, resp, now. exact Htr.
Defined.
