(* ===== verification/ApiSession.v ===== *)
(** * REST calls and signatures: [src/api_utils/apisession.py],
    [src/api_utils/pagers.py] and [src/api_utils/__init__.py]

    [api_exec] is [APISession.exec]: a bounded number of attempts, each with the
    credentials of the session's factory.  [gen_next] is one step of the page
    generator and [gen_all] a consumer that reads it to its end.  The last
    section is the webhook signature. *)
From S2P Require Import Prelude PyStr PyJson Url Auth.
Open Scope string_scope.
Open Scope nat_scope.
Open Scope list_scope.

(** ** Requests *)

(** The credentials [get_auth] returns. *)
Inductive credential : Type :=
| BasicAuth (username password : string)
| BearerAuth (token : json).

Record api_request : Type := ApiRequest {
  q_method : string;
  q_url : string;
  q_params : dict json;
  q_data : option string;
  q_headers : dict string;
  q_auth : credential }.

Inductive api_ev : Type :=
| GetAuth (force_reauth : bool)
| Request (r : api_request)
| Sleep (seconds : Z).

Definition api_resp (e : api_ev) : Type :=
  match e with GetAuth _ => credential | Request _ => response | Sleep _ => unit end.
#[global] Arguments api_resp : simpl never.

Abbreviation api_prog := (prog api_ev api_resp).

Definition is_request (e : api_ev) : bool :=
  match e with Request _ => true | _ => false end.

(** ** [APISession] *)
Record api_session : Type := ApiSession {
  api_endpoint : string;
  retries : nat;
  user_agent : string }.

(** One attempt after the other: [try_count] of [range(0, retries)]. *)
Fixpoint api_attempts (req : credential → api_request) (try_count left : nat) :
    api_prog response :=
  match left with
  | 0 => Raise RetriesExhausted
  | S left' =>
      let! auth := call (GetAuth (0 <? try_count)) in
      let! response := call (Request (req auth)) in
      if negb (r_ok response) then
        if bool_decide (r_status_code response ∈ [401; 403]%Z)
        then Raise SCMAuthException
        else do! call (Sleep 1) in api_attempts req (S try_count) left'
      else Ret response
  end.

Definition api_exec (s : api_session) (method path : string) (query : dict json)
    (body : option string) (extra_headers : option (dict string))
    (url_vars : option (dict string)) : api_prog response :=
  let url := apply_url_vars (concat_path_to_endpoint (api_endpoint s) path) url_vars in
  let headers := dunion [("User-Agent", user_agent s)] (default [] extra_headers) in
  api_attempts (λ auth, ApiRequest method url query body headers auth) 0 (retries s).

(** ** [async_api_page_generator]

    [coro] is the call for a page at an offset and [data_extractor] reads a
    page, [None] for Python's [None], and whether it is the last. *)
Record gen_state (A : Type) : Type := GenState {
  g_offset : nat; g_buf : list A; g_last : bool }.
Arguments GenState {A} g_offset g_buf g_last.
Arguments g_offset {A} g.
Arguments g_buf {A} g.
Arguments g_last {A} g.

Definition gen_init {A} : gen_state A := GenState 0 [] false.

Section pager.
Context {Ev : Type} {Resp : Ev → Type} {A : Type}.
Context (coro : nat → prog Ev Resp response).
Context (data_extractor : response → outcome (option (list A) * bool)).

(** [yield buf.pop()]: the last element of the buffer. *)
Definition yield_pop (offset : nat) (buf : list A) (last_page : bool) :
    outcome (option (A * gen_state A)) :=
  match reverse buf with
  | x :: r => Ok (Some (x, GenState offset (reverse r) last_page))
  | [] => Err IndexError
  end.

(** Resume the generator: the next element, or [None] when it returns. *)
Definition gen_next (g : gen_state A) : prog Ev Resp (option (A * gen_state A)) :=
  match g_buf g with
  | [] =>
      if g_last g then Ret None
      else
        let! resp := coro (g_offset g) in
        let! ' (buf, last_page) := lift (data_extractor resp) in
        match buf with
        | None | Some [] => Ret None
        | Some buf => lift (yield_pop (S (g_offset g)) buf last_page)
        end
  | buf => lift (yield_pop (g_offset g) buf (g_last g))
  end.

(** [[x async for x in generator]], at most [fuel] elements. *)
Fixpoint gen_all (fuel : nat) (g : gen_state A) : prog Ev Resp (list A) :=
  match fuel with
  | 0 => Raise OutOfFuel
  | S fuel' =>
      let! r := gen_next g in
      match r with
      | None => Ret []
      | Some (x, g') => let! l := gen_all fuel' g' in Ret (x :: l)
      end
  end.

(** [async for x in generator: ...] up to the element with which the body breaks. *)
Fixpoint gen_find {B} (body : A → outcome (option B)) (fuel : nat) (g : gen_state A) :
    prog Ev Resp (option B) :=
  match fuel with
  | 0 => Raise OutOfFuel
  | S fuel' =>
      let! r := gen_next g in
      match r with
      | None => Ret None
      | Some (x, g') =>
          let! b := lift (body x) in
          match b with Some y => Ret (Some y) | None => gen_find body fuel' g' end
      end
  end.
End pager.

(** ** Signatures *)
Section signature.
(** [available] is [hashlib.algorithms_available] and [hmac alg secret body] the
    hex digest. *)
Context (available : string → bool).
Context (hmac : string → string → string → string).

Definition gen_signature_hash (algorithm secret body : string) : outcome string :=
  if available algorithm then Ok (hmac algorithm secret body) else Err NotImplementedError.

Definition gen_signature_header (secret body : string) : outcome (string * string) :=
  let? h := gen_signature_hash "sha256" secret body in Ok ("sha256", h).

Definition verify_signature (signature_header secret body : string) : outcome bool :=
  match split "="%char signature_header with
  | [algorithm; hash] =>
      let? h := gen_signature_hash algorithm secret body in Ok (bool_decide (h = hash))
  | _ => Err ValueError
  end.
End signature.

(** ** Theorems *)

(** An attempt that the session repeats: the response is an error that is not
    an authorization error, and the session sleeps a second after it. *)
Definition retryable (resp : response) : Prop :=
  r_ok resp = false ∧ r_status_code resp ∉ [401; 403]%Z.

Definition failed_attempt (req : credential → api_request) (k : nat)
    (ar : credential * response) : list (obs api_ev api_resp) :=
  [Obs (GetAuth (0 <? k)) (Ok ar.1); Obs (Request (req ar.1)) (Ok ar.2);
   Obs (Sleep 1) (Ok tt)].

(** The calls of the attempts [k], [k + 1], ... that failed. *)
Fixpoint failed_attempts (req : credential → api_request) (k : nat)
    (l : list (credential * response)) : list (obs api_ev api_resp) :=
  match l with
  | [] => []
  | ar :: l' => failed_attempt req k ar ++ failed_attempts req (S k) l'
  end.

(** How the last attempt, the [k]-th, ends and what the call then returns. *)
Inductive last_attempt (req : credential → api_request) (k : nat) :
    list (obs api_ev api_resp) → outcome response → Prop :=
| last_ok auth resp :
    r_ok resp = true →
    last_attempt req k [Obs (GetAuth (0 <? k)) (Ok auth);
                        Obs (Request (req auth)) (Ok resp)] (Ok resp)
| last_unauthorized auth resp :
    r_ok resp = false → r_status_code resp ∈ [401; 403]%Z →
    last_attempt req k [Obs (GetAuth (0 <? k)) (Ok auth);
                        Obs (Request (req auth)) (Ok resp)] (Err SCMAuthException)
| last_no_auth x :
    last_attempt req k [Obs (GetAuth (0 <? k)) (Err x)] (Err x)
| last_no_response auth x :
    last_attempt req k [Obs (GetAuth (0 <? k)) (Ok auth);
                        Obs (Request (req auth)) (Err x)] (Err x)
| last_no_sleep auth resp x :
    retryable resp →
    last_attempt req k [Obs (GetAuth (0 <? k)) (Ok auth);
                        Obs (Request (req auth)) (Ok resp);
                        Obs (Sleep 1) (Err x)] (Err x).

Lemma api_attempts_spec req n : ∀ k tr o,
  exec (api_attempts req k n) tr o →
  ∃ fails last,
    Forall (λ ar, retryable ar.2) fails ∧
    tr = failed_attempts req k fails ++ last ∧
    ((last = [] ∧ length fails = n ∧ o = Err RetriesExhausted)
     ∨ (length fails < n ∧ last_attempt req (k + length fails) last o)).
Proof.
  induction n as [|n IH]; intros k tr o H; simpl in H.
  { destruct H as [-> ->]. exists [], []. split; [done|]. eauto. }
  assert (Hlast : ∀ last, last_attempt req k last o → tr = last → ∃ fails last0,
    Forall (λ ar : credential * response, retryable ar.2) fails ∧
    tr = failed_attempts req k fails ++ last0 ∧
    ((last0 = [] ∧ length fails = S n ∧ o = Err RetriesExhausted)
     ∨ (length fails < S n ∧ last_attempt req (k + length fails) last0 o))).
  { intros last HL ->. exists [], last. split; [done|]. split; [done|]. right. simpl.
    rewrite Nat.add_0_r. split; [lia|done]. }
  call_step H as [(auth & tr1 & Htr & H)|(x & Htr & ->)];
    [|eapply Hlast; [apply last_no_auth|done]].
  call_step H as [(resp & tr2 & Htr1 & H)|(x & Htr1 & ->)]; subst tr1;
    [|eapply Hlast; [apply last_no_response|done]].
  destruct (r_ok resp) eqn:Hok; simpl in H.
  { destruct H as [-> ->]. eapply Hlast; [by apply last_ok|done]. }
  case_bool_decide as Hst.
  { destruct H as [-> ->]. eapply Hlast; [by apply last_unauthorized|done]. }
  call_step H as [([] & tr3 & -> & H)|(x & -> & ->)];
    [|eapply Hlast; [by apply last_no_sleep|done]].
  apply IH in H as (fails & last & Hf & -> & H). clear Hlast.
  exists ((auth, resp) :: fails), last. split; [by constructor|].
  split; [done|]. simpl. rewrite <- plus_n_Sm.
  destruct H as [(-> & <- & ->)|(Hlt & HL)]; [by left|]. right. split; [lia|done].
Qed.

(** C23: an API call makes at most [retries] requests, the first one included, all
    equal but for the credentials; the credentials are renewed by force on every attempt but the
    first; it goes on only after an error response other than 401 and 403 and a
    sleep of one second.  It returns the first good response, raises
    [SCMAuthException] at the first 401 or 403, and raises [RetriesExhausted]
    exactly when all [retries] attempts failed otherwise. *)
Theorem api_exec_attempts s method path query body hdrs vars tr o :
  exec (api_exec s method path query body hdrs vars) tr o →
  let req := λ auth, ApiRequest method
      (apply_url_vars (concat_path_to_endpoint (api_endpoint s) path) vars) query body
      (dunion [("User-Agent", user_agent s)] (default [] hdrs)) auth in
  ∃ fails last,
    Forall (λ ar, retryable ar.2) fails ∧
    tr = failed_attempts req 0 fails ++ last ∧
    ((last = [] ∧ length fails = retries s ∧ o = Err RetriesExhausted)
     ∨ (length fails < retries s ∧ last_attempt req (length fails) last o)).
Proof. apply api_attempts_spec. Qed.

Section pager_theorem.
Context {Ev : Type} {Resp : Ev → Type} {A : Type}.
Context (coro : nat → prog Ev Resp response).
Context (data_extractor : response → outcome (option (list A) * bool)).

(** [served k trs pages]: the calls for the pages [k], [k + 1], ... are [trs],
    and [pages] are the elements they give: non-empty pages, up to the one that
    is marked as the last or to an empty one. *)
Inductive served : nat → list (obs Ev Resp) → list (list A) → Prop :=
| served_last k tr resp p :
    exec (coro k) tr (Ok resp) → p ≠ [] →
    data_extractor resp = Ok (Some p, true) → served k tr [p]
| served_end k tr resp p last :
    exec (coro k) tr (Ok resp) → p = None ∨ p = Some [] →
    data_extractor resp = Ok (p, last) → served k tr []
| served_more k tr resp p tr' ps :
    exec (coro k) tr (Ok resp) → p ≠ [] →
    data_extractor resp = Ok (Some p, false) → served (S k) tr' ps →
    served k (tr ++ tr') (p :: ps).

Lemma yield_pop_snoc k (b : list A) x last :
  yield_pop k (b ++ [x]) last = Ok (Some (x, GenState k b last)).
Proof. unfold yield_pop. rewrite reverse_snoc, reverse_involutive. done. Qed.

Lemma gen_next_buffered k (b : list A) x last :
  gen_next coro data_extractor (GenState k (b ++ [x]) last) =
  Ret (Some (x, GenState k b last)).
Proof.
  unfold gen_next. cbn [g_buf g_offset g_last].
  destruct (b ++ [x]) as [|y l] eqn:Hb; [by destruct b|].
  by rewrite <- Hb, yield_pop_snoc.
Qed.

(** A buffer is read from its end before the generator goes on. *)
Lemma gen_all_buffered k last tr l fuel : ∀ b : list A,
  exec (gen_all coro data_extractor fuel (GenState k [] last)) tr (Ok l) →
  exec (gen_all coro data_extractor (length b + fuel) (GenState k b last)) tr
    (Ok (reverse b ++ l)).
Proof.
  intros b. induction b as [|x b IH] using rev_ind; intros H; [done|].
  rewrite length_app, reverse_snoc. simpl. rewrite (Nat.add_comm (length b)). simpl.
  rewrite gen_next_buffered. change (bindP (Ret ?a) ?f) with (f a). cbv beta iota.
  apply exec_bind_ok. eexists _, tr, []. rewrite app_nil_r.
  split; [done|]. split; [by apply IH|]. done.
Qed.

Lemma gen_all_fetch k tr resp p last tr' l fuel :
  exec (coro k) tr (Ok resp) → p ≠ [] → data_extractor resp = Ok (Some p, last) →
  exec (gen_all coro data_extractor fuel (GenState (S k) [] last)) tr' (Ok l) →
  exec (gen_all coro data_extractor (length p + fuel) (GenState k [] false)) (tr ++ tr')
    (Ok (reverse p ++ l)).
Proof.
  intros Hc Hp Hd Hrest. apply (gen_all_buffered _ _ _ _ _ p) in Hrest.
  destruct p as [|x b _] using rev_ind; [done|]. clear Hp.
  rewrite length_app, (Nat.add_comm (length b)) in *. simpl in *.
  rewrite gen_next_buffered in Hrest. unfold gen_next. cbn [g_buf g_offset g_last].
  apply exec_bind_ok. eexists (Some (x, GenState (S k) b last)), tr, tr'.
  split; [done|]. split; [|exact Hrest].
  apply exec_bind_ok. exists resp, tr, []. rewrite app_nil_r.
  split; [done|]. split; [done|]. apply exec_lift_bind. left.
  eexists. split; [done|]. cbv beta iota.
  destruct (b ++ [x]) as [|y r] eqn:Hb; [by destruct b|].
  rewrite <- Hb, yield_pop_snoc. done.
Qed.

Lemma gen_all_served k trs pages :
  served k trs pages → ∀ fuel, length (concat pages) < fuel →
  exec (gen_all coro data_extractor fuel (GenState k [] false)) trs
    (Ok (concat (reverse <$> pages))).
Proof.
  induction 1 as [k tr resp p Hc Hp Hd|k tr resp p last Hc Hp Hd|
                  k tr resp p tr' ps Hc Hp Hd Hs IH]; intros fuel Hfuel.
  - simpl in *. rewrite length_app in Hfuel. simpl in Hfuel.
    replace fuel with (length p + S (fuel - length p - 1)) by lia.
    rewrite <- (app_nil_r tr).
    eapply gen_all_fetch; [done..|]. by apply exec_bind_ok; exists None, [], [].
  - destruct fuel as [|fuel]; [simpl in *; lia|].
    apply exec_bind_ok. exists None, tr, []. rewrite app_nil_r.
    split; [done|]. split; [|done]. unfold gen_next. cbn [g_buf g_offset g_last].
    apply exec_bind_ok. exists resp, tr, []. rewrite app_nil_r. split; [done|].
    split; [done|]. apply exec_lift_bind. left. eexists. split; [done|].
    by destruct Hp as [->| ->].
  - simpl in *. rewrite length_app in Hfuel.
    replace fuel with (length p + (fuel - length p)) by lia.
    eapply gen_all_fetch; [done..|]. apply IH. lia.
Qed.

(** Reading the page generator to its end gives every element of every
    page, page after page and each page from its end, in exactly the calls for
    those pages; enough fuel for it is the number of elements and one. *)
Theorem page_generator_complete trs pages fuel :
  served 0 trs pages → length (concat pages) < fuel →
  exec (gen_all coro data_extractor fuel gen_init) trs
    (Ok (concat (reverse <$> pages))).
Proof. intros H Hfuel. by apply (gen_all_served 0). Qed.

(** *** Searching the pages *)
Section search.
Context {B : Type} (body : A → outcome (option B)).

(** The element came from some page. *)
Definition on_a_page (x : A) : Prop :=
  ∃ k tr resp p last, exec (coro k) tr (Ok resp) ∧ data_extractor resp = Ok (Some p, last) ∧ x ∈ p.

Lemma gen_next_ok g tr r :
  exec (gen_next coro data_extractor g) tr (Ok r) →
  (g_buf g ≠ [] ∧ tr = [] ∧ ∃ b x, g_buf g = b ++ [x] ∧
     r = Some (x, GenState (g_offset g) b (g_last g))) ∨
  (g_buf g = [] ∧ g_last g = true ∧ tr = [] ∧ r = None) ∨
  (g_buf g = [] ∧ g_last g = false ∧ ∃ resp p last, exec (coro (g_offset g)) tr (Ok resp) ∧
     data_extractor resp = Ok (p, last) ∧
     ((p = None ∨ p = Some []) ∧ r = None ∨
      ∃ b x, p = Some (b ++ [x]) ∧ r = Some (x, GenState (S (g_offset g)) b last))).
Proof.
  intros H. destruct g as [k buf last]. cbn [g_offset g_buf g_last].
  destruct buf as [|x b _] using rev_ind.
  - right. unfold gen_next in H. cbn [g_offset g_buf g_last] in H. destruct last.
    + left. destruct H as [-> [= ->]]. done.
    + right. split; [done|]. split; [done|].
      apply exec_bind_ok in H as (resp & tr1 & tr2 & -> & Hc & H).
      apply exec_lift_bind_ok in H as ([p last] & Hd & H). exists resp, p, last.
      destruct p as [p|]; [destruct p as [|x b _] using rev_ind|].
      * destruct H as [-> [= ->]]. rewrite app_nil_r. split_and!; [done..|]. left. eauto.
      * assert (lift (yield_pop (S k) (b ++ [x]) last) = Ret (Resp:=Resp) (Some (x, GenState (S k) b last))) as Hy
          by by rewrite yield_pop_snoc.
        destruct (b ++ [x]) as [|y l] eqn:Hb; [by destruct b|]. rewrite <- Hb in *.
        rewrite Hy in H. destruct H as [-> [= ->]]. rewrite app_nil_r. split_and!; [done..|]. right. eauto.
      * destruct H as [-> [= ->]]. rewrite app_nil_r. split_and!; [done..|]. left. eauto.
  - left. rewrite gen_next_buffered in H. destruct H as [-> [= ->]].
    split; [by destruct b|]. split; [done|]. eauto.
Qed.

(** A search that finds nothing has looked at every element of every page. *)
Lemma gen_find_none fuel : ∀ g tr,
  exec (gen_find coro data_extractor body fuel g) tr (Ok None) →
  (∀ x, x ∈ g_buf g → body x = Ok None) ∧
  (if g_last g then tr = []
   else ∃ pages, served (g_offset g) tr pages ∧ ∀ x, x ∈ concat pages → body x = Ok None).
Proof.
  induction fuel as [|fuel IH]; intros g tr H; simpl in H; [by destruct H|].
  apply exec_bind_ok in H as (r & tr1 & tr2 & -> & Hn & H).
  apply gen_next_ok in Hn as [(_ & -> & b & x & Hb & ->)|[(Hb & Hl & -> & ->)|(Hb & Hl & Hn)]].
  - apply exec_lift_bind_ok in H as ([y|] & Hx & H); [by destruct H|].
    apply IH in H as [H1 H2]. simpl in H1, H2. split; [|exact H2]. intros x' Hin. rewrite Hb in Hin.
    apply elem_of_app in Hin as [Hin|Hin%list_elem_of_singleton]; [by apply H1|by subst].
  - destruct H as [-> _]. rewrite Hb, Hl. split; [|done]. by intros x Hx%elem_of_nil.
  - rewrite Hb, Hl. split; [by intros x Hx%elem_of_nil|].
    destruct Hn as (resp & p & last & Hc & Hd & [(Hp & ->)|(b & x & -> & ->)]).
    + destruct H as [-> _]. rewrite app_nil_r. exists []. split; [by eapply served_end|].
      by intros x Hx%elem_of_nil.
    + apply exec_lift_bind_ok in H as ([y|] & Hx & H); [by destruct H|].
      apply IH in H as [H1 H2]. simpl in H1, H2.
      assert (Hpage : ∀ x', x' ∈ b ++ [x] → body x' = Ok None).
      { intros x' [Hin|Hin%list_elem_of_singleton]%elem_of_app; [by apply H1|by subst]. }
      assert (b ++ [x] ≠ []) by by destruct b.
      destruct last.
      * subst tr2. rewrite app_nil_r. exists [b ++ [x]]. split; [by eapply served_last|].
        simpl. rewrite app_nil_r. done.
      * destruct H2 as (pages & Hs & Hf). exists ((b ++ [x]) :: pages).
        split; [by eapply served_more|]. intros x' [Hin|Hin]%elem_of_app; [by apply Hpage|by apply Hf].
Qed.

(** What is found was on a page, or in the buffer to begin with. *)
Lemma gen_find_some fuel : ∀ g tr y,
  exec (gen_find coro data_extractor body fuel g) tr (Ok (Some y)) →
  ∃ x, body x = Ok (Some y) ∧ (x ∈ g_buf g ∨ on_a_page x).
Proof.
  induction fuel as [|fuel IH]; intros g tr y H; simpl in H; [by destruct H|].
  apply exec_bind_ok in H as (r & tr1 & tr2 & -> & Hn & H).
  apply gen_next_ok in Hn as [(_ & -> & b & x & Hb & ->)|[(Hb & Hl & -> & ->)|(Hb & Hl & Hn)]].
  - apply exec_lift_bind_ok in H as ([y'|] & Hx & H).
    + destruct H as [_ [= ->]]. exists x. split; [done|]. left. rewrite Hb. set_solver.
    + apply IH in H as (x' & Hx' & Hin). exists x'. split; [done|]. simpl in Hin. rewrite Hb. set_solver.
  - by destruct H.
  - destruct Hn as (resp & p & last & Hc & Hd & [(Hp & ->)|(b & x & -> & ->)]); [by destruct H|].
    assert (Hpage : ∀ x', x' ∈ b ++ [x] → on_a_page x').
    { intros x' Hin. unfold on_a_page. eauto 10. }
    apply exec_lift_bind_ok in H as ([y'|] & Hx & H).
    + destruct H as [_ [= ->]]. exists x. split; [done|]. right. apply Hpage. set_solver.
    + apply IH in H as (x' & Hx' & [Hin|Hin]); exists x'; split; try done; right; [|done].
      apply Hpage. simpl in Hin. set_solver.
Qed.

(** With fuel for every element the search ends, within the calls for the pages. *)
Lemma gen_find_buffered b k last tr r fuel :
  (∀ x, x ∈ b → is_ok (body x) = true) →
  exec (gen_find coro data_extractor body fuel (GenState k [] last)) tr (Ok r) →
  ∃ tr' r', exec (gen_find coro data_extractor body (length b + fuel) (GenState k b last)) tr' (Ok r') ∧
    (tr' = [] ∨ tr' = tr).
Proof.
  intros Hok H. induction b as [|x b IH] using rev_ind; [by exists tr, r; split; [|right]|].
  rewrite length_app, (Nat.add_comm (length b)). simpl. rewrite gen_next_buffered.
  change (bindP (Ret ?a) ?f) with (f a). cbv beta iota.
  assert (is_ok (body x) = true) as Hx by (apply Hok; set_solver).
  destruct (body x) as [[y|]|] eqn:Hbx; [|destruct IH as (tr' & r' & He & Htr); [set_solver|]|done].
  - exists [], (Some y). by split; [|left].
  - exists tr', r'. split; [exact He|done].
Qed.

Lemma gen_find_total k trs pages fuel :
  served k trs pages → (∀ x, x ∈ concat pages → is_ok (body x) = true) →
  length (concat pages) < fuel →
  ∃ tr r, exec (gen_find coro data_extractor body fuel (GenState k [] false)) tr (Ok r) ∧
    tr `prefix_of` trs.
Proof.
  intros H. revert fuel.
  assert (Hfetch : ∀ k tr resp p last fuel tr1 r1,
    exec (coro k) tr (Ok resp) → p ≠ [] → data_extractor resp = Ok (Some p, last) →
    (∀ x, x ∈ p → is_ok (body x) = true) →
    exec (gen_find coro data_extractor body fuel (GenState (S k) [] last)) tr1 (Ok r1) →
    ∃ tr2 r2, exec (gen_find coro data_extractor body (length p + fuel) (GenState k [] false))
      (tr ++ tr2) (Ok r2) ∧ (tr2 = [] ∨ tr2 = tr1)).
  { intros k' tr resp p last fuel tr1 r1 Hc Hp Hd Hok Hrest.
    destruct p as [|x b _] using rev_ind; [done|]. clear Hp.
    apply (gen_find_buffered (b ++ [x])) in Hrest as (tr2 & r2 & He & Htr); [|done].
    exists tr2, r2. split; [|done]. rewrite length_app, (Nat.add_comm (length b)) in *. simpl in *.
    rewrite gen_next_buffered in He. change (bindP (Ret ?a) ?f) with (f a) in He. cbv beta iota in He.
    apply exec_bind_ok. eexists (Some (x, GenState (S k') b last)), tr, tr2.
    split; [done|]. split; [|exact He]. unfold gen_next. cbn [g_buf g_offset g_last].
    apply exec_bind_ok. exists resp, tr, []. rewrite app_nil_r.
    split; [done|]. split; [done|]. apply exec_lift_bind. left.
    eexists. split; [done|]. cbv beta iota.
    destruct (b ++ [x]) as [|y r] eqn:Hb; [by destruct b|]. rewrite <- Hb, yield_pop_snoc. done. }
  induction H as [k tr resp p Hc Hp Hd|k tr resp p last Hc Hp Hd|
                  k tr resp p tr' ps Hc Hp Hd Hs IH]; intros fuel Hok Hfuel.
  - simpl in *. rewrite app_nil_r in *.
    destruct (Hfetch k tr resp p true (S (fuel - length p - 1)) [] None) as (tr2 & r2 & He & Htr);
      [done..|].
    replace fuel with (length p + S (fuel - length p - 1)) by lia.
    exists (tr ++ tr2), r2. split; [done|]. destruct Htr as [->| ->]; by rewrite app_nil_r.
  - destruct fuel as [|fuel]; [simpl in *; lia|]. exists tr, None. split; [|done].
    apply exec_bind_ok. exists None, tr, []. rewrite app_nil_r.
    split; [done|]. split; [|done]. unfold gen_next. cbn [g_buf g_offset g_last].
    apply exec_bind_ok. exists resp, tr, []. rewrite app_nil_r. split; [done|].
    split; [done|]. apply exec_lift_bind. left. eexists. split; [done|].
    by destruct Hp as [->| ->].
  - simpl in *. rewrite length_app in Hfuel.
    destruct (IH (fuel - length p)) as (tr1 & r1 & H1 & Hpre); [set_solver|lia|].
    destruct (Hfetch k tr resp p false (fuel - length p) tr1 r1) as (tr2 & r2 & He & Htr); [done..| |done|].
    { intros x Hx. apply Hok. set_solver. }
    replace fuel with (length p + (fuel - length p)) by lia.
    exists (tr ++ tr2), r2. split; [done|]. destruct Htr as [->| ->].
    + apply prefix_app. apply prefix_nil.
    + by apply prefix_app.
Qed.

(** A page on which nothing is found is passed over. *)
Lemma gen_find_skip b k last tr o fuel :
  (∀ x, x ∈ b → body x = Ok None) →
  exec (gen_find coro data_extractor body fuel (GenState k [] last)) tr o →
  exec (gen_find coro data_extractor body (length b + fuel) (GenState k b last)) tr o.
Proof.
  intros Hnone H. induction b as [|x b IH] using rev_ind; [done|].
  rewrite length_app, (Nat.add_comm (length b)). simpl. rewrite gen_next_buffered.
  change (bindP (Ret ?a) ?f) with (f a). cbv beta iota. rewrite (Hnone x) by set_solver.
  apply IH. set_solver.
Qed.

Lemma gen_find_pass k tr resp p last tr' o fuel :
  exec (coro k) tr (Ok resp) → p ≠ [] → data_extractor resp = Ok (Some p, last) →
  (∀ x, x ∈ p → body x = Ok None) →
  exec (gen_find coro data_extractor body fuel (GenState (S k) [] last)) tr' o →
  exec (gen_find coro data_extractor body (length p + fuel) (GenState k [] false)) (tr ++ tr') o.
Proof.
  intros Hc Hp Hd Hnone Hrest.
  destruct p as [|x b _] using rev_ind; [done|]. clear Hp.
  apply (gen_find_skip (b ++ [x])) in Hrest; [|done].
  rewrite length_app, (Nat.add_comm (length b)) in *. simpl in *.
  rewrite gen_next_buffered in Hrest. change (bindP (Ret ?a) ?f) with (f a) in Hrest.
  cbv beta iota in Hrest. apply exec_bind. left.
  eexists (Some (x, GenState (S k) b last)), tr, tr'.
  split; [done|]. split; [|exact Hrest]. unfold gen_next. cbn [g_buf g_offset g_last].
  apply exec_bind_ok. exists resp, tr, []. rewrite app_nil_r.
  split; [done|]. split; [done|]. apply exec_lift_bind. left.
  eexists. split; [done|]. cbv beta iota.
  destruct (b ++ [x]) as [|y r] eqn:Hb; [by destruct b|]. rewrite <- Hb, yield_pop_snoc. done.
Qed.

(** A search makes the calls for pages and no others. *)
Lemma gen_find_only (Q : Ev → Prop) fuel : ∀ g,
  (∀ k, only Q (coro k)) → only Q (gen_find coro data_extractor body fuel g).
Proof.
  induction fuel as [|fuel IH]; intros g Hq; simpl; [apply only_raise|].
  apply only_bind.
  - unfold gen_next. destruct (g_buf g); [|apply only_lift]. destruct (g_last g); [apply only_ret|].
    apply only_bind; [done|]. intros resp. apply only_bind; [apply only_lift|].
    intros [[[|? ?]|] last]; first [apply only_ret|apply only_lift].
  - intros [[x g']|]; [|apply only_ret]. apply only_bind; [apply only_lift|].
    intros [y|]; [apply only_ret|by apply IH].
Qed.
End search.
End pager_theorem.

(** A signature header is accepted exactly when it is an available
    algorithm, an equals sign and the digest of the body under the secret by
    that algorithm; and the header the program builds itself is accepted, for
    a digest, like a hexadecimal one, with no equals sign. *)
Theorem verify_signature_spec available hmac secret body :
  (∀ header, verify_signature available hmac header secret body = Ok true ↔
     ∃ algorithm, str_elem "="%char algorithm = false ∧ available algorithm = true ∧
       str_elem "="%char (hmac algorithm secret body) = false ∧
       header = algorithm +:+ "=" +:+ hmac algorithm secret body) ∧
  (∀ h, gen_signature_header available hmac secret body = Ok h →
     str_elem "="%char h.2 = false →
     verify_signature available hmac (h.1 +:+ "=" +:+ h.2) secret body = Ok true).
Proof.
  assert (∀ header, verify_signature available hmac header secret body = Ok true ↔
     ∃ algorithm, str_elem "="%char algorithm = false ∧ available algorithm = true ∧
       str_elem "="%char (hmac algorithm secret body) = false ∧
       header = algorithm +:+ "=" +:+ hmac algorithm secret body) as Hiff.
  { intros header. unfold verify_signature, gen_signature_hash. split.
    - intros H. destruct (split "="%char header) as [|a [|h [|? ?]]] eqn:Hs; try done.
      apply split_two in Hs as (-> & Ha & Hh).
      destruct (available a) eqn:Hav; simpl in H; [|done].
      case_bool_decide as Heq; [|done]. subst h. eauto.
    - intros (a & Ha & Hav & Hh & ->).
      assert (split "="%char (a +:+ "=" +:+ hmac a secret body) =
              [a; hmac a secret body]) as -> by by apply split_two.
      rewrite Hav. simpl. by rewrite bool_decide_true. }
  split; [exact Hiff|]. intros h Hg Hh. apply Hiff.
  unfold gen_signature_header, gen_signature_hash in Hg.
  destruct (available "sha256") eqn:Hav; simplify_eq/=.
  by exists "sha256".
Qed.

(** ** Witnesses *)
Definition demo_session : api_session := ApiSession "https://api/" 3 "CxOneFlow".
Definition demo_status (code : Z) : response :=
  Response (code =? 200)%Z code (Ok JNull) [] "".
(** Answers the requests with the given status codes in turn. *)
Definition demo_api_world (codes : list Z) (e : api_ev) : outcome (api_resp e) * list Z :=
  match e return outcome (api_resp e) * list Z with
  | GetAuth _ => (Ok (BasicAuth "u" "p"), codes)
  | Request _ => (Ok (demo_status (hd 200%Z codes)), tail codes)
  | Sleep _ => (Ok tt, codes)
  end.
Definition demo_call : api_prog response :=
  api_exec demo_session "GET" "/x/:id" [] None None (Some [("id", "7")]).

(** A server error is retried, an authorization error is not. *)
Lemma api_exec_attempts_witness : ∃ fails : list (credential * response),
  length fails = 1 ∧
  run_outcome demo_api_world [500; 403; 200]%Z demo_call = Err SCMAuthException.
Proof.
  destruct (api_exec_attempts demo_session "GET" "/x/:id" [] None None
              (Some [("id", "7")]) _ _ (exec_run demo_api_world [500; 403; 200]%Z demo_call))
    as (fails & last & _ & Htr & [(-> & Hl & H)|[Hl H]]); [discriminate H|].
  exists fails. split; [|reflexivity].
  destruct fails as [|? [|? fails]]; [|reflexivity|].
  - inversion H; subst; vm_compute in Htr; discriminate Htr.
  - vm_compute in Htr. discriminate Htr.
Defined.

Definition demo_page (k : nat) : prog api_ev api_resp response :=
  Ret (Response true (Z.of_nat k) (Ok JNull) [] "").
Definition demo_extract (r : response) : outcome (option (list Z) * bool) :=
  Ok (Some (if (r_status_code r =? 0)%Z then [1; 2]%Z else [3]%Z),
      (0 <? r_status_code r)%Z).

Lemma page_generator_complete_witness :
  exec (gen_all demo_page demo_extract 4 gen_init) [] (Ok [2; 1; 3]%Z).
Proof.
  apply (page_generator_complete demo_page demo_extract [] [[1; 2]; [3]]%Z 4).
  - apply (served_more demo_page demo_extract 0 [] (Response true 0 (Ok JNull) [] "")
             [1; 2]%Z [] [[3]]%Z); [done|done|reflexivity|].
    by apply (served_last _ _ _ _ (Response true 1 (Ok JNull) [] "")).
  - simpl. lia.
Defined.

Lemma verify_signature_spec_witness :
  verify_signature (λ a, bool_decide (a = "sha256")) (λ _ s b, s +:+ b)
    "sha256=keybody" "key" "body" = Ok true.
Proof.
  apply (proj2 (verify_signature_spec (λ a, bool_decide (a = "sha256"))
                  (λ _ s b, s +:+ b) "key" "body") ("sha256", "keybody"));
    reflexivity.
Defined.
