(* ===== verification/Messaging.v ===== *)
(** * Messages and topics: [src/workflows/enums.py], [src/workflows/messaging/],
    [src/workflows/base_workflow.py], [src/workflows/base_service.py]

    The enumerations and dataclasses that the components exchange, the data the
    program reads of Checkmarx One scans and projects, and the topics of the
    message broker with the way a topic exchange matches them. *)
From S2P Require Import Prelude PyStr PyJson Url Auth.
Open Scope string_scope.
Open Scope nat_scope.
Open Scope list_scope.

(** ** Enumerations *)
Inductive ScanWorkflow : Type := PR | PUSH.
Inductive FeedbackWorkflow : Type := FB_PR | FB_PUSH_GEN.
Inductive ScanStates : Type :=
| AWAIT | FEEDBACK | ANNOTATE | EXECUTE | DONE | FAILURE | PRESCAN.
Inductive ExecTypes : Type := RESOLVER.
Inductive ResolverOps : Type := SCAN | SCAN_COMPLETE.

#[export] Instance ScanWorkflow_eq_dec : EqDecision ScanWorkflow.
Proof. solve_decision. Defined.
#[export] Instance ScanStates_eq_dec : EqDecision ScanStates.
Proof. solve_decision. Defined.

Definition str_workflow (w : ScanWorkflow) : string :=
  match w with PR => "pull-request" | PUSH => "push" end.
Definition str_feedback (w : FeedbackWorkflow) : string :=
  match w with FB_PR => "pull-request" | FB_PUSH_GEN => "push-gen-sarif" end.
Definition str_state (s : ScanStates) : string :=
  match s with
  | AWAIT => "await" | FEEDBACK => "feedback" | ANNOTATE => "annotate"
  | EXECUTE => "exec" | DONE => "finished" | FAILURE => "failed"
  | PRESCAN => "prescan"
  end.
Definition str_exec (e : ExecTypes) : string := match e with RESOLVER => "sca-resolver" end.
Definition str_op (o : ResolverOps) : string :=
  match o with SCAN => "run-scan" | SCAN_COMPLETE => "scan-complete" end.

(** [ResultStates] and [ResultSeverity], by value; a severity also has a rank. *)
Inductive ResultStates : Type :=
| TO_VERIFY | NOT_EXPLOITABLE | PROP_NOT_EXPLOITABLE | CONFIRMED | URGENT.
Inductive ResultSeverity : Type := CRITICAL | HIGH | MEDIUM | LOW | INFO.

#[export] Instance ResultStates_eq_dec : EqDecision ResultStates.
Proof. solve_decision. Defined.
#[export] Instance ResultSeverity_eq_dec : EqDecision ResultSeverity.
Proof. solve_decision. Defined.

Definition ResultStates_values : list (ResultStates * list json) :=
  [(TO_VERIFY, [JStr "To Verify"]); (NOT_EXPLOITABLE, [JStr "Not Exploitable"]);
   (PROP_NOT_EXPLOITABLE, [JStr "Proposed Not Exploitable"]);
   (CONFIRMED, [JStr "Confirmed"]); (URGENT, [JStr "Urgent"])].
Definition ResultSeverity_values : list (ResultSeverity * list json) :=
  [(CRITICAL, [JStr "Critical"; JInt 0]); (HIGH, [JStr "High"; JInt 1]);
   (MEDIUM, [JStr "Medium"; JInt 2]); (LOW, [JStr "Low"; JInt 3]);
   (INFO, [JStr "Info"; JStr "Information"; JStr ""; JInt 4])].

(** The member of a value; Python's [True] is [1]. *)
Definition enum_of_value {A} (values : list (A * list json)) (v : json) : outcome A :=
  let v := match v with JBool b => JInt (Z.b2z b) | v => v end in
  of_option ValueError
    (head (omap (λ av, if decide (v ∈ av.2) then Some av.1 else None) values)).

Definition state_of_value : json → outcome ResultStates := enum_of_value ResultStates_values.
Definition severity_of_value : json → outcome ResultSeverity :=
  enum_of_value ResultSeverity_values.

(** [str(sev.value)], the first value, and [rank], the last. *)
Definition severity_text (s : ResultSeverity) : string :=
  match s with
  | CRITICAL => "Critical" | HIGH => "High" | MEDIUM => "Medium" | LOW => "Low"
  | INFO => "Info"
  end.
Definition severity_rank (s : ResultSeverity) : nat :=
  match s with CRITICAL => 0 | HIGH => 1 | MEDIUM => 2 | LOW => 3 | INFO => 4 end.

(** ** What the program reads of Checkmarx One objects *)

(** [ProjectRepoConfig] *)
Record project_config : Type := ProjectConfig {
  pc_id : json; pc_name : json; pc_tags : dict json; pc_primary_branch : json }.

(** [ScanInspector] *)
Record inspector : Type := Inspector {
  i_project_id : json; i_scan_id : json; i_executing : bool; i_successful : bool;
  i_failed : bool; i_state_msg : string }.

(** ** Messages *)
Record PushDetails : Type := MkPushDetails {
  pd_clone_url : json; pd_repo_project : json; pd_repo_slug : json;
  pd_organization : json; pd_source_branch : json; pd_event_context : EventContext;
  pd_commit_hash : json }.

Record PRDetails : Type := MkPRDetails {
  prd_clone_url : json; prd_repo_project : json; prd_repo_slug : json;
  prd_organization : json; prd_event_context : EventContext;
  prd_pr_id : json; prd_source_branch : json; prd_target_branch : json;
  prd_source_hash : json; prd_target_hash : json }.

(** [workflow_details]: the dictionary of a details message. *)
Inductive workflow_details : Type :=
| push_details (d : PushDetails)
| pr_details (d : PRDetails)
| no_details.

(** [ScanHeader], [ScanWorkflowHeader] and [ScanMessage] *)
Record ScanMessage : Type := MkScanMessage {
  sm_moniker : string; sm_state : ScanStates; sm_workflow : ScanWorkflow;
  sm_details : workflow_details; sm_scanid : json; sm_projectid : json }.

Inductive amqp_message : Type :=
| ScanAwaitMessage (m : ScanMessage) (drop_by : string)
| ScanFeedbackMessage (m : ScanMessage) (is_error : bool) (error_msg : option string)
| ScanAnnotationMessage (m : ScanMessage) (annotation : string)
| PreScanAnnotationMessage (moniker : string) (state : ScanStates)
    (workflow : ScanWorkflow) (details : workflow_details) (annotation : string).

(** [drop_by] and [is_expired]: the clock and the ISO format are the standard
    library's; [isoformat] and [fromisoformat] translate times in seconds. *)
Section expiry.
Context (isoformat : Z → string) (fromisoformat : string → outcome Z).

Definition max_iso : string := "9999-12-31T00:00:00Z".

Definition compute_drop_by_timestamp (now keep_alive : Z) : string :=
  if (keep_alive =? 0)%Z then max_iso else isoformat (now + keep_alive)%Z.

Definition is_expired (now : Z) (msg_drop_time : string) : outcome bool :=
  let? compare_time := fromisoformat msg_drop_time in Ok (compare_time <=? now)%Z.

(** A message is dropped exactly from the end of its keep-alive period on,
    and with no period it is dropped only in the year 9999. *)
Lemma drop_by_expiry now later keep_alive far :
  fromisoformat (isoformat (now + keep_alive)) = Ok (now + keep_alive)%Z →
  fromisoformat max_iso = Ok far →
  is_expired later (compute_drop_by_timestamp now keep_alive) =
    Ok (if (keep_alive =? 0)%Z then (far <=? later)%Z else (now + keep_alive <=? later)%Z).
Proof.
  intros Hiso Hmax. unfold compute_drop_by_timestamp, is_expired.
  destruct (keep_alive =? 0)%Z; [by rewrite Hmax|by rewrite Hiso].
Qed.
End expiry.

(** ** Topics *)
Definition ELEMENT_PREFIX : string := "cx:".
Definition TOPIC_PREFIX : string := "cx.".
Definition EXCHANGE_SCAN_INPUT : string := ELEMENT_PREFIX +:+ "Scan In".
Definition EXCHANGE_SCAN_WAIT : string := ELEMENT_PREFIX +:+ "Scan Await".
Definition EXCHANGE_SCAN_POLLING : string := ELEMENT_PREFIX +:+ "Scan Polling Delivery".
Definition ROUTEKEY_POLL_BINDING : string :=
  TOPIC_PREFIX +:+ "*." +:+ str_state AWAIT +:+ ".*.*".

Definition PR_ELEMENT_PREFIX : string := "pr:".
Definition PR_TOPIC_PREFIX : string := "pr.".
(** [PRQueueConstants.ROUTEKEY_*_PR] *)
Definition pr_routekey (state : ScanStates) : string :=
  TOPIC_PREFIX +:+ PR_TOPIC_PREFIX +:+ str_state state +:+ "." +:+ str_feedback FB_PR +:+ ".*".

Definition PUSH_TOPIC_PREFIX : string := "push.".
(** [PushFeedbackService.ROUTEKEY_GEN_SARIF_PUSH] *)
Definition push_routekey : string :=
  TOPIC_PREFIX +:+ PUSH_TOPIC_PREFIX +:+ str_state FEEDBACK +:+ "."
    +:+ str_feedback FB_PUSH_GEN +:+ ".*".

(** [AbstractPRFeedbackService.make_topic]; its callers give a [ScanWorkflow],
    whose text is the one of the [FeedbackWorkflow]. *)
Definition make_topic (state : ScanStates) (workflow : string) (moniker : string) : string :=
  TOPIC_PREFIX +:+ PR_TOPIC_PREFIX +:+ str_state state +:+ "." +:+ workflow +:+ "." +:+ moniker.

(** [PushFeedbackService.make_topic] *)
Definition push_make_topic (state : ScanStates) (workflow : string) (moniker : string) : string :=
  TOPIC_PREFIX +:+ PUSH_TOPIC_PREFIX +:+ str_state state +:+ "." +:+ workflow +:+ "." +:+ moniker.
