(* ===== verification/Broker.v ===== *)
(** * The message broker: [src/rabbit_config.py] and the names it binds

    The exchanges, queues and bindings that [setup] declares, and what RabbitMQ
    then does with a message: a fanout exchange passes it to all its bindings, a
    topic exchange to those whose binding key matches the routing key word by
    word, an asterisk for one word and a hash for any number of words. *)
From S2P Require Import Prelude PyStr PyJson Url Auth Messaging.
Open Scope string_scope.
Open Scope nat_scope.
Open Scope list_scope.

(** ** Topic matching *)

(** A word list against a pattern; the fuel is the length of both. *)
Fixpoint words_match (fuel : nat) (pat key : list string) : bool :=
  match fuel with
  | 0 => false
  | S fuel' =>
      match pat, key with
      | [], [] => true
      | [], _ :: _ => false
      | p :: pat', _ =>
          if bool_decide (p = "#") then
            words_match fuel' pat' key
            || match key with [] => false | _ :: key' => words_match fuel' pat key' end
          else match key with
               | [] => false
               | k :: key' => (bool_decide (p = "*") || bool_decide (p = k))
                              && words_match fuel' pat' key'
               end
      end
  end.

Definition topic_match (binding_key routing_key : string) : bool :=
  let pat := split "."%char binding_key in
  let key := split "."%char routing_key in
  words_match (S (length pat + length key)) pat key.

(** ** The declared topology *)
Inductive exchange_type : Type := FANOUT | TOPIC.
Inductive destination : Type := ToExchange (name : string) | ToQueue (name : string).

#[export] Instance destination_eq_dec : EqDecision destination.
Proof. solve_decision. Defined.

Record topology : Type := Topology {
  exchanges : dict exchange_type;
  bindings : list (string * destination * string);  (* source, destination, key *)
  dead_letters : dict string }.                     (* queue to its exchange *)

(** [PRQueueConstants] *)
Definition pr_name (n : string) : string := ELEMENT_PREFIX +:+ PR_ELEMENT_PREFIX +:+ n.
Definition EXCHANGE_SCAN_INPUT_LEGACY : string := pr_name "Scan In".
Definition EXCHANGE_SCAN_WAIT_LEGACY : string := pr_name "Scan Await".
Definition EXCHANGE_SCAN_POLLING_LEGACY : string := pr_name "Scan Polling Delivery".
Definition EXCHANGE_PRESCAN_ANNOTATE : string := pr_name "Prescan Annotate".
Definition EXCHANGE_SCAN_ANNOTATE : string := pr_name "Scan Annotate".
Definition EXCHANGE_SCAN_FEEDBACK : string := pr_name "Scan Feedback".
Definition QUEUE_SCAN_POLLING_LEGACY : string := pr_name "Polling Scans".
Definition QUEUE_SCAN_WAIT_LEGACY : string := pr_name "Awaited Scans".
Definition QUEUE_PRESCAN_ANNOTATE_PR : string := pr_name "Prescan PR Annotating".
Definition QUEUE_ANNOTATE_PR : string := pr_name "PR Annotating".
Definition QUEUE_FEEDBACK_PR : string := pr_name "PR Feedback".
Definition QUEUE_FAILURE_PR : string := pr_name "PR Scan Failure".
Definition ROUTEKEY_POLL_BINDING_LEGACY : string :=
  TOPIC_PREFIX +:+ PR_TOPIC_PREFIX +:+ str_state AWAIT +:+ ".*.*".

(** [ScanPollingService] *)
Definition QUEUE_SCAN_POLLING : string := ELEMENT_PREFIX +:+ "Polling Scans".
Definition QUEUE_SCAN_WAIT : string := ELEMENT_PREFIX +:+ "Awaited Scans".

(** [PushFeedbackService] *)
Definition EXCHANGE_SARIF_WORK : string := ELEMENT_PREFIX +:+ "push:Sarif Workflows".
Definition QUEUE_SARIF_GEN : string := ELEMENT_PREFIX +:+ "push:Generate Sarif".

(** [ResolverScanService] *)
Definition res_name (n : string) : string := ELEMENT_PREFIX +:+ "res:" +:+ n.
Definition RESOLVER_TOPIC_PREFIX : string := "res.".
Definition EXCHANGE_RESOLVER_SCAN : string := res_name "SCA Resolver Scan In".
Definition QUEUE_RESOLVER_COMPLETE : string := res_name "Finished Resolver Scans".
Definition EXCHANGE_RESOLVER_SCAN_DLX : string := res_name "SCA Resolver DLX".
Definition QUEUE_RESOLVER_TIMEOUT : string := res_name "Resolver Timeout".
Definition resolver_stub (op : string) : string :=
  TOPIC_PREFIX +:+ RESOLVER_TOPIC_PREFIX +:+ str_state EXECUTE +:+ "."
    +:+ str_exec RESOLVER +:+ "." +:+ op.
Definition ROUTEKEY_EXEC_SCA_SCAN_COMPLETE : string :=
  resolver_stub (str_op SCAN_COMPLETE) +:+ ".#".
Definition ROUTEKEY_DLX : string := TOPIC_PREFIX +:+ RESOLVER_TOPIC_PREFIX +:+ "#".
Definition ROUTEKEY_EXEC_SCA_SCAN_STUB : string := resolver_stub (str_op SCAN).
Definition ROUTEKEY_RESOLVER_RESULT_STUB : string :=
  TOPIC_PREFIX +:+ RESOLVER_TOPIC_PREFIX +:+ "exec.sca-resolver.scan-complete".

Definition make_routekey_for_tag (tag : string) : string :=
  ROUTEKEY_EXEC_SCA_SCAN_STUB +:+ "." +:+ tag +:+ ".#".
Definition make_topic_for_tag (service_moniker tag : string) : string :=
  ROUTEKEY_EXEC_SCA_SCAN_STUB +:+ "." +:+ tag +:+ "." +:+ service_moniker.
Definition make_queuename_for_tag (tag : string) : string :=
  res_name "Resolver Req" +:+ ":" +:+ quote tag.
Definition queue_and_topic_tuples (agent_tags : list string) : list (string * string) :=
  (λ tag, (make_queuename_for_tag tag, make_routekey_for_tag tag)) <$> agent_tags.

(** [setup], for one service: its scan exchanges and queues, and those of its
    resolver tags. *)
Definition setup (agent_tags : list string) : topology :=
  let tags := queue_and_topic_tuples agent_tags in
  {| exchanges :=
       [(EXCHANGE_SCAN_INPUT_LEGACY, FANOUT); (EXCHANGE_SCAN_INPUT, FANOUT);
        (EXCHANGE_SCAN_WAIT_LEGACY, TOPIC); (EXCHANGE_SCAN_WAIT, TOPIC);
        (EXCHANGE_PRESCAN_ANNOTATE, TOPIC); (EXCHANGE_SCAN_ANNOTATE, TOPIC);
        (EXCHANGE_SCAN_FEEDBACK, TOPIC); (EXCHANGE_SARIF_WORK, TOPIC);
        (EXCHANGE_SCAN_POLLING_LEGACY, TOPIC); (EXCHANGE_SCAN_POLLING, TOPIC);
        (EXCHANGE_RESOLVER_SCAN, TOPIC); (EXCHANGE_RESOLVER_SCAN_DLX, TOPIC)];
     bindings :=
       [(EXCHANGE_SCAN_INPUT_LEGACY, ToExchange EXCHANGE_SCAN_WAIT_LEGACY, "");
        (EXCHANGE_SCAN_INPUT, ToExchange EXCHANGE_SCAN_WAIT, "");
        (EXCHANGE_SCAN_INPUT_LEGACY, ToExchange EXCHANGE_SCAN_FEEDBACK, "");
        (EXCHANGE_SCAN_INPUT, ToExchange EXCHANGE_SCAN_FEEDBACK, "");
        (EXCHANGE_SCAN_INPUT, ToExchange EXCHANGE_SARIF_WORK, "");
        (EXCHANGE_SCAN_INPUT_LEGACY, ToExchange EXCHANGE_SCAN_ANNOTATE, "");
        (EXCHANGE_SCAN_INPUT, ToExchange EXCHANGE_SCAN_ANNOTATE, "");
        (EXCHANGE_SCAN_INPUT_LEGACY, ToExchange EXCHANGE_PRESCAN_ANNOTATE, "");
        (EXCHANGE_SCAN_INPUT, ToExchange EXCHANGE_PRESCAN_ANNOTATE, "");
        (EXCHANGE_SCAN_WAIT_LEGACY, ToQueue QUEUE_SCAN_WAIT_LEGACY,
           ROUTEKEY_POLL_BINDING_LEGACY);
        (EXCHANGE_SCAN_WAIT, ToQueue QUEUE_SCAN_WAIT, ROUTEKEY_POLL_BINDING);
        (EXCHANGE_SCAN_POLLING_LEGACY, ToQueue QUEUE_SCAN_POLLING_LEGACY,
           ROUTEKEY_POLL_BINDING_LEGACY);
        (EXCHANGE_SCAN_POLLING, ToQueue QUEUE_SCAN_POLLING, ROUTEKEY_POLL_BINDING);
        (EXCHANGE_SCAN_FEEDBACK, ToQueue QUEUE_FEEDBACK_PR, pr_routekey FEEDBACK);
        (EXCHANGE_SARIF_WORK, ToQueue QUEUE_SARIF_GEN, push_routekey);
        (EXCHANGE_PRESCAN_ANNOTATE, ToQueue QUEUE_PRESCAN_ANNOTATE_PR, pr_routekey PRESCAN);
        (EXCHANGE_SCAN_ANNOTATE, ToQueue QUEUE_ANNOTATE_PR, pr_routekey ANNOTATE);
        (EXCHANGE_SCAN_FEEDBACK, ToQueue QUEUE_FAILURE_PR, pr_routekey FAILURE);
        (EXCHANGE_RESOLVER_SCAN_DLX, ToQueue QUEUE_RESOLVER_TIMEOUT, ROUTEKEY_DLX)]
       ++ ((λ qt : string * string, (EXCHANGE_RESOLVER_SCAN, ToQueue qt.1, qt.2)) <$> tags)
       ++ [(EXCHANGE_RESOLVER_SCAN, ToQueue QUEUE_RESOLVER_COMPLETE,
              ROUTEKEY_EXEC_SCA_SCAN_COMPLETE)];
     dead_letters :=
       [(QUEUE_SCAN_WAIT_LEGACY, EXCHANGE_SCAN_POLLING_LEGACY);
        (QUEUE_SCAN_WAIT, EXCHANGE_SCAN_POLLING)]
       ++ ((λ qt : string * string, (qt.1, EXCHANGE_RESOLVER_SCAN_DLX)) <$> tags) |}.

(** ** Routing *)

(** The destinations of a message at one exchange. *)
Definition hop (t : topology) (exchange routing_key : string) : list destination :=
  omap (λ b : string * destination * string,
          if bool_decide (b.1.1 = exchange) &&
             match dget exchange (exchanges t) with
             | Some FANOUT => true
             | Some TOPIC => topic_match b.2 routing_key
             | None => false
             end
          then Some b.1.2 else None) (bindings t).

(** The queues a message reaches; two hops are the longest path declared. *)
Fixpoint route (fuel : nat) (t : topology) (exchange routing_key : string) : list string :=
  match fuel with
  | 0 => []
  | S fuel' =>
      concat ((λ d, match d with
                    | ToQueue q => [q]
                    | ToExchange e => route fuel' t e routing_key
                    end) <$> hop t exchange routing_key)
  end.

(** Where a queue's expired messages go, with their routing key. *)
Definition expire (t : topology) (queue routing_key : string) : list string :=
  match dget queue (dead_letters t) with
  | Some exchange => route 2 t exchange routing_key
  | None => []
  end.

(** ** Theorems *)

Lemma hop_tags tags exchange key :
  exchange ≠ EXCHANGE_RESOLVER_SCAN → hop (setup tags) exchange key = hop (setup []) exchange key.
Proof.
  intros Hne. unfold hop, setup; cbn [bindings exchanges].
  rewrite !omap_app. f_equal. f_equal.
  induction tags as [|tag tags IH]; [done|]. cbn.
  by rewrite (bool_decide_false (EXCHANGE_RESOLVER_SCAN = exchange)) by congruence.
Qed.

(** The words of a topic that ends with a moniker. *)
Lemma split_topic prefix moniker :
  str_elem "."%char moniker = false →
  split "."%char (prefix +:+ "." +:+ moniker) = split "."%char prefix ++ [moniker].
Proof. apply split_app_last. Qed.

Lemma make_topic_split state workflow moniker :
  str_elem "."%char moniker = false →
  split "."%char (make_topic state (str_workflow workflow) moniker) =
    ["cx"; "pr"; str_state state; str_workflow workflow; moniker].
Proof.
  intros H.
  pose proof (split_topic (TOPIC_PREFIX +:+ PR_TOPIC_PREFIX +:+ str_state state +:+ "."
                             +:+ str_workflow workflow) moniker H) as Hs.
  destruct state, workflow; exact Hs.
Qed.

Lemma push_make_topic_split state workflow moniker :
  str_elem "."%char moniker = false →
  split "."%char (push_make_topic state (str_feedback workflow) moniker) =
    ["cx"; "push"; str_state state; str_feedback workflow; moniker].
Proof.
  intros H.
  pose proof (split_topic (TOPIC_PREFIX +:+ PUSH_TOPIC_PREFIX +:+ str_state state +:+ "."
                             +:+ str_feedback workflow) moniker H) as Hs.
  destruct state, workflow; exact Hs.
Qed.

(** The match of a binding key depends on the words of the routing key only. *)
Definition words_route (t : topology) (exchange : string) (key : list string) :
    list destination :=
  omap (λ b : string * destination * string,
          if bool_decide (b.1.1 = exchange) &&
             match dget exchange (exchanges t) with
             | Some FANOUT => true
             | Some TOPIC => let pat := split "."%char b.2 in
                             words_match (S (length pat + length key)) pat key
             | None => false
             end
          then Some b.1.2 else None) (bindings t).

Lemma hop_words t exchange key words :
  split "."%char key = words → hop t exchange key = words_route t exchange words.
Proof. intros <-. reflexivity. Qed.

Fixpoint words_queues (fuel : nat) (exchange : string) (words : list string) : list string :=
  match fuel with
  | 0 => []
  | S fuel' =>
      concat ((λ d, match d with
                    | ToQueue q => [q]
                    | ToExchange e => words_queues fuel' e words
                    end) <$> words_route (setup []) exchange words)
  end.

Lemma no_resolver_hop exchange words :
  ToExchange EXCHANGE_RESOLVER_SCAN ∉ words_route (setup []) exchange words.
Proof.
  unfold words_route. rewrite list_elem_of_omap. intros (b & Hb & Heq).
  destruct (_ && _); simplify_eq.
  assert (Hall : forallb (λ b : string * destination * string,
    negb (bool_decide (b.1.2 = ToExchange EXCHANGE_RESOLVER_SCAN))) (bindings (setup [])) = true)
    by reflexivity.
  rewrite forallb_forall in Hall. apply list_elem_of_In, Hall in Hb.
  by rewrite bool_decide_true in Hb.
Qed.

Lemma route_words fuel tags exchange key words :
  exchange ≠ EXCHANGE_RESOLVER_SCAN → split "."%char key = words →
  route fuel (setup tags) exchange key = words_queues fuel exchange words.
Proof.
  intros Hne Hkey. revert exchange Hne. induction fuel as [|fuel IH]; intros exchange Hne;
    [done|]. simpl. rewrite hop_tags, (hop_words _ _ _ _ Hkey) by done.
  f_equal. apply list_fmap_ext. intros i d Hd.
  destruct d as [e|q]; [|done]. apply IH. intros ->.
  eapply no_resolver_hop, list_elem_of_lookup. eauto.
Qed.

Lemma route_pr_topic tags moniker state :
  str_elem "."%char moniker = false →
  route 3 (setup tags) EXCHANGE_SCAN_INPUT (make_topic state (str_workflow PR) moniker) =
    match state with
    | AWAIT => [QUEUE_SCAN_WAIT] | FEEDBACK => [QUEUE_FEEDBACK_PR]
    | ANNOTATE => [QUEUE_ANNOTATE_PR] | PRESCAN => [QUEUE_PRESCAN_ANNOTATE_PR]
    | FAILURE => [QUEUE_FAILURE_PR] | EXECUTE | DONE => []
    end.
Proof.
  intros H. erewrite route_words; [|done|by apply make_topic_split]. by destruct state.
Qed.

Lemma route_push_topic tags moniker state :
  str_elem "."%char moniker = false →
  route 3 (setup tags) EXCHANGE_SCAN_INPUT
    (push_make_topic state (str_feedback FB_PUSH_GEN) moniker) =
    match state with
    | AWAIT => [QUEUE_SCAN_WAIT] | FEEDBACK => [QUEUE_SARIF_GEN] | _ => []
    end.
Proof.
  intros H. erewrite route_words; [|done|by apply push_make_topic_split]. by destruct state.
Qed.

(** What waited is dead-lettered to the polling queue. *)
Lemma expire_wait tags key words :
  split "."%char key = words → words_queues 2 EXCHANGE_SCAN_POLLING words = [QUEUE_SCAN_POLLING] →
  expire (setup tags) QUEUE_SCAN_WAIT key = [QUEUE_SCAN_POLLING].
Proof.
  intros Hk Hw. change (route 2 (setup tags) EXCHANGE_SCAN_POLLING key = [QUEUE_SCAN_POLLING]).
  by erewrite route_words.
Qed.

Lemma expire_await_pr tags moniker :
  str_elem "."%char moniker = false →
  expire (setup tags) QUEUE_SCAN_WAIT (make_topic AWAIT (str_workflow PR) moniker) =
    [QUEUE_SCAN_POLLING].
Proof. intros H. eapply expire_wait; [by apply make_topic_split|done]. Qed.

Lemma expire_await_push tags moniker :
  str_elem "."%char moniker = false →
  expire (setup tags) QUEUE_SCAN_WAIT
    (push_make_topic AWAIT (str_feedback FB_PUSH_GEN) moniker) = [QUEUE_SCAN_POLLING].
Proof. intros H. eapply expire_wait; [by apply push_make_topic_split|done]. Qed.

(** A scan message published to the exchange all scans come in by reaches
    exactly one queue, the one its state and workflow name, whatever resolver
    tags are declared and whatever the service is called, as long as the name
    has no dot; and a scan that waited its time goes to the polling queue. *)
Theorem scan_message_routing tags moniker :
  str_elem "."%char moniker = false →
  (∀ state, route 3 (setup tags) EXCHANGE_SCAN_INPUT
              (make_topic state (str_workflow PR) moniker) =
     match state with
     | AWAIT => [QUEUE_SCAN_WAIT] | FEEDBACK => [QUEUE_FEEDBACK_PR]
     | ANNOTATE => [QUEUE_ANNOTATE_PR] | PRESCAN => [QUEUE_PRESCAN_ANNOTATE_PR]
     | FAILURE => [QUEUE_FAILURE_PR] | EXECUTE | DONE => []
     end) ∧
  (∀ state, route 3 (setup tags) EXCHANGE_SCAN_INPUT
              (push_make_topic state (str_feedback FB_PUSH_GEN) moniker) =
     match state with
     | AWAIT => [QUEUE_SCAN_WAIT] | FEEDBACK => [QUEUE_SARIF_GEN] | _ => []
     end) ∧
  expire (setup tags) QUEUE_SCAN_WAIT (make_topic AWAIT (str_workflow PR) moniker) =
    [QUEUE_SCAN_POLLING] ∧
  expire (setup tags) QUEUE_SCAN_WAIT
    (push_make_topic AWAIT (str_feedback FB_PUSH_GEN) moniker) = [QUEUE_SCAN_POLLING].
Proof.
  intros H. split_and!.
  - intros state. by apply route_pr_topic.
  - intros state. by apply route_push_topic.
  - by apply expire_await_pr.
  - by apply expire_await_push.
Qed.

(** A name with a dot makes more words than any binding of the scan exchanges has:
    nothing is routed of what a service with such a name publishes. *)
Theorem dotted_unaddressed tags moniker state :
  str_elem "."%char moniker = true →
  route 3 (setup tags) EXCHANGE_SCAN_INPUT
    (make_topic state (str_workflow PR) moniker) = [] ∧
  route 3 (setup tags) EXCHANGE_SCAN_INPUT
    (push_make_topic state (str_feedback FB_PUSH_GEN) moniker) = [].
Proof.
  intros (a & b & ws & Hs)%split_sep_elem.
  pose proof (λ p, split_app_sep_gen "."%char p moniker) as Hsplit. rewrite Hs in Hsplit.
  split.
  - pose proof (Hsplit (TOPIC_PREFIX +:+ PR_TOPIC_PREFIX +:+ str_state state +:+ "."
                          +:+ str_workflow PR)) as Hk.
    erewrite route_words; [|done|destruct state; exact Hk]. by destruct state.
  - pose proof (Hsplit (TOPIC_PREFIX +:+ PUSH_TOPIC_PREFIX +:+ str_state state +:+ "."
                          +:+ str_feedback FB_PUSH_GEN)) as Hk.
    erewrite route_words; [|done|destruct state; exact Hk]. by destruct state.
Qed.

Lemma words_match_hash key fuel : length key < fuel → words_match (S fuel) ["#"] key = true.
Proof.
  revert fuel. induction key as [|k key IH]; intros fuel H; destruct fuel as [|fuel];
    try (simpl in H; lia); [done|].
  change (words_match (S fuel) [] (k :: key) || words_match (S fuel) ["#"] key = true).
  rewrite IH by (simpl in H; lia). apply orb_true_r.
Qed.

Lemma words_match_word fuel p ps k ks :
  p ≠ "#" →
  words_match (S fuel) (p :: ps) (k :: ks) =
    (bool_decide (p = "*") || bool_decide (p = k)) && words_match fuel ps ks.
Proof. intros H. cbn [words_match]. by rewrite (bool_decide_false (p = "#")). Qed.

(** A tag that can be a word of a topic and no wildcard. *)
Definition plain_word (w : string) : bool :=
  negb (str_elem "."%char w) && negb (bool_decide (w = "#")) && negb (bool_decide (w = "*")).

Lemma split_stub_op op s :
  split "."%char (resolver_stub (str_op op) +:+ "." +:+ s) =
    ["cx"; "res"; "exec"; "sca-resolver"; str_op op] ++ split "."%char s.
Proof. destruct op; exact (split_app_sep_gen "."%char (resolver_stub _) s). Qed.

Lemma split_word w s :
  str_elem "."%char w = false → split "."%char (w +:+ "." +:+ s) = w :: split "."%char s.
Proof. apply split_app_sep. Qed.

Lemma tag_topic_match moniker tag tag' :
  plain_word tag = true → plain_word tag' = true →
  topic_match (make_routekey_for_tag tag') (make_topic_for_tag moniker tag) =
    bool_decide (tag' = tag).
Proof.
  unfold plain_word. rewrite !andb_true_iff, !negb_true_iff, !bool_decide_eq_false.
  intros [[Hd _] _] [[Hd' Hh] Hs].
  unfold topic_match, make_routekey_for_tag, make_topic_for_tag, ROUTEKEY_EXEC_SCA_SCAN_STUB.
  rewrite !split_stub_op. change ".#" with ("." +:+ "#"). rewrite !split_word by done.
  change (split "."%char "#") with ["#"].
  set (ws := split "."%char moniker). cbn [app length str_op Nat.add].
  rewrite !words_match_word by done. 
  repeat match goal with
  | |- context [bool_decide (?x = ?x)] => rewrite (bool_decide_true (x = x)) by done
  end.
  rewrite !orb_true_r, !andb_true_l.
  rewrite (bool_decide_false (tag' = "*")) by done. rewrite orb_false_l.
  case_bool_decide; [|done]. rewrite andb_true_l. apply words_match_hash. simpl. lia.
Qed.

Lemma dead_letter_tags t tags :
  t ∈ tags →
  dget (make_queuename_for_tag t) (dead_letters (setup tags)) = Some EXCHANGE_RESOLVER_SCAN_DLX.
Proof.
  intros Ht.
  change (dget (make_queuename_for_tag t) ((λ qt : string * string,
    (qt.1, EXCHANGE_RESOLVER_SCAN_DLX)) <$> queue_and_topic_tuples tags) =
    Some EXCHANGE_RESOLVER_SCAN_DLX).
  induction tags as [|t' tags IH]; [by apply elem_of_nil in Ht|].
  cbn [queue_and_topic_tuples fmap list_fmap dget fst].
  destruct (String.eqb_spec (make_queuename_for_tag t) (make_queuename_for_tag t'))
    as [|Hne]; [done|].
  apply IH. apply elem_of_cons in Ht as [->|?]; [done|done].
Qed.

Lemma hop_resolver_scan tags key :
  hop (setup tags) EXCHANGE_RESOLVER_SCAN key =
    ((λ t, ToQueue (make_queuename_for_tag t)) <$>
       filter (λ t, topic_match (make_routekey_for_tag t) key = true) tags) ++
    (if topic_match ROUTEKEY_EXEC_SCA_SCAN_COMPLETE key
     then [ToQueue QUEUE_RESOLVER_COMPLETE] else []).
Proof.
  unfold hop. cbn [setup bindings exchanges]. rewrite !omap_app.
  match goal with |- ?a ++ _ = _ => change a with (@nil destination) end. rewrite app_nil_l.
  f_equal.
  - induction tags as [|t tags IH]; [done|]. rewrite filter_cons.
    destruct (topic_match (make_routekey_for_tag t) key) eqn:Ht;
      [rewrite decide_True by done|rewrite decide_False by done];
      cbn -[topic_match make_routekey_for_tag make_queuename_for_tag] in IH |- *;
      change (dget EXCHANGE_RESOLVER_SCAN _) with (Some TOPIC); cbv beta iota;
      rewrite Ht; cbn -[topic_match make_routekey_for_tag make_queuename_for_tag]; [f_equal|]; exact IH.
  - cbn [omap list_omap fst snd]. change (dget EXCHANGE_RESOLVER_SCAN _) with (Some TOPIC).
    cbv beta iota. rewrite bool_decide_true by done. rewrite andb_true_l.
    by destruct (topic_match _ _).
Qed.

Lemma timeout_queue words :
  words_queues 2 EXCHANGE_RESOLVER_SCAN_DLX (["cx"; "res"] ++ words) =
    [QUEUE_RESOLVER_TIMEOUT].
Proof.
  assert (words_route (setup []) EXCHANGE_RESOLVER_SCAN_DLX (["cx"; "res"] ++ words) =
    if words_match (S (3 + length (["cx"; "res"] ++ words))) ["cx"; "res"; "#"]
         (["cx"; "res"] ++ words) then [ToQueue QUEUE_RESOLVER_TIMEOUT] else []) as Hr.
  { transitivity (match (if words_match (S (3 + length (["cx"; "res"] ++ words)))
                              ["cx"; "res"; "#"] (["cx"; "res"] ++ words)
                         then Some (ToQueue QUEUE_RESOLVER_TIMEOUT) else None) with
                  | Some q => [q] | None => [] end); [reflexivity|].
    by destruct (words_match _ _ _). }
  cbn [words_queues]. rewrite Hr. cbn [app length Nat.add].
  rewrite !words_match_word by done. rewrite words_match_hash by lia. reflexivity.
Qed.

Lemma split_tag_topic moniker tag :
  plain_word tag = true →
  split "."%char (make_topic_for_tag moniker tag) =
    ["cx"; "res"; "exec"; "sca-resolver"; "run-scan"; tag] ++ split "."%char moniker.
Proof.
  unfold make_topic_for_tag, ROUTEKEY_EXEC_SCA_SCAN_STUB, plain_word. rewrite split_stub_op.
  rewrite !andb_true_iff, negb_true_iff. intros [[Hd _] _]. by rewrite split_word.
Qed.

Lemma route_tag tags moniker tag :
  forallb plain_word (tag :: tags) = true →
  route 1 (setup tags) EXCHANGE_RESOLVER_SCAN (make_topic_for_tag moniker tag) =
    make_queuename_for_tag <$> filter (λ t, t = tag) tags.
Proof.
  cbn [forallb]. rewrite andb_true_iff. intros [Htag Htags].
  pose proof (split_tag_topic moniker tag Htag) as Htopic.
  cbn [route]. rewrite hop_resolver_scan.
  assert (topic_match ROUTEKEY_EXEC_SCA_SCAN_COMPLETE (make_topic_for_tag moniker tag) = false)
    as ->.
  { unfold topic_match. rewrite Htopic. reflexivity. }
  rewrite app_nil_r. clear Htopic.
  assert (filter (λ t, topic_match (make_routekey_for_tag t)
             (make_topic_for_tag moniker tag) = true) tags = filter (λ t, t = tag) tags) as ->.
  { clear -Htag Htags. induction tags as [|t tags IH]; [done|]. cbn [forallb] in Htags.
    apply andb_true_iff in Htags as [Ht Htags]. rewrite !filter_cons, IH by done.
    rewrite (tag_topic_match _ _ _ Htag Ht).
    destruct (decide (t = tag)) as [->|Hne];
      [by rewrite bool_decide_true, decide_True|].
    by rewrite bool_decide_false, decide_False. }
  rewrite <- list_fmap_compose. induction (filter _ tags) as [|t l IH]; [done|].
  cbn. by f_equal.
Qed.

(** A scan request for a resolver tag reaches the queues of the agents of
    that tag and no other, whatever the service is called; a request that no
    agent takes in time goes to the timeout queue, and a result to the queue of
    finished scans only. *)
Theorem resolver_routing tags moniker tag :
  forallb plain_word (tag :: tags) = true →
  route 1 (setup tags) EXCHANGE_RESOLVER_SCAN (make_topic_for_tag moniker tag) =
    make_queuename_for_tag <$> filter (λ t, t = tag) tags ∧
  (∀ t, t ∈ tags →
     expire (setup tags) (make_queuename_for_tag t) (make_topic_for_tag moniker tag) =
       [QUEUE_RESOLVER_TIMEOUT]) ∧
  route 1 (setup tags) EXCHANGE_RESOLVER_SCAN ROUTEKEY_RESOLVER_RESULT_STUB =
    [QUEUE_RESOLVER_COMPLETE].
Proof.
  intros Hall. pose proof Hall as Hall'. revert Hall'. cbn [forallb].
  rewrite andb_true_iff. intros [Htag Htags].
  pose proof (split_tag_topic moniker tag Htag) as Htopic. split_and!.
  - by apply route_tag.
  - intros t Ht. unfold expire. rewrite dead_letter_tags by done.
    erewrite route_words; [|done|exact Htopic].
    by apply timeout_queue.
  - cbn [route]. rewrite hop_resolver_scan.
    assert (filter (λ t, topic_match (make_routekey_for_tag t)
               ROUTEKEY_RESOLVER_RESULT_STUB = true) tags = []) as ->; [|reflexivity].
    clear Hall. induction tags as [|t tags IH]; [done|]. cbn [forallb] in Htags.
    apply andb_true_iff in Htags as [Ht Htags].
    rewrite filter_cons_False; [by apply IH|].
    unfold topic_match, make_routekey_for_tag, ROUTEKEY_EXEC_SCA_SCAN_STUB.
    rewrite split_stub_op. done.
Qed.

(** ** Witnesses *)
Lemma scan_message_routing_witness :
  route 3 (setup ["linux"]) EXCHANGE_SCAN_INPUT (make_topic AWAIT (str_workflow PR) "corp-gh") =
    [QUEUE_SCAN_WAIT].
Proof. exact (proj1 (scan_message_routing ["linux"] "corp-gh" eq_refl) AWAIT). Defined.

Lemma resolver_routing_witness :
  route 1 (setup ["linux"; "java"]) EXCHANGE_RESOLVER_SCAN (make_topic_for_tag "a.b" "java") =
    [make_queuename_for_tag "java"].
Proof. exact (proj1 (resolver_routing ["linux"; "java"] "a.b" "java" eq_refl)). Defined.
