(* ===== verification/Markdown.v ===== *)
(** * Markdown comments: [PullRequestAbstractMarkdownComment] of
    [src/workflows/pr_content.py]

    The comment of a pull request: its named sections in a fixed order, the
    tables of detail rows, and the text it gives within a number of characters,
    cut off with a link when it is too long.

    The sorted list of [sortedcontainers] is a parameter, [sorted_rows]: the rows
    of a table in the order the list iterates them. *)
From Stdlib Require Import Sorted.
From stdpp Require Import sorting.
From S2P Require Import Prelude PyStr PyJson Url Messaging.
Open Scope string_scope.
Open Scope nat_scope.
Open Scope list_scope.

(** ** Detail rows *)

(** The subclasses of [SortedDetailRows] *)
Inductive detail_table : Type :=
| PolicyViolationDetailRows | SastDetailRows | ScaDetailRows | IacDetailRows
| ResolvedDetailRows.
#[export] Instance detail_table_eq_dec : EqDecision detail_table.
Proof. solve_decision. Defined.

Record DetailRow : Type := MkDetailRow { dr_severity : ResultSeverity; dr_fields : dict json }.

Definition severity_rank_key (r : DetailRow) : string :=
  format_03 (Z.of_nat (severity_rank (dr_severity r))).

(** [r[key]] *)
Definition row_item (r : DetailRow) (key : string) : json :=
  default (JStr "") (dget key (dr_fields r)).

(** The columns a table prints, and the fields its rows are sorted by. *)
Definition output_order (t : detail_table) : list string :=
  match t with
  | PolicyViolationDetailRows => ["break_build_indicator"; "policy_name"; "policy_rule_name"]
  | SastDetailRows => ["severity_image_link"; "issue"; "source_permalink"; "viewer_link"]
  | ScaDetailRows => ["severity_image_link"; "cve"; "package"; "viewer_link"]
  | IacDetailRows =>
      ["severity_image_link"; "technology"; "source_permalink"; "query"; "viewer_link"]
  | ResolvedDetailRows => ["severity_image_link"; "name"; "viewer_link"]
  end.
Definition key_fields (t : detail_table) : list string :=
  match t with
  | PolicyViolationDetailRows => ["policy_name"; "policy_rule_name"]
  | SastDetailRows => ["issue"]
  | ScaDetailRows => ["package_name"; "package_version"; "cve"]
  | IacDetailRows => ["technology"]
  | ResolvedDetailRows => ["name"]
  end.

(** A value added to a string, or joined with strings: a string itself. *)
Definition need_str (v : json) : outcome string :=
  match v with JStr s => Ok s | _ => Err TypeError end.

(** The key of a row: its severity and the fields that the table sorts by. *)
Definition sort_key (fields : list string) (r : DetailRow) : outcome string :=
  let? values := mapO (λ k, need_str (row_item r k)) fields in
  Ok (severity_rank_key r +:+ join "" values).
Definition row_key (t : detail_table) : DetailRow → outcome string := sort_key (key_fields t).

(** [str(row)], with the columns of its table. *)
Definition DetailRow_str (columns : list string) (r : DetailRow) : outcome string :=
  let? cells := mapO (λ k, let? v := dindex k (dr_fields r) in need_str v) columns in
  Ok ("| " +:+ join " | " cells +:+ " |").
Definition row_str (t : detail_table) : DetailRow → outcome string := DetailRow_str (output_order t).

(** [ScaDetailRows.normalized_version] *)
Definition normalized_version (version : json) : outcome string :=
  let? s := as_str version in
  Ok (match mapM int_of_str (split "."%char s) with
      | Some elements => join "." (format_03 <$> elements)
      | None => s
      end).

(** ** Links and images *)

(** [str(Path(w1) / Path(w2) / ...)]: an absolute part starts over; empty parts
    and single dots are dropped. *)
Definition path_parts (w : string) : list string :=
  filter (λ p, p ≠ "" ∧ p ≠ ".") (split "/"%char w).
Definition path_root (w : string) : string :=
  if startswith "///" w then "/" else if startswith "//" w then "//"
  else if startswith "/" w then "/" else "".
Fixpoint path_from (root : string) (parts : list string) (ws : list string) : string :=
  match ws with
  | [] => match root, parts with "", [] => "." | _, _ => root +:+ join "/" parts end
  | w :: ws' => if startswith "/" w then path_from (path_root w) (path_parts w) ws'
                else path_from root (parts ++ path_parts w) ws'
  end.
Definition path_join (ws : list string) : string := path_from "" [] ws.

Definition make_md_link (url display_name : string) : string :=
  "[" +:+ display_name +:+ "](" +:+ url +:+ ")".
Definition make_md_image (url display_name : string) : string :=
  "![" +:+ display_name +:+ "](" +:+ url +:+ ")".
Definition form_artifact_url (server_base_url artifact_path : string) : string :=
  rstrip "/" server_base_url +:+ "/artifacts/" +:+ quote (lstrip "/" artifact_path).
Definition make_md_header_image (server_base_url : string) : string :=
  make_md_image (form_artifact_url server_base_url "checkmarx.png") "CheckmarxOne".

(** [__severity_map] and its default *)
Definition severity_map : dict string :=
  [("critical", "critical.png"); ("high", "high.png"); ("medium", "medium.png");
   ("low", "low.png"); ("information", "info.png"); ("info", "info.png");
   ("informational", "info.png")].
Definition default_severity : string := "info.png".
Definition make_md_severity_indicator (server_base_url severity : string) : string :=
  make_md_image
    (form_artifact_url server_base_url
       (match dget (lower severity) severity_map with Some img => img | None => default_severity end))
    severity.

Section urls.
Context (repr : json → string).

(** A value of [Path(v)]: a string. *)
Definition make_cxone_scan_url (cxone_display_url : string) (project_id scanid branch : json) :
    outcome string :=
  let? project := need_str project_id in
  let? branch := need_str branch in
  let scan := py_str repr scanid in
  Ok (cxone_display_url +:+ path_join ["projects"; project;
        "scans?id=" +:+ scan +:+ "&filter_by_Scan_Id=" +:+ scan +:+ "&branch=" +:+ quote_plus branch]).

Definition make_cxone_md_scan_link (cxone_display_url : string) (project_id scanid branch : json)
    (link_text : option string) : outcome string :=
  let? url := make_cxone_scan_url cxone_display_url project_id scanid branch in
  Ok (make_md_link url (default (py_str repr scanid) link_text)).

Definition make_cxone_md_sca_result_link (cxone_display_url : string)
    (project_id scanid : json) (title : string) (cve package_id : json) : outcome string :=
  let? project := need_str project_id in
  let? scan := need_str scanid in
  Ok (make_md_link
        (cxone_display_url +:+ path_join ["results"; project; scan; "sca?internalPath="]
         +:+ "%2Fvulnerabilities%2F" +:+ py_str repr cve +:+ "%253A" +:+ py_str repr package_id
         +:+ "%2FvulnerabilityDetailsGql") title).
End urls.

(** ** The comment *)
Definition comment_mark : string := "[//]:#".
Definition identifier : string := comment_mark +:+ "cxoneflow".

(** The keys of [__elements] after the identifier, without the mark: these have
    content, and their ends have none. *)
Inductive section : Type := Identifier | Header | Annotation | Summary | Details.
#[export] Instance section_eq_dec : EqDecision section.
Proof. solve_decision. Defined.

(** An item of a section: a line, or the table itself, to which rows may be added
    later. *)
Inductive element : Type := Line (s : string) | Rows (t : detail_table).

(** The dictionary [__elements]: [None] for the end of a section. *)
Record comment : Type := Comment {
  c_server_base_url : string; c_overflow_link : string; c_scan_url : string;
  c_elements : section → list element;
  c_rows : detail_table → list (string * DetailRow) }.

Definition element_keys : list (option section) :=
  [Some Identifier; Some Header; None; Some Annotation; None; Some Summary; None;
   Some Details; None].

Definition comment_new (server_base_url overflow_link scan_url : string) : comment :=
  Comment server_base_url overflow_link scan_url
    (λ s, match s with
          | Identifier => [Line identifier]
          | Header => [Line (make_md_header_image server_base_url)]
          | _ => []
          end)
    (λ _, []).

Definition comment_matches_identifier (comment_text : string) : bool :=
  startswith identifier (replace nl "" comment_text).
Definition append_comment_identifier (comment_text : string) : string :=
  identifier +:+ nl +:+ comment_text.

(** [self.__elements[...].append(e)] for each of the items *)
Definition append_elements (s : section) (l : list element) (c : comment) : comment :=
  Comment (c_server_base_url c) (c_overflow_link c) (c_scan_url c)
    (λ s', if decide (s' = s) then c_elements c s' ++ l else c_elements c s') (c_rows c).

(** [add_row]: the key is made when the row is added. *)
Definition push_row (t : detail_table) (kr : string * DetailRow) (c : comment) : comment :=
  Comment (c_server_base_url c) (c_overflow_link c) (c_scan_url c) (c_elements c)
    (λ t', if decide (t' = t) then c_rows c t' ++ [kr] else c_rows c t').
Definition add_row (t : detail_table) (r : DetailRow) (c : comment) : outcome comment :=
  let? key := row_key t r in Ok (push_row t (key, r) c).

Definition add_to_annotation (line : string) : comment → comment :=
  append_elements Annotation [Line line].

(** *** Sections of details *)
Definition start_policy_violation_detail_section : comment → comment :=
  append_elements Details
    [Line nl; Line "# Policy Violations"; Line "| Breaking | Policy Name | Policy Rule |";
     Line "| :-: | - | - |"; Rows PolicyViolationDetailRows].
Definition start_sast_detail_section : comment → comment :=
  append_elements Details
    [Line nl; Line "# SAST Results"; Line "| Severity | Issue | Source | Checkmarx Insight |";
     Line "| :-: | - | - | - |"; Rows SastDetailRows].
Definition start_sca_detail_section : comment → comment :=
  append_elements Details
    [Line nl; Line "# SCA Results"; Line nl; Line "| Severity | CVE | Package | Checkmarx Insight |";
     Line "| :-: | - | - | - |"; Rows ScaDetailRows].
Definition start_iac_detail_section : comment → comment :=
  append_elements Details
    [Line nl; Line "# IAC Results"; Line nl;
     Line "| Severity | Technology | Source | Query | Checkmarx Insight |";
     Line "| :-: | - | - | - | - |"; Rows IacDetailRows].
Definition start_resolved_detail_section : comment → comment :=
  append_elements Details
    [Line nl; Line "# Resolved SAST Results"; Line nl; Line "| Severity | Name | Checkmarx Insight |";
     Line "| :-: | - | - |"; Rows ResolvedDetailRows].

Definition failure_unicode : string := "&#x274C;".
Definition success_unicode : string := "&#x2705;".

(** [str] of a member of an enumeration of [aenum] names its class. *)
Definition add_policy_violation_detail (policy_name : json) (break_build : bool)
    (policy_rule_name : json) (c : comment) : outcome comment :=
  add_row PolicyViolationDetailRows
    (MkDetailRow INFO
       [("break_build_indicator", JStr (if break_build then failure_unicode
           else make_md_severity_indicator (c_server_base_url c) "ResultSeverity.INFO"));
        ("policy_name", policy_name); ("policy_rule_name", policy_rule_name)]) c.
Definition add_sast_detail (severity : ResultSeverity)
    (severity_image_link issue source_permalink viewer_link : string) :
    comment → outcome comment :=
  add_row SastDetailRows
    (MkDetailRow severity
       [("severity_image_link", JStr severity_image_link); ("issue", JStr issue);
        ("source_permalink", JStr source_permalink); ("viewer_link", JStr viewer_link)]).
Definition add_sca_detail (repr : json → string) (severity : ResultSeverity)
    (severity_image_link : string) (cve package_name package_version : json)
    (viewer_link : string) (c : comment) : outcome comment :=
  let? version := normalized_version package_version in
  add_row ScaDetailRows
    (MkDetailRow severity
       [("severity_image_link", JStr severity_image_link); ("cve", cve);
        ("package", JStr (py_str repr package_name +:+ ":" +:+ py_str repr package_version));
        ("viewer_link", JStr viewer_link); ("package_name", package_name);
        ("package_version", JStr version)]) c.
Definition add_iac_detail (severity : ResultSeverity) (severity_image_link : string)
    (technology : json) (source_permalink : string) (query : json) (viewer_link : string) :
    comment → outcome comment :=
  add_row IacDetailRows
    (MkDetailRow severity
       [("severity_image_link", JStr severity_image_link); ("technology", technology);
        ("source_permalink", JStr source_permalink); ("query", query);
        ("viewer_link", JStr viewer_link)]).
Definition add_resolved_detail (severity : ResultSeverity) (severity_image_link : string)
    (name : json) (viewer_link : string) : comment → outcome comment :=
  add_row ResolvedDetailRows
    (MkDetailRow severity
       [("severity_image_link", JStr severity_image_link); ("name", name);
        ("viewer_link", JStr viewer_link)]).

(** *** The summary *)
Definition start_summary_section (included_severities : list ResultSeverity) :
    comment → comment :=
  let sev_header := join " | " (severity_text <$> included_severities) in
  append_elements Summary
    [Line nl; Line "# Summary of Vulnerabilities"; Line nl;
     Line ("| Engine | " +:+ sev_header +:+ " |");
     Line ("|--" +:+ repeat_str (length included_severities) "| :-: " +:+ "|")].
Definition add_summary_entry (engine : string) (counts_by_sev : ResultSeverity → string)
    (included_severities : list ResultSeverity) : comment → comment :=
  append_elements Summary
    [Line ("|" +:+ engine +:+ "|" +:+ join "|" (counts_by_sev <$> included_severities) +:+ "|")].

(** ** The text of a comment *)

(** [Appender] *)
Record appender : Type := Appender { a_content : list string; a_total : nat; a_stop : bool }.

Definition append (max : Z) (overflow_link v : string) (a : appender) : appender :=
  if a_stop a then a
  else if (max <=? Z.of_nat (a_total a + String.length v))%Z
  then Appender (a_content a ++ [overflow_link]) (a_total a + String.length overflow_link) true
  else Appender (a_content a ++ [v]) (a_total a + String.length v) false.

Definition terminated (s : string) : string :=
  s +:+ (if String.eqb (last_str s) nl then "" else nl).

Section content.
(** A [SortedList], by its keys: its rows in the order it iterates them. *)
Context (sorted_rows : list (string * DetailRow) → list DetailRow).

Fixpoint append_rows (max : Z) (link : string) (t : detail_table) (rows : list DetailRow)
    (a : appender) : outcome appender :=
  match rows with
  | [] => Ok a
  | r :: rows' =>
      if a_stop a then Ok a
      else let? s := row_str t r in
           append_rows max link t rows' (append max link (terminated s) a)
  end.

Fixpoint append_items (max : Z) (link : string) (c : comment) (items : list element)
    (a : appender) : outcome appender :=
  match items with
  | [] => Ok a
  | Line s :: items' => append_items max link c items' (append max link (terminated s) a)
  | Rows t :: items' =>
      let? a' := append_rows max link t (sorted_rows (c_rows c t)) a in
      append_items max link c items' a'
  end.

Fixpoint append_keys (max : Z) (link : string) (c : comment) (keys : list (option section))
    (a : appender) : outcome appender :=
  match keys with
  | [] => Ok a
  | k :: keys' =>
      if a_stop a then Ok a
      else let a := append max link nl a in
           let? a := match k with
                     | None => Ok a
                     | Some s => if a_stop a then Ok a
                                 else append_items max link c (c_elements c s) a
                     end in
           append_keys max link c keys' a
  end.

(** [get_content]: the keys of all elements *)
Definition get_content (c : comment) (char_limit : Z) : outcome string :=
  let link := c_overflow_link c in
  if (char_limit <? Z.of_nat (String.length link))%Z then Err ValueError
  else let? a := append_keys (char_limit - Z.of_nat (String.length link)) link c element_keys
                   (Appender [] 0 false) in
       Ok (join "" (a_content a)).

(** ** The text against the pieces it is made of *)

(** All that there is to print, in order. *)
Definition item_pieces (c : comment) (e : element) : list (outcome string) :=
  match e with
  | Line s => [Ok (terminated s)]
  | Rows t => (λ r, let? s := row_str t r in Ok (terminated s)) <$> sorted_rows (c_rows c t)
  end.
Definition section_pieces (c : comment) (k : option section) : list (outcome string) :=
  Ok nl :: match k with None => [] | Some s => c_elements c s ≫= item_pieces c end.
Definition pieces (c : comment) : list (outcome string) := element_keys ≫= section_pieces c.

(** The pieces that fit: those before the first that reaches the limit. *)
Fixpoint fits (max : Z) (total : nat) (ps : list (outcome string)) : outcome (list string * bool) :=
  match ps with
  | [] => Ok ([], true)
  | p :: ps' =>
      let? v := p in
      if (max <=? Z.of_nat (total + String.length v))%Z then Ok ([], false)
      else let? ' (l, all) := fits max (total + String.length v) ps' in Ok (v :: l, all)
  end.

(** The loops of [__get_content], as one loop over the pieces. *)
Fixpoint feed (max : Z) (link : string) (ps : list (outcome string)) (a : appender) :
    outcome appender :=
  match ps with
  | [] => Ok a
  | p :: ps' => if a_stop a then Ok a else let? v := p in feed max link ps' (append max link v a)
  end.

Lemma feed_stopped max link ps a : a_stop a = true → feed max link ps a = Ok a.
Proof. intros H. destruct ps; simpl; by rewrite ?H. Qed.

Lemma feed_app max link ps1 ps2 a :
  feed max link (ps1 ++ ps2) a = let? a' := feed max link ps1 a in feed max link ps2 a'.
Proof.
  revert a. induction ps1 as [|p ps1 IH]; intros a; simpl; [done|].
  destruct (a_stop a) eqn:Ha; simpl; [by rewrite feed_stopped|].
  destruct p; simpl; [apply IH|done].
Qed.

Lemma append_rows_feed max link t rows a :
  append_rows max link t rows a =
    feed max link ((λ r, let? s := row_str t r in Ok (terminated s)) <$> rows) a.
Proof.
  revert a. induction rows as [|r rows IH]; intros a; simpl; [done|].
  destruct (a_stop a); [done|]. destruct (row_str t r); simpl; [apply IH|done].
Qed.

Lemma append_stopped max link v a : a_stop a = true → append max link v a = a.
Proof. intros H. unfold append. by rewrite H. Qed.

Lemma append_items_feed max link c items a :
  append_items max link c items a = feed max link (items ≫= item_pieces c) a.
Proof.
  revert a. induction items as [|[s|t] items IH]; intros a; [done| |].
  - cbn [append_items mbind list_bind item_pieces app feed].
    destruct (a_stop a) eqn:Ha; simpl; rewrite IH; [|done].
    by rewrite append_stopped, feed_stopped.
  - cbn [append_items mbind list_bind item_pieces]. rewrite append_rows_feed, feed_app.
    destruct (feed max link _ a); simpl; [apply IH|done].
Qed.

Lemma append_keys_feed max link c keys a :
  append_keys max link c keys a = feed max link (keys ≫= section_pieces c) a.
Proof.
  revert a. induction keys as [|k keys IH]; intros a; [done|].
  cbn [append_keys mbind list_bind section_pieces]. rewrite feed_app. cbn [feed].
  destruct (a_stop a) eqn:Ha; simpl; rewrite ?Ha; simpl; [by rewrite feed_stopped|].
  destruct k as [s|]; simpl; [|apply IH].
  destruct (a_stop (append max link nl a)) eqn:Hn; simpl.
  - by rewrite (feed_stopped _ _ _ _ Hn).
  - rewrite append_items_feed. destruct (feed max link _ _); simpl; [apply IH|done].
Qed.

Definition cut_link (link : string) (all : bool) : list string := if all then [] else [link].

Lemma feed_fits max link ps a :
  a_stop a = false →
  (let? a' := feed max link ps a in Ok (a_content a')) =
  (let? ' (l, all) := fits max (a_total a) ps in Ok (a_content a ++ l ++ cut_link link all)).
Proof.
  revert a. induction ps as [|p ps IH]; intros a Ha; simpl; [by rewrite app_nil_r|].
  rewrite Ha. destruct p as [v|]; [|done]. simpl. unfold append. rewrite Ha.
  destruct (max <=? _)%Z; simpl; [by rewrite feed_stopped|].
  rewrite IH by done. simpl. destruct (fits max _ ps) as [[l all]|]; simpl; [|done].
  by rewrite <- (assoc_L (++)).
Qed.

Lemma get_content_fits c limit :
  get_content c limit =
    if (limit <? Z.of_nat (String.length (c_overflow_link c)))%Z then Err ValueError
    else let? ' (l, all) := fits (limit - Z.of_nat (String.length (c_overflow_link c))) 0 (pieces c) in
         Ok (join "" (l ++ cut_link (c_overflow_link c) all)).
Proof.
  unfold get_content. destruct (limit <? _)%Z; [done|].
  rewrite append_keys_feed. fold (pieces c).
  pose proof (feed_fits (limit - Z.of_nat (String.length (c_overflow_link c)))
    (c_overflow_link c) (pieces c) (Appender [] 0 false) eq_refl) as H.
  generalize dependent (pieces c). intros ps H. simpl in H.
  destruct (feed _ _ _ _) as [a|]; simpl in *; destruct (fits _ _ _) as [[l all]|]; simpl in *;
    congruence.
Qed.

Lemma length_join_nil l1 l2 :
  String.length (join "" (l1 ++ l2)) = String.length (join "" l1) + String.length (join "" l2).
Proof.
  induction l1 as [|w l1 IH]; [done|].
  assert (Hc : ∀ v l, String.length (join "" (v :: l)) = String.length v + String.length (join "" l)).
  { intros v [|v' l]; simpl; [lia|]. by rewrite length_app_str. }
  cbn [app]. rewrite !Hc, IH. lia.
Qed.

(** What fits: a prefix of the pieces below the limit, cut at the first piece
    that reaches it. *)
Lemma fits_spec max total ps l all :
  fits max total ps = Ok (l, all) →
  ∃ rest, ps = (Ok <$> l) ++ rest ∧
    (l = [] ∨ (Z.of_nat (total + String.length (join "" l)) < max)%Z) ∧
    if all then rest = []
    else ∃ v rest', rest = Ok v :: rest' ∧
      (max <= Z.of_nat (total + String.length (join "" l) + String.length v))%Z.
Proof.
  revert total l. induction ps as [|p ps IH]; intros total l H; simpl in H.
  - simplify_eq. exists []. split_and!; [done|by left|done].
  - destruct p as [v|]; [|done]. simpl in H.
    destruct (Z.leb_spec max (Z.of_nat (total + String.length v))) as [Hle|Hlt].
    + simplify_eq. exists (Ok v :: ps). split_and!; [done|by left|].
      exists v, ps. split; [done|]. simpl. lia.
    + destruct (fits max _ ps) as [[l' all']|] eqn:Hf; simpl in H; [|done]. simplify_eq.
      apply IH in Hf as (rest & -> & Hl & Hall). exists rest.
      pose proof (length_join_nil [v] l') as Hj. cbn [app] in Hj. change (join "" [v]) with v in Hj.
      rewrite Hj. split_and!; [done| |].
      * right. destruct Hl as [->|Hl]; simpl in *; lia.
      * destruct all; [done|]. destruct Hall as (v' & rest' & -> & Hle).
        exists v', rest'. split; [done|]. lia.
Qed.

(** The pieces that are shown, and how the text ends. *)
Lemma content_cut c limit s :
  get_content c limit = Ok s →
  ∃ shown rest, pieces c = (Ok <$> shown) ++ rest ∧
    (Z.of_nat (String.length s) <= limit)%Z ∧
    ((rest = [] ∧ s = join "" shown) ∨
     (∃ v rest', rest = Ok v :: rest' ∧ s = join "" (shown ++ [c_overflow_link c]) ∧
        (limit <= Z.of_nat (String.length (join "" (shown ++ [v; c_overflow_link c]))))%Z)).
Proof.
  rewrite get_content_fits. destruct (Z.ltb_spec limit (Z.of_nat (String.length (c_overflow_link c))));
    [done|].
  destruct (fits _ _ _) as [[l all]|] eqn:Hf; simpl; [intros [= <-]|done].
  apply fits_spec in Hf as (rest & Hp & Hl & Hall). simpl in Hl.
  assert (Hnil : String.length (join "" []) = 0) by done.
  destruct all; unfold cut_link.
  - subst rest. rewrite !app_nil_r in *. exists l, []. rewrite app_nil_r.
    split; [done|]. split; [destruct Hl as [->|Hl]; simpl in *; lia|]. by left.
  - destruct Hall as (v & rest' & -> & Hle). simpl in Hle. exists l, (Ok v :: rest').
    split; [done|]. rewrite length_join_nil. change (join "" [c_overflow_link c]) with (c_overflow_link c).
    split; [destruct Hl as [->|Hl]; [rewrite Hnil|]; lia|].
    right. exists v, rest'. split_and!; [done..|].
    rewrite length_join_nil. cbn [join]. rewrite !length_app_str. simpl. lia.
Qed.

Lemma join_nil_cons w l : join "" (w :: l) = w +:+ join "" l.
Proof. destruct l; [|done]. simpl. by rewrite app_str_nil_r. Qed.

Lemma ok_inj {A} (a b : A) : Ok a = Ok b → a = b.
Proof. congruence. Qed.

(** A comment with room for its identifier starts with it, on its second line. *)
Lemma content_starts c limit s :
  c_elements c Identifier = [Line identifier] →
  (17 + Z.of_nat (String.length (c_overflow_link c)) < limit)%Z →
  get_content c limit = Ok s → ∃ rest, s = nl +:+ identifier +:+ nl +:+ rest.
Proof.
  intros Hi Hl. rewrite get_content_fits. destruct (Z.ltb_spec limit
    (Z.of_nat (String.length (c_overflow_link c)))); [lia|].
  set (max := (limit - _)%Z). assert (Hmax : (17 < max)%Z) by lia.
  assert (∃ ps, pieces c = Ok nl :: Ok (terminated identifier) :: ps) as [ps ->].
  { unfold pieces, element_keys. simpl. rewrite Hi. eexists. reflexivity. }
  cbn [fits bindO]. change (String.length nl) with 1.
  rewrite (proj2 (Z.leb_gt max (Z.of_nat (0 + 1)))) by lia.
  change (String.length (terminated identifier)) with 16.
  rewrite (proj2 (Z.leb_gt max (Z.of_nat (0 + 1 + 16)))) by lia.
  destruct (fits max _ ps) as [[l all]|]; [|done]. cbn [bindO app].
  intros <-%ok_inj.
  rewrite !join_nil_cons. change (terminated identifier) with (identifier +:+ nl).
  rewrite <- app_str_assoc. by eexists.
Qed.

(** C33: a comment is never longer than the limit it is made for.  It has all its
    pieces in order, or it is cut at the first piece with which it would come
    within the length of the link of the limit, and ends with the link there. *)
Theorem content_bounded c limit s :
  get_content c limit = Ok s →
  (Z.of_nat (String.length s) <= limit)%Z ∧
  ∃ shown rest, pieces c = (Ok <$> shown) ++ rest ∧
    ((rest = [] ∧ s = join "" shown) ∨
     (∃ v rest', rest = Ok v :: rest' ∧ s = join "" (shown ++ [c_overflow_link c]) ∧
        (limit <= Z.of_nat (String.length (join "" (shown ++ [v; c_overflow_link c]))))%Z)).
Proof. intros (shown & rest & Hp & Hl & H)%content_cut. split; [done|]. eauto. Qed.
End content.

(** ** The tables *)

(** What the program does with a comment it makes. *)
Inductive built (repr : json → string) (base link url : string) : comment → Prop :=
| built_new : built repr base link url (comment_new base link url)
| built_annotation line c : built repr base link url c → built repr base link url (add_to_annotation line c)
| built_start start c :
    start ∈ [start_policy_violation_detail_section; start_sast_detail_section;
             start_sca_detail_section; start_iac_detail_section; start_resolved_detail_section] →
    built repr base link url c → built repr base link url (start c)
| built_summary l c : built repr base link url c → built repr base link url (start_summary_section l c)
| built_entry engine counts l c : built repr base link url c → built repr base link url (add_summary_entry engine counts l c)
| built_policy name break_build rule c c' :
    built repr base link url c → add_policy_violation_detail name break_build rule c = Ok c' → built repr base link url c'
| built_sast sev img issue src view c c' :
    built repr base link url c → add_sast_detail sev img issue src view c = Ok c' → built repr base link url c'
| built_sca sev img cve name version view c c' :
    built repr base link url c → add_sca_detail repr sev img cve name version view c = Ok c' → built repr base link url c'
| built_iac sev img tech src query view c c' :
    built repr base link url c → add_iac_detail sev img tech src query view c = Ok c' → built repr base link url c'
| built_resolved sev img name view c c' :
    built repr base link url c → add_resolved_detail sev img name view c = Ok c' → built repr base link url c'.

(** A row as the table holds it: under its key, and it can be printed, unless it
    is one of the IaC table, whose query name nothing has looked at. *)
Definition well_formed_row (t : detail_table) (kr : string * DetailRow) : Prop :=
  row_key t kr.2 = Ok kr.1 ∧ (t ≠ IacDetailRows → is_ok (row_str t kr.2) = true).
Definition well_formed (c : comment) : Prop :=
  c_elements c Identifier = [Line identifier] ∧ ∀ t, Forall (well_formed_row t) (c_rows c t).

Lemma append_elements_wf s l c : s ≠ Identifier → well_formed c → well_formed (append_elements s l c).
Proof. intros Hs [Hi Hr]. split; [|done]. simpl. by rewrite decide_False by done. Qed.

Lemma add_row_wf t r c c' :
  add_row t r c = Ok c' → (∀ k, row_key t r = Ok k → t ≠ IacDetailRows → is_ok (row_str t r) = true) →
  well_formed c → well_formed c'.
Proof.
  unfold add_row. intros H Hr [Hi Hc]. destruct (row_key t r) as [k|] eqn:Hk; [|done].
  simpl in H. simplify_eq. split; [done|]. intros t'. simpl.
  destruct (decide (t' = t)) as [->|]; [|done].
  apply Forall_app. split; [done|]. repeat constructor; [done|]. intros Ht. by eapply Hr.
Qed.

Lemma built_well_formed repr base link url c : built repr base link url c → well_formed c.
Proof.
  induction 1 as [| |start c Hs|l c|engine counts l c|name b rule c c' _ IH Ha|? ? ? ? ? c c' _ IH Ha
    |? ? cve name version ? c c' _ IH Ha|? ? tech ? query ? c c' _ IH Ha|? ? name ? c c' _ IH Ha].
  - split; [done|]. intros t. constructor.
  - by apply append_elements_wf.
  - rewrite !elem_of_cons, elem_of_nil in Hs.
    destruct Hs as [->|[->|[->|[->|[->|[]]]]]]; by apply append_elements_wf.
  - by apply append_elements_wf.
  - by apply append_elements_wf.
  - eapply add_row_wf; [exact Ha| |done]. intros k Hk _. revert Hk. unfold row_key, sort_key, row_str, DetailRow_str; simpl.
    destruct name; simpl; try done. by destruct rule.
  - eapply add_row_wf; [exact Ha| |done]. done.
  - unfold add_sca_detail in Ha. destruct (normalized_version version); [|done].
    eapply add_row_wf; [exact Ha| |done]. intros k Hk _. revert Hk. unfold row_key, sort_key, row_str, DetailRow_str; simpl.
    destruct name; simpl; try done. by destruct cve.
  - eapply add_row_wf; [exact Ha| |done]. done.
  - eapply add_row_wf; [exact Ha| |done]. intros k Hk _. revert Hk. unfold row_key, sort_key, row_str, DetailRow_str; simpl.
    by destruct name.
Qed.

Lemma built_links repr base link url c :
  built repr base link url c → c_overflow_link c = link ∧ c_scan_url c = url.
Proof.
  induction 1 as [| |start c Hs| | |? ? ? ? ? _ IH Ha|? ? ? ? ? ? ? _ IH Ha
    |? ? ? ? ? ? ? ? _ IH Ha|? ? ? ? ? ? ? ? _ IH Ha|? ? ? ? ? ? _ IH Ha]; try done.
  1: rewrite !elem_of_cons, elem_of_nil in Hs; by destruct Hs as [->|[->|[->|[->|[->|[]]]]]].
  all: unfold add_policy_violation_detail, add_sast_detail, add_sca_detail, add_iac_detail,
    add_resolved_detail, add_row in Ha; inv_ok; by simplify_eq.
Qed.

Definition str_le (s t : string) : Prop := String.leb s t = true.

Lemma row_key_rank t r1 r2 k1 k2 :
  row_key t r1 = Ok k1 → row_key t r2 = Ok k2 → str_le k1 k2 →
  severity_rank (dr_severity r1) ≤ severity_rank (dr_severity r2).
Proof.
  unfold row_key, sort_key, severity_rank_key. intros H1 H2.
  destruct (mapO _ _) as [l1|]; [|done]. destruct (mapO _ _) as [l2|]; [|done].
  cbn [bindO] in *. injection H1 as <-. injection H2 as <-.
  generalize (join "" l1) (join "" l2). intros s1 s2.
  destruct (dr_severity r1), (dr_severity r2); try (intros; simpl; lia);
    intros H; cbv in H; discriminate H.
Qed.

Section sorted.
Context (sorted_rows : list (string * DetailRow) → list DetailRow).
(** A [SortedList] iterates its values, each as often as it was added, in the
    order of their keys. *)
Hypothesis sorted_by_key : ∀ l, ∃ l', l' ≡ₚ l ∧ sorted_rows l = l'.*2 ∧
  StronglySorted (λ kr1 kr2, str_le kr1.1 kr2.1) l'.

(** C39: the tables of a comment, however it was built, list their rows from the
    most to the least severe; every row of a table other than that of the
    infrastructure findings can be printed; and what is printed of it, for a limit
    with room for them and the link, starts with an empty line and the identifier the
    comment is recognised by. *)
Theorem comment_tables repr base link url c t :
  built repr base link url c →
  StronglySorted (λ r1 r2, severity_rank (dr_severity r1) ≤ severity_rank (dr_severity r2))
    (sorted_rows (c_rows c t)) ∧
  (t ≠ IacDetailRows → Forall (λ r, is_ok (row_str t r) = true) (sorted_rows (c_rows c t))) ∧
  (∀ limit s, (17 + Z.of_nat (String.length link) < limit)%Z →
     get_content sorted_rows c limit = Ok s → ∃ rest, s = nl +:+ identifier +:+ nl +:+ rest).
Proof.
  intros Hb. pose proof (built_links _ _ _ _ _ Hb) as [Hlink _].
  apply built_well_formed in Hb as [Hi Hwf]. specialize (Hwf t).
  destruct (sorted_by_key (c_rows c t)) as (l & Hp & -> & Hs). rewrite <- Hp in Hwf.
  split_and!; [|intros Ht; apply Forall_fmap; eapply Forall_impl; [exact Hwf|by intros kr [_ Hr]; apply Hr]|
    intros limit s Hl; apply content_starts; [done|by rewrite Hlink]].
  clear Hp. induction Hs as [|kr l Hs IH Hle]; simpl; [constructor|].
  apply Forall_cons in Hwf as [[Hk _] Hwf]. constructor; [by apply IH|].
  apply Forall_fmap. rewrite Forall_forall in *.
  intros kr' Hin. destruct (Hwf kr' Hin) as [Hk' _]. eapply row_key_rank; [done..|]. by apply Hle.
Qed.
End sorted.

(** ** Witnesses *)

(** A sorted list: the merge sort of its keys. *)
Definition by_key (kr1 kr2 : string * DetailRow) : Prop := str_le kr1.1 kr2.1.
#[export] Instance by_key_dec kr1 kr2 : Decision (by_key kr1 kr2).
Proof. unfold by_key, str_le. apply _. Defined.
Definition merge_rows (l : list (string * DetailRow)) : list DetailRow := (merge_sort by_key l).*2.

Lemma ascii_compare_trans a b c :
  Ascii.compare a b ≠ Gt → Ascii.compare b c ≠ Gt →
  Ascii.compare a c ≠ Gt ∧ (Ascii.compare a c = Eq → Ascii.compare a b = Eq ∧ Ascii.compare b c = Eq).
Proof.
  unfold Ascii.compare. intros H1 H2. rewrite !N.compare_eq_iff. split.
  - change (N_of_ascii a <= N_of_ascii c)%N. by transitivity (N_of_ascii b).
  - intros H. assert (N_of_ascii a <= N_of_ascii b)%N by done.
    assert (N_of_ascii b <= N_of_ascii c)%N by done. lia.
Qed.

Lemma str_le_trans : Transitive str_le.
Proof.
  intros s t u. unfold str_le, String.leb. revert t u.
  induction s as [|a s IH]; intros [|b t] [|c u]; simpl; try done.
  intros H1 H2.
  destruct (ascii_compare_trans a b c) as [Hle Heq].
  { by destruct (Ascii.compare a b). } { by destruct (Ascii.compare b c). }
  destruct (Ascii.compare a c) eqn:Hac; [|done|done].
  destruct (Heq eq_refl) as [H3 H4]. rewrite H3 in H1. rewrite H4 in H2. by eapply IH.
Qed.

#[export] Instance by_key_trans : Transitive by_key.
Proof. intros kr1 kr2 kr3. apply str_le_trans. Qed.
#[export] Instance by_key_total : Total by_key.
Proof. intros kr1 kr2. apply String.leb_total. Qed.

Lemma merge_rows_by_key l : ∃ l', l' ≡ₚ l ∧ merge_rows l = l'.*2 ∧
  StronglySorted (λ kr1 kr2, str_le kr1.1 kr2.1) l'.
Proof.
  exists (merge_sort by_key l). split_and!; [apply merge_sort_Permutation|done|].
  apply (StronglySorted_merge_sort by_key).
Qed.

Definition demo_repr (_ : json) : string := "".
Definition demo_started : comment := start_resolved_detail_section (comment_new "https://s" "..." "u").
Definition demo_low : comment :=
  match add_resolved_detail LOW "l" (JStr "XSS") "v" demo_started with
  | Ok c => c | Err _ => demo_started end.
Definition demo_built : comment :=
  match add_resolved_detail HIGH "h" (JStr "SQLI") "v" demo_low with
  | Ok c => c | Err _ => demo_low end.

(** The finding that is more severe comes first, although it was added last. *)
Lemma comment_tables_witness :
  merge_rows (c_rows demo_built ResolvedDetailRows)
    ≫= (λ r, match row_str ResolvedDetailRows r with Ok s => [s] | Err _ => [] end)
    = ["| h | SQLI | v |"; "| l | XSS | v |"] ∧
  Forall (λ r, is_ok (row_str ResolvedDetailRows r) = true)
    (merge_rows (c_rows demo_built ResolvedDetailRows)).
Proof.
  split; [vm_compute; reflexivity|].
  refine (proj1 (proj2 (comment_tables merge_rows merge_rows_by_key demo_repr "https://s" "..." "u"
    demo_built ResolvedDetailRows _)) _); [|discriminate].
  apply (built_resolved _ _ _ _ HIGH "h" (JStr "SQLI") "v" demo_low); [|reflexivity].
  apply (built_resolved _ _ _ _ LOW "l" (JStr "XSS") "v" demo_started); [|reflexivity].
  apply built_start; [set_solver|]. apply built_new.
Defined.

(** Thirty characters are enough for the identifier only. *)
Lemma content_bounded_witness :
  get_content merge_rows demo_built 30 = Ok (nl +:+ identifier +:+ nl +:+ nl +:+ "...") ∧
  (Z.of_nat (String.length (nl +:+ identifier +:+ nl +:+ nl +:+ "...")) <= 30)%Z.
Proof.
  split; [vm_compute; reflexivity|].
  apply (proj1 (content_bounded merge_rows demo_built 30 _ eq_refl)).
Defined.
