(* ===== verification/Grouping.v ===== *)
(** * Project groups: [src/cxone_service/grouping.py]

    The calls of the Checkmarx One service on the Checkmarx One API, and the
    cache of group identifiers. *)
From S2P Require Import Prelude PyStr PyJson Url Auth Messaging.
Open Scope string_scope.
Open Scope nat_scope.
Open Scope list_scope.

(** ** Calls on the Checkmarx One API *)

(** The filter of a list of scans. *)
Record scan_query : Type := ScanQuery {
  sq_statuses : list string; sq_project : string; sq_tag_key : string; sq_tag_value : json }.

Inductive cx_ev : Type :=
| ListProjects (names : string)
| CreateProject (groups : list json) (name : string) (tags : dict json) (repo_url : json)
| UpdateProject (id : json) (project : dict json)
| RetrieveGroups (search : string)
| NextScan (q : scan_query) (k : nat)       (* the [k]-th scan of a list, or its end *)
| UpdateScanTags (id : json) (tags : dict json)
| CancelAScan (id : json)
| DefaultEngineConfig (pc : project_config) (branch : json)
| ComputeFilters (pc : project_config) (engines : dict json)
| InvokeScan (pc : project_config) (branch : json) (engines tags : dict json) (zip : string)
| ProjectFromJson (project : dict json)
| ProjectFromId (id : json)
| LoadScan (id : json)
| CreateReport (payload : dict json)
| ReportStatus (id : json)
| DownloadReport (id : json)
| CxNow
| CxSleep (seconds : Z).

Definition cx_resp (e : cx_ev) : Type :=
  match e with
  | NextScan _ _ => option json
  | DefaultEngineConfig _ _ => list json
  | ComputeFilters _ _ => dict json
  | ProjectFromJson _ | ProjectFromId _ => project_config
  | LoadScan _ => inspector
  | CxNow => Z
  | CxSleep _ => unit
  | _ => response
  end.
#[global] Arguments cx_resp : simpl never.

Abbreviation cx_prog := (prog cx_ev cx_resp).

(** ** State *)
Record route : Type := Route { regex : string; groups : list string }.

Record grouping : Type := Grouping {
  g_routes : list route;
  g_index : dict json;        (* __groupid_index *)
  g_errors : dict nat }.      (* __path_res_errors *)

Section grouping.
Context (json_on_ok : response → outcome json).
(** [regex.match(clone_url)] for a pattern of the configuration. *)
Context (re_match : string → string → bool).

(** [add_assignment_rule] *)
Definition add_assignment_rule (clone_url_regex : string) (group_paths : list string)
    (g : grouping) : grouping :=
  Grouping (g_routes g ++ [Route clone_url_regex (lstrip "/" <$> group_paths)])
    (g_index g) (g_errors g).

(** [__increment_error] *)
Definition increment_error (path : string) (g : grouping) : grouping :=
  Grouping (g_routes g) (g_index g)
    (dset path (match dget path (g_errors g) with Some n => S n | None => 1 end) (g_errors g)).

Definition index_group (path : string) (id : json) (g : grouping) : grouping :=
  Grouping (g_routes g) (dset path id (g_index g)) (g_errors g).

(** The identifier of the first group that has the path as its name. *)
Fixpoint find_group (path : string) (defs : list json) : outcome (option json) :=
  match defs with
  | [] => Ok None
  | d :: defs' =>
      let? name := jindex "name" d in
      if bool_decide (name = JStr path) then let? id := jindex "id" d in Ok (Some id)
      else find_group path defs'
  end.

(** Look a group up that is not cached: the new state, and whether the path is
    done with (the [continue] of the loop). *)
Definition find_group_id (path : string) : cx_prog (option (option json)) :=
  let! resp := call (RetrieveGroups path) in
  let! j := lift (json_on_ok resp) in
  let! defs := lift (as_arr j) in
  match defs return cx_prog (option (option json)) with
  | [] => Ret None
  | _ => let! id := lift (find_group path defs) in Ret (Some id)
  end.
Definition lookup_group (path : string) (g : grouping) : cx_prog (grouping * bool) :=
  on_outcome
    (λ r, match r with
          | Ok (Some (Some id)) => Ret (index_group path id g, false)
          | Ok (Some None) => Ret (g, false)
          | Ok None => Ret (increment_error path g, true)
          | Err e => if is_BaseException e then Ret (increment_error path g, false) else Raise e
          end)
    (find_group_id path).

(** One iteration of [__resolve_group_ids]. *)
Definition resolve_group (path : string) (g : grouping) : cx_prog (grouping * list json) :=
  let! ' (g, skip) := (if dhas path (g_index g) then Ret (g, false)
                       else lookup_group path g) in
  if (skip : bool) then Ret (g, [])
  else match dget path (g_index g) with
       | Some id => Ret (Grouping (g_routes g) (g_index g) (ddel path (g_errors g)), [id])
       | None => Ret (g, [])
       end.

(** [__resolve_group_ids] *)
Fixpoint resolve_group_ids (paths : list string) (g : grouping) :
    cx_prog (grouping * list json) :=
  match paths with
  | [] => Ret (g, [])
  | p :: paths' =>
      let! ' (g, ids) := resolve_group p g in
      let! ' (g, rest) := resolve_group_ids paths' g in
      Ret (g, ids ++ rest)
  end.

(** [resolve_groups] *)
Fixpoint resolve_routes (routes : list route) (clone_url : string) (g : grouping) :
    cx_prog (grouping * list json) :=
  match routes with
  | [] => Ret (g, [])
  | r :: routes' =>
      let! ' (g, ids) := (if re_match (regex r) clone_url
                          then resolve_group_ids (groups r) g else Ret (g, [])) in
      let! ' (g, rest) := resolve_routes routes' clone_url g in
      Ret (g, ids ++ rest)
  end.
Definition resolve_groups (clone_url : string) (g : grouping) : cx_prog (grouping * list json) :=
  resolve_routes (g_routes g) clone_url g.

(** [purge_cache] *)
Definition purge_cache (g : grouping) : grouping := Grouping (g_routes g) [] [].

End grouping.

(** ** Theorems *)
Section theorems.
Context (json_on_ok : response → outcome json).

Definition cached (g : grouping) (path : string) : option json := dget path (g_index g).

(** The answer [r] to the question for [path] names [id]. *)
Definition names_group (path : string) (r : outcome response) (id : json) : Prop :=
  ∃ resp defs, r = Ok resp ∧ json_on_ok resp = Ok (JArr defs) ∧ find_group path defs = Ok (Some id).

(** Looking a path up asks once. *)
Lemma find_group_id_spec path tr r :
  exec (find_group_id json_on_ok path) tr r →
  ∃ x, tr = [Obs (RetrieveGroups path) x] ∧ ∀ id, r = Ok (Some (Some id)) → names_group path x id.
Proof.
  unfold find_group_id. intros H.
  call_step H as [(resp & tr5 & -> & H)|(x & -> & ->)]; [|by eexists].
  apply exec_lift_bind in H as [(j & Hj & H)|(x & _ & -> & ->)]; [|by eexists].
  apply exec_lift_bind in H as [(defs & Hd & H)|(x & _ & -> & ->)]; [|by eexists].
  destruct j; simplify_eq/=. destruct defs as [|d defs]; [destruct H as [-> ->]; by eexists|].
  apply exec_lift_bind in H as [(id' & Hf & [-> ->])|(x & _ & -> & ->)]; [|by eexists].
  eexists. split; [done|]. intros id [= ->]. by eexists _, _.
Qed.

(** A path that is not cached is cached only with what the answer names, and
    nothing else of the cache changes. *)
Lemma lookup_group_spec path g tr o :
  cached g path = None → exec (lookup_group json_on_ok path g) tr o →
  (∃ e, o = Err e ∧ is_BaseException e = false) ∨
  ∃ g1 skip x, o = Ok (g1, skip) ∧ tr = [Obs (RetrieveGroups path) x] ∧
    g_routes g1 = g_routes g ∧ (∀ p, p ≠ path → cached g1 p = cached g p) ∧
    ∀ id, cached g1 path = Some id → skip = false ∧ names_group path x id.
Proof.
  unfold lookup_group, cached. intros Hg H.
  apply exec_on_outcome in H as (r & tr1 & tr2 & -> & (x & -> & Hx)%find_group_id_spec & H).
  destruct r as [[[id|]|]|e]; [| | |destruct (is_BaseException e) eqn:He]; destruct H as [-> ->].
  - right. eexists _, _, x. split_and!; try done; simpl.
    + intros p Hp. by apply dget_dset_ne.
    + intros id'. rewrite dget_dset_eq. intros [= <-]. split; [done|by apply Hx].
  - right. eexists _, _, x. split_and!; try done. intros id'. by rewrite Hg.
  - right. eexists _, _, x. split_and!; try done. intros id'. simpl. by rewrite Hg.
  - right. eexists _, _, x. split_and!; try done. intros id'. simpl. by rewrite Hg.
  - left. eauto.
Qed.

(** What one iteration may do. *)
Lemma resolve_group_spec path g tr o :
  exec (resolve_group json_on_ok path g) tr o →
  (∃ e, o = Err e ∧ is_BaseException e = false) ∨
  (∃ g' ids, o = Ok (g', ids) ∧ g_routes g' = g_routes g ∧
     ids = option_list (cached g' path) ∧
     (∀ p, p ≠ path → cached g' p = cached g p) ∧
     match cached g path with
     | Some id => tr = [] ∧ cached g' path = Some id
     | None => ∃ r, tr = [Obs (RetrieveGroups path) r] ∧
         (∀ id, cached g' path = Some id → names_group path r id)
     end).
Proof.
  unfold resolve_group, dhas. intros H. destruct (cached g path) as [id|] eqn:Hg.
  - unfold cached in Hg. rewrite Hg in H.
    change (exec (match dget path (g_index g) with
      | Some id => Ret (Grouping (g_routes g) (g_index g) (ddel path (g_errors g)), [id])
      | None => Ret (g, []) end) tr o) in H. rewrite Hg in H. destruct H as [-> ->]. right. eexists _, _. split; [done|]. unfold cached. simpl. by rewrite Hg.
  - unfold cached in Hg. rewrite Hg in H.
    apply exec_bind in H as [([g1 skip] & tr1 & tr2 & -> & Hl & H)|(e & Hl & ->)];
      destruct (lookup_group_spec _ _ _ _ Hg Hl)
        as [(e' & He' & ?)|(g1' & skip' & x & Ho & -> & H1 & H2 & H3)];
      simplify_eq; [|by left; eauto].
    right. assert (Hend : tr2 = [] ∧ ∃ g', o = Ok (g', option_list (cached g1' path)) ∧
      g_routes g' = g_routes g1' ∧ g_index g' = g_index g1').
    { unfold cached in H3 |- *. destruct (dget path (g_index g1')) as [id|].
      - destruct (H3 id eq_refl) as [-> _]. destruct H as [-> ->]. eauto.
      - destruct skip'; destruct H as [-> ->]; eauto. }
    destruct Hend as (-> & g' & -> & Hr & Hi). eexists _, _. split; [done|].
    unfold cached in *. rewrite Hr, Hi. split_and!; try done.
    exists x. split; [done|]. intros id Hid. by apply H3.
Qed.

(** Resolving groups asks Checkmarx One only for the paths that are not
    cached, never loses or changes a cached identifier, caches an identifier
    only for the path that an answer names, and returns the identifiers of the
    paths that are cached afterwards, in order; no exception of the lookups
    escapes. *)
Theorem resolve_group_ids_spec paths : ∀ g tr o,
  NoDup paths → exec (resolve_group_ids json_on_ok paths g) tr o →
  (∃ e, o = Err e ∧ is_BaseException e = false) ∨
  (∃ g' ids, o = Ok (g', ids) ∧ g_routes g' = g_routes g ∧
     ids = omap (cached g') paths ∧
     Forall (λ e, ∃ p, e = RetrieveGroups p ∧ p ∈ paths ∧ cached g p = None) (events tr) ∧
     (∀ p id, cached g p = Some id → cached g' p = Some id) ∧
     (∀ p id, cached g p = None → cached g' p = Some id → p ∈ paths ∧ ∃ resp defs,
        Obs (RetrieveGroups p) (Ok resp) ∈ tr ∧ json_on_ok resp = Ok (JArr defs) ∧
        find_group p defs = Ok (Some id))).
Proof.
  induction paths as [|path paths IH]; intros g tr o Hnd H.
  { destruct H as [-> ->]. right. eexists _, _. split; [done|].
    split_and!; try done; try apply Forall_nil_2. intros p id ??. congruence. }
  apply NoDup_cons in Hnd as [Hnotin Hnd]. cbn [resolve_group_ids] in H.
  apply exec_bind in H as [([g1 ids1] & tr1 & tr2 & -> & H1 & H)|(e & H & ->)];
    [|apply resolve_group_spec in H as [(? & [= <-] & ?)|(? & ? & ? & _)]; [eauto|done]].
  apply resolve_group_spec in H1 as [(? & ? & _)|(g1' & ids' & [= <- <-] & Hr1 & Hids & Hoth & H1)];
    [done|].
  assert (Hkeep : ∀ p id, cached g p = Some id → cached g1 p = Some id).
  { intros p id Hp. destruct (decide (p = path)) as [->|]; [|by rewrite Hoth].
    rewrite Hp in H1. tauto. }
  apply exec_bind in H as [([g2 rest] & tr3 & tr4 & -> & H2 & [-> ->])|(e & H & ->)].
  2:{ apply IH in H as [(? & [= <-] & ?)|(? & ? & ? & _)]; [eauto|done|done]. }
  apply IH in H2 as [(? & ? & _)|(g2' & ids2 & [= <- <-] & Hr2 & -> & Hev & Hkeep2 & Hnew2)];
    [done| |done].
  rewrite app_nil_r. right. eexists _, _. split; [done|].
  assert (Hpath : cached g2 path = cached g1 path).
  { destruct (cached g1 path) as [id|] eqn:E; [by apply Hkeep2|].
    destruct (cached g2 path) as [id|] eqn:E2; [|done].
    destruct (Hnew2 _ _ E E2) as [? _]. done. }
  split_and!.
  - congruence.
  - subst ids1. cbn. rewrite Hpath. by destruct (cached g1 path).
  - rewrite events_app. apply Forall_app. split.
    + destruct (cached g path) eqn:E; [destruct H1 as [-> _]; constructor|].
      destruct H1 as (r & -> & _). repeat constructor. exists path. set_solver.
    + eapply Forall_impl; [exact Hev|]. intros e (p & -> & Hp & Hc). exists p.
      split; [done|]. split; [set_solver|].
      destruct (cached g p) eqn:E; [|done]. apply Hkeep in E. congruence.
  - intros p id Hp. by apply Hkeep2, Hkeep.
  - intros p id Hn Hs. destruct (cached g1 p) as [id1|] eqn:E1.
    + assert (p = path) as ->.
      { destruct (decide (p = path)); [done|]. rewrite Hoth in E1; [congruence|done]. }
      split; [set_solver|]. rewrite Hn in H1. destruct H1 as (r & -> & Hf).
      rewrite Hpath, E1 in Hs. injection Hs as <-.
      destruct (Hf _ E1) as (resp & defs & -> & ? & ?). exists resp, defs.
      split; [set_solver|done].
    + destruct (Hnew2 _ _ E1 Hs) as (Hin & resp & defs & Ho & ?). split; [set_solver|].
      exists resp, defs. split; [set_solver|done].
Qed.
End theorems.

(** ** Witness *)
Definition demo_group_resp : response :=
  Response true 200 (Ok (JArr [JObj [("name", JStr "other"); ("id", JInt 1)];
                               JObj [("name", JStr "team/a"); ("id", JInt 2)]])) [] "".
Definition demo_cx_world (n : nat) (e : cx_ev) : outcome (cx_resp e) * nat :=
  match e return outcome (cx_resp e) * nat with
  | RetrieveGroups _ => (Ok demo_group_resp, n)
  | NextScan _ _ => (Ok None, n)
  | DefaultEngineConfig _ _ => (Ok [], n)
  | ComputeFilters _ e => (Ok e, n)
  | ProjectFromJson _ | ProjectFromId _ => (Ok (ProjectConfig JNull JNull [] JNull), n)
  | LoadScan _ => (Ok (Inspector JNull JNull true false false ""), n)
  | CxNow => (Ok 0%Z, n)
  | CxSleep _ => (Ok tt, n)
  | _ => (Ok (demo_response JNull), n)
  end.

Lemma resolve_group_ids_spec_witness :
  ∃ g' ids, run_outcome demo_cx_world 0
    (resolve_group_ids r_json ["team/a"; "team/b"] (Grouping [] [] [])) = Ok (g', ids) ∧
    ids = omap (cached g') ["team/a"; "team/b"].
Proof.
  destruct (resolve_group_ids_spec r_json ["team/a"; "team/b"] (Grouping [] [] []) _ _
    ltac:(repeat constructor; set_solver) (exec_run demo_cx_world 0 _))
    as [(e & H & _)|(g' & ids & H & _ & Hids & _)]; [discriminate H|].
  exists g', ids. split; [exact H|exact Hids].
Defined.
