(* ===== verification/CxOne.v ===== *)
(** * The Checkmarx One service: [src/cxone_service/__init__.py]

    Projects (creation, retrieval, update), scans and their tags, engine
    configurations and reports.  The group cache is explicit state. *)
From S2P Require Import Prelude PyStr PyJson Url Auth Messaging Grouping.
Open Scope string_scope.
Open Scope nat_scope.
Open Scope list_scope.

(** ** Configuration of the service *)
Record cx_service : Type := CxService {
  s_moniker : string;
  s_default_engines : dict json;
  s_default_scan_tags : dict json;
  s_default_project_tags : dict json;
  s_rename_legacy : bool;
  s_update_groups : bool }.

Section cx.
Context (jp : string → json → list json).
Context (json_on_ok : response → outcome json).
Context (re_match : string → string → bool).
Context (repr : json → string).
Context (version : string).
(** The order in which Python iterates a set. *)
Context (set_order : list json → list json).
Context (svc : cx_service).

(** [__get_json_or_fail] and [__succeed_or_throw] *)
Definition get_json_or_fail (r : response) : outcome json :=
  if r_ok r then r_json r else Err (CxOneException (r_text r)).
Definition succeed_or_throw (r : response) : outcome response :=
  if r_ok r then Ok r else Err (CxOneException "").

(** ** Resolver tags: the tags of a project have strings as keys, [None] is none of
    them, and what cannot be hashed cannot be looked up. *)
Definition get_resolver_tag_for_project (pc : project_config) (tag_key : json)
    (default_tag : json) : outcome json :=
  if negb (hashable tag_key) then Err TypeError else
  match match tag_key with JStr k => dget k (pc_tags pc) | _ => None end with
  | None | Some JNull => Ok default_tag
  | Some v => let? l := match v with
                        | JStr s => Ok (String.length s)
                        | JArr l => Ok (length l)
                        | JObj d => Ok (length d)
                        | _ => Err TypeError
                        end in
              Ok (if 0 <? l then v else default_tag)
  end.

(** ** Scans of a pull request *)
Definition COMMIT_TAG : string := "commit".
Definition PR_ID_TAG : string := "pr-id".
Definition PR_TARGET_TAG : string := "pr-target".
Definition PR_STATUS_TAG : string := "pr-status".
Definition PR_STATE_TAG : string := "pr-state".
Definition UPDATABLE_SCANS_STATUSES : list string := ["Completed"; "Failed"; "Partial"].

Definition commit_query (statuses : list string) (project : string) (commit : json) : scan_query :=
  ScanQuery statuses project COMMIT_TAG commit.

(** Whether a scan is one of the pull request, and its tags. *)
Definition pr_scan_tags (pr_id : json) (scan : json) : outcome (option (dict json)) :=
  let? tags := jindex "tags" scan in
  let? tags := as_obj tags in
  match dget PR_ID_TAG tags with
  | Some v => Ok (if bool_decide (JStr (py_str repr v) = pr_id) then Some tags else None)
  | None => Ok None
  end.

Definition updated_tags (tags : dict json) (target state status : json) : dict json :=
  dset PR_STATUS_TAG status (dset PR_STATE_TAG state (dset PR_TARGET_TAG target tags)).

(** [update_scan_pr_tags]; the fuel bounds the scans of the list. *)
Fixpoint update_scans (fuel k : nat) (q : scan_query) (pr_id target state status : json) :
    cx_prog (list json) :=
  match fuel with
  | 0 => Raise OutOfFuel
  | S fuel' =>
      let! scan := call (NextScan q k) in
      match scan return cx_prog (list json) with
      | None => Ret []
      | Some scan =>
          let! mine := lift (pr_scan_tags pr_id scan) in
          let! done := match mine return cx_prog (list json) with
                       | Some tags =>
                           let! id := lift (jindex "id" scan) in
                           let! r := call (UpdateScanTags id
                                             (updated_tags tags target state status)) in
                           Ret (if r_ok r then [id] else [])
                       | None => Ret []
                       end in
          let! rest := update_scans fuel' (S k) q pr_id target state status in
          Ret (done ++ rest)
      end
  end.

Definition update_scan_pr_tags (fuel : nat) (project : string) (pr_id commit target state status : json) :
    cx_prog (list json) :=
  update_scans fuel 0 (commit_query UPDATABLE_SCANS_STATUSES project commit)
    pr_id target state status.

(** [find_pr_scans] *)
Fixpoint find_scans (fuel k : nat) (q : scan_query) (pr_id : json) : cx_prog (list json) :=
  match fuel with
  | 0 => Raise OutOfFuel
  | S fuel' =>
      let! scan := call (NextScan q k) in
      match scan return cx_prog (list json) with
      | None => Ret []
      | Some scan =>
          let! mine := lift (pr_scan_tags pr_id scan) in
          let! found := match mine return cx_prog (list json) with
                        | Some _ => let! id := lift (jindex "id" scan) in Ret [id]
                        | None => Ret []
                        end in
          let! rest := find_scans fuel' (S k) q pr_id in
          Ret (found ++ rest)
      end
  end.

Definition find_pr_scans (fuel : nat) (project : string) (pr_id commit : json) :
    cx_prog (list json) :=
  find_scans fuel 0 (commit_query [] project commit) pr_id.

(** ** Projects *)
(** [__resolve_group_memberships] *)
Definition resolve_group_memberships (existing : list json) (clone_url : string) (g : grouping) :
    cx_prog (grouping * list json) :=
  let! ' (g, ids) := resolve_groups json_on_ok re_match clone_url g in
  let! l := lift (py_set (existing ++ ids)) in
  Ret (g, set_order l).

(** The tags a project gets when it is updated, and whether there is anything to
    update: the defaults it lacks, the service, and its own, which win. *)
Definition project_tags (tags : dict json) : dict json * bool :=
  let new_tags := filter (λ kv, dget kv.1 tags = None)
                    (s_default_project_tags svc : list (string * json)) in
  let new_tags :=
    match dget "service" tags with
    | Some v => if bool_decide (v = JStr (s_moniker svc)) then new_tags
                else dset "service" (JStr (s_moniker svc)) new_tags
    | None => dset "service" (JStr (s_moniker svc)) new_tags
    end in
  match new_tags with
  | [] => (tags, false)
  | _ => (dunion new_tags tags, true)
  end.

(** The repository URL of a project: removed when the project has an imported
    repository, filled in when it has none. *)
Definition project_repo_url (project : dict json) (clone_url : string) :
    outcome (dict json * bool) :=
  let repo_id := default JNull (dget "repoId" project) in
  if not_none repo_id && dhas "repoUrl" project then Ok (ddel "repoUrl" project, false)
  else match default JNull (dget "repoUrl" project) with
       | JNull => Ok (dset "repoUrl" (JStr clone_url) project, true)
       | JStr s => Ok (if String.length s =? 0
                       then (dset "repoUrl" (JStr clone_url) project, true) else (project, false))
       | JArr [] | JObj [] => Ok (dset "repoUrl" (JStr clone_url) project, true)
       | JArr _ | JObj _ => Ok (project, false)
       | _ => Err TypeError
       end.

(** The update of a project, once more with reloaded groups when it fails. *)
Definition update_project (id : json) (project : dict json) (orig_groups : list json)
    (clone_url : string) (g : grouping) : cx_prog (grouping * dict json) :=
  let! r := call (UpdateProject id project) in
  if r_ok r then Ret (g, project)
  else
    let! ' (g, groups) := resolve_group_memberships orig_groups clone_url (purge_cache g) in
    let project := dset "groups" (JArr groups) project in
    let! r := call (UpdateProject id project) in
    let! _ := lift (succeed_or_throw r) in
    Ret (g, project).

(** The project found by name, and whether it must be renamed. *)
Definition select_project (default_name name : string) (projects : json) :
    outcome (dict json * bool) :=
  let search n := jp ("$.projects[?(@.name=='" +:+ n +:+ "')]") projects in
  let? ' (p, rename) :=
    match last (search name) with
    | Some p => Ok (p, false)
    | None => let? p := pop (search default_name) in Ok (p, s_rename_legacy svc)
    end in
  let? p := as_obj p in Ok (p, rename).

(** What is changed of a project that exists: its tags, its name, its groups
    and its repository URL. *)
Definition refresh_project (project : dict json) (rename : bool) (name clone_url : string)
    (g : grouping) : cx_prog (grouping * dict json) :=
  let! id := lift (dindex "id" project) in
  let! tags := lift (let? t := dindex "tags" project in as_obj t) in
  let '(tags', tagged) := project_tags tags in
  let project := if tagged then dset "tags" (JObj tags') project else project in
  let project := if rename then dset "name" (JStr name) project else project in
  let! groups := lift (dindex "groups" project) in
  let! orig_groups := lift (match groups with JNull => Ok [] | v => as_arr v end) in
  let! ' (g, project, grouped) :=
    (if s_update_groups svc then
       let! ' (g, l) := resolve_group_memberships orig_groups clone_url g in
       if existsb (λ x, bool_decide (x ∉ orig_groups)) l
       then Ret (g, dset "groups" (JArr l) project, true)
       else Ret (g, project, false)
     else Ret (g, project, false)) in
  let! ' (project, linked) := lift (project_repo_url project clone_url) in
  if tagged || rename || grouped || linked
  then update_project id project orig_groups clone_url g
  else Ret (g, project).

(** [__create_or_retrieve_project], with what the retry does. *)
Definition create_or_retrieve (retry : bool)
    (again : grouping → cx_prog (grouping * dict json))
    (default_name name clone_url : string) (g : grouping) : cx_prog (grouping * dict json) :=
  let! resp := call (ListProjects (default_name +:+ "," +:+ name)) in
  let! projects := lift (get_json_or_fail resp) in
  let! count := lift (let? c := jindex "filteredTotalCount" projects in py_int c) in
  if (count =? 0)%Z then
    let! ' (g, groups) := resolve_groups json_on_ok re_match clone_url g in
    let! r := call (CreateProject groups name
      (dunion (s_default_project_tags svc)
         [("cxone-flow", JStr version); ("service", JStr (s_moniker svc))]) (JStr clone_url)) in
    if negb (bool_decide (r_status_code r ∈ [400; 403]%Z)) || negb retry then
      let! project := lift (let? j := get_json_or_fail r in as_obj j) in
      let! _ := lift (dindex "id" project) in
      Ret (g, project)
    else if (r_status_code r =? 403)%Z then Raise CxOnePermissionException
    else again g
  else
    let! ' (project, rename) := lift (select_project default_name name projects) in
    refresh_project project rename name clone_url g.

Definition create_or_retrieve_project (default_name name clone_url : string) (g : grouping) :
    cx_prog (grouping * dict json) :=
  create_or_retrieve true
    (create_or_retrieve false (λ _, Raise AttributeError) default_name name clone_url)
    default_name name clone_url g.

(** [load_project_config] *)
Definition load_project_config (default_name name clone_url : string) (g : grouping) :
    cx_prog (grouping * project_config) :=
  let! ' (g, project) := create_or_retrieve_project default_name name clone_url g in
  let! pc := (call (ProjectFromJson project) : cx_prog project_config) in Ret (g, pc).

(** ** Scans *)

(** The engines of the service, each with the options of the project. *)
Fixpoint merge_engines (project_cfg : list json) (engines : dict json) : outcome (dict json) :=
  match project_cfg with
  | [] => Ok engines
  | cfg :: rest =>
      let? type := jindex "type" cfg in
      let? type := as_str type in
      let? value := jindex "value" cfg in
      let? merged := match dget type engines with
                     | None | Some JNull => Ok value
                     | Some v => let? a := as_obj v in let? b := as_obj value in
                                 Ok (JObj (dunion a b))
                     end in
      merge_engines rest (dset type merged engines)
  end.

Definition minimum_engine_selection : dict json := [("sast", JObj [])].

(** [__get_engine_config_for_scan] *)
Definition get_engine_config_for_scan (pc : project_config) (branch : json) :
    cx_prog (dict json) :=
  let! project_cfg := call (DefaultEngineConfig pc branch) in
  let! engines := lift (merge_engines project_cfg (s_default_engines svc)) in
  let! engines := call (ComputeFilters pc engines) in
  match engines return cx_prog (dict json) with
  | [] => Ret minimum_engine_selection
  | _ => Ret engines
  end.

(** [sca_selected] *)
Definition sca_selected (pc : project_config) (branch : json) : cx_prog bool :=
  if dhas "sca" (s_default_engines svc) then Ret true
  else let! engines := get_engine_config_for_scan pc branch in Ret (dhas "sca" engines).

(** [execute_scan] *)
Definition execute_scan (zip : string) (pc : project_config) (branch : json)
    (scan_tags : dict json) : cx_prog json :=
  let! engines := get_engine_config_for_scan pc branch in
  let! r := call (InvokeScan pc branch engines (dunion scan_tags (s_default_scan_tags svc)) zip) in
  lift (get_json_or_fail r).

(** [cancel_scan] *)
Definition cancel_scan (id : json) : cx_prog bool :=
  let! r := call (CancelAScan id) in Ret (r_ok r).

(** ** Reports *)
Definition report_poll_delay_seconds : Z := 30.
Definition report_generate_timeout_seconds : Z := 600.

(** The polling loop: the elapsed time is read before each sleep. *)
Fixpoint poll_report (fuel : nat) (reportid : json) (wait_start : Z) : cx_prog (option json) :=
  match fuel with
  | 0 => Raise OutOfFuel
  | S fuel' =>
      let! now := call CxNow in
      do! call (CxSleep report_poll_delay_seconds) in
      if (now - wait_start <? report_generate_timeout_seconds)%Z then
        let! r := call (ReportStatus reportid) in
        let! gen_status := lift (get_json_or_fail r) in
        let! has := lift (jhas "status" gen_status) in
        if negb has then Raise (CxOneException "Malformed response")
        else
          let! status := lift (jindex "status" gen_status) in
          if bool_decide (status = JStr "completed") then
            let! d := call (DownloadReport reportid) in
            let! report := lift (get_json_or_fail d) in Ret (Some report)
          else poll_report fuel' reportid wait_start
      else Ret None
  end.

(** [retrieve_report]; [None] when the report is not ready in time. *)
Definition retrieve_report (fuel : nat) (projectid scanid : json) : cx_prog (option json) :=
  let! r := call (CreateReport
    [("reportName", JStr "improved-scan-report"); ("fileFormat", JStr "json");
     ("reportType", JStr "cli");
     ("data", JObj [("scanId", scanid); ("projectId", projectid)])]) in
  let! report_response := lift (get_json_or_fail r) in
  let! has := lift (jhas "reportId" report_response) in
  if negb has then Raise (CxOneException "Malformed response")
  else
    let! reportid := lift (jindex "reportId" report_response) in
    let! wait_start := call CxNow in
    poll_report fuel reportid wait_start.
End cx.

(** ** Theorems *)
Section theorems.
Context (jp : string → json → list json).
Context (json_on_ok : response → outcome json).
Context (re_match : string → string → bool).
Context (repr : json → string).
Context (version : string).
Context (set_order : list json → list json).
Context (svc : cx_service).

Definition is_update (e : cx_ev) : bool := match e with UpdateProject _ _ => true | _ => false end.
Definition is_create (e : cx_ev) : bool :=
  match e with CreateProject _ _ _ _ => true | _ => false end.
Definition is_status (e : cx_ev) : bool := match e with ReportStatus _ => true | _ => false end.

(** An existing project keeps every tag it has, gets every default tag it
    lacks and a service tag when it has none, and nothing else; and it is
    updated for its tags exactly when something is to be added or the service
    differs.  A service tag of another service is one of the tags it keeps. *)
Theorem project_tags_spec tags :
  NoDup (dkeys tags) →
  let '(tags', tagged) := project_tags svc tags in
  (∀ k v, dget k tags = Some v → dget k tags' = Some v) ∧
  (∀ k, dget k tags = None →
     dget k tags' = if decide (k = "service") then Some (JStr (s_moniker svc))
                    else dget k (s_default_project_tags svc)) ∧
  (tagged = false ↔ dget "service" tags = Some (JStr (s_moniker svc)) ∧
     ∀ k v, (k, v) ∈ s_default_project_tags svc → dget k tags ≠ None).
Proof.
  intros Hnd. unfold project_tags.
  set (new := filter (λ kv : string * json, dget kv.1 tags = None)
                (s_default_project_tags svc : list (string * json))).
  assert (Hnew : ∀ k, dget k tags = None → dget k new = dget k (s_default_project_tags svc)).
  { intros k Hk. unfold new. induction (s_default_project_tags svc) as [|[k' v'] d IH]; [done|].
    rewrite filter_cons. cbn [fst]. destruct (decide (dget k' tags = None)) as [Hn|Hn].
    - simpl. by rewrite IH.
    - simpl. destruct (String.eqb_spec k k') as [->|]; [done|exact IH]. }
  assert (Hempty : new = [] ↔ ∀ k v, (k, v) ∈ s_default_project_tags svc → dget k tags ≠ None).
  { unfold new. split.
    - intros He k v Hin Hn. assert ((k, v) ∈ filter (λ kv : string * json,
        dget kv.1 tags = None) (s_default_project_tags svc : list (string * json))) as H by by apply list_elem_of_filter.
      rewrite He in H. by apply elem_of_nil in H.
    - intros Hall. destruct (filter _ _) as [|[k v] l] eqn:He; [done|].
      assert ((k, v) ∈ filter (λ kv : string * json, dget kv.1 tags = None)
        (s_default_project_tags svc : list (string * json))) as H by (rewrite He; apply elem_of_cons; by left).
      apply list_elem_of_filter in H as [Hn Hin]. by destruct (Hall k v Hin). }
  clearbody new.
  assert (Hmerge : ∀ l : dict json,
    (∀ k v, dget k tags = Some v → dget k (dunion l tags) = Some v) ∧
    (∀ k, dget k tags = None → dget k (dunion l tags) = dget k l)).
  { intros l. split; intros k; rewrite dget_dunion by done; [by intros v ->|by intros ->]. }
  destruct (dget "service" tags) as [v|] eqn:Hs; [case_bool_decide as Hv|].
  - destruct new as [|kv new'] eqn:En.
    + split; [done|]. split; [|split; [|done]; intros _; split; [by subst v|by apply Hempty]].
      intros k Hk. case_decide as Hks; [congruence|]. by rewrite <- Hnew.
    + rewrite <- En in *. destruct (Hmerge new) as [H1 H2]. split; [done|].
      split; [|split; [done|]; intros [_ Hall]; apply Hempty in Hall; congruence].
      intros k Hk. case_decide; [congruence|]. by rewrite H2, Hnew.
  - destruct (dset "service" _ new) as [|kv l] eqn:El; [by destruct new as [|[? ?] ?];
      simpl in El; try case_match|].
    rewrite <- El. destruct (Hmerge (dset "service" (JStr (s_moniker svc)) new)) as [H1 H2]. split; [done|]. split; [|split; [done|by intros [[= ?] _]]].
    intros k Hk. case_decide; [congruence|]. by rewrite H2, dget_dset_ne, Hnew.
  - destruct (dset "service" _ new) as [|kv l] eqn:El; [by destruct new as [|[? ?] ?];
      simpl in El; try case_match|].
    rewrite <- El. destruct (Hmerge (dset "service" (JStr (s_moniker svc)) new)) as [H1 H2]. split; [done|]. split; [|split; [done|by intros [? _]]].
    intros k Hk. rewrite H2 by done. case_decide as Hks.
    + subst k. apply dget_dset_eq.
    + by rewrite dget_dset_ne, Hnew.
Qed.

Lemma no_updates_resolve url g : only (λ e, is_update e = false ∧ is_create e = false)
  (resolve_groups json_on_ok re_match url g).
Proof.
  assert (Hg : ∀ p g, only (λ e, is_update e = false ∧ is_create e = false)
                        (resolve_group json_on_ok p g)).
  { intros p g'. unfold resolve_group, lookup_group, find_group_id. only_calls. }
  assert (Hgs : ∀ ps g, only (λ e, is_update e = false ∧ is_create e = false)
                        (resolve_group_ids json_on_ok ps g)).
  { induction ps as [|p ps IH]; intros g'; [apply only_ret|]. cbn [resolve_group_ids].
    apply only_bind; [apply Hg|]. intros [g1 l]. apply only_bind; [apply IH|].
    intros [g2 l2]. apply only_ret. }
  unfold resolve_groups. generalize (g_routes g). intros rs. revert g.
  induction rs as [|r rs IH]; intros g; [apply only_ret|]. cbn [resolve_routes].
  apply only_bind; [destruct (re_match _ _); [apply Hgs|apply only_ret]|].
  intros [g1 l]. apply only_bind; [apply IH|]. intros [g2 l2]. apply only_ret.
Qed.

Lemma no_updates_memberships old url g : only (λ e, is_update e = false ∧ is_create e = false)
  (resolve_group_memberships json_on_ok re_match set_order old url g).
Proof.
  unfold resolve_group_memberships. apply only_bind; [apply no_updates_resolve|].
  intros [g' l]. apply only_bind; [apply only_lift|]. intros l'. apply only_ret.
Qed.

Lemma no_updates_count old url g tr o :
  exec (resolve_group_memberships json_on_ok re_match set_order old url g) tr o →
  count is_update tr = 0.
Proof.
  intros H. apply (count_only (Resp:=cx_resp)). eapply Forall_impl;
    [by eapply no_updates_memberships|]. by intros ? [? _].
Qed.

(** A project is updated at most twice.  When the update is refused, the
    group cache is emptied, the groups are resolved again and the second update
    differs from the first in the groups only; the project is returned only
    with the update that Checkmarx One accepted. *)
Theorem update_project_retry id project old url g tr o :
  exec (update_project json_on_ok re_match set_order id project old url g) tr o →
  (∃ r, tr = [Obs (UpdateProject id project) r] ∧
     match r with
     | Ok resp => r_ok resp = true ∧ o = Ok (g, project)
     | Err e => o = Err e
     end) ∨
  (∃ resp tr2 tr3 o2, r_ok resp = false ∧
     tr = Obs (UpdateProject id project) (Ok resp) :: tr2 ++ tr3 ∧ count is_update tr2 = 0 ∧
     exec (resolve_group_memberships json_on_ok re_match set_order old url (purge_cache g)) tr2 o2 ∧
     match o2 with
     | Err e => tr3 = [] ∧ o = Err e
     | Ok (g', groups) => ∃ r, tr3 = [Obs (UpdateProject id (dset "groups" (JArr groups) project)) r] ∧
         match r with
         | Ok resp => if r_ok resp then o = Ok (g', dset "groups" (JArr groups) project)
                      else ∃ msg, o = Err (CxOneException msg)
         | Err e => o = Err e
         end
     end).
Proof.
  unfold update_project. intros H.
  call_step H as [(resp & tr1 & -> & H)|(e & -> & ->)]; [|left; by exists (Err e)].
  destruct (r_ok resp) eqn:Hok; [destruct H as [-> ->]; left; by exists (Ok resp)|]. right.
  apply exec_bind in H as [([g' groups] & tr2 & tr3 & -> & H2 & H)|(e & H & ->)].
  - exists resp, tr2, tr3, (Ok (g', groups)).
    split; [done|]. split; [done|]. split; [by eapply no_updates_count, H2|]. split; [done|].
    call_step H as [(resp2 & tr4 & -> & H)|(e & -> & ->)]; [|by exists (Err e)].
    exists (Ok resp2). unfold succeed_or_throw in H. destruct (r_ok resp2).
    + by destruct H as [-> ->].
    + destruct H as [-> ->]. split; [done|]. by eexists.
  - exists resp, tr1, [], (Err e). rewrite app_nil_r.
    split; [done|]. split; [done|]. split; [by eapply no_updates_count, H|]. by split.
Qed.

Lemma no_creates_refresh project rename name url g : only (λ e, is_create e = false)
  (refresh_project json_on_ok re_match set_order svc project rename name url g).
Proof.
  assert (Hm : ∀ old g', only (λ e, is_create e = false)
    (resolve_group_memberships json_on_ok re_match set_order old url g')).
  { intros old g'. eapply only_weaken; [|apply no_updates_memberships]. by intros ? [_ ?]. }
  unfold refresh_project. apply only_bind; [apply only_lift|]. intros id.
  apply only_bind; [apply only_lift|]. intros tags. destruct (project_tags svc tags) as [tags' tagged].
  apply only_bind; [apply only_lift|]. intros groups.
  apply only_bind; [apply only_lift|]. intros orig.
  apply only_bind; [destruct (s_update_groups svc); [|apply only_ret]|].
  - apply only_bind; [apply Hm|]. intros [g' l]. case_match; apply only_ret.
  - intros [[g' p] grouped]. apply only_bind; [apply only_lift|]. intros [p' linked].
    case_match; [|apply only_ret]. unfold update_project.
    apply only_bind; [by apply (only_call (Resp:=cx_resp))|]. intros r.
    case_match; [apply only_ret|]. apply only_bind; [apply Hm|]. intros [g2 l].
    apply only_bind; [by apply (only_call (Resp:=cx_resp))|]. intros r2.
    apply only_bind; [apply only_lift|]. intros _. apply only_ret.
Qed.

Lemma count_create_only {A} (p : cx_prog A) tr o :
  only (λ e, is_create e = false) p → exec p tr o → count is_create tr = 0.
Proof. intros Hp H. apply (count_only (Resp:=cx_resp)), (Hp _ _ H). Qed.

Lemma created_project (r : response) (g : grouping) tr o :
  exec (let! project := lift (let? j := get_json_or_fail r in as_obj j) in
        let! _ := lift (dindex "id" project) in Ret (g, project) : cx_prog _) tr o →
  tr = [] ∧ ∀ g' p, o = Ok (g', p) → r_ok r = true ∧ r_json r = Ok (JObj p).
Proof.
  intros H. apply exec_lift_bind in H as [(p & Hp & H)|(? & _ & -> & ->)]; [|done].
  apply exec_lift_bind in H as [(? & _ & [-> ->])|(? & _ & -> & ->)]; [|done].
  split; [done|]. intros g' p' [= _ <-]. unfold get_json_or_fail in Hp.
  destruct (r_ok r); [|done]. split; [done|].
  destruct (r_json r) as [j|]; [|done]. by destruct j; simplify_eq/=.
Qed.

(** The creation of a project that an observation is, with its answer. *)
Definition created (ob : obs cx_ev cx_resp) :
    option (list json * string * dict json * json * response) :=
  match ob with
  | existT (CreateProject gs n t u) (Ok resp) => Some (gs, n, t, u, resp)
  | _ => None
  end.

(** The tags of a project that is created. *)
Definition create_tags : dict json :=
  dunion (s_default_project_tags svc)
    [("cxone-flow", JStr version); ("service", JStr (s_moniker svc))].

(** What one attempt creates, and what it makes of the answer. *)
Lemma create_or_retrieve_spec retry again dname name url g tr o :
  exec (create_or_retrieve jp json_on_ok re_match version set_order svc retry again
          dname name url g) tr o →
  count is_create tr = 0 ∨
  ∃ tr1 groups r tr2, count is_create tr1 = 0 ∧
    tr = tr1 ++ Obs (CreateProject groups name create_tags (JStr url)) r :: tr2 ∧
    match r with
    | Err e => tr2 = [] ∧ o = Err e
    | Ok resp =>
        if retry && (r_status_code resp =? 403)%Z then tr2 = [] ∧ o = Err CxOnePermissionException
        else if retry && (r_status_code resp =? 400)%Z then ∃ g', exec (again g') tr2 o
        else tr2 = [] ∧ ∀ g' p, o = Ok (g', p) → r_ok resp = true ∧ r_json resp = Ok (JObj p)
    end.
Proof.
  clear repr.
  unfold create_or_retrieve. intros H.
  call_step H as [(resp & tr1 & -> & H)|(e & -> & ->)]; [|by left].
  apply exec_lift_bind in H as [(projects & _ & H)|(? & _ & -> & _)]; [|by left].
  apply exec_lift_bind in H as [(n & _ & H)|(? & _ & -> & _)]; [|by left].
  destruct (n =? 0)%Z.
  2:{ left. rewrite count_cons. simpl.
      apply exec_lift_bind in H as [([p rename] & _ & H)|(? & _ & -> & _)]; [|done].
      by eapply count_create_only in H; [|apply no_creates_refresh]. }
  assert (Hr : only (λ e, is_create e = false) (resolve_groups json_on_ok re_match url g)).
  { eapply only_weaken; [|apply no_updates_resolve]. by intros ? [_ ?]. }
  apply exec_bind in H as [([g1 groups] & tr2 & tr3 & -> & Hg & H)|(e & Hg & ->)].
  2:{ left. rewrite count_cons. simpl. by eapply count_create_only in Hg. }
  eapply count_create_only in Hg; [|done]. right.
  exists (Obs (ListProjects (dname +:+ "," +:+ name)) (Ok resp) :: tr2), groups.
  assert (H0 : count is_create (Obs (ListProjects (dname +:+ "," +:+ name)) (Ok resp) :: tr2) = 0)
    by by rewrite count_cons, Hg.
  call_step H as [(r & tr4 & -> & H)|(e & -> & ->)];
    [exists (Ok r), tr4|exists (Err e), []]; (split; [exact H0|]; split; [done|]); [|done].
  destruct retry; simpl in H |- *.
  - rewrite orb_false_r in H. destruct (Z.eqb_spec (r_status_code r) 403) as [He|He].
    + rewrite He in H. by destruct H.
    + destruct (Z.eqb_spec (r_status_code r) 400) as [He'|He'].
      * rewrite He' in H. by exists g1.
      * rewrite bool_decide_eq_false_2 in H by set_solver. by apply created_project in H.
  - rewrite orb_true_r in H. by apply created_project in H.
Qed.

(** The second attempt creates at most once more. *)
Definition second_attempt (name url : string) (tr : list (obs cx_ev cx_resp))
    (o : outcome (grouping * dict json)) : Prop :=
  count is_create tr = 0 ∨
  ∃ tr1 gs r, count is_create tr1 = 0 ∧
    tr = tr1 ++ [Obs (CreateProject gs name create_tags (JStr url)) r] ∧
    match r with
    | Err e => o = Err e
    | Ok resp => ∀ g' p, o = Ok (g', p) → r_ok resp = true ∧ r_json resp = Ok (JObj p)
    end.

(** What follows the answer to the first creation. *)
Definition after_creation (dname name url : string) (r : outcome response)
    (tr : list (obs cx_ev cx_resp)) (o : outcome (grouping * dict json)) : Prop :=
  match r with
  | Err e => tr = [] ∧ o = Err e
  | Ok resp =>
      if (r_status_code resp =? 403)%Z then tr = [] ∧ o = Err CxOnePermissionException
      else if (r_status_code resp =? 400)%Z then
        (∃ r' tr', tr = Obs (ListProjects (dname +:+ "," +:+ name)) r' :: tr') ∧
        second_attempt name url tr o
      else tr = [] ∧ ∀ g' p, o = Ok (g', p) → r_ok resp = true ∧ r_json resp = Ok (JObj p)
  end.

Lemma create_or_retrieve_project_spec dname name url g tr o :
  exec (create_or_retrieve_project jp json_on_ok re_match version set_order svc dname name url g)
    tr o →
  count is_create tr = 0 ∨
  ∃ tr1 gs r tr2, count is_create tr1 = 0 ∧
    tr = tr1 ++ Obs (CreateProject gs name create_tags (JStr url)) r :: tr2 ∧
    after_creation dname name url r tr2 o.
Proof.
  clear repr.
  intros H. apply create_or_retrieve_spec in H as [H0|(tr1 & gs & r & tr2 & H0 & -> & H)]; [by left|].
  right. exists tr1, gs, r, tr2. split; [done|]. split; [done|].
  destruct r as [resp|e]; [|done]. simpl in H |- *. case_match; [done|]. case_match; [|done].
  destruct H as [g' H]. split.
  - unfold create_or_retrieve in H.
    call_step H as [(r' & tr' & -> & _)|(e & -> & _)]; [by exists (Ok r'), tr'|by exists (Err e), []].
  - apply create_or_retrieve_spec in H as [?|(tr3 & gs' & r' & tr4 & ? & -> & H)]; [by left|].
    right. exists tr3, gs', r'. split; [done|]. destruct r'; destruct H as [-> H]; done.
Qed.

Lemma after_creation_count dname name url r tr o :
  after_creation dname name url r tr o → count is_create tr ≤ 1.
Proof.
  unfold after_creation. intros H. destruct r; [|destruct H as [-> _]; unfold count; simpl; lia].
  repeat case_match; [destruct H as [-> _]; unfold count; simpl; lia| |
    destruct H as [-> _]; unfold count; simpl; lia].
  destruct H as [_ [H|(tr3 & gs' & r' & H & -> & _)]]; [lia|].
  rewrite count_app, H. unfold count; simpl; lia.
Qed.

(** A creation that follows is the last call, of the second attempt. *)
Lemma after_creation_created dname name url r tr o pre gs name' tags url' resp post :
  after_creation dname name url r tr o →
  tr = pre ++ Obs (CreateProject gs name' tags url') (Ok resp) :: post →
  name' = name ∧ tags = create_tags ∧ url' = JStr url ∧ post = [] ∧
  ∀ g' p, o = Ok (g', p) → r_ok resp = true ∧ r_json resp = Ok (JObj p).
Proof.
  intros H ->. destruct r as [resp1|e]; simpl in H; [|by destruct H as [? _]; destruct pre].
  repeat case_match; [by destruct H as [? _]; destruct pre| |by destruct H as [? _]; destruct pre].
  destruct H as [_ [H|(tr3 & gs2 & r2 & H3 & Heq & H)]]; [by apply count_middle in H|].
  symmetry in Heq.
  apply (count_split is_create) in Heq as [(-> & Hob & <-)|(pre2 & _ & Hnil)]; [| |done|done];
    [|by destruct pre2].
  destruct r2 as [resp2|e2]; [|by apply (f_equal created) in Hob].
  by pose proof (f_equal created Hob) as [= -> -> -> -> ->].
Qed.

(** A project is created under the dynamic name with the clone URL and the
    tags of the service, at most twice, and for a second time only after the
    first answer said that it exists (400).  Nothing follows any other answer:
    a refusal for lack of permission (403) of the first attempt is reported as
    such, and a project is returned only when the answer is a success. *)
Theorem create_project_retry dname name url g tr o :
  exec (create_or_retrieve_project jp json_on_ok re_match version set_order svc dname name url g)
    tr o →
  count is_create tr ≤ 2 ∧
  ∀ pre groups name' tags url' resp post,
    tr = pre ++ Obs (CreateProject groups name' tags url') (Ok resp) :: post →
    name' = name ∧ tags = create_tags ∧ url' = JStr url ∧
    (count is_create pre = 0 →
      (r_status_code resp = 400%Z → ∃ r post', post = Obs (ListProjects (dname +:+ "," +:+ name)) r :: post') ∧
      (r_status_code resp = 403%Z → post = [] ∧ o = Err CxOnePermissionException)) ∧
    (r_status_code resp ≠ 400%Z ∨ count is_create pre ≠ 0 →
      post = [] ∧ ∀ g' p, o = Ok (g', p) → r_ok resp = true ∧ r_json resp = Ok (JObj p)).
Proof.
  intros H. apply create_or_retrieve_project_spec in H as [H0|(tr1 & gs & r & tr2 & H0 & -> & H)].
  { split; [lia|]. intros pre ? ? ? ? ? post ->. rewrite count_app, count_cons in H0.
    simpl in H0. lia. }
  split.
  { apply after_creation_count in H. rewrite count_app, count_cons, H0. simpl. lia. }
  intros pre gs' name' tags url' resp post Heq.
  apply (count_split is_create) in Heq as [(-> & Hob & <-)|(pre' & -> & ->)]; [| |done|done].
  - destruct r as [resp1|e1]; [|by apply (f_equal created) in Hob].
    pose proof (f_equal created Hob) as [= -> -> -> -> ->].
    split; [done|]. split; [done|]. split; [done|]. split.
    + intros _. split; intros He; simpl in H; rewrite He in H; [by apply H|done].
    + intros [He|He]; [|lia]. simpl in H. destruct (Z.eqb_spec (r_status_code resp) 403).
      * destruct H as [-> ->]. by split.
      * by destruct (Z.eqb_spec (r_status_code resp) 400).
  - destruct (after_creation_created _ _ _ _ _ _ _ _ _ _ _ _ _ H eq_refl) as (-> & -> & -> & -> & Hp).
    split_and!; [done..| |done]. by intros ?%count_middle.
Qed.

(** The scan tags that a pull request update may change. *)
Definition pr_keys : list string := [PR_TARGET_TAG; PR_STATE_TAG; PR_STATUS_TAG].

Lemma updated_tags_spec tags t s st k :
  dget k (updated_tags tags t s st) =
    if decide (k = "pr-status") then Some st
    else if decide (k = "pr-state") then Some s
    else if decide (k = "pr-target") then Some t else dget k tags.
Proof. unfold updated_tags. by rewrite !dget_dset, !eqb_decide. Qed.

(** Whether an observation is an accepted update of the tags of a scan. *)
Definition accepted (ob : obs cx_ev cx_resp) : bool :=
  match ob with existT (UpdateScanTags _ _) (Ok resp) => r_ok resp | _ => false end.

(** The update of one scan of the list. *)
Lemma update_one scan (mine : option (dict json)) t s st tr ids :
  exec (match mine return cx_prog (list json) with
        | Some tags =>
            let! id := lift (jindex "id" scan) in
            let! r := call (UpdateScanTags id (updated_tags tags t s st)) in
            Ret (if r_ok r then [id] else [])
        | None => Ret [] end) tr (Ok ids) →
  (tr = [] ∧ ids = []) ∨ ∃ tags id resp, mine = Some tags ∧ jindex "id" scan = Ok id ∧
    tr = [Obs (UpdateScanTags id (updated_tags tags t s st)) (Ok resp)] ∧
    ids = if r_ok resp then [id] else [].
Proof.
  intros Hd. destruct mine as [tags|]; [|left; by destruct Hd as [-> [= ->]]].
  apply exec_lift_bind_ok in Hd as (id & Hid & Hd).
  call_step Hd as [(resp & tr6 & -> & Hd)|(? & _ & ?)]; [|done].
  destruct Hd as [-> [= ->]]. right. eauto 9.
Qed.

(** C28: the update of the tags of a pull request touches only scans whose
    pull request tag is that of the event, changes only the target, the state
    and the status, and reports exactly the scans whose update was accepted. *)
Theorem update_scan_pr_tags_spec fuel project pr_id commit t s st tr ids :
  exec (update_scan_pr_tags repr fuel project pr_id commit t s st) tr (Ok ids) →
  (∀ id tags' r, Obs (UpdateScanTags id tags') r ∈ tr →
     ∃ k scan tags, Obs (NextScan (commit_query UPDATABLE_SCANS_STATUSES project commit) k)
                      (Ok (Some scan)) ∈ tr ∧
       pr_scan_tags repr pr_id scan = Ok (Some tags) ∧ jindex "id" scan = Ok id ∧
       dget "pr-target" tags' = Some t ∧ dget "pr-state" tags' = Some s ∧
       dget "pr-status" tags' = Some st ∧
       ∀ key, key ∉ pr_keys → dget key tags' = dget key tags) ∧
  (∀ id, id ∈ ids ↔ ∃ tags' resp, Obs (UpdateScanTags id tags') (Ok resp) ∈ tr ∧ r_ok resp = true).
Proof.
  clear jp json_on_ok re_match version set_order svc.
  unfold update_scan_pr_tags. generalize (commit_query UPDATABLE_SCANS_STATUSES project commit) as q.
  generalize 0 as k. intros k q. revert k tr ids.
  induction fuel as [|fuel IH]; intros k tr ids H; [by destruct H|].
  cbn [update_scans] in H. call_step H as [(scan & tr1 & -> & H)|(? & _ & ?)]; [|done].
  destruct scan as [scan|].
  2:{ destruct H as [-> [= ->]]. split.
      - intros id tags' r [?|Hin]%elem_of_cons; [done|by apply elem_of_nil in Hin].
      - intros id. split; [by intros ?%elem_of_nil|].
        intros (? & ? & [?|Hin]%elem_of_cons & _); [done|by apply elem_of_nil in Hin]. }
  apply exec_lift_bind_ok in H as (mine & Hmine & H).
  apply exec_bind_ok in H as (dn & tr2 & tr3 & -> & Hd & H).
  apply exec_bind_ok in H as (rest & tr4 & tr5 & -> & Hr & [-> [= ->]]). rewrite app_nil_r.
  apply IH in Hr as [Hev Hids]. clear IH.
  apply update_one in Hd as Hdone.
  split.
  - intros id tags' r [?|[Hin|Hin]%elem_of_app]%elem_of_cons; [done| |].
    + destruct Hdone as [[-> _]|(tags & id' & resp & -> & Hid & -> & _)];
        [by apply elem_of_nil in Hin|].
      apply list_elem_of_singleton, (f_equal projT1) in Hin. injection Hin as -> ->.
      exists k, scan, tags. split; [apply elem_of_cons; by left|].
      rewrite !updated_tags_spec. split_and!; try done.
      intros key Hk. rewrite updated_tags_spec. unfold pr_keys in Hk.
      rewrite !elem_of_cons in Hk. by rewrite !decide_False by tauto.
    + destruct (Hev _ _ _ Hin) as (k' & scan' & tags & Hin' & ?). exists k', scan', tags.
      split; [|done]. apply elem_of_cons. right. apply elem_of_app. by right.
  - intros id. rewrite elem_of_app, Hids. setoid_rewrite elem_of_cons.
    setoid_rewrite elem_of_app. split.
    + intros [Hin|(tags' & resp & ? & ?)]; [|eauto 6].
      destruct Hdone as [[_ ->]|(tags & id' & resp & _ & _ & -> & ->)];
        [by apply elem_of_nil in Hin|].
      destruct (r_ok resp) eqn:Hok; [|by apply elem_of_nil in Hin].
      apply list_elem_of_singleton in Hin as ->. eexists _, resp. split; [|done].
      right. left. by apply elem_of_cons; left.
    + intros (tags' & resp & [?|[Hin|Hin]] & Hok); [done| |eauto].
      left. destruct Hdone as [[-> _]|(tags & id' & resp' & _ & _ & -> & ->)];
        [by apply elem_of_nil in Hin|].
      apply list_elem_of_singleton in Hin. pose proof (f_equal accepted Hin) as Ha.
      apply (f_equal projT1) in Hin. injection Hin as -> ->. simpl in Ha.
      rewrite <- Ha, Hok.
      apply elem_of_cons; by left.
Qed.

(** *** The report *)

(** A clock that advances with every sleep, [t] at the start of the trace. *)
Fixpoint clocked (t : Z) (tr : list (obs cx_ev cx_resp)) : Prop :=
  match tr with
  | [] => True
  | existT CxNow (Ok now) :: tr' => (t ≤ now)%Z ∧ clocked now tr'
  | existT (CxSleep s) (Ok _) :: tr' => clocked (t + s) tr'
  | _ :: tr' => clocked t tr'
  end.

Lemma poll_report_fuel reportid start fuel : ∀ fuel' t tr o,
  (600 ≤ t - start + 30 * (Z.of_nat fuel - 1))%Z → 1 ≤ fuel →
  (600 ≤ t - start + 30 * (Z.of_nat fuel' - 1))%Z → 1 ≤ fuel' → clocked t tr →
  exec (poll_report fuel reportid start) tr o → exec (poll_report fuel' reportid start) tr o.
Proof.
  induction fuel as [|fuel IH]; intros fuel' t tr o Ht H1 Ht' H1' Hclock H; [lia|].
  destruct fuel' as [|fuel']; [lia|]. cbn [poll_report] in H |- *.
  apply exec_call_bind. use_call_bind H. destruct H as [(now & tr1 & -> & H)|H]; [left|by right].
  exists now, tr1. split; [done|]. destruct Hclock as [Hnow Hclock].
  apply (exec_call_bind (Resp:=cx_resp) (CxSleep _)). use_call_bind H.
  destruct H as [([] & tr2 & -> & H)|H]; [left|by right].
  exists tt, tr2. split; [done|]. cbn [clocked] in Hclock.
  destruct (_ <? _)%Z eqn:Hlt; [|done].
  unfold report_generate_timeout_seconds, report_poll_delay_seconds in *.
  apply exec_call_bind. use_call_bind H.
  destruct H as [(r & tr3 & -> & H)|H]; [left|by right]. exists r, tr3. split; [done|].
  cbn [clocked] in Hclock. revert H. rewrite !exec_lift_bind.
  intros [(j & Hj & H)|H]; [left|by right]. exists j. split; [done|]. revert H.
  rewrite !exec_lift_bind. intros [(has & Hhas & H)|H]; [left|by right].
  exists has. split; [done|]. destruct (negb has); [done|]. revert H.
  rewrite !exec_lift_bind. intros [(st & Hst & H)|H]; [left|by right].
  exists st. split; [done|]. case_bool_decide; [done|].
  eapply (IH fuel' (now + 30)%Z); try done; lia.
Qed.

Lemma poll_report_polls reportid start fuel : ∀ t tr o k,
  (0 ≤ k → 600 ≤ t - start + 30 * k → clocked t tr →
  exec (poll_report fuel reportid start) tr o → Z.of_nat (count is_status tr) ≤ k)%Z.
Proof.
  induction fuel as [|fuel IH]; intros t tr o k Hk Ht Hclock H;
    [destruct H as [-> _]; unfold count; simpl; lia|].
  cbn [poll_report] in H.
  call_step H as [(now & tr1 & -> & H)|(? & -> & _)]; [|unfold count; simpl; lia].
  destruct Hclock as [Hnow Hclock].
  call_step H as [([] & tr2 & -> & H)|(? & -> & _)]; [|unfold count; simpl; lia].
  cbn [clocked] in Hclock. rewrite !count_cons. simpl.
  unfold report_generate_timeout_seconds, report_poll_delay_seconds in *.
  destruct (_ <? _)%Z eqn:Hlt; [|destruct H as [-> _]; unfold count; simpl; lia].
  apply Z.ltb_lt in Hlt.
  call_step H as [(r & tr3 & -> & H)|(? & -> & _)]; [|unfold count; simpl; lia].
  cbn [clocked] in Hclock. rewrite count_cons. simpl.
  assert (Hnil : ∀ o' : list (obs cx_ev cx_resp), o' = [] → (Z.of_nat (S (count is_status o')) ≤ k)%Z)
    by (intros ? ->; unfold count; simpl; lia).
  apply exec_lift_bind in H as [(j & _ & H)|(? & _ & -> & _)]; [|by apply Hnil].
  apply exec_lift_bind in H as [(has & _ & H)|(? & _ & -> & _)]; [|by apply Hnil].
  destruct (negb has); [destruct H as [-> _]; by apply Hnil|].
  apply exec_lift_bind in H as [(st & _ & H)|(? & _ & -> & _)]; [|by apply Hnil].
  case_bool_decide.
  - assert (count is_status tr3 = 0) as ->; [|lia]. inv_exec; done.
  - apply (IH (now + 30)%Z _ _ (k - 1)%Z) in H; [lia|lia|lia|done].
Qed.

(** Waiting for a report ends: as long as the clock does not go back and a
    sleep of thirty seconds takes thirty seconds, the state of the report is
    asked for at most twenty times, and a loop of twenty-one iterations does
    all that any longer loop does. *)
Theorem poll_report_terminates reportid start fuel tr o :
  21 ≤ fuel → clocked start tr →
  exec (poll_report fuel reportid start) tr o →
  count is_status tr ≤ 20 ∧ exec (poll_report 21 reportid start) tr o.
Proof.
  intros Hf Hclock H. split.
  - assert (Z.of_nat (count is_status tr) ≤ 20)%Z; [|lia].
    eapply poll_report_polls; [..|exact H]; [lia| |exact Hclock]. lia.
  - eapply poll_report_fuel; [..|exact H]; [| | | |exact Hclock]; lia.
Qed.
End theorems.

(** ** Witnesses *)
Definition demo_service : cx_service :=
  CxService "svc" [] [] [("team", JStr "a")] false true.

Lemma project_tags_spec_witness :
  dget "service" (project_tags demo_service [("service", JStr "old"); ("x", JInt 1)]).1
    = Some (JStr "old") ∧
  dget "team" (project_tags demo_service [("service", JStr "old"); ("x", JInt 1)]).1
    = Some (JStr "a").
Proof.
  destruct (project_tags_spec demo_service [("service", JStr "old"); ("x", JInt 1)]
    ltac:(apply (bool_decide_unpack _); vm_compute; exact I)) as (Hkeep & Hnew & _).
  split; [apply Hkeep; reflexivity|].
  exact (Hnew "team" eq_refl).
Defined.

(** A world that refuses the updates of projects and has one scan. *)
Definition demo_scan : json :=
  JObj [("id", JStr "s1"); ("tags", JObj [("pr-id", JStr "7"); ("team", JStr "a")])].
Definition demo_busy_world (n : nat) (e : cx_ev) : outcome (cx_resp e) * nat :=
  match e return outcome (cx_resp e) * nat with
  | UpdateProject _ _ => (Ok (Response (1 <=? n) 400 (Ok JNull) [] ""), S n)
  | NextScan _ k => (Ok (if k =? 0 then Some demo_scan else None), n)
  | ReportStatus _ => (Ok (demo_response (JObj [("status", JStr "requested")])), n)
  | CxNow => (Ok (30 * Z.of_nat n)%Z, n)
  | CxSleep _ => (Ok tt, S n)
  | e => demo_cx_world n e
  end.

Lemma update_project_retry_witness :
  count is_update (run_trace demo_busy_world 0
    (update_project r_json (λ _ _, true) id (JStr "p") [] [JStr "g"] "url" (Grouping [] [] []))) = 2.
Proof.
  destruct (update_project_retry r_json (λ _ _, true) id (JStr "p") [] [JStr "g"] "url"
    (Grouping [] [] []) _ _ (exec_run demo_busy_world 0 _))
    as [(r & H & _)|_].
  - vm_compute in H. discriminate H.
  - vm_compute. reflexivity.
Defined.

Lemma update_scan_pr_tags_spec_witness :
  ∃ ids, run_outcome demo_busy_world 0
    (update_scan_pr_tags (λ _, "") 5 "p" (JStr "7") (JStr "c") (JStr "main") (JStr "open")
       (JStr "ok")) = Ok ids ∧ JStr "s1" ∈ ids.
Proof.
  eexists. split; [vm_compute; reflexivity|].
  apply (proj2 (update_scan_pr_tags_spec (λ _, "") 5 "p" (JStr "7") (JStr "c") (JStr "main")
    (JStr "open") (JStr "ok") _ [JStr "s1"] (exec_run demo_busy_world 0 _))).
  eexists _, _. split; [|]; [apply elem_of_cons; right; apply elem_of_cons; left; reflexivity|reflexivity].
Defined.

Lemma poll_report_terminates_witness :
  run_outcome demo_busy_world 0 (poll_report 50 (JStr "r") 0) = Ok None ∧
  count is_status (run_trace demo_busy_world 0 (poll_report 50 (JStr "r") 0)) ≤ 20.
Proof.
  split; [vm_compute; reflexivity|].
  apply (poll_report_terminates (JStr "r") 0 50 _
    (run_outcome demo_busy_world 0 (poll_report 50 (JStr "r") 0)));
    [lia| |exact (exec_run demo_busy_world 0 (poll_report 50 (JStr "r") 0))].
  vm_compute. repeat first [discriminate | exact I | split].
Defined.

(** A world in which the project appears between two attempts. *)
Definition demo_race_world (n : nat) (e : cx_ev) : outcome (cx_resp e) * nat :=
  match e return outcome (cx_resp e) * nat with
  | ListProjects _ => (Ok (demo_response (JObj [("filteredTotalCount", JInt 0)])), n)
  | CreateProject _ _ _ _ =>
      (Ok (if n =? 0 then Response false 400 (Ok JNull) [] "exists"
           else demo_response (JObj [("id", JStr "p")])), S n)
  | e => demo_cx_world n e
  end.

Definition demo_create : cx_prog (grouping * dict json) :=
  create_or_retrieve_project (λ _ _, []) r_json (λ _ _, true) "1.0" id demo_service
    "org/repo" "repo" "url" (Grouping [] [] []).

Lemma create_project_retry_witness :
  count is_create (run_trace demo_race_world 0 demo_create) = 2 ∧
  count is_create (run_trace demo_race_world 0 demo_create) ≤ 2.
Proof.
  split; [vm_compute; reflexivity|].
  exact (proj1 (create_project_retry (λ _ _, []) r_json (λ _ _, true) "1.0" id demo_service
    "org/repo" "repo" "url" (Grouping [] [] []) _ _ (exec_run demo_race_world 0 demo_create))).
Defined.
