(* ===== verification/Config.v ===== *)
(** * Reading the configuration: [src/config/__init__.py] and the service
    factories of [src/config/server/__init__.py]

    A configuration is the value that the YAML parser returned.  Every factory
    is the record of what it passes to the constructor of its service. *)
From S2P Require Import Prelude PyStr PyJson Url Auth Messaging Grouping.
Open Scope string_scope.
Open Scope nat_scope.
Open Scope list_scope.

(** ** The exceptions of [ConfigurationException] *)
Definition py_strs (l : list string) : string :=
  "[" +:+ join ", " ((λ x, "'" +:+ x +:+ "'") <$> l) +:+ "]".
Definition paths (key_path : string) (keys : list string) : string :=
  py_strs ((λ x, key_path +:+ "/" +:+ x) <$> keys).

Definition missing_key_path (key_path : string) : exn :=
  ConfigurationException ("Missing key at path: " +:+ key_path).
Definition secret_load_error (key_path : string) : exn :=
  ConfigurationException ("Could not load secret defined at: " +:+ key_path).
Definition invalid_value (key_path : string) : exn :=
  ConfigurationException ("The value configured at " +:+ key_path +:+ " is invalid.").
Definition missing_keys (key_path : string) (keys : list string) : exn :=
  ConfigurationException ("One or more of these elements are missing: " +:+ paths key_path keys).
Definition missing_at_least_one_key_path (key_path : string) (keys : list string) : exn :=
  ConfigurationException ("At least one of these elements is required: " +:+ paths key_path keys).
Definition mutually_exclusive (key_path : string) (keys : list string) : exn :=
  ConfigurationException ("Only one should be defined: " +:+ paths key_path keys).
Definition no_wildcard_routes (key_path : string) : exn :=
  ConfigurationException ("A wildcard route that matches an arbitrary value is not valid for "
    +:+ key_path).
Definition module_load_error (key_path module_name : string) : exn :=
  ConfigurationException ("Error loading module " +:+ module_name +:+ " at " +:+ key_path +:+ ".").
Definition invalid_service_principal_config (key_path : string) : exn :=
  ConfigurationException ("Service principal at " +:+ key_path
    +:+ " requires sp-client-secret.").

Section config.
(** The text of the regular file at [secret_root]/[path], if there is one. *)
Context (secret_file : string → option string).
(** [get_default_ssl_verify_value()] *)
Context (default_ssl_verify : json).
(** The names of the Checkmarx One regions, for authorization and for the API. *)
Context (auth_regions api_regions : list string).
(** [import_module]: [ModuleNotFoundError], or any exception of the module. *)
Context (import_module : string → outcome unit).
(** [re.compile(p, re.IGNORECASE).findall(s)] is not empty. *)
Context (re_findall : string → string → bool).
Context (uuid4 : string).
Context (repr : json → string).

(** ** [ConfigDictionaryReader] *)
Definition get_value_or_fail (config_path key : string) (config : json) : outcome json :=
  match config with
  | JObj d => match dget key d with
              | None => Err (missing_key_path (config_path +:+ "/" +:+ key))
              | Some v => Ok v
              end
  | _ => Err AttributeError
  end.

Definition strip (s : string) : string := lstrip whitespace (rstrip whitespace s).

(** [_get_file_contents_from_value_of_key_or_default] *)
Definition file_contents_or_default (config : json) (key : string) (dflt : json) : outcome json :=
  match config with
  | JObj d => match dget key d with
              | None => Ok dflt
              | Some (JStr path) => match secret_file path with
                                    | None => Ok dflt
                                    | Some text => Ok (JStr (strip text))
                                    end
              | Some _ => Err TypeError
              end
  | _ => Err AttributeError
  end.

(** [_get_secret_from_value_of_key_or_default]: [SecretRegistry.register] returns
    the secret that it registers ([Logging]). *)
Definition get_secret_or_default (config : json) (key : string) (dflt : json) : outcome json :=
  file_contents_or_default config key dflt.

Definition get_secret_or_fail (config_path key : string) (config : json) : outcome string :=
  let? retval := get_secret_or_default config key JNull in
  match retval with
  | JStr s => Ok s
  | _ => Err (secret_load_error (config_path +:+ "/" +:+ key))
  end.

Definition get_value_or_default (key : string) (config : json) (dflt : json) : outcome json :=
  match config with
  | JNull => Ok dflt
  | JObj d => Ok (default dflt (dget key d))
  | _ => Err AttributeError
  end.

(** [_get_value_for_key_or_default_warn_deprecated]: the deprecated key is
    noticed, but the value under it is not what is returned. *)
Definition get_value_warn_deprecated (desired_key deprecated_key : string) (config : json)
    (dflt : json) : outcome json :=
  match config with
  | JNull => Ok dflt
  | JObj d => if dhas deprecated_key d then Ok dflt
              else if dhas desired_key d then dindex desired_key d
              else Ok dflt
  | _ => Err AttributeError
  end.

(** ** Defaults of [CommonConfig] *)
Definition DEFAULT_MAX_POLL_INT_SECS : Z := 600.
Definition DEFAULT_POLL_INTERVAL_SECS : Z := 60.
Definition DEFAULT_POLL_BACKOFF_SCALAR : Z := 2.
Definition DEFAULT_SCAN_TIMEOUT_HOURS : Z := 48.

(** ** AMQP *)
Record amqp_settings : Type := AmqpSettings {
  amqp_url : json; amqp_user : json; amqp_password : json; amqp_ssl_verify : json }.

Definition default_amqp : amqp_settings :=
  AmqpSettings (JStr "amqp://localhost:5672") JNull JNull (JBool true).

(** [_load_amqp_settings] *)
Definition load_amqp_settings (config_path : string) (kwargs : json) : outcome amqp_settings :=
  let? amqp_dict := get_value_or_default "amqp" kwargs JNull in
  if not_none amqp_dict then
    let? plain := get_value_or_fail config_path "amqp-url" amqp_dict in
    let? url := get_secret_or_default amqp_dict "amqp-url" plain in
    let? user := get_secret_or_default amqp_dict "amqp-user" JNull in
    let? password := get_secret_or_default amqp_dict "amqp-password" JNull in
    let? ssl_verify := get_value_or_default "ssl-verify" amqp_dict default_ssl_verify in
    Ok (AmqpSettings url user password ssl_verify)
  else Ok default_amqp.

(** ** The Checkmarx One client *)
Inductive endpoint : Type := RegionEndpoint (name : json) | CustomEndpoint (name : json).
Inductive cx_credentials : Type := ApiKey (key : string) | OAuth (id secret : string).

Record cx_client : Type := CxClient {
  cc_tenant : json; cc_auth_endpoint : endpoint; cc_api_endpoint : endpoint;
  cc_credentials : cx_credentials; cc_timeout : json; cc_retries : json;
  cc_retry_delay : json; cc_proxy : json; cc_ssl_verify : json }.

Definition endpoint_of (regions : list string) (v : json) : outcome endpoint :=
  if negb (hashable v) then Err TypeError
  else Ok (match v with
           | JStr s => if bool_decide (s ∈ regions) then RegionEndpoint v else CustomEndpoint v
           | _ => CustomEndpoint v
           end).

(** [_cxone_client_factory] *)
Definition cxone_client_factory (config_path : string) (kwargs : dict json) : outcome cx_client :=
  let cfg := JObj kwargs in
  let always_required := ["tenant"; "iam-endpoint"; "api-endpoint"] in
  if negb (forallb (λ k, dhas k kwargs) always_required)
  then Err (missing_keys config_path always_required)
  else
    let one_required := ["api-key"; "oauth"] in
    if negb (length (filter (λ k, dhas k kwargs = true) one_required) =? 1)
    then Err (mutually_exclusive config_path one_required)
    else
      let? tenant := get_value_or_fail config_path "tenant" cfg in
      let? iam := get_value_or_fail config_path "iam-endpoint" cfg in
      let? auth_endpoint := endpoint_of auth_regions iam in
      let? api := get_value_or_fail config_path "api-endpoint" cfg in
      let? api_endpoint := endpoint_of api_regions api in
      let? credentials :=
        if dhas "api-key" kwargs
        then let? k := get_secret_or_fail config_path "api-key" cfg in Ok (ApiKey k)
        else
          let? oauth := get_value_or_fail config_path "oauth" cfg in
          let? id := get_secret_or_fail (config_path +:+ "/oauth") "client-id" oauth in
          let? secret := get_secret_or_fail (config_path +:+ "/oauth") "client-secret" oauth in
          Ok (OAuth id secret) in
      let? timeout := get_value_or_default "timeout-seconds" cfg (JInt 60) in
      let? retries := get_value_or_default "retries" cfg (JInt 3) in
      let? retry_delay := get_value_or_default "retry-delay" cfg (JInt 30) in
      let? proxy := get_value_or_default "proxies" cfg JNull in
      let? ssl_verify := get_value_or_default "ssl-verify" cfg default_ssl_verify in
      Ok (CxClient tenant auth_endpoint api_endpoint credentials timeout retries retry_delay
            proxy ssl_verify).

(** ** The services of a route *)

(** [ResolverScanService.DEFAULT_SCAN_RETRIES] and [DEFAULT_SCAN_TIMEOUT] *)
Definition DEFAULT_SCAN_RETRIES : Z := 3.
Definition DEFAULT_SCAN_TIMEOUT : Z := 10800.

(** [ResolverScanService.__init__]: the workflow is the dummy one or has a key. *)
Record resolver_settings : Type := ResolverSettings {
  rs_moniker : json; rs_amqp : amqp_settings;
  rs_workflow : option (json * string * json * json);   (* capture, key, retries, timeout *)
  rs_default_tag : json; rs_project_tag_key : json; rs_agent_tags : option (list json) }.

(** The characters outside of the class [[^0-9a-zA-z-_]]. *)
Definition tag_char (c : ascii) : bool :=
  let n := nat_of_ascii c in
  is_digit c || (Nat.leb 65 n && Nat.leb n 122) || str_elem c "-_".
Fixpoint valid_tag (s : string) : bool :=
  match s with "" => true | String c r => tag_char c && valid_tag r end.

(** [__validate_tags] *)
Fixpoint validate_tags (keys : list json) : outcome unit :=
  match keys with
  | [] => Ok tt
  | JStr k :: keys' => if valid_tag k then validate_tags keys'
                       else Err (WorkflowException ("Invalid tag: " +:+ k))
  | _ :: _ => Err TypeError
  end.

(** [__resolver_service_factory] *)
Definition resolver_service_factory (config_path : string) (moniker : json)
    (kwargs : dict json) : outcome resolver_settings :=
  match kwargs with
  | [] => Ok (ResolverSettings moniker default_amqp None JNull JNull None)
  | _ =>
      let cfg := JObj kwargs in
      let? msg_private_key := get_secret_or_fail config_path "private-key" cfg in
      let? capture := get_value_or_default "capture-resolver-logs" cfg (JBool false) in
      let? default_tag := get_value_or_default "default-agent-tag" cfg JNull in
      let? project_tag_key := get_value_or_default "resolver-tag-key" cfg (JStr "resolver") in
      let? allowed := get_value_or_default "allowed-agent-tags" cfg (JArr []) in
      let? allowed := py_iter allowed in
      let? agent_tags := py_set allowed in
      if not_none default_tag && negb (bool_decide (default_tag ∈ agent_tags))
      then Err (missing_keys (config_path +:+ "/allowed-agent-tags") [py_str repr default_tag])
      else
        let? amqp := load_amqp_settings config_path cfg in
        let? scan_retries := get_value_or_default "scan-retries" cfg (JInt DEFAULT_SCAN_RETRIES) in
        let? scan_timeout := get_value_or_default "scan-timeout-seconds" cfg (JInt DEFAULT_SCAN_TIMEOUT) in
        let? _ := validate_tags agent_tags in
        Ok (ResolverSettings moniker amqp
              (Some (capture, msg_private_key, scan_retries, scan_timeout))
              default_tag project_tag_key (Some agent_tags))
  end.

(** [__polling_service_factory] and [ScanPollingService.__init__], which makes a
    [timedelta] of the interval: a number of seconds, here an integer. *)
Definition as_number (v : json) : outcome Z :=
  match v with JInt n => Ok n | JBool b => Ok (Z.b2z b) | _ => Err TypeError end.

Record polling_settings : Type := PollingSettings {
  po_max_interval : Z; po_backoff : json; po_amqp : amqp_settings }.

Definition polling_service_factory (config_path : string) (kwargs : dict json) :
    outcome polling_settings :=
  match kwargs with
  | [] => Ok (PollingSettings DEFAULT_MAX_POLL_INT_SECS (JInt DEFAULT_POLL_BACKOFF_SCALAR) default_amqp)
  | _ =>
      let cfg := JObj kwargs in
      let? scan_monitor := get_value_or_default "scan-monitor" cfg (JObj []) in
      let? max_interval := get_value_or_default "poll-max-interval-seconds" scan_monitor
                             (JInt DEFAULT_MAX_POLL_INT_SECS) in
      let? backoff := get_value_or_default "poll-backoff-multiplier" scan_monitor
                        (JInt DEFAULT_POLL_BACKOFF_SCALAR) in
      let? amqp := load_amqp_settings config_path cfg in
      let? max_interval := as_number max_interval in
      Ok (PollingSettings max_interval backoff amqp)
  end.

(** [__pr_feedback_service_factory] *)
Record pr_settings : Type := PrSettings {
  pr_excluded_severities : list ResultSeverity; pr_excluded_states : list ResultStates;
  pr_enabled : json; pr_interval : Z; pr_timeout_hours : Z; pr_amqp : amqp_settings }.

(** The message of the source also has the value and the names of the enumeration. *)
Definition reraise_ValueError {A} (msg : string) (o : outcome A) : outcome A :=
  match o with Err ValueError => Err (ConfigurationException msg) | o => o end.

Definition pr_feedback_service_factory (config_path : string) (kwargs : dict json) :
    outcome pr_settings :=
  match kwargs with
  | [] => Ok (PrSettings [] [] (JBool false) 60 48 default_amqp)
  | _ =>
      let cfg := JObj kwargs in
      let? pr_dict := get_value_or_default "pull-request" cfg (JObj []) in
      let? scan_monitor := get_value_or_default "scan-monitor" cfg (JObj []) in
      let? exclusions := get_value_or_default "exclusions" cfg (JObj []) in
      let? states := reraise_ValueError (config_path +:+ "/exclusions/state")
        (let? l := get_value_or_default "state" exclusions (JArr []) in
         let? l := py_iter l in mapO state_of_value l) in
      let? severities := reraise_ValueError (config_path +:+ "/exclusions/severity")
        (let? l := get_value_or_default "severity" exclusions (JArr []) in
         let? l := py_iter l in mapO severity_of_value l) in
      let? enabled := get_value_or_default "enabled" pr_dict (JBool false) in
      let? interval := get_value_or_default "poll-interval-seconds" scan_monitor
                         (JInt DEFAULT_POLL_INTERVAL_SECS) in
      let? interval := py_int interval in
      let? timeout := get_value_or_default "scan-timeout-hours" scan_monitor
                        (JInt DEFAULT_SCAN_TIMEOUT_HOURS) in
      let? timeout := py_int timeout in
      let? amqp := load_amqp_settings config_path cfg in
      Ok (PrSettings severities states enabled interval timeout amqp)
  end.

(** The SARIF writer's options, as dictionaries: [asdict(SARIF_DEFAULT_OPTS)], and
    what [from_dict] of its dataclass makes of a dictionary. *)
Context (sarif_default_opts : dict json).
Context (report_opts_from_dict : dict json → outcome json).

(** The items of [config.update(opts)]: those of a dictionary, or pairs. *)
Definition update_items (opts : json) : outcome (dict json) :=
  match opts with
  | JObj d => Ok d
  | JArr l => mapO (λ p, match p with
                         | JArr [JStr k; v] => Ok (k, v)
                         | JArr [_; _] => Err TypeError
                         | JStr (String a (String b EmptyString)) =>
                             Ok (String a EmptyString, JStr (String b EmptyString))
                         | JArr _ | JStr _ => Err ValueError
                         | _ => Err TypeError
                         end) l
  | JStr EmptyString => Ok []
  | JStr _ => Err ValueError
  | _ => Err TypeError
  end.

(** [__sarif_ReportOpts_factory] *)
Definition sarif_report_opts (opts : json) : outcome json :=
  match opts with
  | JNull => Ok (JObj sarif_default_opts)
  | opts => let? items := update_items opts in
            report_opts_from_dict (dunion sarif_default_opts items)
  end.

(** [__push_feedback_service_factory]; the delivery agents and what they are
    given. *)
Inductive delivery_agent : Type :=
| AmqpDeliveryAgent (moniker : json) (shared_secret : string)
    (exchange topic_prefix topic_suffix : json) (amqp : amqp_settings)
| HttpDeliveryAgent (shared_secret : string)
    (endpoint delivery_retries retry_delay proxies ssl_verify : json).

Record push_settings : Type := PushSettings {
  pu_moniker : json; pu_agents : list delivery_agent; pu_sarif_opts : json;
  pu_enabled : json; pu_interval : Z; pu_timeout_hours : Z; pu_amqp : amqp_settings }.

Definition disabled_push (moniker : json) : push_settings :=
  PushSettings moniker [] JNull (JBool false) 60 48 default_amqp.

Definition amqp_agent (config_path : string) (moniker amqp_delivery : json) :
    outcome (list delivery_agent) :=
  match amqp_delivery with
  | JNull => Ok []
  | _ =>
      let? has := jhas "amqp" amqp_delivery in
      if negb has then Err (missing_key_path (config_path +:+ "/via-amqp/amqp"))
      else
        let path := config_path +:+ "/via-amqp" in
        let? exchange := get_value_or_fail path "exchange" amqp_delivery in
        let? prefix := get_value_or_default "topic-prefix" amqp_delivery JNull in
        let? suffix := get_value_or_default "topic-suffix" amqp_delivery JNull in
        let? secret := get_secret_or_fail path "shared-secret" amqp_delivery in
        let? amqp := load_amqp_settings config_path amqp_delivery in
        Ok [AmqpDeliveryAgent moniker secret exchange prefix suffix amqp]
  end.

Fixpoint http_agents (config_path : string) (counter : nat) (l : list json) :
    outcome (list delivery_agent) :=
  match l with
  | [] => Ok []
  | d :: l' =>
      let path := config_path +:+ "/via-http-post[" +:+ pretty counter +:+ "]" in
      let? secret := get_secret_or_fail path "shared-secret" d in
      let? url := get_value_or_fail path "endpoint-url" d in
      let? retries := get_value_or_default "delivery-retries" d (JInt 2) in
      let? delay := get_value_or_default "delivery-retry-delay-seconds" d (JInt 60) in
      let? proxies := get_value_or_default "proxies" d JNull in
      let? ssl_verify := get_value_or_default "ssl-verify" d (JBool true) in
      let? rest := http_agents config_path (S counter) l' in
      Ok (HttpDeliveryAgent secret url retries delay proxies ssl_verify :: rest)
  end.

Definition push_feedback_service_factory (config_path : string) (moniker : json)
    (kwargs : dict json) : outcome push_settings :=
  match dget "push" kwargs with
  | None => Ok (disabled_push moniker)
  | Some push =>
      let? enabled := get_value_or_default "enabled" push (JBool false) in
      if negb (truthy enabled) then Ok (disabled_push moniker)
      else
        let cfg := JObj kwargs in
        let? scan_monitor := get_value_or_default "scan-monitor" cfg (JObj []) in
        let? sarif_opts := get_value_or_default "sarif-opts" push JNull in
        let? amqp_delivery := get_value_or_default "via-amqp" push JNull in
        let? http_delivery := get_value_or_default "via-http-post" push JNull in
        if negb (not_none amqp_delivery) && negb (not_none http_delivery)
        then Err (missing_at_least_one_key_path config_path ["via-amqp"; "via-http"])
        else
          let? amqp_agents := amqp_agent config_path moniker amqp_delivery in
          let? http := match http_delivery with
                       | JNull => Ok []
                       | JArr l => http_agents config_path 0 l
                       | _ => Err (invalid_value (config_path +:+ "/via-http-post"))
                       end in
          let? sarif_opts := sarif_report_opts sarif_opts in
          let? interval := get_value_or_default "poll-interval-seconds" scan_monitor
                         (JInt DEFAULT_POLL_INTERVAL_SECS) in
          let? interval := py_int interval in
          let? timeout := get_value_or_default "scan-timeout-hours" scan_monitor
                        (JInt DEFAULT_SCAN_TIMEOUT_HOURS) in
          let? timeout := py_int timeout in
          let? amqp := load_amqp_settings config_path cfg in
          Ok (PushSettings moniker (amqp_agents ++ http) sarif_opts enabled interval timeout amqp)
  end.

(** [__kickoff_service_factory]: the public key and the number of scans, or the
    dummy service. *)
Definition kickoff_max_scans (v : json) : outcome Z :=
  let? n := py_int v in Ok (Z.max (Z.min 10 n) 1).

Record kickoff_settings : Type := KickoffSettings {
  ko_public_key : string; ko_moniker : json; ko_max_scans : Z }.

Definition kickoff_service_factory (config_dict : json) (config_path : string) (moniker : json) :
    outcome (option kickoff_settings) :=
  match config_dict with
  | JNull => Ok None
  | _ =>
      let? v := get_value_or_default "max-concurrent-scans" config_dict (JInt 3) in
      let? max_scans := kickoff_max_scans v in
      let? key := get_secret_or_fail config_path "ssh-public-key" config_dict in
      Ok (Some (KickoffSettings key moniker max_scans))
  end.

(** [__setup_naming]: the module, and whether names are updated. *)
Definition setup_naming (config_path : string) (config_dict : json) :
    outcome (option string * json) :=
  match config_dict with
  | JNull => Ok (None, JBool false)
  | _ =>
      let? module_name := get_value_or_fail config_path "module" config_dict in
      let? module_name := as_str module_name in
      match import_module module_name with
      | Err ModuleNotFoundError => Err (module_load_error config_path module_name)
      | Err e => Err e
      | Ok _ => let? update := get_value_or_default "update-name" config_dict (JBool false) in
                Ok (Some module_name, update)
      end
  end.

(** [__setup_grouping] *)
Fixpoint add_assignments (config_path : string) (index : nat) (l : list json) (g : grouping) :
    outcome grouping :=
  match l with
  | [] => Ok g
  | assign :: l' =>
      let path := config_path +:+ "/group-assignments[" +:+ pretty index +:+ "]" in
      let? regex := get_value_or_fail path "repo-match" assign in
      let? paths := get_value_or_fail path "groups" assign in
      let? regex := match regex with JStr s => Ok s | _ => Err TypeError end in
      let? paths := py_iter paths in
      let? paths := mapO as_str paths in
      add_assignments config_path (S index) l' (add_assignment_rule regex paths g)
  end.

Definition setup_grouping (config_path : string) (config_dict : json) :
    outcome (grouping * json) :=
  match config_dict with
  | JNull => Ok (Grouping [] [] [], JBool false)
  | _ =>
      let? correct := get_value_or_default "group-assignments" config_dict JNull in
      let? assignments := get_value_or_default "group-assigments" config_dict correct in
      if negb (not_none assignments)
      then Err (missing_key_path (config_path +:+ "/group-assignments"))
      else
        let? update := get_value_or_default "update-groups" config_dict (JBool false) in
        let? l := py_iter assignments in
        let? g := add_assignments config_path 0 l (Grouping [] [] []) in
        Ok (g, update)
  end.

(** [CxOneService.__init__]: what it keeps. *)
Record cxone_settings : Type := CxOneSettings {
  cs_moniker : json; cs_client : cx_client; cs_engines : json; cs_scan_tags : json;
  cs_project_tags : json; cs_rename_legacy : json; cs_update_groups : json;
  cs_grouping : grouping }.

Definition none_to_empty (v : json) : json := match v with JNull => JObj [] | v => v end.
End config.
