(* ===== verification/Workflows.v ===== *)
(** * Feedback workflows: [src/workflows/base_workflow.py],
    [src/workflows/pull_request_workflow.py], [src/workflows/push.py] and the
    starting operations of [src/workflows/feedback_services/]

    What the services publish when a scan starts, ends or fails, and which
    handler of [src/workflow_agent.py] each message reaches through the
    exchanges and queues of the broker. *)
From S2P Require Import Prelude PyStr PyJson Url Auth Grouping Messaging Broker Config.
Open Scope string_scope.
Open Scope nat_scope.
Open Scope list_scope.

(** ** Messages of delegated scans: [messaging/v1/delegated_scan.py]

    Pickled services are byte strings; [df_filters] is the path filter of the
    project, [None] when it has none. *)
Record DelegatedScanDetails : Type := MkDelegatedScanDetails {
  df_clone_url : json; df_commit_hash : json; df_scan_branch : json;
  df_scan_tags : dict json; df_file_filters : json; df_project_id : json;
  df_pickled_scm_service : string; df_pickled_cxone_service : string;
  df_event_context : EventContext; df_orchestrator : string }.

Record DelegatedScanMessage : Type := MkDelegatedScanMessage {
  ds_moniker : string; ds_state : ScanStates; ds_workflow : ScanWorkflow;
  ds_details : DelegatedScanDetails; ds_signature : string; ds_capture_logs : bool }.

Record DelegatedScanResultMessage : Type := MkDelegatedScanResultMessage {
  dr_moniker : string; dr_state : ScanStates; dr_workflow : ScanWorkflow;
  dr_details : DelegatedScanDetails; dr_signature : string;
  dr_exit_code : option Z; dr_scan_id : option json; dr_logs : option string }.

(** A message handed to the broker: its body, the header of the remaining
    retries and the expiration in milliseconds. *)
Inductive out_body : Type :=
| scan_body (m : amqp_message)
| delegated_body (m : DelegatedScanMessage)
| result_body (m : DelegatedScanResultMessage).

Record outgoing : Type := Outgoing {
  out_message : out_body; out_retries : option Z; out_expiration : option Z }.

(** What a reader makes of a message: the context of its details is made anew. *)
Section reread.
Context (json_loads : string → outcome json).
Definition reread_push (d : PushDetails) : PushDetails :=
  MkPushDetails (pd_clone_url d) (pd_repo_project d) (pd_repo_slug d) (pd_organization d)
    (pd_source_branch d) (reread json_loads (pd_event_context d)) (pd_commit_hash d).
Definition reread_pr (d : PRDetails) : PRDetails :=
  MkPRDetails (prd_clone_url d) (prd_repo_project d) (prd_repo_slug d) (prd_organization d)
    (reread json_loads (prd_event_context d)) (prd_pr_id d) (prd_source_branch d)
    (prd_target_branch d) (prd_source_hash d) (prd_target_hash d).
Definition reread_details (w : workflow_details) : workflow_details :=
  match w with
  | push_details d => push_details (reread_push d)
  | pr_details d => pr_details (reread_pr d)
  | no_details => no_details
  end.
Definition reread_scan (m : ScanMessage) : ScanMessage :=
  MkScanMessage (sm_moniker m) (sm_state m) (sm_workflow m) (reread_details (sm_details m))
    (sm_scanid m) (sm_projectid m).
Definition reread_message (m : amqp_message) : amqp_message :=
  match m with
  | ScanAwaitMessage m drop_by => ScanAwaitMessage (reread_scan m) drop_by
  | ScanFeedbackMessage m is_error msg => ScanFeedbackMessage (reread_scan m) is_error msg
  | ScanAnnotationMessage m text => ScanAnnotationMessage (reread_scan m) text
  | PreScanAnnotationMessage moniker state workflow d text =>
      PreScanAnnotationMessage moniker state workflow (reread_details d) text
  end.
Definition reread_delegated (d : DelegatedScanDetails) : DelegatedScanDetails :=
  MkDelegatedScanDetails (df_clone_url d) (df_commit_hash d) (df_scan_branch d) (df_scan_tags d)
    (df_file_filters d) (df_project_id d) (df_pickled_scm_service d)
    (df_pickled_cxone_service d) (reread json_loads (df_event_context d)) (df_orchestrator d).
Definition reread_body (b : out_body) : out_body :=
  match b with
  | scan_body m => scan_body (reread_message m)
  | delegated_body m => delegated_body (MkDelegatedScanMessage (ds_moniker m) (ds_state m)
      (ds_workflow m) (reread_delegated (ds_details m)) (ds_signature m) (ds_capture_logs m))
  | result_body m => result_body (MkDelegatedScanResultMessage (dr_moniker m) (dr_state m)
      (dr_workflow m) (reread_delegated (dr_details m)) (dr_signature m) (dr_exit_code m)
      (dr_scan_id m) (dr_logs m))
  end.

Lemma reread_details_idemp w : reread_details (reread_details w) = reread_details w.
Proof. destruct w; simpl; unfold reread_push, reread_pr; simpl; by rewrite ?reread_idemp. Qed.
Lemma reread_delegated_idemp d : reread_delegated (reread_delegated d) = reread_delegated d.
Proof. unfold reread_delegated. simpl. by rewrite reread_idemp. Qed.
End reread.

(** ** Calls on the broker's client *)
Inductive mq_ev : Type :=
| MqClient
| OpenChannel
| GetExchange (name : string)                   (* whether it is not falsy *)
| Publish (exchange routing_key : string) (m : outgoing)   (* whether confirmed *)
| CloseChannel
| Now.

Definition mq_resp (e : mq_ev) : Type :=
  match e with
  | GetExchange _ | Publish _ _ _ => bool
  | Now => Z
  | _ => unit
  end.
#[global] Arguments mq_resp : simpl never.
Abbreviation mq_prog := (prog mq_ev mq_resp).

Definition unbound_local : exn := OtherException "UnboundLocalError".

(** [AbstractAsyncWorkflow._publish]; without a channel, its [finally] clause
    reads an unbound name. *)
Definition publish (topic : string) (m : outgoing) (exchange : string) : mq_prog bool :=
  on_outcome (λ o, match o with
    | Ok _ =>
        finally (let! found := call (GetExchange exchange) in
                 if found : bool then call (Publish exchange topic m : mq_ev) else Ret false)
                (call (CloseChannel : mq_ev))
    | Err _ => Raise unbound_local
    end) (call (OpenChannel : mq_ev)).

Section workflows.
(** [datetime.isoformat] of a time in seconds. *)
Context (isoformat : Z → string).

(** [expiration=timedelta(seconds=interval)], in milliseconds *)
Definition persistent (m : amqp_message) : outgoing := Outgoing (scan_body m) None None.
Definition expiring (m : amqp_message) (interval_seconds : Z) : outgoing :=
  Outgoing (scan_body m) None (Some (1000 * interval_seconds)%Z).

Definition drop_by (timeout_hours : Z) : mq_prog string :=
  if (timeout_hours =? 0)%Z then Ret max_iso
  else let! now := call Now in
       Ret (compute_drop_by_timestamp isoformat now (3600 * timeout_hours)%Z).

(** Publish for its effect: the workflows drop the result of [_publish]. *)
Definition publish_scan (topic : string) (m : outgoing) : mq_prog unit :=
  do! publish topic m EXCHANGE_SCAN_INPUT in Ret tt.

(** *** [PullRequestWorkflow] *)
Definition pr_topic (state : ScanStates) (moniker : string) : string :=
  make_topic state (str_workflow PR) moniker.

(** The messages, as the factories of the class make them; the time of the last
    poll is read by the caller. *)
Definition feedback_msg_factory (projectid scanid : json) (moniker : string)
    (details : workflow_details) : outgoing :=
  persistent (ScanFeedbackMessage (MkScanMessage moniker FEEDBACK PR details scanid projectid)
                false (Some "NA")).
Definition feedback_error_msg_factory (projectid scanid : json) (moniker : string)
    (is_error : bool) (err_msg : string) (details : workflow_details) : outgoing :=
  persistent (ScanFeedbackMessage (MkScanMessage moniker FEEDBACK PR details scanid projectid)
                is_error (Some err_msg)).
Definition annotation_msg_factory (projectid scanid : json) (moniker annotation : string)
    (details : workflow_details) : outgoing :=
  persistent (ScanAnnotationMessage
    (MkScanMessage moniker ANNOTATE PR details scanid projectid) annotation).
Definition prescan_annotation_msg_factory (moniker annotation : string)
    (details : workflow_details) : outgoing :=
  persistent (PreScanAnnotationMessage moniker PRESCAN PR details annotation).
Definition await_msg_factory (w : pr_settings) (projectid scanid : json) (moniker : string)
    (details : workflow_details) (drop_by : string) : outgoing :=
  expiring (ScanAwaitMessage (MkScanMessage moniker AWAIT PR details scanid projectid) drop_by)
           (pr_interval w).

Definition pr_workflow_start (w : pr_settings) (moniker : string) (projectid scanid : json)
    (details : workflow_details) : mq_prog unit :=
  let! drop := drop_by (pr_timeout_hours w) in
  publish_scan (pr_topic AWAIT moniker) (await_msg_factory w projectid scanid moniker details drop).

Definition pr_feedback_error (moniker : string) (projectid scanid : json) (error_msg : string)
    (details : workflow_details) : mq_prog unit :=
  publish_scan (pr_topic FAILURE moniker)
    (feedback_error_msg_factory projectid scanid moniker true error_msg details).

Definition pr_feedback_start (moniker : string) (projectid scanid : json)
    (details : workflow_details) : mq_prog unit :=
  publish_scan (pr_topic FEEDBACK moniker)
    (feedback_msg_factory projectid scanid moniker details).

Definition pr_annotation_start (moniker : string) (projectid scanid : json)
    (annotation : string) (details : workflow_details) : mq_prog unit :=
  publish_scan (pr_topic ANNOTATE moniker)
    (annotation_msg_factory projectid scanid moniker annotation details).

Definition pr_prescan_annotation_start (moniker annotation : string)
    (details : workflow_details) : mq_prog unit :=
  publish_scan (pr_topic PRESCAN moniker)
    (prescan_annotation_msg_factory moniker annotation details).

(** *** [PushWorkflow] *)
Definition feedback_gen_msg_factory (moniker : string) (projectid scanid : json)
    (is_error : bool) (err_msg : option string) (details : workflow_details) : amqp_message :=
  ScanFeedbackMessage (MkScanMessage moniker FEEDBACK PUSH details scanid projectid)
    is_error err_msg.

Definition publish_feedback_msg (moniker : string) (msg : amqp_message) : mq_prog unit :=
  publish_scan (push_make_topic FEEDBACK (str_feedback FB_PUSH_GEN) moniker) (persistent msg).

Definition push_feedback_start (moniker : string) (projectid scanid : json)
    (details : workflow_details) : mq_prog unit :=
  publish_feedback_msg moniker
    (feedback_gen_msg_factory moniker projectid scanid false None details).

Definition push_feedback_error (moniker : string) (projectid scanid : json)
    (error_msg : string) (details : workflow_details) : mq_prog unit :=
  publish_feedback_msg moniker
    (feedback_gen_msg_factory moniker projectid scanid true (Some error_msg) details).

Definition push_workflow_start (w : push_settings) (moniker : string)
    (projectid scanid : json) (details : workflow_details) : mq_prog unit :=
  let! drop := drop_by (pu_timeout_hours w) in
  publish_scan (push_make_topic AWAIT (str_feedback FB_PUSH_GEN) moniker)
    (expiring (ScanAwaitMessage (MkScanMessage moniker AWAIT PUSH details scanid projectid) drop)
              (pu_interval w)).

(** ** The feedback services *)

(** [PRFeedbackService.start_pr_scan_workflow] *)
Definition start_pr_scan_workflow (w : pr_settings) (moniker : string)
    (projectid scanid : json) (d : PRDetails) : mq_prog unit :=
  do! call (MqClient : mq_ev) in
  do! pr_workflow_start w moniker projectid scanid (pr_details d) in
  do! call (MqClient : mq_ev) in
  pr_annotation_start moniker projectid scanid "CheckmarxOne scan started" (pr_details d).

(** [PRFeedbackService.start_delegated_pr_scan_workflow] *)
Definition start_delegated_pr_scan_workflow (moniker : string) (d : PRDetails) : mq_prog unit :=
  do! call (MqClient : mq_ev) in
  pr_prescan_annotation_start moniker
    "CheckmarxOne pre-scan is now processing, please wait." (pr_details d).

(** [PushFeedbackService.start_sarif_feedback] *)
Definition start_sarif_feedback (w : push_settings) (moniker : string)
    (projectid scanid : json) (d : PushDetails) : mq_prog unit :=
  if truthy (pu_enabled w) then
    do! call (MqClient : mq_ev) in
    push_workflow_start w moniker projectid scanid (push_details d)
  else Ret tt.

(** [handle_completed_scan] and [handle_awaited_scan_error] of both services *)
Definition pr_handle_completed_scan (m : ScanMessage) : mq_prog unit :=
  match sm_workflow m with
  | PR => do! call (MqClient : mq_ev) in
          pr_feedback_start (sm_moniker m) (sm_projectid m) (sm_scanid m) (sm_details m)
  | PUSH => Ret tt
  end.

Definition pr_handle_awaited_scan_error (m : ScanMessage) (error_msg : string) : mq_prog unit :=
  match sm_workflow m with
  | PR => do! call (MqClient : mq_ev) in
          pr_feedback_error (sm_moniker m) (sm_projectid m) (sm_scanid m) error_msg (sm_details m)
  | PUSH => Ret tt
  end.

Definition push_handle_completed_scan (m : ScanMessage) : mq_prog unit :=
  match sm_workflow m with
  | PUSH => do! call (MqClient : mq_ev) in
            push_feedback_start (sm_moniker m) (sm_projectid m) (sm_scanid m) (sm_details m)
  | PR => Ret tt
  end.

Definition push_handle_awaited_scan_error (m : ScanMessage) (error_msg : string) : mq_prog unit :=
  match sm_workflow m with
  | PUSH => do! call (MqClient : mq_ev) in
            push_feedback_error (sm_moniker m) (sm_projectid m) (sm_scanid m) error_msg (sm_details m)
  | PR => Ret tt
  end.
End workflows.

(** ** The consumers of the queues: [workflow_agent.spawn_agents]

    A handler [H_x] is the [process_x] of the agent. *)
Inductive agent_handler : Type :=
| H_gen_sarif | H_poll | H_prescan_annotate | H_annotate
| H_feedback | H_feedback_error
| H_resolver_results | H_resolver_timeout.

Definition consumers : list (string * agent_handler) :=
  [(QUEUE_SARIF_GEN, H_gen_sarif);
   (QUEUE_SCAN_POLLING_LEGACY, H_poll);
   (QUEUE_SCAN_POLLING, H_poll);
   (QUEUE_PRESCAN_ANNOTATE_PR, H_prescan_annotate);
   (QUEUE_ANNOTATE_PR, H_annotate);
   (QUEUE_FEEDBACK_PR, H_feedback);
   (QUEUE_FAILURE_PR, H_feedback_error);
   (QUEUE_RESOLVER_COMPLETE, H_resolver_results);
   (QUEUE_RESOLVER_TIMEOUT, H_resolver_timeout)].

(** The handlers that decode a message of this class, and the workflow whose
    details they read of it. *)
Definition handler_of (m : amqp_message) : agent_handler :=
  match m with
  | ScanAwaitMessage _ _ => H_poll
  | ScanFeedbackMessage m is_error _ =>
      match sm_workflow m with
      | PUSH => H_gen_sarif
      | PR => if is_error then H_feedback_error else H_feedback
      end
  | ScanAnnotationMessage _ _ => H_annotate
  | PreScanAnnotationMessage _ _ _ _ _ => H_prescan_annotate
  end.

(** The handlers a published message ends at; a message with an expiration
    waits in its queue and is then dead-lettered. *)
Definition delivered (t : topology) (exchange routing_key : string) (m : outgoing) :
    list agent_handler :=
  let queues := route 3 t exchange routing_key in
  let queues := match out_expiration m with
                | Some _ => concat ((λ q, expire t q routing_key) <$> queues)
                | None => queues
                end in
  concat ((λ q, omap (λ c : string * agent_handler,
                        if bool_decide (c.1 = q) then Some c.2 else None) consumers) <$> queues).

(** ** Theorems *)

(** What a message is about: the workflow, the project and the scan, unless there
    is no scan yet, and the details of the event. *)
Definition subject : Type := ScanWorkflow * option (json * json) * workflow_details.
Definition scan_subject (m : ScanMessage) : subject :=
  (sm_workflow m, Some (sm_projectid m, sm_scanid m), sm_details m).
Definition message_subject (m : amqp_message) : subject :=
  match m with
  | ScanAwaitMessage m _ | ScanFeedbackMessage m _ _ | ScanAnnotationMessage m _ => scan_subject m
  | PreScanAnnotationMessage _ _ workflow details _ => (workflow, None, details)
  end.

(** A subject on its way, before or after a reader decoded it. *)
Definition reread_subject (json_loads : string → outcome json) (x : subject) : subject :=
  (x.1, reread_details json_loads x.2).
Definition in_transit (json_loads : string → outcome json) (x x' : subject) : Prop :=
  x' = x ∨ x' = reread_subject json_loads x.
Lemma reread_message_subject json_loads am :
  message_subject (reread_message json_loads am) = reread_subject json_loads (message_subject am).
Proof. by destruct am. Qed.
Lemma reread_in_transit json_loads x x' :
  in_transit json_loads x x' → reread_subject json_loads x' = reread_subject json_loads x.
Proof. intros [->| ->]; [done|]. unfold reread_subject. simpl. by rewrite reread_details_idemp. Qed.

(** The starting and finishing operations of the services, with the name of the
    service their messages carry and what they are about. *)
Inductive scan_operation (isoformat : Z → string) (moniker : string) :
    subject → mq_prog unit → Prop :=
| op_start_pr w projectid scanid d :
    scan_operation isoformat moniker (PR, Some (projectid, scanid), pr_details d)
      (start_pr_scan_workflow isoformat w moniker projectid scanid d)
| op_start_delegated_pr d :
    scan_operation isoformat moniker (PR, None, pr_details d)
      (start_delegated_pr_scan_workflow moniker d)
| op_start_sarif w projectid scanid d :
    scan_operation isoformat moniker (PUSH, Some (projectid, scanid), push_details d)
      (start_sarif_feedback isoformat w moniker projectid scanid d)
| op_pr_completed m : sm_moniker m = moniker →
    scan_operation isoformat moniker (scan_subject m) (pr_handle_completed_scan m)
| op_pr_error m msg : sm_moniker m = moniker →
    scan_operation isoformat moniker (scan_subject m) (pr_handle_awaited_scan_error m msg)
| op_push_completed m : sm_moniker m = moniker →
    scan_operation isoformat moniker (scan_subject m) (push_handle_completed_scan m)
| op_push_error m msg : sm_moniker m = moniker →
    scan_operation isoformat moniker (scan_subject m) (push_handle_awaited_scan_error m msg).

(** A published message ends at one handler, the one of its class and
    workflow, in the name of the service. *)
Definition message_moniker (m : amqp_message) : string :=
  match m with
  | ScanAwaitMessage m _ | ScanFeedbackMessage m _ _ | ScanAnnotationMessage m _ => sm_moniker m
  | PreScanAnnotationMessage moniker _ _ _ _ => moniker
  end.

Definition well_addressed (tags : list string) (moniker : string) (x : subject) (e : mq_ev) :
    Prop :=
  match e with
  | Publish exchange key m =>
      exchange = EXCHANGE_SCAN_INPUT ∧
      ∃ am, out_message m = scan_body am ∧ message_moniker am = moniker ∧
            message_subject am = x ∧
            delivered (setup tags) exchange key m = [handler_of am]
  | _ => True
  end.

Ltac only_call_step :=
  lazymatch goal with
  | |- only ?Q (@call ?Ev ?Resp ?e) => refine (only_call (Ev:=Ev) (Resp:=Resp) Q e _)
  end.

Lemma only_publish (Q : mq_ev → Prop) topic m exchange :
  Q OpenChannel → Q CloseChannel → Q (GetExchange exchange) → Q (Publish exchange topic m) →
  only Q (publish topic m exchange).
Proof.
  intros Ho Hc Hg Hp. unfold publish. apply only_on_outcome; [by only_call_step|].
  intros [[]|e]; [|apply only_raise]. apply only_finally; [|by only_call_step].
  apply only_bind; [by only_call_step|].
  intros []; [by only_call_step|apply only_ret].
Qed.

Lemma only_publish_scan tags moniker x topic m :
  well_addressed tags moniker x (Publish EXCHANGE_SCAN_INPUT topic m) →
  only (well_addressed tags moniker x) (publish_scan topic m).
Proof.
  intros H. unfold publish_scan. apply only_bind; [|intros; apply only_ret].
  by apply only_publish.
Qed.

Lemma only_drop_by isoformat Q hours : Q Now → only Q (drop_by isoformat hours).
Proof.
  intros HQ. unfold drop_by. destruct (hours =? 0)%Z; [apply only_ret|].
  apply only_bind; [by only_call_step|intros; apply only_ret].
Qed.

Lemma delivered_pr tags moniker am state :
  str_elem "."%char moniker = false →
  delivered (setup tags) EXCHANGE_SCAN_INPUT (pr_topic state moniker) (persistent am) =
    match state with
    | FEEDBACK => [H_feedback] | ANNOTATE => [H_annotate]
    | PRESCAN => [H_prescan_annotate] | FAILURE => [H_feedback_error]
    | _ => []
    end.
Proof.
  intros H. unfold delivered, pr_topic. rewrite route_pr_topic by done.
  by destruct state.
Qed.

Lemma delivered_pr_await tags moniker am interval :
  str_elem "."%char moniker = false →
  delivered (setup tags) EXCHANGE_SCAN_INPUT (pr_topic AWAIT moniker) (expiring am interval) =
    [H_poll].
Proof.
  intros H. unfold delivered, pr_topic. rewrite route_pr_topic by done.
  cbn [fmap list_fmap concat out_expiration expiring]. by rewrite expire_await_pr by done.
Qed.

Lemma delivered_push tags moniker am :
  str_elem "."%char moniker = false →
  delivered (setup tags) EXCHANGE_SCAN_INPUT
    (push_make_topic FEEDBACK (str_feedback FB_PUSH_GEN) moniker) (persistent am) =
    [H_gen_sarif].
Proof. intros H. unfold delivered. by rewrite route_push_topic by done. Qed.

Lemma delivered_push_await tags moniker am interval :
  str_elem "."%char moniker = false →
  delivered (setup tags) EXCHANGE_SCAN_INPUT
    (push_make_topic AWAIT (str_feedback FB_PUSH_GEN) moniker) (expiring am interval) =
    [H_poll].
Proof.
  intros H. unfold delivered. rewrite route_push_topic by done.
  cbn [fmap list_fmap concat out_expiration expiring]. by rewrite expire_await_push by done.
Qed.

Ltac well_addressed :=
  repeat first
    [ apply only_publish_scan; split; [reflexivity|];
      eexists; split_and!; [reflexivity|reflexivity|reflexivity|];
      first [by rewrite delivered_pr by done | by rewrite delivered_pr_await by done
            |by rewrite delivered_push by done | by rewrite delivered_push_await by done]
    | apply only_drop_by; done
    | apply only_ret
    | only_call_step; done
    | apply only_bind; [|intros ?] ].

Lemma scan_operation_addressed tags isoformat moniker x p :
  str_elem "."%char moniker = false →
  scan_operation isoformat moniker x p → only (well_addressed tags moniker x) p.
Proof.
  intros Hdot Hop.
  destruct Hop as [w projectid scanid d|d|w projectid scanid d|m Hm|m msg Hm|m Hm|m msg Hm];
    subst.
  - unfold start_pr_scan_workflow, pr_workflow_start, pr_annotation_start, await_msg_factory,
      annotation_msg_factory. well_addressed.
  - unfold start_delegated_pr_scan_workflow, pr_prescan_annotation_start,
      prescan_annotation_msg_factory. well_addressed.
  - unfold start_sarif_feedback, push_workflow_start.
    destruct (truthy (pu_enabled w)); well_addressed.
  - unfold pr_handle_completed_scan, pr_feedback_start, feedback_msg_factory, scan_subject.
    destruct (sm_workflow m); well_addressed.
  - unfold pr_handle_awaited_scan_error, pr_feedback_error, feedback_error_msg_factory,
      scan_subject.
    destruct (sm_workflow m); well_addressed.
  - unfold push_handle_completed_scan, push_feedback_start, publish_feedback_msg,
      feedback_gen_msg_factory, scan_subject.
    destruct (sm_workflow m); well_addressed.
  - unfold push_handle_awaited_scan_error, push_feedback_error, publish_feedback_msg,
      feedback_gen_msg_factory, scan_subject.
    destruct (sm_workflow m); well_addressed.
Qed.

(** Whatever the services publish for a scan - at its start, its end or its
    failure - reaches exactly one handler of the agent, the one that reads
    messages of that class and workflow, through every exchange, queue and
    expiry on the way, for every set of resolver tags and every service name
    without a dot; and it carries the name of its service, the scan it is about
    and the details of the event. *)
Theorem messages_reach_their_handler tags isoformat moniker x p tr o :
  str_elem "."%char moniker = false →
  scan_operation isoformat moniker x p → exec p tr o →
  Forall (well_addressed tags moniker x) (events tr).
Proof. intros Hdot Hop. by apply (scan_operation_addressed tags isoformat moniker x p). Qed.

(** ** Witnesses *)
Definition demo_pr_settings : pr_settings :=
  PrSettings [] [] (JBool true) 90 48 default_amqp.
Definition demo_context : EventContext := MkEventContext "" [] (JObj []).
Definition demo_pr_details : PRDetails :=
  MkPRDetails (JStr "https://git/r.git") (JStr "p") (JStr "r") (JStr "o") demo_context
    (JStr "7") (JStr "dev") (JStr "main") (JStr "aa") (JStr "bb").
(** A broker that confirms everything. *)
Definition demo_broker (n : nat) (e : mq_ev) : outcome (mq_resp e) * nat :=
  match e return outcome (mq_resp e) * nat with
  | GetExchange _ => (Ok true, n)
  | Publish _ _ _ => (Ok true, S n)
  | Now => (Ok 1000%Z, n)
  | MqClient | OpenChannel | CloseChannel => (Ok tt, n)
  end.
Definition demo_start : mq_prog unit :=
  start_pr_scan_workflow pretty demo_pr_settings "gh" (JStr "P") (JStr "S") demo_pr_details.

Lemma messages_reach_their_handler_witness :
  count (λ e, match e with Publish _ _ _ => true | _ => false end)
    (run_trace demo_broker 0 demo_start) = 2 ∧
  Forall (well_addressed ["linux"] "gh" (PR, Some (JStr "P", JStr "S"), pr_details demo_pr_details))
    (events (run_trace demo_broker 0 demo_start)).
Proof.
  split; [reflexivity|].
  apply (messages_reach_their_handler ["linux"] pretty "gh" _ demo_start _ _ eq_refl
           (op_start_pr pretty "gh" demo_pr_settings (JStr "P") (JStr "S") demo_pr_details)
           (exec_run demo_broker 0 demo_start)).
Defined.
