(* ===== verification/Wire.v ===== *)
(** * Messages on the wire: [src/workflows/messaging/]

    The dataclasses of the messages with their fields and defaults as they are
    declared, the constructors that Python makes of them, and their encoding: a
    message is written as JSON by [dataclasses_json] and read again with the class
    that its reader names.  The library is an interface ([DataclassesJson]) with the
    laws that its documentation states; the records of [Auth], [Messaging] and
    [Workflows] are views of the objects. *)
From S2P Require Import Prelude PyStr PyJson JsonText Url Auth Grouping Messaging Broker Config Workflows.
Open Scope string_scope.
Open Scope nat_scope.
Open Scope list_scope.

(** ** Values, types and fields *)
Inductive class : Type :=
| EventContextC | BaseMessageC | StampedMessageC | ScanHeaderC | ScanWorkflowHeaderC
| ScanMessageC | ScanAwaitMessageC | ScanFeedbackMessageC | ScanAnnotationMessageC
| PreScanAnnotationMessageC | CommonDetailsC | PushDetailsC | PRDetailsC
| DelegatedScanDetailsC | DelegatedScanMessageBaseC | DelegatedScanMessageC
| DelegatedScanResultMessageC.

(** The annotations of the fields. *)
Inductive ftype : Type :=
| TStr | TInt | TBool | TDict | TBytes
| TEnum (values : list string)
| TClass (c : class)
| TOptional (t : ftype).

(** A Python value in a message: what JSON has, byte strings, members of an
    enumeration by value, dictionaries of such values, and objects. *)
Inductive pyval : Type :=
| VJson (j : json)
| VBytes (s : string)
| VEnum (value : string)
| VDict (d : list (string * pyval))
| VObj (c : class) (d : list (string * pyval)).

Record field : Type := Field {
  f_name : string; f_type : ftype; f_default : option pyval; f_init : bool }.
Definition required (n : string) (t : ftype) : field := Field n t None true.
Definition optional (n : string) (t : ftype) (v : pyval) : field := Field n t (Some v) true.

Definition state_values : list string :=
  str_state <$> [AWAIT; FEEDBACK; ANNOTATE; EXECUTE; DONE; FAILURE; PRESCAN].
Definition workflow_values : list string := str_workflow <$> [PR; PUSH].

(** ** The classes, as they are declared *)
Definition EventContext_fields : list field :=
  [required "raw_event_payload" TBytes; optional "headers" TDict (VJson (JObj []));
   Field "message" TDict None false].
Definition StampedMessage_fields : list field :=
  [required "timestamp" TStr; required "correlation_id" TStr].
Definition ScanHeader_fields : list field :=
  [required "moniker" TStr; required "state" (TEnum state_values);
   required "workflow" (TEnum workflow_values)].
Definition ScanWorkflowHeader_fields : list field := [required "workflow_details" TDict].
Definition ScanMessage_fields : list field := [required "scanid" TStr; required "projectid" TStr].
Definition ScanAwaitMessage_fields : list field := [required "drop_by" TStr].
Definition ScanFeedbackMessage_fields : list field :=
  [optional "is_error" (TOptional TBool) (VJson (JBool false));
   optional "error_msg" (TOptional TStr) (VJson (JStr "NA"))].
Definition ScanAnnotationMessage_fields : list field := [required "annotation" TStr].
Definition PreScanAnnotationMessage_fields : list field := [required "annotation" TStr].
Definition CommonDetails_fields : list field :=
  [required "clone_url" TStr; required "repo_project" TStr; required "repo_slug" TStr;
   required "organization" TStr; required "source_branch" TStr;
   required "event_context" (TClass EventContextC)].
Definition PushDetails_fields : list field := [required "commit_hash" TStr].
Definition PRDetails_fields : list field :=
  [required "pr_id" TStr; required "target_branch" TStr; required "target_hash" TStr;
   required "source_branch" TStr; required "source_hash" TStr].
Definition DelegatedScanDetails_fields (version : string) : list field :=
  [required "clone_url" TStr; required "commit_hash" TStr; required "scan_branch" TStr;
   required "scan_tags" TDict; required "file_filters" TStr; required "project_id" TStr;
   required "pickled_scm_service" TBytes; required "pickled_cxone_service" TBytes;
   required "event_context" (TClass EventContextC); required "orchestrator" TStr;
   optional "cxoneflow_version" TStr (VJson (JStr version))].
Definition DelegatedScanMessageBase_fields : list field :=
  [required "details" (TClass DelegatedScanDetailsC); required "details_signature" TBytes].
Definition DelegatedScanMessage_fields : list field := [required "capture_logs" TBool].
Definition DelegatedScanResultMessage_fields : list field :=
  [optional "resolver_exit_code" (TOptional TInt) (VJson JNull);
   optional "scan_id" (TOptional TStr) (VJson JNull);
   optional "logs" (TOptional TBytes) (VJson JNull)].

Section wire.
(** [__version__] *)
Context (version : string).

Definition own_fields (c : class) : list field :=
  match c with
  | EventContextC => EventContext_fields
  | BaseMessageC => []
  | StampedMessageC => StampedMessage_fields
  | ScanHeaderC => ScanHeader_fields
  | ScanWorkflowHeaderC => ScanWorkflowHeader_fields
  | ScanMessageC => ScanMessage_fields
  | ScanAwaitMessageC => ScanAwaitMessage_fields
  | ScanFeedbackMessageC => ScanFeedbackMessage_fields
  | ScanAnnotationMessageC => ScanAnnotationMessage_fields
  | PreScanAnnotationMessageC => PreScanAnnotationMessage_fields
  | CommonDetailsC => CommonDetails_fields
  | PushDetailsC => PushDetails_fields
  | PRDetailsC => PRDetails_fields
  | DelegatedScanDetailsC => DelegatedScanDetails_fields version
  | DelegatedScanMessageBaseC => DelegatedScanMessageBase_fields
  | DelegatedScanMessageC => DelegatedScanMessage_fields
  | DelegatedScanResultMessageC => DelegatedScanResultMessage_fields
  end.

(** The class that a class is derived from. *)
Definition base (c : class) : option class :=
  match c with
  | EventContextC | BaseMessageC => None
  | StampedMessageC | CommonDetailsC | DelegatedScanDetailsC => Some BaseMessageC
  | ScanHeaderC => Some StampedMessageC
  | ScanWorkflowHeaderC | DelegatedScanMessageBaseC => Some ScanHeaderC
  | ScanMessageC | PreScanAnnotationMessageC => Some ScanWorkflowHeaderC
  | ScanAwaitMessageC | ScanFeedbackMessageC | ScanAnnotationMessageC => Some ScanMessageC
  | PushDetailsC | PRDetailsC => Some CommonDetailsC
  | DelegatedScanMessageC | DelegatedScanResultMessageC => Some DelegatedScanMessageBaseC
  end.

(** The fields of a dataclass: those of its bases first; a field that is declared
    again keeps its place.  No class has more than five bases. *)
Definition add_fields (own : list field) (d : dict field) : dict field :=
  foldl (λ acc f, dset (f_name f) f acc) d own.
Fixpoint fields_from (fuel : nat) (c : class) : dict field :=
  add_fields (own_fields c)
    match fuel, base c with
    | S n, Some b => fields_from n b
    | _, _ => []
    end.
Definition fields (c : class) : list field := List.map snd (fields_from 5 c).
Definition init_fields (c : class) : list field := List.filter f_init (fields c).

(** What [@dataclass] checks: no field without a default after one with a default. *)
Fixpoint defaults_last (l : list field) : bool :=
  match l with
  | [] => true
  | f :: l' => match f_default f with
               | Some _ => forallb (λ g, bool_decide (is_Some (f_default g))) l'
               | None => defaults_last l'
               end
  end.

(** ** Construction *)
Context (json_loads : string → outcome json).

(** [__post_init__] *)
Definition post_init (c : class) (d : list (string * pyval)) : outcome pyval :=
  match c with
  | EventContextC =>
      match dget "raw_event_payload" d with
      | Some (VBytes raw) => let? m := json_loads raw in Ok (VObj c (d ++ [("message", VJson m)]))
      | _ => Err TypeError
      end
  | _ => Ok (VObj c d)
  end.

(** The [__init__] of a dataclass, with keyword arguments. *)
Definition argument (kwargs : dict pyval) (f : field) : outcome (string * pyval) :=
  match dget (f_name f) kwargs, f_default f with
  | Some v, _ | None, Some v => Ok (f_name f, v)
  | None, None => Err TypeError
  end.
Definition construct (c : class) (kwargs : dict pyval) : outcome pyval :=
  if forallb (λ k, bool_decide (k ∈ List.map f_name (init_fields c))) (dkeys kwargs)
  then let? d := mapO (argument kwargs) (init_fields c) in post_init c d
  else Err TypeError.

(** [StampedMessage.factory]: the default of the correlation is evaluated once. *)
Record stamp : Type := Stamp { timestamp : string; default_correlation : string }.
Definition factory (s : stamp) (c : class) (kwargs : dict pyval) : outcome pyval :=
  let correlation := default (VJson (JStr (default_correlation s))) (dget "correlation_id" kwargs) in
  if dhas "timestamp" kwargs then Err TypeError
  else construct c (("timestamp", VJson (JStr (timestamp s))) :: ("correlation_id", correlation) ::
               filter (λ kv, kv.1 ≠ "correlation_id") kwargs).

(** [as_dict]: [asdict] goes into objects and dictionaries. *)
Fixpoint asdict (v : pyval) : pyval :=
  match v with
  | VObj _ d | VDict d => VDict (List.map (λ kv, (kv.1, asdict kv.2)) d)
  | v => v
  end.

(** ** The encoding of the library *)

(** The bytes of a string as numbers, and back. *)
Definition byte_list (s : string) : list json :=
  (λ c, JInt (Z.of_nat (nat_of_ascii c))) <$> list_ascii_of_string s.

Definition plain (t : ftype) : bool :=
  match t with TStr | TInt | TBool | TDict => true | _ => false end.

(** A field of an object that is read: its value, or else its default. *)
Definition read_field (decode : ftype → json → outcome pyval) (d : dict json) (f : field) :
    outcome (list (string * pyval)) :=
  match dget (f_name f) d with
  | Some JNull => Ok [(f_name f, VJson JNull)]
  | Some j => let? v := decode (f_type f) j in Ok [(f_name f, v)]
  | None => match f_default f with
            | Some _ => Ok []
            | None => Err (KeyError (f_name f))
            end
  end.

(** [dataclasses_json], as it is documented: objects and dictionaries are JSON
    objects, byte strings arrays, members of enumerations their values.  Values of
    the plain types are read as they are, objects field by field, with the class of
    the annotation; fields that the class does not have are ignored. *)
Class DataclassesJson : Type := {
  encode : pyval → json;
  decode : ftype → json → outcome pyval;
  encode_json j : encode (VJson j) = j;
  encode_bytes s : encode (VBytes s) = JArr (byte_list s);
  encode_enum v : encode (VEnum v) = JStr v;
  encode_dict d : encode (VDict d) = JObj (List.map (λ kv, (kv.1, encode kv.2)) d);
  encode_obj c d : encode (VObj c d) = JObj (List.map (λ kv, (kv.1, encode kv.2)) d);
  decode_plain t j : plain t = true → decode t j = Ok (VJson j);
  decode_bytes s : decode TBytes (JArr (byte_list s)) = Ok (VBytes s);
  decode_enum values v : v ∈ values → decode (TEnum values) (JStr v) = Ok (VEnum v);
  decode_optional t j : j ≠ JNull → decode (TOptional t) j = decode t j;
  decode_class c d :
    decode (TClass c) (JObj d) =
      let? kwargs := mapO (read_field decode d) (init_fields c) in construct c (concat kwargs) }.

Context {lib : DataclassesJson}.

(** [to_binary], [from_binary] and the [from_dict] of the library, which takes the
    place of the one of [BaseMessage]; a dictionary from a message is JSON. *)
Definition to_binary (v : pyval) : string := json_dumps (encode v).
Definition from_binary (c : class) (s : string) : outcome pyval :=
  let? text := decode_utf8 s in let? j := json_loads text in decode (TClass c) j.
Definition from_dict (c : class) (j : json) : outcome pyval := decode (TClass c) j.

(** ** The records of this library as objects *)
Definition str_dict (d : dict string) : json := JObj (List.map (λ kv, (kv.1, JStr kv.2)) d).

Definition context_obj (x : EventContext) : pyval :=
  VObj EventContextC [("raw_event_payload", VBytes (raw_event_payload x));
                      ("headers", VJson (str_dict (headers x))); ("message", VJson (message x))].
Definition common_fields (url project slug organization source : json) (x : EventContext) :
    list (string * pyval) :=
  [("clone_url", VJson url); ("repo_project", VJson project); ("repo_slug", VJson slug);
   ("organization", VJson organization); ("source_branch", VJson source);
   ("event_context", context_obj x)].
Definition push_obj (d : PushDetails) : pyval :=
  VObj PushDetailsC
    (common_fields (pd_clone_url d) (pd_repo_project d) (pd_repo_slug d) (pd_organization d)
       (pd_source_branch d) (pd_event_context d) ++ [("commit_hash", VJson (pd_commit_hash d))]).
Definition pr_obj (d : PRDetails) : pyval :=
  VObj PRDetailsC
    (common_fields (prd_clone_url d) (prd_repo_project d) (prd_repo_slug d) (prd_organization d)
       (prd_source_branch d) (prd_event_context d) ++
     [("pr_id", VJson (prd_pr_id d)); ("target_branch", VJson (prd_target_branch d));
      ("target_hash", VJson (prd_target_hash d)); ("source_hash", VJson (prd_source_hash d))]).
Definition delegated_details_obj (d : DelegatedScanDetails) : pyval :=
  VObj DelegatedScanDetailsC
    [("clone_url", VJson (df_clone_url d)); ("commit_hash", VJson (df_commit_hash d));
     ("scan_branch", VJson (df_scan_branch d)); ("scan_tags", VJson (JObj (df_scan_tags d)));
     ("file_filters", VJson (df_file_filters d)); ("project_id", VJson (df_project_id d));
     ("pickled_scm_service", VBytes (df_pickled_scm_service d));
     ("pickled_cxone_service", VBytes (df_pickled_cxone_service d));
     ("event_context", context_obj (df_event_context d));
     ("orchestrator", VJson (JStr (df_orchestrator d)));
     ("cxoneflow_version", VJson (JStr version))].

(** [**(details.as_dict())], which is the [workflow_details] of a message. *)
Definition details_dict (w : workflow_details) : pyval :=
  match w with
  | push_details d => asdict (push_obj d)
  | pr_details d => asdict (pr_obj d)
  | no_details => VDict []
  end.

(** The keyword arguments of the factories, at the places that publish. *)
Definition scan_kwargs (m : ScanMessage) : dict pyval :=
  [("projectid", VJson (sm_projectid m)); ("scanid", VJson (sm_scanid m));
   ("moniker", VJson (JStr (sm_moniker m))); ("state", VEnum (str_state (sm_state m)));
   ("workflow", VEnum (str_workflow (sm_workflow m)));
   ("workflow_details", details_dict (sm_details m))].
Definition or_none {A} (f : A → pyval) (x : option A) : pyval :=
  match x with Some a => f a | None => VJson JNull end.
Definition delegated_kwargs (moniker : string) (state : ScanStates) (workflow : ScanWorkflow)
    (d : DelegatedScanDetails) (signature : string) : dict pyval :=
  [("moniker", VJson (JStr moniker)); ("state", VEnum (str_state state));
   ("workflow", VEnum (str_workflow workflow)); ("details", delegated_details_obj d);
   ("details_signature", VBytes signature)].
Definition body_class (b : out_body) : class :=
  match b with
  | scan_body (ScanAwaitMessage _ _) => ScanAwaitMessageC
  | scan_body (ScanFeedbackMessage _ _ _) => ScanFeedbackMessageC
  | scan_body (ScanAnnotationMessage _ _) => ScanAnnotationMessageC
  | scan_body (PreScanAnnotationMessage _ _ _ _ _) => PreScanAnnotationMessageC
  | delegated_body _ => DelegatedScanMessageC
  | result_body _ => DelegatedScanResultMessageC
  end.
Definition body_kwargs (b : out_body) : dict pyval :=
  match b with
  | scan_body (ScanAwaitMessage m drop_by) =>
      scan_kwargs m ++ [("drop_by", VJson (JStr drop_by))]
  | scan_body (ScanFeedbackMessage m is_error error_msg) =>
      scan_kwargs m ++ [("is_error", VJson (JBool is_error));
                        ("error_msg", or_none (λ s, VJson (JStr s)) error_msg)]
  | scan_body (ScanAnnotationMessage m annotation) =>
      scan_kwargs m ++ [("annotation", VJson (JStr annotation))]
  | scan_body (PreScanAnnotationMessage moniker state workflow details annotation) =>
      [("moniker", VJson (JStr moniker)); ("annotation", VJson (JStr annotation));
       ("state", VEnum (str_state state)); ("workflow", VEnum (str_workflow workflow));
       ("workflow_details", details_dict details)]
  | delegated_body m =>
      delegated_kwargs (ds_moniker m) (ds_state m) (ds_workflow m) (ds_details m) (ds_signature m)
        ++ [("capture_logs", VJson (JBool (ds_capture_logs m)))]
  | result_body m =>
      delegated_kwargs (dr_moniker m) (dr_state m) (dr_workflow m) (dr_details m) (dr_signature m)
        ++ [("resolver_exit_code", or_none (λ n, VJson (JInt n)) (dr_exit_code m));
            ("scan_id", or_none VJson (dr_scan_id m)); ("logs", or_none VBytes (dr_logs m))]
  end.

(** The bytes that are published for a message. *)
Definition body_binary (s : stamp) (b : out_body) : outcome string :=
  let? v := factory s (body_class b) (body_kwargs b) in Ok (to_binary v).

(** ** What a reader sees of an object *)
Definition getattr (n : string) (v : pyval) : outcome pyval :=
  match v with VObj _ d => of_option AttributeError (dget n d) | _ => Err AttributeError end.
Definition json_attr (n : string) (v : pyval) : outcome json :=
  let? x := getattr n v in match x with VJson j => Ok j | _ => Err TypeError end.
Definition str_attr (n : string) (v : pyval) : outcome string :=
  let? j := json_attr n v in as_str j.
Definition bytes_attr (n : string) (v : pyval) : outcome string :=
  let? x := getattr n v in match x with VBytes s => Ok s | _ => Err TypeError end.
(** The member of an enumeration with a value. *)
Definition member {A} (members : list (string * A)) (value : string) : outcome A :=
  of_option ValueError (dget value members).
Definition enum_attr {A} (members : list (string * A)) (n : string) (v : pyval) : outcome A :=
  let? x := getattr n v in
  match x with VEnum s => member members s | _ => Err TypeError end.
Definition states : list (string * ScanStates) :=
  (λ s, (str_state s, s)) <$> [AWAIT; FEEDBACK; ANNOTATE; EXECUTE; DONE; FAILURE; PRESCAN].
Definition workflows : list (string * ScanWorkflow) := (λ w, (str_workflow w, w)) <$> [PR; PUSH].

Definition view_context (v : pyval) : outcome EventContext :=
  let? raw := bytes_attr "raw_event_payload" v in
  let? h := json_attr "headers" v in
  let? h := as_obj h in
  let? h := mapO (λ kv, let? s := as_str kv.2 in Ok (kv.1, s)) h in
  let? m := json_attr "message" v in Ok (MkEventContext raw h m).
Definition context_attr (v : pyval) : outcome EventContext :=
  let? x := getattr "event_context" v in view_context x.
Definition view_push (v : pyval) : outcome PushDetails :=
  let? url := json_attr "clone_url" v in let? p := json_attr "repo_project" v in
  let? slug := json_attr "repo_slug" v in let? org := json_attr "organization" v in
  let? src := json_attr "source_branch" v in let? x := context_attr v in
  let? h := json_attr "commit_hash" v in Ok (MkPushDetails url p slug org src x h).
Definition view_pr (v : pyval) : outcome PRDetails :=
  let? url := json_attr "clone_url" v in let? p := json_attr "repo_project" v in
  let? slug := json_attr "repo_slug" v in let? org := json_attr "organization" v in
  let? x := context_attr v in let? id := json_attr "pr_id" v in
  let? src := json_attr "source_branch" v in let? tgt := json_attr "target_branch" v in
  let? sh := json_attr "source_hash" v in let? th := json_attr "target_hash" v in
  Ok (MkPRDetails url p slug org x id src tgt sh th).
Definition view_delegated_details (v : pyval) : outcome DelegatedScanDetails :=
  let? url := json_attr "clone_url" v in let? h := json_attr "commit_hash" v in
  let? b := json_attr "scan_branch" v in let? tags := json_attr "scan_tags" v in
  let? tags := as_obj tags in let? f := json_attr "file_filters" v in
  let? p := json_attr "project_id" v in let? scm := bytes_attr "pickled_scm_service" v in
  let? cx := bytes_attr "pickled_cxone_service" v in let? x := context_attr v in
  let? o := str_attr "orchestrator" v in
  Ok (MkDelegatedScanDetails url h b tags f p scm cx x o).

(** The handlers read [workflow_details] with the class of their workflow. *)
Definition view_workflow_details (j : json) : outcome workflow_details :=
  let? d := as_obj j in
  match d with
  | [] => Ok no_details
  | _ => if dhas "pr_id" d
         then let? v := from_dict PRDetailsC j in let? x := view_pr v in Ok (pr_details x)
         else let? v := from_dict PushDetailsC j in let? x := view_push v in Ok (push_details x)
  end.
Definition view_scan_message (v : pyval) : outcome ScanMessage :=
  let? m := str_attr "moniker" v in let? s := enum_attr states "state" v in
  let? w := enum_attr workflows "workflow" v in let? d := json_attr "workflow_details" v in
  let? d := view_workflow_details d in let? i := json_attr "scanid" v in
  let? p := json_attr "projectid" v in Ok (MkScanMessage m s w d i p).
Definition view_optional {A} (f : pyval → outcome A) (n : string) (v : pyval) : outcome (option A) :=
  let? x := getattr n v in
  match x with VJson JNull => Ok None | x => let? a := f x in Ok (Some a) end.
Definition of_json (v : pyval) : outcome json := match v with VJson j => Ok j | _ => Err TypeError end.
Definition of_bytes (v : pyval) : outcome string := match v with VBytes s => Ok s | _ => Err TypeError end.

Definition view_body (v : pyval) : outcome out_body :=
  match v with
  | VObj ScanAwaitMessageC _ =>
      let? m := view_scan_message v in let? d := str_attr "drop_by" v in
      Ok (scan_body (ScanAwaitMessage m d))
  | VObj ScanFeedbackMessageC _ =>
      let? m := view_scan_message v in let? e := json_attr "is_error" v in
      let? msg := view_optional (λ v, let? j := of_json v in as_str j) "error_msg" v in
      match e with
      | JBool b => Ok (scan_body (ScanFeedbackMessage m b msg))
      | _ => Err TypeError
      end
  | VObj ScanAnnotationMessageC _ =>
      let? m := view_scan_message v in let? a := str_attr "annotation" v in
      Ok (scan_body (ScanAnnotationMessage m a))
  | VObj PreScanAnnotationMessageC _ =>
      let? m := str_attr "moniker" v in let? s := enum_attr states "state" v in
      let? w := enum_attr workflows "workflow" v in let? d := json_attr "workflow_details" v in
      let? d := view_workflow_details d in let? a := str_attr "annotation" v in
      Ok (scan_body (PreScanAnnotationMessage m s w d a))
  | VObj DelegatedScanMessageC _ =>
      let? m := str_attr "moniker" v in let? s := enum_attr states "state" v in
      let? w := enum_attr workflows "workflow" v in let? d := getattr "details" v in
      let? d := view_delegated_details d in let? g := bytes_attr "details_signature" v in
      let? c := json_attr "capture_logs" v in
      match c with
      | JBool b => Ok (delegated_body (MkDelegatedScanMessage m s w d g b))
      | _ => Err TypeError
      end
  | VObj DelegatedScanResultMessageC _ =>
      let? m := str_attr "moniker" v in let? s := enum_attr states "state" v in
      let? w := enum_attr workflows "workflow" v in let? d := getattr "details" v in
      let? d := view_delegated_details d in let? g := bytes_attr "details_signature" v in
      let? e := view_optional (λ v, let? j := of_json v in
        match j with JInt n => Ok n | _ => Err TypeError end) "resolver_exit_code" v in
      let? i := view_optional of_json "scan_id" v in let? l := view_optional of_bytes "logs" v in
      Ok (result_body (MkDelegatedScanResultMessage m s w d g e i l))
  | _ => Err TypeError
  end.
Definition read_body (c : class) (s : string) : outcome out_body :=
  let? v := from_binary c s in view_body v.

(** ** Reading back

    [reads t v v']: a field of type [t] that was written with the value [v] is read
    as [v'].  They differ for a dictionary only, which is read as JSON. *)
Definition reads (t : ftype) (v v' : pyval) : Prop :=
  match encode v with JNull => Ok (VJson JNull) | j => decode t j end = Ok v'.

Inductive reads_all : list field → list (string * pyval) → list (string * pyval) → Prop :=
| reads_nil : reads_all [] [] []
| reads_cons f fs v v' d d' :
    reads (f_type f) v v' → reads_all fs d d' →
    reads_all (f :: fs) ((f_name f, v) :: d) ((f_name f, v') :: d').

Lemma reads_plain t v j : plain t = true → encode v = j → reads t v (VJson j).
Proof.
  intros Ht <-. unfold reads. destruct (encode v) eqn:E; rewrite <- ?E; [by rewrite E|..];
    by rewrite decode_plain.
Qed.
Lemma reads_json t j : plain t = true → reads t (VJson j) (VJson j).
Proof. intros Ht. apply reads_plain; [done|apply encode_json]. Qed.
Lemma reads_bytes s : reads TBytes (VBytes s) (VBytes s).
Proof. unfold reads. rewrite encode_bytes. apply decode_bytes. Qed.
Lemma reads_enum values v : v ∈ values → reads (TEnum values) (VEnum v) (VEnum v).
Proof. unfold reads. rewrite encode_enum. apply decode_enum. Qed.
Lemma reads_none t : reads (TOptional t) (VJson JNull) (VJson JNull).
Proof. unfold reads. by rewrite encode_json. Qed.
Lemma reads_optional t v v' : encode v ≠ JNull → reads t v v' → reads (TOptional t) v v'.
Proof. unfold reads. intros Hn. destruct (encode v) eqn:E; [done|..]; by rewrite decode_optional. Qed.

Lemma dget_map {A B} (f : A → B) k (d : list (string * A)) :
  dget k (List.map (λ kv, (kv.1, f kv.2)) d) = f <$> dget k d.
Proof. induction d as [|[k' v] d IH]; simpl; [done|]. by destruct (String.eqb k k'). Qed.

Lemma reads_all_names fs d d' : reads_all fs d d' →
  dkeys d = List.map f_name fs ∧ dkeys d' = List.map f_name fs.
Proof. induction 1 as [|f fs v v' d d' _ _ [IH1 IH2]]; [done|]. rewrite !dkeys_cons. by rewrite IH1, IH2. Qed.

Lemma dget_app_l {A} k (d e : list (string * A)) :
  k ∈ dkeys d → dget k (d ++ e) = dget k d.
Proof.
  induction d as [|[k' v] d IH]; [by intros ?%elem_of_nil|]. rewrite dkeys_cons. simpl.
  destruct (String.eqb_spec k k') as [->|Hne]; [done|].
  intros [?|?]%elem_of_cons; [done|]. by apply IH.
Qed.

(** The fields of an object, whatever else the text has. *)
Lemma read_fields fs d d' e :
  reads_all fs d d' → NoDup (dkeys d) →
  mapO (read_field decode (List.map (λ kv, (kv.1, encode kv.2)) (d ++ e))) fs =
    Ok (List.map (λ kv, [kv]) d').
Proof.
  intros H Hnd.
  assert (Hget : ∀ k v, dget k d = Some v →
    dget k (List.map (λ kv, (kv.1, encode kv.2)) (d ++ e)) = Some (encode v)).
  { intros k v Hv. rewrite dget_map, dget_app_l; [by rewrite Hv|].
    apply dhas_spec. unfold dhas. by rewrite Hv. }
  revert Hget. generalize (List.map (λ kv, (kv.1, encode kv.2)) (d ++ e)) as text.
  intros text. revert Hnd. induction H as [|f fs v v' d d' Hr _ IH]; [done|].
  rewrite dkeys_cons, NoDup_cons. intros [Hf Hnd] Hget. simpl. unfold read_field at 1.
  rewrite (Hget (f_name f) v) by (simpl; by rewrite String.eqb_refl).
  assert (Hv : match encode v with
    | JNull => Ok [(f_name f, VJson JNull)]
    | j => let? x := decode (f_type f) j in Ok [(f_name f, x)]
    end = Ok [(f_name f, v')]).
  { unfold reads in Hr. destruct (encode v); [by injection Hr as <-|..]; by rewrite Hr. }
  destruct (encode v); try rewrite Hv; simpl; try (injection Hv as <-); simpl;
    (rewrite IH; [done..|]); intros k x Hx; apply Hget; simpl;
    (destruct (String.eqb_spec k (f_name f)) as [->|]; [|done]);
    destruct Hf; apply dhas_spec; unfold dhas; by rewrite Hx.
Qed.

Lemma arguments_all full fs d :
  dkeys d = List.map f_name fs → NoDup (dkeys d) →
  (∀ k v, dget k d = Some v → dget k full = Some v) → mapO (argument full) fs = Ok d.
Proof.
  revert fs. induction d as [|[k v] d IH]; intros [|f fs] Hk Hnd Hget; try done.
  rewrite dkeys_cons in *. injection Hk as -> Hk. apply NoDup_cons in Hnd as [Hf Hnd].
  simpl. unfold argument at 1.
  rewrite (Hget (f_name f) v) by (simpl; by rewrite String.eqb_refl). simpl.
  rewrite (IH fs Hk Hnd); [done|]. intros k x Hx. apply Hget. simpl.
  destruct (String.eqb_spec k (f_name f)) as [->|]; [|done].
  destruct Hf. apply dhas_spec. unfold dhas. by rewrite Hx.
Qed.
Lemma construct_fields c d :
  dkeys d = List.map f_name (init_fields c) → NoDup (dkeys d) → construct c d = post_init c d.
Proof.
  intros Hk Hnd. unfold construct.
  assert (forallb (λ k, bool_decide (k ∈ List.map f_name (init_fields c))) (dkeys d) = true) as ->.
  { apply forallb_forall. intros k Hin%list_elem_of_In. rewrite <- Hk. by apply bool_decide_eq_true. }
  by rewrite (arguments_all d _ d Hk Hnd).
Qed.

Lemma concat_singletons {A} (l : list A) : concat (List.map (λ x, [x]) l) = l.
Proof. induction l as [|x l IH]; simpl; [done|]. by rewrite IH. Qed.

(** An object is read from the text of its fields. *)
Lemma decode_obj c d d' e v :
  reads_all (init_fields c) d d' → NoDup (List.map f_name (init_fields c)) →
  post_init c d' = Ok v →
  decode (TClass c) (encode (VObj c (d ++ e))) = Ok v.
Proof.
  intros H Hnd Hv. destruct (reads_all_names _ _ _ H) as [Hd Hd'].
  rewrite encode_obj, decode_class. rewrite (read_fields _ _ _ _ H) by (by rewrite Hd). simpl.
  rewrite concat_singletons, construct_fields; [done|done|by rewrite Hd'].
Qed.
Lemma init_names c : NoDup (List.map f_name (init_fields c)).
Proof. apply (bool_decide_unpack _). destruct c; vm_compute; exact I. Qed.

(** ** What a message must be to be written *)

(** A context of an event: its payload was parsed. *)
Record context_wf (x : EventContext) : Prop := ContextWf {
  xw_message : is_ok (json_loads (raw_event_payload x)) = true;
  xw_json : json_wf (message x);
  xw_headers : NoDup (dkeys (headers x)) }.

Lemma reads_context x : is_ok (json_loads (raw_event_payload x)) = true →
  reads (TClass EventContextC) (context_obj x) (context_obj (reread json_loads x)).
Proof.
  intros Hok. unfold reads.
  assert (H : decode (TClass EventContextC) (encode (context_obj x)) =
              Ok (context_obj (reread json_loads x))).
  { unfold reread. destruct (json_loads (raw_event_payload x)) as [j|] eqn:Hm; [|done]. apply (decode_obj EventContextC
      [("raw_event_payload", VBytes (raw_event_payload x)); ("headers", VJson (str_dict (headers x)))]
      [("raw_event_payload", VBytes (raw_event_payload x)); ("headers", VJson (str_dict (headers x)))]
      [("message", VJson (message x))]); [|apply init_names|simpl; by rewrite Hm].
    apply (reads_cons (required "raw_event_payload" TBytes)); [apply reads_bytes|].
    apply (reads_cons (optional "headers" TDict (VJson (JObj [])))); [by apply reads_json|].
    constructor. }
  unfold context_obj in *. rewrite encode_obj in *. exact H.
Qed.

(** The fields of a concrete class, one by one. *)
Ltac read_all :=
  repeat first
    [ apply reads_nil
    | eapply (reads_cons (Field _ _ _ _));
      [first [by apply reads_json|apply reads_bytes|by apply reads_context|idtac]|] ].

Lemma reads_delegated_details d : is_ok (json_loads (raw_event_payload (df_event_context d))) = true →
  reads (TClass DelegatedScanDetailsC) (delegated_details_obj d)
    (delegated_details_obj (reread_delegated json_loads d)).
Proof.
  intros Hm. unfold reads.
  assert (H : decode (TClass DelegatedScanDetailsC) (encode (delegated_details_obj d)) =
              Ok (delegated_details_obj (reread_delegated json_loads d))).
  { unfold delegated_details_obj. rewrite <- (app_nil_r [_; _; _; _; _; _; _; _; _; _; _]) at 1.
    eapply decode_obj; [|apply init_names|reflexivity].
    change (init_fields DelegatedScanDetailsC) with (DelegatedScanDetails_fields version).
    read_all. }
  unfold delegated_details_obj in *. rewrite encode_obj in *. exact H.
Qed.

(** *** [workflow_details]: a dictionary, and its class again *)
Lemma encode_context_dict x : encode (asdict (context_obj x)) = encode (context_obj x).
Proof. unfold context_obj. simpl. by rewrite encode_dict, encode_obj. Qed.

Lemma encode_push_dict d : encode (asdict (push_obj d)) = encode (push_obj d).
Proof.
  unfold push_obj, common_fields. cbn [asdict app List.map fst snd].
  rewrite encode_dict, encode_obj. cbn [List.map fst snd]. by rewrite encode_context_dict.
Qed.
Lemma encode_pr_dict d : encode (asdict (pr_obj d)) = encode (pr_obj d).
Proof.
  unfold pr_obj, common_fields. cbn [asdict app List.map fst snd].
  rewrite encode_dict, encode_obj. cbn [List.map fst snd]. by rewrite encode_context_dict.
Qed.

Lemma push_from_dict d :
  is_ok (json_loads (raw_event_payload (pd_event_context d))) = true →
  from_dict PushDetailsC (encode (push_obj d)) = Ok (push_obj (reread_push json_loads d)).
Proof.
  intros Hm. unfold from_dict, push_obj. rewrite <- (app_nil_r (_ ++ _)) at 1.
  eapply decode_obj; [|apply init_names|reflexivity].
  change (init_fields PushDetailsC) with (CommonDetails_fields ++ PushDetails_fields). read_all.
Qed.
Lemma pr_from_dict d :
  is_ok (json_loads (raw_event_payload (prd_event_context d))) = true →
  from_dict PRDetailsC (encode (pr_obj d)) = Ok (pr_obj (reread_pr json_loads d)).
Proof.
  intros Hm. unfold from_dict, pr_obj. rewrite <- (app_nil_r (_ ++ _)) at 1.
  eapply decode_obj; [|apply init_names|reflexivity].
  change (init_fields PRDetailsC) with
    (CommonDetails_fields ++ [required "pr_id" TStr; required "target_branch" TStr;
                              required "target_hash" TStr; required "source_hash" TStr]).
  read_all.
Qed.

(** *** The views *)
Lemma view_context_obj x : view_context (context_obj x) = Ok x.
Proof.
  unfold view_context. simpl.
  assert (H : mapO (λ kv : string * json, let? s := as_str kv.2 in Ok (kv.1, s))
    (List.map (λ kv, (kv.1, JStr kv.2)) (headers x)) = Ok (headers x)).
  { induction (headers x) as [|[k v] d IH]; simpl; [done|]. by rewrite IH. }
  rewrite H. by destruct x.
Qed.
Lemma view_push_obj d : view_push (push_obj d) = Ok d.
Proof. unfold view_push, context_attr. simpl. rewrite view_context_obj. by destruct d. Qed.
Lemma view_pr_obj d : view_pr (pr_obj d) = Ok d.
Proof. unfold view_pr, context_attr. simpl. rewrite view_context_obj. by destruct d. Qed.
Lemma view_delegated_details_obj d : view_delegated_details (delegated_details_obj d) = Ok d.
Proof. unfold view_delegated_details, context_attr. simpl. rewrite view_context_obj. by destruct d. Qed.

(** The context that a message carries. *)
Definition details_context (w : workflow_details) : option EventContext :=
  match w with
  | push_details d => Some (pd_event_context d)
  | pr_details d => Some (prd_event_context d)
  | no_details => None
  end.

Lemma view_details_obj c d j w :
  encode (VObj c d) = j → d ≠ [] →
  (if dhas "pr_id" d then let? v := from_dict PRDetailsC j in let? x := view_pr v in Ok (pr_details x)
   else let? v := from_dict PushDetailsC j in let? x := view_push v in Ok (push_details x)) = Ok w →
  view_workflow_details j = Ok w.
Proof.
  intros <- Hd H. unfold view_workflow_details. revert H. rewrite encode_obj. intros H.
  assert (Hhas : dhas "pr_id" (List.map (λ kv, (kv.1, encode kv.2)) d) = dhas "pr_id" d)
    by (unfold dhas; rewrite dget_map; by destruct (dget "pr_id" d)).
  cbn [as_obj bindO]. rewrite Hhas. by destruct d.
Qed.

Lemma view_details_dict w :
  (∀ x, details_context w = Some x → is_ok (json_loads (raw_event_payload x)) = true) →
  view_workflow_details (encode (details_dict w)) = Ok (reread_details json_loads w).
Proof.
  intros Hx. destruct w as [d|d|]; cbn [details_context details_dict] in *.
  - rewrite encode_push_dict. eapply view_details_obj; [reflexivity|done|].
    change (dhas "pr_id" _) with false. cbv iota.
    rewrite (push_from_dict d) by by apply Hx. simpl. by rewrite view_push_obj.
  - rewrite encode_pr_dict. eapply view_details_obj; [reflexivity|done|].
    change (dhas "pr_id" _) with true. cbv iota.
    rewrite (pr_from_dict d) by by apply Hx. simpl. by rewrite view_pr_obj.
  - by rewrite encode_dict.
Qed.

(** *** Well-formed messages: each dictionary in them has its keys once *)
Definition details_wf (w : workflow_details) : Prop :=
  match w with
  | push_details d =>
      Forall json_wf [pd_clone_url d; pd_repo_project d; pd_repo_slug d; pd_organization d;
                      pd_source_branch d; pd_commit_hash d] ∧ context_wf (pd_event_context d)
  | pr_details d =>
      Forall json_wf [prd_clone_url d; prd_repo_project d; prd_repo_slug d; prd_organization d;
                      prd_source_branch d; prd_pr_id d; prd_target_branch d; prd_target_hash d;
                      prd_source_hash d] ∧ context_wf (prd_event_context d)
  | no_details => True
  end.
Definition delegated_wf (d : DelegatedScanDetails) : Prop :=
  Forall json_wf [df_clone_url d; df_commit_hash d; df_scan_branch d; JObj (df_scan_tags d);
                  df_file_filters d; df_project_id d] ∧ context_wf (df_event_context d).
Definition scan_wf (m : ScanMessage) : Prop :=
  Forall json_wf [sm_scanid m; sm_projectid m] ∧ details_wf (sm_details m).
Definition body_wf (b : out_body) : Prop :=
  match b with
  | scan_body (ScanAwaitMessage m _ | ScanFeedbackMessage m _ _ | ScanAnnotationMessage m _) => scan_wf m
  | scan_body (PreScanAnnotationMessage _ _ _ d _) => details_wf d
  | delegated_body m => delegated_wf (ds_details m)
  | result_body m => delegated_wf (dr_details m) ∧ dr_scan_id m ≠ Some JNull ∧
                     json_wf (default JNull (dr_scan_id m))
  end.

Lemma wf_obj c d :
  NoDup (dkeys d) → Forall (λ kv, json_wf (encode kv.2)) d → json_wf (encode (VObj c d)).
Proof.
  intros Hnd Hd. rewrite encode_obj. split.
  - unfold dkeys. rewrite <- list_fmap_compose. exact Hnd.
  - apply (fold_and_Forall (λ kv, json_wf kv.2)), Forall_map. exact Hd.
Qed.
Lemma wf_leaf j : json_wf j → json_wf (encode (VJson j)).
Proof. by rewrite encode_json. Qed.
Lemma wf_bytes s : json_wf (encode (VBytes s)).
Proof.
  rewrite encode_bytes. simpl. apply fold_and_Forall. unfold byte_list.
  apply Forall_fmap, Forall_true. done.
Qed.
Lemma wf_enum v : json_wf (encode (VEnum v)).
Proof. by rewrite encode_enum. Qed.
Lemma wf_context x : context_wf x → json_wf (encode (context_obj x)).
Proof.
  intros [_ Hj Hh]. apply wf_obj; [apply (bool_decide_unpack _); exact I|].
  repeat constructor; simpl; [apply wf_bytes| |by apply wf_leaf].
  apply wf_leaf. split.
  - unfold dkeys. rewrite <- list_fmap_compose. exact Hh.
  - apply (fold_and_Forall (λ kv, json_wf kv.2)), Forall_map, Forall_true. done.
Qed.

(** Each field of a concrete object. *)
Ltac all_wf :=
  apply wf_obj; [apply (bool_decide_unpack _); vm_compute; exact I|];
  repeat match goal with
  | H : Forall _ (_ :: _) |- _ => apply Forall_cons in H as [? H]
  end;
  repeat constructor; cbn [snd];
  first [apply wf_bytes|apply wf_enum|by apply wf_context|by apply wf_leaf|idtac].

Lemma wf_details w : details_wf w → json_wf (encode (details_dict w)).
Proof.
  destruct w as [d|d|]; cbn [details_wf details_dict].
  - intros [Hj Hx]. rewrite encode_push_dict. unfold push_obj. all_wf.
  - intros [Hj Hx]. rewrite encode_pr_dict. unfold pr_obj. all_wf.
  - intros _. rewrite encode_dict. split; [constructor|done].
Qed.
Lemma wf_delegated d : delegated_wf d → json_wf (encode (delegated_details_obj d)).
Proof. intros [Hj Hx]. unfold delegated_details_obj. all_wf. Qed.

Lemma details_wf_loads w x :
  details_wf w → details_context w = Some x → is_ok (json_loads (raw_event_payload x)) = true.
Proof. destruct w as [d|d|]; [intros [_ []] [= <-]..|]; done. Qed.

(** ** Theorems

    [json.loads] reads what [json.dumps] writes. *)
Context (json_loads_dumps : ∀ j, json_wf j → json_loads (json_dumps j) = Ok j).

Lemma from_to_binary c v v' :
  json_wf (encode v) → decode (TClass c) (encode v) = Ok v' → from_binary c (to_binary v) = Ok v'.
Proof.
  intros Hwf Hd. unfold from_binary, to_binary, decode_utf8.
  rewrite utf8_ascii by apply dumps_ascii. simpl. by rewrite json_loads_dumps.
Qed.

(** What is published is read, given how its factory and its reader treat it. *)
Lemma body_read s b b' d d' :
  factory s (body_class b) (body_kwargs b) = Ok (VObj (body_class b) d) →
  json_wf (encode (VObj (body_class b) d)) →
  reads_all (init_fields (body_class b)) d d' →
  post_init (body_class b) d' = Ok (VObj (body_class b) d') →
  view_body (VObj (body_class b) d') = Ok b' →
  ∃ bytes, body_binary s b = Ok bytes ∧ read_body (body_class b) bytes = Ok b'.
Proof.
  intros Hf Hwf Hr Hp Hv. unfold body_binary. rewrite Hf. simpl. eexists. split; [done|].
  unfold read_body. erewrite from_to_binary; [exact Hv|done|].
  rewrite <- (app_nil_r d). eapply decode_obj; [exact Hr|apply init_names|exact Hp].
Qed.

Lemma in_state_values st : str_state st ∈ state_values.
Proof. apply (bool_decide_unpack _). by destruct st. Qed.
Lemma in_workflow_values w : str_workflow w ∈ workflow_values.
Proof. apply (bool_decide_unpack _). by destruct w. Qed.
Lemma enum_state st : member states (str_state st) = Ok st.
Proof. by destruct st. Qed.
Lemma enum_workflow w : member workflows (str_workflow w) = Ok w.
Proof. by destruct w. Qed.

Lemma reads_or_none {A} t (f : A → pyval) x :
  (∀ a, x = Some a → encode (f a) ≠ JNull ∧ reads t (f a) (f a)) →
  reads (TOptional t) (or_none f x) (or_none f x).
Proof.
  intros H. destruct x as [a|]; simpl; [|apply reads_none].
  destruct (H a eq_refl). by apply reads_optional.
Qed.
Lemma reads_state st :
  reads (TEnum state_values) (VEnum (str_state st)) (VEnum (str_state st)).
Proof. apply reads_enum, in_state_values. Qed.
Lemma reads_workflow w :
  reads (TEnum workflow_values) (VEnum (str_workflow w)) (VEnum (str_workflow w)).
Proof. apply reads_enum, in_workflow_values. Qed.

Local Arguments member : simpl never.

Ltac read_body fs :=
  change (init_fields _) with fs; read_all;
  first [apply reads_state|apply reads_workflow|by apply reads_delegated_details
        |by apply reads_plain|idtac].
Ltac view_it :=
  unfold view_body, view_scan_message, enum_attr, bytes_attr, str_attr, json_attr, view_optional;
  simpl; rewrite enum_state, enum_workflow; simpl;
  rewrite ?view_details_dict, ?view_delegated_details_obj
    by (intros; by eapply details_wf_loads); simpl.

Definition scan_message_fields : list field :=
  StampedMessage_fields ++ ScanHeader_fields ++ ScanWorkflowHeader_fields ++ ScanMessage_fields.
Definition delegated_message_fields : list field :=
  StampedMessage_fields ++ ScanHeader_fields ++ DelegatedScanMessageBase_fields.

Lemma scan_body_roundtrip s m :
  body_wf (scan_body m) → ∃ bytes, body_binary s (scan_body m) = Ok bytes ∧
    read_body (body_class (scan_body m)) bytes = Ok (reread_body json_loads (scan_body m)).
Proof.
  destruct m as [m drop|m e msg|m a|mon st w d a]; intros Hwf.
  - destruct Hwf as [Hj Hd]. pose proof (wf_details _ Hd).
    eapply body_read; [reflexivity|all_wf; done| |reflexivity|].
    + read_body (scan_message_fields ++ ScanAwaitMessage_fields).
    + view_it. by destruct m.
  - destruct Hwf as [Hj Hd]. pose proof (wf_details _ Hd).
    eapply body_read; [reflexivity|all_wf; try done; destruct msg; by apply wf_leaf| |reflexivity|].
    + read_body (scan_message_fields ++ ScanFeedbackMessage_fields).
      * apply reads_optional; [by rewrite encode_json|by apply reads_json].
      * apply reads_or_none. intros x _. split; [by rewrite encode_json|by apply reads_json].
    + view_it. by destruct m, msg.
  - destruct Hwf as [Hj Hd]. pose proof (wf_details _ Hd).
    eapply body_read; [reflexivity|all_wf; done| |reflexivity|].
    + read_body (scan_message_fields ++ ScanAnnotationMessage_fields).
    + view_it. by destruct m.
  - cbn [body_wf] in Hwf. pose proof (wf_details _ Hwf).
    eapply body_read; [reflexivity|all_wf; done| |reflexivity|].
    + read_body (StampedMessage_fields ++ ScanHeader_fields ++ ScanWorkflowHeader_fields ++
                 PreScanAnnotationMessage_fields).
    + view_it. done.
Qed.

Lemma delegated_body_roundtrip s m :
  body_wf (delegated_body m) → ∃ bytes, body_binary s (delegated_body m) = Ok bytes ∧
    read_body DelegatedScanMessageC bytes = Ok (reread_body json_loads (delegated_body m)).
Proof.
  intros Hwf. cbn [body_wf] in Hwf. pose proof (wf_delegated _ Hwf).
  pose proof (xw_message _ (proj2 Hwf)) as Hx.
  eapply (body_read s (delegated_body m)); [reflexivity|all_wf; done| |reflexivity|].
  - read_body (delegated_message_fields ++ DelegatedScanMessage_fields).
  - view_it. by destruct m.
Qed.

Lemma result_body_roundtrip s m :
  body_wf (result_body m) → ∃ bytes, body_binary s (result_body m) = Ok bytes ∧
    read_body DelegatedScanResultMessageC bytes = Ok (reread_body json_loads (result_body m)).
Proof.
  intros (Hwf & Hnull & Hid). pose proof (wf_delegated _ Hwf).
  pose proof (xw_message _ (proj2 Hwf)) as Hx.
  eapply (body_read s (result_body m)); [reflexivity| | |reflexivity|].
  - all_wf; [done|..].
    + destruct (dr_exit_code m); by apply wf_leaf.
    + destruct (dr_scan_id m); by apply wf_leaf.
    + destruct (dr_logs m); [apply wf_bytes|by apply wf_leaf].
  - read_body (delegated_message_fields ++ DelegatedScanResultMessage_fields);
      apply reads_or_none; intros x Hopt; rewrite ?encode_json, ?encode_bytes.
    + split; [done|by apply reads_json].
    + split; [congruence|by apply reads_json].
    + split; [done|apply reads_bytes].
  - view_it. destruct m as [mon st w d g e i l]. simpl in *.
    destruct e, i as [[]|], l; simpl; done.
Qed.

(** C29: What is published for a message, of any of the six classes, is read as that
    message by its reader, whatever the clock and the correlation are: the factories
    give every class the fields it needs, the defaults and the order of declaration
    do no harm, [workflow_details] becomes again the details that it was made of, and
    the context of the event has the message of its payload, whatever was done to it
    before: a message whose contexts are as they were made is read unchanged
    ([reread_parsed]). *)
Theorem body_roundtrip s b :
  body_wf b → ∃ bytes, body_binary s b = Ok bytes ∧
    read_body (body_class b) bytes = Ok (reread_body json_loads b).
Proof.
  destruct b as [m|m|m].
  - apply scan_body_roundtrip.
  - apply delegated_body_roundtrip.
  - apply result_body_roundtrip.
Qed.

(** The bytes that are signed, and what the readers of delegated scans decode. *)
Definition details_binary (d : DelegatedScanDetails) : string := to_binary (delegated_details_obj d).
Definition delegated_from_binary (s : string) : outcome DelegatedScanMessage :=
  let? b := read_body DelegatedScanMessageC s in
  match b with delegated_body m => Ok m | _ => Err TypeError end.
Definition result_from_binary (s : string) : outcome DelegatedScanResultMessage :=
  let? b := read_body DelegatedScanResultMessageC s in
  match b with result_body m => Ok m | _ => Err TypeError end.

Lemma delegated_read s m :
  delegated_wf (ds_details m) → ∃ bytes m', body_binary s (delegated_body m) = Ok bytes ∧
    delegated_from_binary bytes = Ok m' ∧ delegated_body m' = reread_body json_loads (delegated_body m).
Proof.
  intros Hwf. destruct (delegated_body_roundtrip s m Hwf) as (bytes & Hb & Hr).
  eexists bytes, _. unfold delegated_from_binary. by rewrite Hr.
Qed.

Lemma result_read s m :
  body_wf (result_body m) → ∃ bytes m', body_binary s (result_body m) = Ok bytes ∧
    result_from_binary bytes = Ok m' ∧ result_body m' = reread_body json_loads (result_body m).
Proof.
  intros Hwf. destruct (result_body_roundtrip s m Hwf) as (bytes & Hb & Hr).
  eexists bytes, _. unfold result_from_binary. by rewrite Hr.
Qed.

(** The bytes that are signed tell what the message of the context was. *)
Lemma details_binary_message d d' :
  delegated_wf d → delegated_wf d' → details_binary d = details_binary d' →
  message (df_event_context d) = message (df_event_context d').
Proof.
  intros Hd%wf_delegated Hd'%wf_delegated H.
  assert (He : encode (delegated_details_obj d) = encode (delegated_details_obj d')).
  { apply json_loads_dumps in Hd, Hd'. unfold details_binary, to_binary in H. rewrite H in Hd. congruence. }
  unfold delegated_details_obj in He. rewrite !encode_obj in He. injection He as _ _ _ _ _ _ _ _ He _.
  unfold context_obj in He. rewrite !encode_obj in He. injection He as _ _ He. by rewrite !encode_json in He.
Qed.

(** A text without a field that the class needs is refused. *)
Lemma incomplete_refused c d f v :
  f ∈ init_fields c → f_default f = None → dget (f_name f) d = None →
  decode (TClass c) (JObj d) ≠ Ok v.
Proof.
  intros Hf Hd Hget. rewrite decode_class. intros (kw & H & _)%bindO_ok. revert kw H.
  induction (init_fields c) as [|g fs IH]; [by apply elem_of_nil in Hf|].
  apply elem_of_cons in Hf as [<-|Hf]; simpl.
  - unfold read_field. by rewrite Hget, Hd.
  - intros kw (x & _ & (xs & H & _)%bindO_ok)%bindO_ok. by apply (IH Hf xs).
Qed.
End wire.

(** ** Witness: the library as a function, for classes that nest four deep *)
Fixpoint demo_encode (v : pyval) : json :=
  match v with
  | VJson j => j
  | VBytes s => JArr (byte_list s)
  | VEnum v => JStr v
  | VDict d | VObj _ d => JObj (List.map (λ kv, (kv.1, demo_encode kv.2)) d)
  end.

Definition demo_byte (j : json) : outcome ascii :=
  match j with JInt n => Ok (ascii_of_nat (Z.to_nat n)) | _ => Err TypeError end.
Fixpoint demo_step (nested : class → json → outcome pyval) (t : ftype) (j : json) : outcome pyval :=
  match t with
  | TStr | TInt | TBool | TDict => Ok (VJson j)
  | TBytes => let? l := as_arr j in let? s := mapO demo_byte l in
              Ok (VBytes (string_of_list_ascii s))
  | TEnum values => let? s := as_str j in
                    if decide (s ∈ values) then Ok (VEnum s) else Err ValueError
  | TClass c => nested c j
  | TOptional t' => match j with JNull => Ok (VJson JNull) | _ => demo_step nested t' j end
  end.
Definition demo_class (deeper : ftype → json → outcome pyval) (c : class) (j : json) :
    outcome pyval :=
  let? d := as_obj j in
  let? kwargs := mapO (read_field deeper d) (init_fields "1.0" c) in
  construct "1.0" json_read c (concat kwargs).
Fixpoint demo_decode (depth : nat) : ftype → json → outcome pyval :=
  match depth with
  | O => demo_step (λ _ _, Err OutOfFuel)
  | S n => demo_step (demo_class (demo_decode n))
  end.

Lemma demo_bytes s : mapO demo_byte (byte_list s) = Ok (list_ascii_of_string s).
Proof.
  unfold byte_list. induction s as [|c s IH]; [done|]. simpl.
  rewrite Nat2Z.id, ascii_nat_embedding. unfold fmap in IH. by rewrite IH.
Qed.
Lemma demo_plain nested t j : plain t = true → demo_step nested t j = Ok (VJson j).
Proof. by destruct t. Qed.

(** How deep the objects in an object, and in a field, are. *)
Definition class_depth (c : class) : nat :=
  match c with
  | CommonDetailsC | PushDetailsC | PRDetailsC | DelegatedScanDetailsC => 1
  | DelegatedScanMessageBaseC | DelegatedScanMessageC | DelegatedScanResultMessageC => 2
  | _ => 0
  end.
Fixpoint type_depth (t : ftype) : nat :=
  match t with TClass c => S (class_depth c) | TOptional t => type_depth t | _ => 0 end.

Lemma fields_shallow c : Forall (λ f, type_depth (f_type f) ≤ class_depth c) (init_fields "1.0" c).
Proof. apply (bool_decide_unpack _). destruct c; vm_compute; exact I. Qed.

Lemma mapO_ext {A B} (f g : A → outcome B) l : Forall (λ x, f x = g x) l → mapO f l = mapO g l.
Proof. induction 1 as [|x l Hx _ IH]; simpl; [done|]. by rewrite Hx, IH. Qed.

Lemma read_field_ext (f g : ftype → json → outcome pyval) d x :
  (∀ j, f (f_type x) j = g (f_type x) j) → read_field f d x = read_field g d x.
Proof.
  intros H. unfold read_field. destruct (dget (f_name x) d) as [[]|]; [done|..|done]; by rewrite H.
Qed.

Lemma demo_levels n m t j :
  type_depth t ≤ n → type_depth t ≤ m → demo_decode n t j = demo_decode m t j.
Proof.
  revert m t j. induction n as [|n IH]; intros m t; induction t as [| | | | | |c|t IHt]; intros j Hn Hm;
    simpl in Hn, Hm; try lia; destruct m as [|m]; try lia; try done;
    try (cbn; destruct j; [done|by apply IHt..]).
  cbn [demo_decode demo_step]. unfold demo_class. destruct (as_obj j) as [d|]; [|done]. simpl.
  rewrite (mapO_ext (read_field (demo_decode n) d) (read_field (demo_decode m) d)); [done|].
  eapply Forall_impl; [apply fields_shallow|]. intros f Hf. simpl in Hf. apply read_field_ext.
  intros k. apply IH; lia.
Qed.

#[export] Instance demo_lib : DataclassesJson "1.0" json_read.
Proof.
  refine {| encode := demo_encode; decode := demo_decode 4 |}; try reflexivity.
  - intros t j. apply demo_plain.
  - intros s. simpl. rewrite demo_bytes. simpl. by rewrite string_of_list_ascii_of_string.
  - intros values v Hv. simpl. by rewrite decide_True.
  - intros t j Hj. by destruct j.
  - intros c d. cbn [demo_decode demo_step]. unfold demo_class. simpl.
    rewrite (mapO_ext (read_field (demo_decode 3) d) (read_field (demo_decode 4) d)); [done|].
    eapply Forall_impl; [apply fields_shallow|]. intros f Hf. simpl in Hf. apply read_field_ext.
    assert (class_depth c ≤ 2) by (destruct c; simpl; lia). intros k. apply demo_levels; lia.
Defined.

Definition demo_event_context : EventContext :=
  MkEventContext (json_dumps (JObj [("object_kind", JStr "push")]))
    [("X-Gitlab-Event", "Push Hook")] (JObj [("object_kind", JStr "push")]).
Definition demo_pr_body : out_body :=
  scan_body (ScanAnnotationMessage
    (MkScanMessage "svc" ANNOTATE PR
       (pr_details (MkPRDetails (JStr "https://host/a/b.git") (JStr "a") (JStr "b") (JStr "org")
          demo_event_context (JStr "7") (JStr "feature") (JStr "main") (JStr "c0ffee") (JStr "0")))
       (JStr "scan") (JStr "project")) "Scan started").

Lemma demo_context_wf : context_wf json_read demo_event_context.
Proof.
  split; [vm_compute; reflexivity| |].
  - split; [|done]. apply (bool_decide_unpack _). vm_compute. exact I.
  - apply (bool_decide_unpack _). vm_compute. exact I.
Qed.

Lemma body_roundtrip_witness :
  ∃ bytes, body_binary "1.0" json_read (Stamp "2026-01-01T00:00:00+00:00" "id") demo_pr_body = Ok bytes ∧
    read_body "1.0" json_read ScanAnnotationMessageC bytes = Ok demo_pr_body.
Proof.
  apply (body_roundtrip "1.0" json_read json_read_dumps (Stamp "2026-01-01T00:00:00+00:00" "id") demo_pr_body).
  split; [repeat constructor|]. split; [repeat constructor|apply demo_context_wf].
Defined.
