(* ===== verification/ScmConfig.v ===== *)
(** * SCM services from the configuration:
    [src/config/server/scmservice_factories.py] and the authorization and cloner
    factories of [src/config/server/__init__.py]. *)
From S2P Require Import Prelude PyStr PyJson Url Auth ApiSession Messaging Cloner Config.
Open Scope string_scope.
Open Scope nat_scope.
Open Scope list_scope.

(** ** [PasswordStrengthValidator] *)
Record password_policy : Type := PasswordPolicy {
  pw_length : nat; pw_uppercase : nat; pw_numbers : nat; pw_special : nat }.

Definition password_test (p : password_policy) (pw_value : string) : bool :=
  if String.length pw_value <? pw_length p then false
  else if count_in ascii_uppercase pw_value <? pw_uppercase p then false
  else if count_in digits pw_value <? pw_numbers p then false
  else if count_in punctuation pw_value <? pw_special p then false
  else true.

Definition shared_secret_policy : password_policy := PasswordPolicy 20 3 3 2.

(** ** Services *)
Inductive scm_class : Type :=
| GHServiceBasic | GHServiceChecks (check_name : json) | GHServiceCommitStatus (check_name : json)
| BBDCService
| BBCServiceBasic | BBCServiceChecks (check_name : json)
| GLService
| ADOEServiceBasic | ADOEServiceChecks (check_name check_genre : json).

Record session_settings : Type := SessionSettings {
  se_endpoint : string; se_auth : option auth_factory; se_timeout : json; se_retries : json;
  se_proxies : json; se_ssl_verify : bool }.

Record scm_service : Type := ScmService {
  scm_class_of : scm_class; scm_display_url : json; scm_moniker : json;
  scm_session : session_settings; scm_secret : string; scm_cloner : cloner }.

Section scm_config.
Context (secret_root : string).
Context (secret_file : string → option string).
Context (default_ssl_verify : json).
Context (b64encode : string → string).
Context (shlex_quote : string → string).

Notation secret_or_fail := (get_secret_or_fail secret_file).

(** ** [RepoConfigProps] *)
Record repo_props : Type := RepoProps {
  rp_cfg : json; rp_path : string; rp_con : json; rp_secret : string;
  rp_clone_auth : json; rp_clone_path : string }.

Definition repo_config_props (repo_config : json) (config_path : string) : outcome repo_props :=
  let con_path := config_path +:+ "/connection" in
  let? con := get_value_or_fail config_path "connection" repo_config in
  let? api_auth := get_value_or_fail con_path "api-auth" con in
  let? secret := secret_or_fail con_path "shared-secret" con in
  if negb (password_test shared_secret_policy secret)
  then Err (ConfigurationException (config_path
              +:+ "/connection/shared-secret fails some complexity requirements."))
  else
    let? clone_auth := get_value_or_default "clone-auth" con JNull in
    Ok (if not_none clone_auth
        then RepoProps repo_config config_path con secret clone_auth
               (config_path +:+ "/connection/clone-auth")
        else RepoProps repo_config config_path con secret api_auth
               (config_path +:+ "/connection/api-auth")).

Definition con_path (p : repo_props) : string := rp_path p +:+ "/connection".
Definition service_moniker (p : repo_props) : outcome json :=
  get_value_or_fail (rp_path p) "service-name" (rp_cfg p).
Definition api_base_url (p : repo_props) : outcome json :=
  get_value_or_fail (con_path p) "base-url" (rp_con p).
Definition api_url (p : repo_props) : outcome string :=
  let? base := api_base_url p in
  let? base := as_str base in
  let? suffix := get_value_or_default "api-url-suffix" (rp_con p) JNull in
  match suffix with
  | JNull => Ok (form_api_endpoint base None)
  | JStr s => Ok (form_api_endpoint base (Some s))
  | _ => Err TypeError
  end.
Definition display_url (p : repo_props) : outcome json :=
  let? base := api_base_url p in get_value_or_default "base-display-url" (rp_con p) base.
Definition ssl_verify (p : repo_props) : outcome bool :=
  let? v := get_value_or_default "ssl-verify" (rp_con p) default_ssl_verify in Ok (truthy v).
Definition ssl_no_verify_git (p : repo_props) : outcome bool :=
  let? verify := ssl_verify p in Ok (negb verify).
Definition timeout_seconds (p : repo_props) : outcome json :=
  get_value_or_default "timeout-seconds" (rp_con p) (JInt 60).
Definition retries (p : repo_props) : outcome json :=
  get_value_or_default "retries" (rp_con p) (JInt 3).
Definition proxies (p : repo_props) : outcome json :=
  get_value_or_default "proxies" (rp_con p) JNull.
Definition api_auth_config (p : repo_props) : outcome json :=
  get_value_or_fail (con_path p) "api-auth" (rp_con p).

(** ** Authorization: [__*_api_auth_factory] *)
Definition has_value (key : string) (d : dict json) : bool :=
  match dget key d with Some v => not_none v | None => false end.
Definition has_basic_auth (d : dict json) : bool := has_value "username" d && has_value "password" d.
Definition has_token_auth (d : dict json) : bool := has_value "token" d.
Definition has_ssh_auth (d : dict json) : bool := has_value "ssh" d.

Definition basic_secrets (path : string) (d : dict json) : outcome (string * string) :=
  let? u := secret_or_fail path "username" (JObj d) in
  let? p := secret_or_fail path "password" (JObj d) in Ok (u, p).

Definition ado_sp_secrets (path : string) (d : dict json) : outcome auth_factory :=
  let? t := secret_or_fail path "sp-tenant-id" (JObj d) in
  let? c := secret_or_fail path "sp-client-id" (JObj d) in
  let? s := secret_or_fail path "sp-client-secret" (JObj d) in
  Ok (ADOSPClientSecretAuthFactory (AdoSp t c s)).

Definition basic_factory (up : string * string) : auth_factory :=
  StaticAuthFactory (BasicAuth up.1 up.2).

(** Which SCM a configuration is for: the key of its list. *)
Inductive scm_key : Type := BBDC | ADOE | GH | GL | BBC.
#[export] Instance scm_key_eq_dec : EqDecision scm_key.
Proof. solve_decision. Defined.

Definition adoe_api_auth (path : string) (d : dict json) : outcome (option auth_factory) :=
  if has_token_auth d then
    let? t := secret_or_fail path "token" (JObj d) in Ok (Some (basic_factory ("", t)))
  else if has_basic_auth d then
    let? up := basic_secrets path d in Ok (Some (basic_factory up))
  else if has_value "sp-tenant-id" d then
    if has_value "sp-client-secret" d then let? f := ado_sp_secrets path d in Ok (Some f)
    else Err (invalid_service_principal_config path)
  else Ok None.

Definition common_api_auth (path : string) (d : dict json) : outcome (option auth_factory) :=
  if has_token_auth d then
    let? t := secret_or_fail path "token" (JObj d) in
    Ok (Some (StaticAuthFactory (BearerAuth (JStr t))))
  else if has_basic_auth d then
    let? up := basic_secrets path d in Ok (Some (basic_factory up))
  else Ok None.

Definition github_api_auth (api_url path : string) (d : dict json) : outcome (option auth_factory) :=
  let? common := common_api_auth path d in
  match common with
  | Some f => Ok (Some f)
  | None =>
      if has_value "app-private-key" d then
        let? key := secret_or_fail path "app-private-key" (JObj d) in
        Ok (Some (GithubAppAuthFactory key api_url))
      else Ok None
  end.

Definition api_auth_factory (scm : scm_key) (api_url path : string) (config : json) :
    outcome (option auth_factory) :=
  match config with
  | JObj d => match scm with
              | ADOE => adoe_api_auth path d
              | GH => github_api_auth api_url path d
              | BBDC | GL | BBC => common_api_auth path d
              end
  | _ => Err AttributeError
  end.

(** [APISession_factory] *)
Definition api_session_factory (scm : scm_key) (p : repo_props) : outcome session_settings :=
  let? url := api_url p in
  let? config := api_auth_config p in
  let? auth := api_auth_factory scm url (con_path p) config in
  let? timeout := timeout_seconds p in
  let? tries := retries p in
  let? proxy := proxies p in
  let? verify := ssl_verify p in
  Ok (SessionSettings url auth timeout tries proxy verify).

(** ** Cloners: [__*_cloner_factory] *)
Definition ssh_cloner (path : string) (d : dict json) : git_prog cloner :=
  let! key := lift (get_value_or_fail path "ssh" (JObj d)) in
  let! key := lift (match key with JStr s => Ok s | _ => Err TypeError end) in
  using_ssh_auth shlex_quote (secret_root +:+ "/" +:+ key) (default JNull (dget "ssh-port" d)).

Definition some_cloner (p : git_prog cloner) : git_prog (option cloner) := let! c := p in Ret (Some c).

Definition basic_cloner (path : string) (d : dict json) (ssl_no_verify in_header : bool) :
    git_prog (option cloner) :=
  let! up := lift (basic_secrets path d) in
  Ret (Some (using_basic_auth b64encode up.1 up.2 ssl_no_verify in_header)).
(** A token as the password of a user. *)
Definition token_cloner (user path : string) (d : dict json) (ssl_no_verify in_header : bool) :
    git_prog (option cloner) :=
  let! t := lift (secret_or_fail path "token" (JObj d)) in
  Ret (Some (using_basic_auth b64encode user t ssl_no_verify in_header)).

Definition bbdc_cloner_factory (path : string) (d : dict json) (ssl_no_verify : bool) :
    git_prog (option cloner) :=
  if has_basic_auth d then basic_cloner path d ssl_no_verify true
  else if has_token_auth d then
    let! t := lift (secret_or_fail path "token" (JObj d)) in
    Ret (Some (using_token_auth t ssl_no_verify))
  else if has_ssh_auth d then some_cloner (ssh_cloner path d)
  else Ret None.

Definition bbc_cloner_factory (path : string) (d : dict json) (ssl_no_verify : bool) :
    git_prog (option cloner) :=
  if has_basic_auth d then basic_cloner path d ssl_no_verify false
  else if has_token_auth d then token_cloner "x-token-auth" path d ssl_no_verify false
  else if has_ssh_auth d then some_cloner (ssh_cloner path d)
  else Ret None.

Definition adoe_cloner_factory (path : string) (d : dict json) (ssl_no_verify : bool) :
    git_prog (option cloner) :=
  if has_basic_auth d then basic_cloner path d ssl_no_verify true
  else if has_token_auth d then token_cloner "" path d ssl_no_verify true
  else if has_ssh_auth d then some_cloner (ssh_cloner path d)
  else if has_value "sp-tenant-id" d then
    if has_value "sp-client-secret" d then
      let! f := lift (ado_sp_secrets path d) in
      Ret (Some (using_ado_sp_client_secret_auth f ssl_no_verify))
    else Ret None
  else Ret None.

Definition gh_cloner_factory (s : session_settings) (path : string) (d : dict json)
    (ssl_no_verify : bool) : git_prog (option cloner) :=
  if has_basic_auth d then basic_cloner path d ssl_no_verify true
  else if has_token_auth d then token_cloner "git" path d ssl_no_verify false
  else if has_ssh_auth d then some_cloner (ssh_cloner path d)
  else if dhas "app-private-key" d then
    let! key := lift (secret_or_fail path "app-private-key" (JObj d)) in
    Ret (Some (using_github_app_auth (GithubAppAuthFactory key (se_endpoint s)) ssl_no_verify))
  else Ret None.

Definition gl_cloner_factory (path : string) (d : dict json) (ssl_no_verify : bool) :
    git_prog (option cloner) :=
  if has_basic_auth d then basic_cloner path d ssl_no_verify true
  else if has_token_auth d then token_cloner "git" path d ssl_no_verify false
  else if has_ssh_auth d then some_cloner (ssh_cloner path d)
  else Ret None.

(** [__cloner_factories] *)
Definition cloner_factory (scm : scm_key) (s : session_settings) (path : string) (config : json)
    (ssl_no_verify : bool) : git_prog (option cloner) :=
  match config return git_prog (option cloner) with
  | JObj d => match scm with
              | BBDC => bbdc_cloner_factory path d ssl_no_verify
              | ADOE => adoe_cloner_factory path d ssl_no_verify
              | GH => gh_cloner_factory s path d ssl_no_verify
              | GL => gl_cloner_factory path d ssl_no_verify
              | BBC => bbc_cloner_factory path d ssl_no_verify
              end
  | _ => Raise AttributeError
  end.

(** [Cloner_factory]; the path given to the factory is the root of the secrets. *)
Definition make_cloner (scm : scm_key) (s : session_settings) (p : repo_props) :
    git_prog cloner :=
  let! no_verify := lift (ssl_no_verify_git p) in
  let! c := cloner_factory scm s secret_root (rp_clone_auth p) no_verify in
  match c with
  | Some c => Ret c
  | None => Raise (ConfigurationException (rp_clone_path p
              +:+ " SCM clone authorization configuration is invalid!"))
  end.

(** ** The service factories *)
Definition get_pr_config_dict (repo_config : json) : outcome json :=
  let? feedback := get_value_or_default "feedback" repo_config JNull in
  match feedback with
  | JNull => Ok JNull
  | f => get_value_or_default "pull-request" f JNull
  end.

Definition use_policies (repo_config : json) : outcome bool :=
  let? pr := get_pr_config_dict repo_config in
  match pr with
  | JNull => Ok false
  | pr => let? v := get_value_or_default "use-policies" pr (JBool false) in Ok (truthy v)
  end.

(** [check-name] under [gh-pr-opts] or [bb-pr-opts] *)
Definition custom_check_name (opts_key : string) (repo_config : json) : outcome json :=
  let? pr := get_pr_config_dict repo_config in
  let? opts := get_value_or_default opts_key pr JNull in
  get_value_or_default "check-name" opts JNull.

(** The class that each [factory] chooses for the service. *)
Definition gh_service_class (repo_config : json) (config_path : string) (p : repo_props) :
    outcome scm_class :=
  let? policies := use_policies repo_config in
  if negb policies then Ok GHServiceBasic
  else
    let? name := custom_check_name "gh-pr-opts" repo_config in
    let? api_auth := get_value_or_fail config_path "api-auth" (rp_con p) in
    let? app := jhas "app-private-key" api_auth in
    Ok (if app then GHServiceChecks name else GHServiceCommitStatus name).
Definition bbc_service_class (repo_config : json) : outcome scm_class :=
  let? policies := use_policies repo_config in
  if negb policies then Ok BBCServiceBasic
  else let? name := custom_check_name "bb-pr-opts" repo_config in Ok (BBCServiceChecks name).
Definition adoe_service_class (repo_config : json) (config_path : string) : outcome scm_class :=
  let? policies := use_policies repo_config in
  if negb policies then Ok ADOEServiceBasic
  else
    let? pr := get_pr_config_dict repo_config in
    let? opts := get_value_or_fail config_path "adoe-pr-opts" pr in
    let? name := get_value_or_fail (config_path +:+ "/adoe-pr-opts") "check-name" opts in
    let? genre := get_value_or_default "check-genre" opts JNull in
    Ok (ADOEServiceChecks name genre).

(** What every [factory] does: the properties, the session, the class with its
    arguments, and the service with its cloner. *)
Definition configured_service (scm : scm_key) (class_of : repo_props → outcome scm_class)
    (repo_config : json) (config_path : string) : git_prog scm_service :=
  let! p := lift (repo_config_props repo_config config_path) in
  let! s := lift (api_session_factory scm p) in
  let! class := lift (class_of p) in
  let! display := lift (display_url p) in
  let! moniker := lift (service_moniker p) in
  let! c := make_cloner scm s p in
  Ret (ScmService class display moniker s (rp_secret p) c).

Definition bbdc_service_factory (repo_config : json) (config_path : string) : git_prog scm_service :=
  configured_service BBDC (λ _, Ok BBDCService) repo_config config_path.
Definition gl_service_factory (repo_config : json) (config_path : string) : git_prog scm_service :=
  configured_service GL (λ _, Ok GLService) repo_config config_path.
Definition gh_service_factory (repo_config : json) (config_path : string) : git_prog scm_service :=
  configured_service GH (gh_service_class repo_config config_path) repo_config config_path.
Definition bbc_service_factory (repo_config : json) (config_path : string) : git_prog scm_service :=
  configured_service BBC (λ _, bbc_service_class repo_config) repo_config config_path.
Definition adoe_service_factory (repo_config : json) (config_path : string) : git_prog scm_service :=
  configured_service ADOE (λ _, adoe_service_class repo_config config_path) repo_config config_path.

(** [__scm_service_factories] *)
Definition scm_service_factory (scm : scm_key) : json → string → git_prog scm_service :=
  match scm with
  | BBDC => bbdc_service_factory
  | ADOE => adoe_service_factory
  | GH => gh_service_factory
  | GL => gl_service_factory
  | BBC => bbc_service_factory
  end.
End scm_config.
