(* ===== verification/Bootstrap.v ===== *)
(** * Services and routes: [CxOneFlowConfig] of
    [src/config/server/__init__.py] and [src/services/__init__.py]

    The two class attributes that [bootstrap] fills, the services of each SCM in
    the order of the configuration and the services by name, are the state
    [routes]; the lookups read it. *)
From S2P Require Import Prelude PyStr PyJson Url Auth ApiSession Messaging Grouping CxOne Cloner Config ScmConfig.
Open Scope string_scope.
Open Scope nat_scope.
Open Scope list_scope.

(** [CxOneFlowServices] *)
Record flow_services : Type := FlowServices {
  fs_matcher : string;          (* the pattern of [repo-match] *)
  fs_cxone : cxone_settings; fs_scm : scm_service; fs_pr : pr_settings;
  fs_poll : polling_settings; fs_push : push_settings; fs_resolver : resolver_settings;
  fs_kickoff : option kickoff_settings; fs_naming : option string }.

Record routes : Type := Routes {
  ordered_services : list (scm_key * list flow_services);
  by_moniker : list (json * flow_services) }.

Definition no_routes : routes := Routes [] [].

(** [d.get(k)] for the keys of the two dictionaries. *)
Fixpoint assoc {K V} `{EqDecision K} (k : K) (d : list (K * V)) : option V :=
  match d with
  | [] => None
  | (k', v) :: d' => if decide (k = k') then Some v else assoc k d'
  end.
Fixpoint assoc_append {K V} `{EqDecision K} (k : K) (v : V) (d : list (K * list V)) :
    list (K * list V) :=
  match d with
  | [] => [(k, [v])]
  | (k', l) :: d' => if decide (k = k') then (k', l ++ [v]) :: d'
                     else (k', l) :: assoc_append k v d'
  end.

Section bootstrap.
Context (secret_root : string).
Context (secret_file : string → option string).
Context (default_ssl_verify : json).
Context (sarif_default_opts : dict json) (report_opts_from_dict : dict json → outcome json).
Context (auth_regions api_regions : list string).
Context (import_module : string → outcome unit).
Context (re_findall : string → string → bool).
Context (re_match : string → string → bool).
Context (uuid4 : string).
Context (repr : json → string).
Context (b64encode : string → string).
Context (shlex_quote : string → string).

(** [__setup_scm] *)
Definition setup_scm (scm : scm_service) (config : json) (config_path : string) :
    outcome flow_services :=
  let? pattern := get_value_or_fail config_path "repo-match" config in
  let? pattern := match pattern with JStr s => Ok s | _ => Err TypeError end in
  if re_findall pattern uuid4 then Err (no_wildcard_routes (config_path +:+ "/repo-match"))
  else
    let? moniker := get_value_or_fail config_path "service-name" config in
    let? cxone := get_value_or_fail config_path "cxone" config in
    let? cxone := as_kwargs cxone in
    let? client := cxone_client_factory secret_file default_ssl_verify auth_regions api_regions
                     (config_path +:+ "/cxone") cxone in
    let? feedback := get_value_or_default "feedback" config (JObj []) in
    let? feedback := as_kwargs feedback in
    let feedback_path := config_path +:+ "/feedback" in
    let? pr := pr_feedback_service_factory secret_file default_ssl_verify feedback_path feedback in
    let? push := push_feedback_service_factory secret_file default_ssl_verify sarif_default_opts
                   report_opts_from_dict feedback_path moniker feedback in
    let? poll := polling_service_factory secret_file default_ssl_verify feedback_path feedback in
    let? agent := get_value_warn_deprecated "scan-agent" "resolver" config (JObj []) in
    let? agent := as_kwargs agent in
    let? resolver := resolver_service_factory secret_file default_ssl_verify repr
                       (config_path +:+ "/scan-agent") moniker agent in
    let? scan_config := get_value_or_default "scan-config" config (JObj []) in
    let? naming := get_value_or_default "project-naming" config JNull in
    let? ' (coro, rename) := setup_naming import_module (config_path +:+ "/project-naming") naming in
    let? grouping := get_value_or_default "project-groups" config JNull in
    let? ' (groups, update_groups) := setup_grouping (config_path +:+ "/project-groups") grouping in
    let? engines := get_value_or_default "default-scan-engines" scan_config (JObj []) in
    let? scan_tags := get_value_or_default "default-scan-tags" scan_config (JObj []) in
    let? project_tags := get_value_or_default "default-project-tags" scan_config (JObj []) in
    let? kickoff := get_value_or_default "kickoff" config JNull in
    let? kickoff := kickoff_service_factory secret_file kickoff (config_path +:+ "/kickoff") moniker in
    Ok (FlowServices pattern
          (CxOneSettings moniker client engines (none_to_empty scan_tags)
             (none_to_empty project_tags) rename update_groups groups)
          scm pr poll push resolver kickoff coro).

(** The services are entered under their name, which must be new, and at the
    end of the list of their SCM. *)
Definition add_services (scm : scm_key) (s : flow_services) (r : routes) : outcome routes :=
  let moniker := scm_moniker (fs_scm s) in
  if negb (hashable moniker) then Err TypeError
  else match assoc moniker (by_moniker r) with
       | None => Ok (Routes (assoc_append scm s (ordered_services r))
                       (by_moniker r ++ [(moniker, s)]))
       | Some _ => Err (ConfigurationException ("Service " +:+ py_str repr moniker
                          +:+ " is defined more than once."))
       end.

Definition str_scm (scm : scm_key) : string :=
  match scm with BBDC => "bbdc" | ADOE => "adoe" | GH => "gh" | GL => "gl" | BBC => "bbc" end.
(** The keys of [__cloner_factories], in order. *)
Definition scm_keys : list scm_key := [BBDC; ADOE; GH; GL; BBC].

(** The configurations of one SCM, from the one at [index] on. *)
Fixpoint add_repos (scm : scm_key) (index : nat) (repos : list json) (r : routes) :
    git_prog routes :=
  match repos with
  | [] => Ret r
  | config :: repos' =>
      let path := "/" +:+ str_scm scm +:+ "[" +:+ pretty index +:+ "]" in
      let! service := scm_service_factory secret_root secret_file default_ssl_verify b64encode
                        shlex_quote scm config path in
      let! s := lift (setup_scm service config path) in
      let! r := lift (add_services scm s r) in
      add_repos scm (S index) repos' r
  end.

Fixpoint add_scms (scms : list scm_key) (raw_yaml : dict json) (r : routes) : git_prog routes :=
  match scms with
  | [] => Ret r
  | scm :: scms' =>
      let! r := match dget (str_scm scm) raw_yaml return git_prog routes with
                | None => Ret r
                | Some repos => let! l := lift (py_iter repos) in add_repos scm 0 l r
                end in
      add_scms scms' raw_yaml r
  end.

(** [bootstrap], once the file is read and the roots are known. *)
Definition bootstrap (raw_yaml : dict json) : git_prog routes :=
  let! _ := lift (get_value_or_fail "" "server-base-url" (JObj raw_yaml)) in
  let! _ := lift (get_value_or_fail "" "secret-root-path" (JObj raw_yaml)) in
  if negb (existsb (λ scm, dhas (str_scm scm) raw_yaml) scm_keys)
  then Raise (missing_at_least_one_key_path "/" (str_scm <$> scm_keys))
  else add_scms scm_keys raw_yaml no_routes.

(** ** Lookups *)
Definition get_service_monikers (r : routes) : list json := (by_moniker r).*1.

Definition retrieve_services_by_moniker (r : routes) (moniker : json) : outcome flow_services :=
  if hashable moniker then of_option (KeyError (py_str repr moniker)) (assoc moniker (by_moniker r))
  else Err TypeError.

Definition retrieve_scm_services (r : routes) (scm : scm_key) : outcome (list scm_service) :=
  match assoc scm (ordered_services r) with
  | Some l => Ok (fs_scm <$> l)
  | None => Err (KeyError (str_scm scm))
  end.

Fixpoint match_entry (url : string) (entries : list flow_services) : option flow_services :=
  match entries with
  | [] => None
  | e :: l => if re_match (fs_matcher e) url then Some e else match_entry url l
  end.

Fixpoint match_urls (urls : list json) (entries : list flow_services) :
    outcome (option flow_services) :=
  match urls with
  | [] => Ok None
  | u :: urls' =>
      match u, entries with
      | JStr url, _ => match match_entry url entries with
                       | Some e => Ok (Some e)
                       | None => match_urls urls' entries
                       end
      | _, [] => match_urls urls' entries
      | _, _ => Err TypeError
      end
  end.

(** [retrieve_services_by_route], on a list of URLs *)
Definition retrieve_services_by_route (r : routes) (clone_urls : list json) (scm : scm_key) :
    outcome (option flow_services) :=
  match assoc scm (ordered_services r) with
  | None => Ok None
  | Some entries =>
      let? found := match_urls clone_urls entries in
      match found with Some e => Ok (Some e) | None => Err RouteNotFoundException end
  end.
End bootstrap.

(** ** Lemmas *)
Lemma assoc_append_eq {K V} `{EqDecision K} (k k' : K) (v : V) d :
  default [] (assoc k' (assoc_append k v d)) =
    default [] (assoc k' d) ++ (if decide (k' = k) then [v] else []).
Proof.
  induction d as [|[k1 l] d IH]; simpl.
  - by repeat case_decide.
  - repeat (case_decide; simpl; simplify_eq); rewrite ?app_nil_r; try done; by rewrite IH, ?decide_True, ?decide_False, ?app_nil_r by done.
Qed.

Lemma assoc_elem {K V} `{EqDecision K} (k : K) (v : V) d :
  assoc k d = Some v → (k, v) ∈ d.
Proof.
  induction d as [|[k1 v1] d IH]; simpl; [done|]. case_decide; [|set_solver].
  intros [= ->]. subst. set_solver.
Qed.

Lemma assoc_NoDup {K V} `{EqDecision K} (k : K) (v : V) d :
  NoDup d.*1 → (k, v) ∈ d → assoc k d = Some v.
Proof.
  induction d as [|[k1 v1] d IH]; csimpl; [by intros _ ?%elem_of_nil|].
  intros [Hn Hnd]%NoDup_cons [[= -> ->]|Hin]%elem_of_cons; [by rewrite decide_True|].
  rewrite decide_False; [by apply IH|]. intros ->. apply Hn.
  apply list_elem_of_fmap. by exists (k1, v).
Qed.

Lemma assoc_None {K V} `{EqDecision K} (k : K) (d : list (K * V)) :
  assoc k d = None → k ∉ d.*1.
Proof.
  induction d as [|[k1 v1] d IH]; csimpl; [by intros _ ?%elem_of_nil|].
  case_decide; [done|]. intros Ha [->|?]%elem_of_cons; [done|by apply IH].
Qed.

(** The services of an SCM, in the order in which they are tried. *)
Definition services_of (r : routes) (scm : scm_key) : list flow_services :=
  default [] (assoc scm (ordered_services r)).

(** The two class attributes hold the same services, each under its own name. *)
Record routes_wf (r : routes) : Prop := RoutesWf {
  wf_monikers : NoDup (by_moniker r).*1;
  wf_named : ∀ m s, (m, s) ∈ by_moniker r ↔
    m = scm_moniker (fs_scm s) ∧ ∃ scm, s ∈ services_of r scm;
  wf_hashable : ∀ m s, (m, s) ∈ by_moniker r → hashable m = true }.

Section bootstrap_theorems.
Context (secret_root : string).
Context (secret_file : string → option string).
Context (default_ssl_verify : json).
Context (sarif_default_opts : dict json) (report_opts_from_dict : dict json → outcome json).
Context (auth_regions api_regions : list string).
Context (import_module : string → outcome unit).
Context (re_findall : string → string → bool).
Context (uuid4 : string).
Context (repr : json → string).
Context (b64encode : string → string).
Context (shlex_quote : string → string).

Notation factory := (scm_service_factory secret_root secret_file default_ssl_verify b64encode
                       shlex_quote).
Notation setup := (setup_scm secret_file default_ssl_verify sarif_default_opts report_opts_from_dict
                     auth_regions api_regions import_module re_findall uuid4 repr).
Notation boot := (bootstrap secret_root secret_file default_ssl_verify sarif_default_opts
                    report_opts_from_dict auth_regions api_regions import_module re_findall
                    uuid4 repr b64encode shlex_quote).

(** How a service follows from its configuration. *)
Definition configured (config : json) (s : flow_services) : Prop :=
  jindex "repo-match" config = Ok (JStr (fs_matcher s)) ∧
  jindex "service-name" config = Ok (scm_moniker (fs_scm s)) ∧
  cs_moniker (fs_cxone s) = scm_moniker (fs_scm s) ∧
  re_findall (fs_matcher s) uuid4 = false ∧
  password_test shared_secret_policy (scm_secret (fs_scm s)) = true.

Lemma add_services_wf scm s r r' :
  add_services repr scm s r = Ok r' → routes_wf r →
  routes_wf r' ∧ ∀ scm', services_of r' scm' =
    services_of r scm' ++ (if decide (scm' = scm) then [s] else []).
Proof.
  unfold add_services. destruct (hashable _) eqn:Hh; [|done]. simpl.
  destruct (assoc _ _) eqn:Ha; [done|]. intros [= <-] [H1 H2 H3].
  assert (Hs : ∀ scm', services_of (Routes (assoc_append scm s (ordered_services r))
      (by_moniker r ++ [(scm_moniker (fs_scm s), s)])) scm' =
    services_of r scm' ++ (if decide (scm' = scm) then [s] else [])).
  { intros scm'. apply assoc_append_eq. }
  split; [|exact Hs]. constructor; simpl.
  - rewrite fmap_app. apply NoDup_app. split_and!; [done| |apply NoDup_singleton].
    intros m Hm. csimpl. rewrite list_elem_of_singleton. intros ->. by apply assoc_None in Ha.
  - intros m s'. rewrite elem_of_app, list_elem_of_singleton, H2. split.
    + intros [[-> [scm' Hin]]|[= -> ->]]; (split; [done|]).
      * exists scm'. rewrite Hs. apply elem_of_app. by left.
      * exists scm. rewrite Hs, decide_True by done. apply elem_of_app. right. set_solver.
    + intros [-> [scm' Hin]]. rewrite Hs in Hin. apply elem_of_app in Hin as [Hin|Hin]; [by eauto|].
      case_decide; [|by apply elem_of_nil in Hin].
      apply list_elem_of_singleton in Hin as ->. by right.
  - intros m s' [Hin|[= -> ->]%list_elem_of_singleton]%elem_of_app; [by eapply H3|done].
Qed.

Lemma secret_of_service scm config path tr service :
  exec (factory scm config path) tr (Ok service) →
  jindex "service-name" config = Ok (scm_moniker service) ∧
  password_test shared_secret_policy (scm_secret service) = true.
Proof.
  intros H0. assert (∃ class_of, exec (configured_service secret_root secret_file default_ssl_verify
      b64encode shlex_quote scm class_of config path) tr (Ok service)) as [class_of H]
    by (destruct scm; by eexists).
  clear H0. unfold configured_service in H.
  apply exec_lift_bind_ok in H as (p & Hp & H).
  apply exec_lift_bind_ok in H as (s & _ & H).
  apply exec_lift_bind_ok in H as (class & _ & H).
  apply exec_lift_bind_ok in H as (display & _ & H).
  apply exec_lift_bind_ok in H as (moniker & Hm & H).
  apply exec_bind_ok in H as (c & tr1 & tr2 & -> & _ & [_ [= ->]]). simpl.
  unfold repo_config_props in Hp.
  destruct (get_value_or_fail path "connection" config) as [con|]; [|done]. simpl in Hp.
  destruct (get_value_or_fail _ "api-auth" con) as [api|]; [|done]. simpl in Hp.
  destruct (get_secret_or_fail _ _ "shared-secret" con) as [secret|]; [|done]. simpl in Hp.
  destruct (password_test _ secret) eqn:Hpw; [|done]. simpl in Hp.
  destruct (get_value_or_default "clone-auth" con JNull) as [ca|]; [|done]. simpl in Hp.
  assert (rp_cfg p = config ∧ rp_path p = path ∧ rp_secret p = secret) as (Hc & Hpath & ->).
  { destruct (not_none ca); by injection Hp as <-. }
  split; [|done]. unfold service_moniker in Hm. rewrite Hc in Hm.
  destruct config as [| | | | |d]; try done. simpl in Hm |- *. unfold dindex.
  by destruct (dget "service-name" d).
Qed.

Lemma setup_configured service config path s :
  setup service config path = Ok s →
  fs_scm s = service ∧ jindex "repo-match" config = Ok (JStr (fs_matcher s)) ∧
  re_findall (fs_matcher s) uuid4 = false ∧
  jindex "service-name" config = Ok (cs_moniker (fs_cxone s)).
Proof.
  unfold setup_scm. intros H.
  destruct (get_value_or_fail path "repo-match" config) as [pat|] eqn:Hpat; [|done].
  simpl in H. destruct pat as [| | |pattern| |]; try done. simpl in H.
  destruct (re_findall pattern uuid4) eqn:Hw; [done|].
  destruct (get_value_or_fail path "service-name" config) as [m|] eqn:Hm; [|done]. simpl in H.
  assert (Hget : ∀ key v, get_value_or_fail path key config = Ok v → jindex key config = Ok v).
  { intros key v Hv. destruct config as [| | | | |d]; try done. simpl in Hv |- *.
    unfold dindex. by destruct (dget key d). }
  assert (fs_scm s = service ∧ fs_matcher s = pattern ∧ cs_moniker (fs_cxone s) = m)
    as (-> & -> & ->); [|by auto].
  repeat match goal with
  | H : bindO ?o _ = Ok _ |- _ => destruct o as [[? ?]|] eqn:?; simpl in H; [|discriminate H]
  | H : bindO ?o _ = Ok _ |- _ => destruct o eqn:?; simpl in H; [|discriminate H]
  end.
  by injection H as <-.
Qed.

(** A service configured with the key [resolver], the deprecated name of
    [scan-agent], has the dummy resolver, whatever either key holds: no scan of
    it is ever delegated. *)
Theorem deprecated_resolver_ignored service config path s :
  jhas "resolver" config = Ok true → setup service config path = Ok s →
  ∃ moniker, fs_resolver s = ResolverSettings moniker default_amqp None JNull JNull None.
Proof.
  unfold setup_scm. intros Hres H.
  assert (Hdep : get_value_warn_deprecated "scan-agent" "resolver" config (JObj []) = Ok (JObj [])).
  { destruct config; try done. injection Hres as Hres. simpl. by rewrite Hres. }
  rewrite Hdep in H.
  repeat match goal with
  | H : bindO ?o _ = Ok _ |- _ => destruct o as [[? ?]|] eqn:?; simpl in H; [|discriminate H]
  | H : bindO ?o _ = Ok _ |- _ => destruct o eqn:?; simpl in H; [|discriminate H]
  | H : (if ?b then _ else _) = Ok _ |- _ => destruct b; [discriminate H|]
  end.
  injection H as <-. eauto.
Qed.

(** What the configurations of one SCM add. *)
Lemma add_repos_spec scm repos : ∀ index r tr r',
  exec (add_repos secret_root secret_file default_ssl_verify sarif_default_opts
          report_opts_from_dict auth_regions api_regions
          import_module re_findall uuid4 repr b64encode shlex_quote scm index repos r) tr (Ok r') →
  routes_wf r →
  routes_wf r' ∧ ∃ l, Forall2 configured repos l ∧
    ∀ scm', services_of r' scm' = services_of r scm' ++ (if decide (scm' = scm) then l else []).
Proof.
  induction repos as [|config repos IH]; intros index r tr r' H Hwf.
  { destruct H as [_ [= ->]]. split; [done|]. exists []. split; [constructor|].
    intros scm'. case_decide; by rewrite app_nil_r. }
  cbn [add_repos] in H.
  apply exec_bind_ok in H as (service & tr1 & tr2 & -> & Hservice & H).
  apply exec_lift_bind_ok in H as (s & Hs & H).
  apply exec_lift_bind_ok in H as (r1 & Hr1 & H).
  apply secret_of_service in Hservice as [Hname Hsecret].
  apply setup_configured in Hs as (<- & Hpat & Hwild & Hcx).
  apply add_services_wf in Hr1 as [Hwf1 Hs1]; [|done].
  apply IH in H as (Hwf' & l & Hl & Hs'); [|done]. split; [done|].
  exists (s :: l). split.
  - constructor; [|done]. unfold configured. rewrite Hname in Hcx. injection Hcx as Hcx.
    split_and!; auto.
  - intros scm'. rewrite Hs', Hs1, <- app_assoc. by case_decide.
Qed.

Lemma add_scms_spec raw_yaml scms : ∀ r tr r',
  NoDup scms →
  exec (add_scms secret_root secret_file default_ssl_verify sarif_default_opts
          report_opts_from_dict auth_regions api_regions
          import_module re_findall uuid4 repr b64encode shlex_quote scms raw_yaml r) tr (Ok r') →
  routes_wf r →
  routes_wf r' ∧ ∀ scm, ∃ l, services_of r' scm = services_of r scm ++ l ∧
    match dget (str_scm scm) raw_yaml with
    | Some repos => if decide (scm ∈ scms)
                    then ∃ configs, py_iter repos = Ok configs ∧ Forall2 configured configs l
                    else l = []
    | None => l = []
    end.
Proof.
  induction scms as [|scm scms IH]; intros r tr r' Hnd H Hwf.
  { destruct H as [_ [= ->]]. split; [done|]. intros scm. exists []. rewrite app_nil_r.
    split; [done|]. case_match; [|done]. rewrite decide_False; [done|]. by intros ?%elem_of_nil. }
  apply NoDup_cons in Hnd as [Hnin Hnd]. cbn [add_scms] in H.
  apply exec_bind_ok in H as (r1 & tr1 & tr2 & -> & H1 & H).
  assert (Hstep : routes_wf r1 ∧ ∃ l, (∀ scm', services_of r1 scm' =
      services_of r scm' ++ (if decide (scm' = scm) then l else [])) ∧
    match dget (str_scm scm) raw_yaml with
    | Some repos => ∃ configs, py_iter repos = Ok configs ∧ Forall2 configured configs l
    | None => l = []
    end).
  { destruct (dget (str_scm scm) raw_yaml) as [repos|].
    - apply exec_lift_bind_ok in H1 as (configs & Hc & H1).
      apply add_repos_spec in H1 as (? & l & ? & ?); [|done]. split; [done|]. eauto 6.
    - destruct H1 as [_ [= ->]]. split; [done|]. exists []. split; [|done].
      intros scm'. case_decide; by rewrite app_nil_r. }
  destruct Hstep as (Hwf1 & l & Hl & Hconf).
  destruct (IH _ _ _ Hnd H Hwf1) as [Hwf' Hrest]. split; [done|]. intros scm'.
  destruct (Hrest scm') as (l' & -> & Hl'). rewrite Hl.
  destruct (decide (scm' = scm)) as [->|Hne].
  - exists l. destruct (dget (str_scm scm) raw_yaml).
    + rewrite decide_False in Hl' by done. subst l'. rewrite app_nil_r.
      rewrite decide_True by (apply elem_of_cons; by left). done.
    + subst. by rewrite !app_nil_r.
  - exists l'. rewrite app_nil_r. split; [done|].
    destruct (dget (str_scm scm') raw_yaml); [|done].
    destruct (decide (scm' ∈ scms)) as [Hin|Hout].
    + rewrite decide_True by (apply elem_of_cons; by right). done.
    + rewrite decide_False; [done|]. by intros [?|?]%elem_of_cons.
Qed.

Lemma scm_keys_all scm : scm ∈ scm_keys.
Proof. apply (bool_decide_unpack _). by destruct scm. Qed.

Lemma no_routes_wf : routes_wf no_routes.
Proof.
  constructor; [constructor| |by intros m s ?%elem_of_nil].
  intros m s. split; [by intros ?%elem_of_nil|]. by intros (_ & scm & ?%elem_of_nil).
Qed.

Lemma boot_scms raw_yaml tr r :
  exec (boot raw_yaml) tr (Ok r) →
  ∃ tr', exec (add_scms secret_root secret_file default_ssl_verify sarif_default_opts
          report_opts_from_dict auth_regions api_regions
                 import_module re_findall uuid4 repr b64encode shlex_quote scm_keys raw_yaml
                 no_routes) tr' (Ok r).
Proof.
  unfold bootstrap. intros H.
  apply exec_lift_bind_ok in H as (base & _ & H).
  apply exec_lift_bind_ok in H as (root & _ & H).
  destruct (negb _); [by destruct H|eauto].
Qed.

Lemma scm_keys_NoDup : NoDup scm_keys.
Proof. apply (bool_decide_unpack _); vm_compute; exact I. Qed.

Lemma boot_wf raw_yaml tr r : exec (boot raw_yaml) tr (Ok r) → routes_wf r.
Proof.
  intros [tr' H]%boot_scms. by apply add_scms_spec in H as [Hwf _];
    [|apply scm_keys_NoDup|apply no_routes_wf].
Qed.

(** C10: what a server that starts has: for every SCM one service per entry of
    its list, in the order of the file, each built from its entry, with a route
    that is no wildcard and a shared secret that the policy accepts; no two
    services have the same name, and a service is known by its name exactly when
    it has a route. *)
Theorem bootstrap_routes raw_yaml tr r :
  exec (boot raw_yaml) tr (Ok r) →
  routes_wf r ∧
  ∀ scm, match dget (str_scm scm) raw_yaml with
         | Some repos => ∃ configs, py_iter repos = Ok configs ∧
                           Forall2 configured configs (services_of r scm)
         | None => services_of r scm = []
         end.
Proof.
  intros [tr' H]%boot_scms.
  apply add_scms_spec in H as [Hwf H]; [|apply scm_keys_NoDup|apply no_routes_wf].
  split; [done|]. intros scm. destruct (H scm) as (l & -> & Hl).
  change (services_of no_routes scm ++ l) with l. destruct (dget _ raw_yaml); [|done].
  by rewrite decide_True in Hl by apply scm_keys_all.
Qed.

(** [matcher.match(url)] *)
Context (re_match : string → string → bool).

Lemma match_entry_spec url entries :
  match match_entry re_match url entries with
  | Some e => ∃ before after, entries = before ++ e :: after ∧ re_match (fs_matcher e) url = true ∧
                Forall (λ x, re_match (fs_matcher x) url = false) before
  | None => Forall (λ x, re_match (fs_matcher x) url = false) entries
  end.
Proof.
  induction entries as [|x l IH]; simpl; [constructor|].
  destruct (re_match (fs_matcher x) url) eqn:Hx.
  - by exists [], l.
  - destruct (match_entry re_match url l) as [e|]; [|by constructor].
    destruct IH as (before & after & -> & ? & ?). exists (x :: before), after.
    split_and!; [done..|by constructor].
Qed.

(** What a route finds is a service of the SCM. *)
Lemma retrieve_in r urls scm s :
  retrieve_services_by_route re_match r urls scm = Ok (Some s) → s ∈ services_of r scm.
Proof.
  unfold retrieve_services_by_route, services_of. destruct (assoc scm (ordered_services r)) as [l|]; [|done].
  simpl. destruct (match_urls re_match urls l) as [[e|]|] eqn:H; simpl; [|done..]. intros [= ->].
  revert H. induction urls as [|u urls IH]; simpl; [done|].
  destruct u, l as [|x l']; try done. pose proof (match_entry_spec s0 (x :: l')) as Hm.
  destruct (match_entry re_match s0 (x :: l')) as [e|]; [|done]. intros [= ->].
  destruct Hm as (before & after & -> & _). apply elem_of_app. right. by left.
Qed.

(** The entries that the URLs before the one that decides do not match. *)
Definition unmatched (entries : list flow_services) (url : string) : Prop :=
  Forall (λ x, re_match (fs_matcher x) url = false) entries.

Lemma match_urls_spec urls entries :
  match match_urls re_match (JStr <$> urls) entries with
  | Ok (Some e) => ∃ us url us' before after, urls = us ++ url :: us' ∧
      entries = before ++ e :: after ∧ Forall (unmatched entries) us ∧
      unmatched before url ∧ re_match (fs_matcher e) url = true
  | Ok None => Forall (unmatched entries) urls
  | Err _ => False
  end.
Proof.
  induction urls as [|u urls IH]; [constructor|]. csimpl.
  pose proof (match_entry_spec u entries) as Hu.
  destruct (match_entry re_match u entries) as [e|].
  - destruct Hu as (before & after & -> & Hm & Hb). exists [], u, urls, before, after.
    split_and!; done || constructor.
  - destruct (match_urls re_match (JStr <$> urls) entries) as [[e|]|]; [| |done].
    + destruct IH as (us & url & us' & before & after & -> & -> & ? & ? & ?).
      exists (u :: us), url, us', before, after. split_and!; try done. by constructor.
    + by constructor.
Qed.

(** C8: an event is served by the first service, in the order of the
    configuration, whose route matches the first of its URLs that any route
    matches; it is refused exactly when no route matches any URL, and it is
    ignored when the SCM is not configured.  After a start the service found by
    a route is the one found by its name. *)
Theorem route_lookup r urls scm tr raw_yaml :
  exec (boot raw_yaml) tr (Ok r) →
  match retrieve_services_by_route re_match r (JStr <$> urls) scm with
  | Ok (Some e) =>
      (∃ us url us' before after, urls = us ++ url :: us' ∧
         services_of r scm = before ++ e :: after ∧
         Forall (unmatched (services_of r scm)) us ∧
         unmatched before url ∧ re_match (fs_matcher e) url = true) ∧
      retrieve_services_by_moniker repr r (scm_moniker (fs_scm e)) = Ok e
  | Ok None => services_of r scm = []
  | Err x => x = RouteNotFoundException ∧ Forall (unmatched (services_of r scm)) urls
  end.
Proof.
  intros [Hnd Hnamed Hhash]%boot_wf.
  unfold retrieve_services_by_route, services_of.
  destruct (assoc scm (ordered_services r)) as [entries|] eqn:Ha; [|done]. simpl.
  pose proof (match_urls_spec urls entries) as Hm.
  destruct (match_urls re_match (JStr <$> urls) entries) as [[e|]|]; simpl; [|done|done].
  split; [done|]. destruct Hm as (us & url & us' & before & after & _ & Hent & _).
  assert (Hin : (scm_moniker (fs_scm e), e) ∈ by_moniker r).
  { apply Hnamed. split; [done|]. exists scm. unfold services_of. rewrite Ha. simpl.
    rewrite Hent. set_solver. }
  unfold retrieve_services_by_moniker. rewrite (Hhash _ _ Hin).
  by rewrite (assoc_NoDup _ _ _ Hnd Hin).
Qed.
End bootstrap_theorems.

(** ** Witnesses *)
Definition demo_secret (path : string) : option string :=
  if String.eqb path "hook" then Some "AbcDefGhi123--longEnoughSecret" else Some "token".

Definition demo_repo (name pattern : string) : json :=
  JObj [("service-name", JStr name); ("repo-match", JStr pattern);
        ("connection", JObj [("base-url", JStr "https://gitlab"); ("shared-secret", JStr "hook");
                             ("api-auth", JObj [("token", JStr "api")])]);
        ("cxone", JObj [("tenant", JStr "t"); ("iam-endpoint", JStr "US");
                        ("api-endpoint", JStr "US"); ("api-key", JStr "key")])].
Definition demo_yaml : dict json :=
  [("server-base-url", JStr "https://flow"); ("secret-root-path", JStr "/run/secrets");
   ("gl", JArr [demo_repo "first" "https://gitlab/a"; demo_repo "second" "https://gitlab/"])].

Definition demo_boot : git_prog routes :=
  bootstrap "/run/secrets" demo_secret (JBool true) [] (λ d, Ok (JObj d)) ["US"] ["US"] (λ _, Ok tt)
    (λ p s, startswith p s) "00000000-0000" (λ _, "") (λ s, s) (λ s, s) demo_yaml.

Lemma bootstrap_routes_witness :
  ∃ r, run_outcome demo_git_world 0 demo_boot = Ok r ∧ routes_wf r ∧
    length (services_of r GL) = 2.
Proof.
  destruct (run_outcome demo_git_world 0 demo_boot) as [r|e] eqn:Hr;
    [|vm_compute in Hr; discriminate Hr].
  pose proof (exec_run demo_git_world 0 demo_boot) as H. rewrite Hr in H.
  unfold demo_boot in H. apply bootstrap_routes in H as [Hwf Hconf].
  exists r. split; [reflexivity|]. split; [exact Hwf|].
  specialize (Hconf GL). simpl in Hconf. destruct Hconf as (configs & [= <-] & Hl).
  apply Forall2_length in Hl. simpl in Hl. symmetry. exact Hl.
Defined.

Lemma route_lookup_witness :
  ∃ r e, run_outcome demo_git_world 0 demo_boot = Ok r ∧
    retrieve_services_by_route (λ p s, startswith p s) r
      (JStr <$> ["ssh://x"; "https://gitlab/a/b.git"]) GL = Ok (Some e) ∧
    retrieve_services_by_moniker (λ _, "") r (scm_moniker (fs_scm e)) = Ok e.
Proof.
  destruct (run_outcome demo_git_world 0 demo_boot) as [r|e] eqn:Hr;
    [|vm_compute in Hr; discriminate Hr].
  pose proof (exec_run demo_git_world 0 demo_boot) as H. rewrite Hr in H.
  unfold demo_boot in H.
  apply route_lookup with (re_match := λ p s, startswith p s)
    (urls := ["ssh://x"; "https://gitlab/a/b.git"]) (scm := GL) in H.
  rename H into Hl.
  destruct (retrieve_services_by_route _ r _ GL) as [[e|]|x] eqn:He.
  - exists r, e. split; [reflexivity|]. split; [exact He|exact (proj2 Hl)].
  - clear Hl. exfalso. vm_compute in Hr. injection Hr as <-. vm_compute in He. discriminate He.
  - clear Hl. exfalso. vm_compute in Hr. injection Hr as <-. vm_compute in He. discriminate He.
Defined.

Definition demo_deprecated : json :=
  JObj (("resolver", JObj [("private-key", JStr "k")]) ::
        match demo_repo "n" "https://gitlab/a" with JObj d => d | _ => [] end).
Definition demo_scm : scm_service :=
  ScmService GLService JNull (JStr "n") (SessionSettings "" None JNull JNull JNull true) ""
    (using_token_auth "t" false).
Definition demo_setup : outcome flow_services :=
  setup_scm demo_secret (JBool true) [] (λ d, Ok (JObj d)) ["US"] ["US"] (λ _, Ok tt) (λ p s, startswith p s) "0"
    (λ _, "") demo_scm demo_deprecated "/gl[0]".

Lemma deprecated_resolver_ignored_witness :
  ∃ s moniker, demo_setup = Ok s ∧
    fs_resolver s = ResolverSettings moniker default_amqp None JNull JNull None.
Proof.
  destruct demo_setup as [s|e] eqn:Hs; [|vm_compute in Hs; discriminate Hs].
  destruct (deprecated_resolver_ignored _ _ _ _ _ _ _ _ _ _ _ demo_deprecated _ s eq_refl Hs)
    as [moniker H].
  exists s, moniker. split; [reflexivity|exact H].
Defined.
