(* ===== verification/Content.v ===== *)
(** * Contents of pull request comments: [src/workflows/pr_content.py]

    The three contents the feedback services make - the note before a scan, the
    note with a scan, and the report of a finished scan - and what they promise
    the services that post them. *)
From S2P Require Import Prelude PyStr PyJson Url Auth Messaging Markdown.
Open Scope string_scope.
Open Scope nat_scope.
Open Scope list_scope.

(** What a comment of a pull request is made of: the arguments of the classes. *)
Inductive pr_content : Type :=
| PrescanPullRequestMarkdownAnnotation (annotation : string)
| PullRequestMarkdownAnnotation (project_id scan_id : json) (annotation : string)
    (branch : json)
| PullRequestMarkdownFeedback (excluded_severities : list ResultSeverity)
    (excluded_states : list ResultStates) (project_id scan_id : json) (report : json)
    (details : PRDetails) (policy_violations : json) (status_msg : string).

(** [PullRequestCommentContent]: what is posted, within a number of characters. *)
Record comment_content : Type := CommentContent {
  cc_content : Z → outcome string; cc_status_msg : Z → string; cc_scan_url : option string }.

(** What the services that post a content rely on: it keeps its limits. *)
Class ContentLaws (cc : comment_content) : Prop := {
  content_fits n s : (0 <= n)%Z → cc_content cc n = Ok s → (Z.of_nat (String.length s) <= n)%Z;
  status_fits n s : (0 <= n)%Z → cc_status_msg cc n = s → (Z.of_nat (String.length s) <= n)%Z }.

(** [s[0:n]] *)
Definition slice0 (s : string) (n : Z) : string :=
  take_str (Z.to_nat (if (n <? 0)%Z then Z.of_nat (String.length s) + n else n)) s.

(** The JSONPath queries of [PullRequestMarkdownFeedback]. *)
Definition sast_results_query : string := "$.scanResults.resultsList[*]".
Definition sca_results_query : string := "$.scaScanResults.packages[*]".
Definition iac_results_query : string := "$.iacScanResults.technology[*]".
Definition resolved_results_query : string := "$.resolvedVulnerabilities".
Definition scanner_stat_query : string := "$.scanInformation.scannerStatus[*]".

Section content.
Context (repr : json → string).
(** [jsonpath_ng]: the values found in a document, plain and with filters. *)
Context (jp jp_ext : string → json → list json).
Context (sorted_rows : list (string * DetailRow) → list DetailRow).
(** [create_code_permalink] of the SCM service *)
Context (permalink : PRDetails → json → json → outcome string).
Context (display_url server_base_url : string).

(** ** The report of a scan: [PullRequestMarkdownFeedback] *)
Section feedback.
Context (excluded_severities : list ResultSeverity) (excluded_states : list ResultStates).
Context (project_id scanid report : json) (pr_details : PRDetails).

(** [__test_in_enum] *)
Definition test_in_enum {A} `{EqDecision A} (clazz : json → outcome A) (value : json)
    (exclusions : list A) : outcome bool :=
  match clazz value with
  | Ok member => Ok (bool_decide (member ∈ exclusions))
  | Err ValueError => Ok false
  | Err e => Err e
  end.

(** A result is left out for its state or, when not for that, its severity. *)
Definition severity_excluded (result : json) : outcome bool :=
  let? v := jindex "severity" result in
  test_in_enum severity_of_value v excluded_severities.
Definition excluded (result : json) : outcome bool :=
  let? v := jindex "state" result in
  let? by_state := test_in_enum state_of_value v excluded_states in
  if by_state then Ok true else severity_excluded result.

(** The severity of a result and its image. *)
Definition severity_cells (result : json) : outcome (ResultSeverity * string) :=
  let? v := jindex "severity" result in
  let? severity := severity_of_value v in
  let? text := as_str v in
  Ok (severity, make_md_severity_indicator server_base_url text).

(** The comment and [title_added] *)
Definition titled (start : comment → comment) (st : comment * bool) : comment :=
  let '(c, title_added) := st in if title_added : bool then c else start c.

Definition included_severities : list ResultSeverity :=
  filter (λ s, s ∉ excluded_severities) (ResultSeverity_values.*1).

(** *** Annotation *)
Definition translate_engine_status (status_string : json) : string :=
  match status_string with
  | JStr "Completed" => success_unicode
  | _ => failure_unicode
  end.
Definition engine_stat (engine_status : json) : outcome string :=
  let? status := jindex "status" engine_status in
  let? name := jindex "name" engine_status in
  Ok (translate_engine_status status +:+ "&nbsp;**" +:+ py_str repr name +:+ "**").
Definition add_annotation_section (c : comment) : outcome comment :=
  let? link := make_cxone_md_scan_link repr display_url project_id scanid
                 (prd_source_branch pr_details) None in
  let c := add_to_annotation ("**Results for Scan ID " +:+ link +:+ "**") c in
  let? status_content := foldO (λ e content, let? stat := engine_stat e in
                                 Ok (content +:+ stat +:+ "&nbsp;&nbsp;"))
                           (jp scanner_stat_query report) "" in
  Ok (add_to_annotation (nl +:+ status_content) c).

(** *** Summary *)

(** The count of the first value of the severity that is found at all. *)
Definition first_count (query_gen : string → string) (sev : ResultSeverity) : option string :=
  head (omap (λ sev_value,
                match jp_ext (query_gen (py_str repr sev_value)) report with
                | [] => None
                | found => Some (str_Z (Z.of_nat (length found)))
                end)
         (default [] (head (omap (λ sv, if decide (sv.1 = sev) then Some sv.2 else None)
                             ResultSeverity_values)))).
Definition get_result_count_map (query_gen : string → string) (sev : ResultSeverity) : string :=
  if bool_decide (sev ∈ included_severities) then default "-" (first_count query_gen sev)
  else "-".

Definition count_filter (sev_value : string) : string :=
  "[?(@.state!='Not Exploitable' & @.severity=='" +:+ sev_value +:+ "')]".
Definition sast_count_query (sev_value : string) : string :=
  "$.scanResults.resultsList[*].vulnerabilities" +:+ count_filter sev_value.
Definition sca_count_query (sev_value : string) : string :=
  "$.scaScanResults.packages[*].packageCategory[*].categoryResults" +:+ count_filter sev_value.
Definition iac_count_query (sev_value : string) : string :=
  "$.iacScanResults.technology[*].queries[*].resultsList" +:+ count_filter sev_value.

Definition add_summary_section (c : comment) : comment :=
  let entry engine query :=
    add_summary_entry engine (get_result_count_map query) included_severities in
  entry "IaC" iac_count_query
    (entry "SCA" sca_count_query
      (entry "SAST" sast_count_query (start_summary_section included_severities c))).

(** *** Policies; a descriptor is the object of its attributes. *)
Definition attribute (name : string) (v : json) : outcome json :=
  match v with JObj d => of_option AttributeError (dget name d) | _ => Err AttributeError end.

Definition policy_rules (policy : json) (c : comment) : outcome comment :=
  let? rules := attribute "ViolatedRules" policy in
  let? rules := py_iter rules in
  foldO (λ rule_name c,
           let? name := attribute "PolicyName" policy in
           let? break_build := attribute "BreakBuild" policy in
           add_policy_violation_detail name (truthy break_build) rule_name c) rules c.
Definition add_policy_violation_details (policy_violations : json) (c : comment) :
    outcome comment :=
  match policy_violations with
  | JNull => Ok c
  | v => let? policies := as_arr v in
         match policies with
         | [] => Ok c
         | _ => foldO policy_rules policies (start_policy_violation_detail_section c)
         end
  end.

(** *** SAST results *)
Definition sast_vulnerability (describe_link : string) (vuln : json) (st : comment * bool) :
    outcome (comment * bool) :=
  let? skip := excluded vuln in
  if skip then Ok st
  else
    let c := titled start_sast_detail_section st in
    let? ' (severity, image) := severity_cells vuln in
    let? file := jindex "sourceFileName" vuln in
    let? line := jindex "sourceLine" vuln in
    let? link := permalink pr_details file line in
    let? viewer := jindex "resultViewerLink" vuln in
    let? c := add_sast_detail severity image describe_link
      ("`" +:+ py_str repr file +:+ "`;" +:+ make_md_link link (py_str repr line))
      (make_md_link (py_str repr viewer) "Attack Vector") c in
    Ok (c, true).
Definition sast_result (x : json) (st : comment * bool) : outcome (comment * bool) :=
  let? description := jindex "queryDescriptionLink" x in
  let? name := jindex "queryName" x in
  let? vulnerabilities := jindex "vulnerabilities" x in
  let? vulns := py_iter vulnerabilities in
  foldO (sast_vulnerability (make_md_link (py_str repr description) (py_str repr name))) vulns st.
Definition add_sast_details (c : comment) : outcome comment :=
  let? ' (c, _) := foldO sast_result (jp sast_results_query report) (c, false) in Ok c.

(** *** Resolved results *)

(** The value [urlparse] takes. *)
Definition url_text (v : json) : outcome string :=
  match v with JStr s => Ok s | v => Err (if truthy v then AttributeError else TypeError) end.

(** A link whose path ends with the project gets the project one part earlier. *)
Definition fix_link (link : string) : string :=
  let parsed_url := urlparse link in
  let path_components := split "/" (p_path parsed_url) in
  let last := List.last path_components "" in
  if decide (JStr last = project_id) then
    let rest := removelast path_components in
    let n := length rest - 1 in
    urlunparse (ParsedUrl (p_scheme parsed_url) (p_netloc parsed_url)
      (join "/" (take n rest ++ [last] ++ drop n rest))
      (p_params parsed_url) (p_query parsed_url) (p_fragment parsed_url))
  else link.

Definition resolved_result (vuln result : json) (st : comment * bool) :
    outcome (comment * bool) :=
  let? skip := severity_excluded result in
  if skip then Ok st
  else
    let c := titled start_resolved_detail_section st in
    let? link := jindex "vulnerabilityLink" result in
    let? link := url_text link in
    let? ' (severity, image) := severity_cells result in
    let? name := jindex "vulnerabilityName" vuln in
    let? c := add_resolved_detail severity image name (make_md_link (fix_link link) "View") c in
    Ok (c, true).
Definition resolved_vulnerability (vuln : json) (st : comment * bool) : outcome (comment * bool) :=
  let? results := jindex "resolvedResults" vuln in
  let? results := py_iter results in
  foldO (resolved_result vuln) results st.
Definition resolved_value (resolved : json) (st : comment * bool) : outcome (comment * bool) :=
  let? vulns := jindex "resolvedVulnerabilities" resolved in
  let? vulns := py_iter vulns in
  foldO resolved_vulnerability vulns st.
Definition add_resolved_details (c : comment) : outcome comment :=
  let? ' (c, _) := foldO resolved_value (jp resolved_results_query report) (c, false) in Ok c.

(** *** SCA results *)
Definition sca_cat_result (x cat_result : json) (st : comment * bool) : outcome (comment * bool) :=
  let? skip := excluded cat_result in
  if skip then Ok st
  else
    let c := titled start_sca_detail_section st in
    let? ' (severity, image) := severity_cells cat_result in
    let? cve := jindex "cve" cat_result in
    let? package_name := jindex "packageName" x in
    let? package_version := jindex "packageVersion" x in
    let? package_id := jindex "packageId" x in
    let? link := make_cxone_md_sca_result_link repr display_url project_id scanid "Risk Details"
                   cve package_id in
    let? c := add_sca_detail repr severity image cve package_name package_version link c in
    Ok (c, true).
Definition sca_category (x category : json) (st : comment * bool) : outcome (comment * bool) :=
  let? results := jindex "categoryResults" category in
  let? results := py_iter results in
  foldO (sca_cat_result x) results st.
Definition sca_package (x : json) (st : comment * bool) : outcome (comment * bool) :=
  let? categories := jindex "packageCategory" x in
  let? categories := py_iter categories in
  foldO (sca_category x) categories st.
Definition add_sca_details (c : comment) : outcome comment :=
  let? ' (c, _) := foldO sca_package (jp sca_results_query report) (c, false) in Ok c.

(** *** Infrastructure results *)
Definition iac_query_result (x query result : json) (st : comment * bool) :
    outcome (comment * bool) :=
  let? skip := excluded result in
  if skip then Ok st
  else
    let c := titled start_iac_detail_section st in
    let? ' (severity, image) := severity_cells result in
    let? technology := jindex "name" x in
    let? file := jindex "fileName" result in
    let? link := permalink pr_details file (JInt 1) in
    let? query_name := jindex "queryName" query in
    let? viewer := jindex "resultViewerLink" result in
    let? c := add_iac_detail severity image technology
      ("`" +:+ py_str repr file +:+ "`" +:+ make_md_link link "view") query_name
      (make_md_link (py_str repr viewer) "Risk Details") c in
    Ok (c, true).
Definition iac_query (x query : json) (st : comment * bool) : outcome (comment * bool) :=
  let? results := jindex "resultsList" query in
  let? results := py_iter results in
  foldO (iac_query_result x query) results st.
Definition iac_technology (x : json) (st : comment * bool) : outcome (comment * bool) :=
  let? queries := jindex "queries" x in
  let? queries := py_iter queries in
  foldO (iac_query x) queries st.
Definition add_iac_details (c : comment) : outcome comment :=
  let? ' (c, _) := foldO iac_technology (jp iac_results_query report) (c, false) in Ok c.

(** The constructor *)
Definition feedback_comment (policy_violations : json) : outcome comment :=
  let? scan_link := make_cxone_md_scan_link repr display_url project_id scanid
                      (prd_source_branch pr_details) (Some "More results...") in
  let? scan_url := make_cxone_scan_url repr display_url project_id scanid
                     (prd_source_branch pr_details) in
  let? c := add_annotation_section
              (comment_new server_base_url (nl +:+ nl +:+ scan_link) scan_url) in
  let c := add_summary_section c in
  let? c := add_policy_violation_details policy_violations c in
  let? c := add_sast_details c in
  let? c := add_resolved_details c in
  let? c := add_sca_details c in
  add_iac_details c.
End feedback.

(** ** The contents *)

(** The constructor of [PullRequestMarkdownAnnotation] *)
Definition annotation_comment (project_id scanid : json) (annotation : string) (branch : json) :
    outcome comment :=
  let? scan_link := make_cxone_md_scan_link repr display_url project_id scanid branch None in
  let? scan_url := make_cxone_scan_url repr display_url project_id scanid branch in
  Ok (add_to_annotation (annotation +:+ ": " +:+ scan_link)
        (comment_new server_base_url scan_link scan_url)).

(** [get_content] of [PrescanPullRequestMarkdownAnnotation] *)
Definition prescan_content (annotation : string) (char_limit : Z) : string :=
  slice0 (append_comment_identifier ("*" +:+ annotation +:+ "*")) char_limit.

Definition markdown_content (c : comment) (status_msg : string) : comment_content :=
  CommentContent (get_content sorted_rows c) (slice0 status_msg) (Some (c_scan_url c)).

Definition make_content (p : pr_content) : outcome comment_content :=
  match p with
  | PrescanPullRequestMarkdownAnnotation annotation =>
      Ok (CommentContent (λ n, Ok (prescan_content annotation n)) (slice0 annotation) None)
  | PullRequestMarkdownAnnotation project_id scan_id annotation branch =>
      let? c := annotation_comment project_id scan_id annotation branch in
      Ok (markdown_content c annotation)
  | PullRequestMarkdownFeedback sevs states project_id scan_id report d violations status =>
      let? c := feedback_comment sevs states project_id scan_id report d violations in
      Ok (markdown_content c status)
  end.
End content.

(** ** What the report shows *)
Section report.
Context (repr : json → string) (jp jp_ext : string → json → list json).
Context (permalink : PRDetails → json → json → outcome string).
Context (display_url server_base_url : string).
Context (excluded_severities : list ResultSeverity) (excluded_states : list ResultStates).
Context (project_id scanid report : json) (d : PRDetails).

Abbreviation make_feedback := (feedback_comment repr jp jp_ext permalink display_url server_base_url
  excluded_severities excluded_states project_id scanid report d).
Abbreviation result_excluded := (excluded excluded_severities excluded_states).

Definition start_section (t : detail_table) : comment → comment :=
  match t with
  | PolicyViolationDetailRows => start_policy_violation_detail_section
  | SastDetailRows => start_sast_detail_section
  | ScaDetailRows => start_sca_detail_section
  | IacDetailRows => start_iac_detail_section
  | ResolvedDetailRows => start_resolved_detail_section
  end.

(** The lines that start the section of a table. *)
Definition section_header (t : detail_table) : list element :=
  c_elements (start_section t (comment_new "" "" "")) Details.

(** *** One result: it is left out, or a row is added for it. *)
Inductive detail_step (t : detail_table) (skip : outcome bool) (shows : DetailRow → Prop)
    (st : comment * bool) : comment * bool → Prop :=
| step_skip : skip = Ok true → detail_step t skip shows st st
| step_add key r : skip = Ok false → row_key t r = Ok key → shows r →
    detail_step t skip shows st (push_row t (key, r) (titled (start_section t) st), true).

(** The rows of a result in its context: the query, the package, the technology
    and its query, or the vulnerability that was resolved. *)
Definition shows (severity : json) (cells : dict json) (r : DetailRow) : Prop :=
  (∃ text, jindex "severity" severity = Ok (JStr text) ∧
     severity_of_value (JStr text) = Ok (dr_severity r) ∧
     row_item r "severity_image_link" = JStr (make_md_severity_indicator server_base_url text)) ∧
  Forall (λ kv, row_item r kv.1 = kv.2) cells.
Definition item (k : string) (v : json) : json :=
  match jindex k v with Ok x => x | Err _ => JNull end.
Definition text_of (o : outcome string) : string :=
  match o with Ok s => s | Err _ => "" end.
Definition shows_sast (x vuln : json) : DetailRow → Prop :=
  shows vuln
    [("issue", JStr (make_md_link (py_str repr (item "queryDescriptionLink" x))
                                  (py_str repr (item "queryName" x))));
     ("source_permalink", JStr ("`" +:+ py_str repr (item "sourceFileName" vuln) +:+ "`;" +:+
        make_md_link (text_of (permalink d (item "sourceFileName" vuln) (item "sourceLine" vuln)))
          (py_str repr (item "sourceLine" vuln))));
     ("viewer_link", JStr (make_md_link (py_str repr (item "resultViewerLink" vuln)) "Attack Vector"))].
Definition shows_sca (x result : json) : DetailRow → Prop :=
  shows result
    [("cve", item "cve" result);
     ("package", JStr (py_str repr (item "packageName" x) +:+ ":" +:+
                       py_str repr (item "packageVersion" x)));
     ("viewer_link", JStr (text_of (make_cxone_md_sca_result_link repr display_url project_id scanid
        "Risk Details" (item "cve" result) (item "packageId" x))))].
Definition shows_iac (xq : json * json) (result : json) : DetailRow → Prop :=
  shows result
    [("technology", item "name" xq.1); ("query", item "queryName" xq.2);
     ("source_permalink", JStr ("`" +:+ py_str repr (item "fileName" result) +:+ "`" +:+
        make_md_link (text_of (permalink d (item "fileName" result) (JInt 1))) "view"));
     ("viewer_link", JStr (make_md_link (py_str repr (item "resultViewerLink" result)) "Risk Details"))].
Definition shows_resolved (vuln result : json) : DetailRow → Prop :=
  shows result
    [("name", item "vulnerabilityName" vuln);
     ("viewer_link", JStr (make_md_link
        (fix_link project_id (text_of (url_text (item "vulnerabilityLink" result)))) "View"))].

Lemma severity_cells_ok result severity image :
  severity_cells server_base_url result = Ok (severity, image) →
  ∃ text, jindex "severity" result = Ok (JStr text) ∧ severity_of_value (JStr text) = Ok severity ∧
    image = make_md_severity_indicator server_base_url text.
Proof.
  unfold severity_cells. intros H. inv_ok. simplify_eq.
  match goal with H : as_str ?v = Ok _ |- _ => destruct v; try discriminate H end.
  simplify_eq/=. eauto.
Qed.

Ltac result_step lem :=
  intros H; apply bindO_ok in H as ([] & Hskip & H); [injection H as <-; by apply step_skip|];
  inv_ok; simplify_eq;
  match goal with H : severity_cells _ _ = Ok _ |- _ =>
    let text := fresh "text" in apply severity_cells_ok in H as (text & ? & ? & ->) end;
  unfold add_sast_detail, add_sca_detail, add_iac_detail, add_resolved_detail, add_row in *; inv_ok; simplify_eq;
  eapply (step_add lem); [done|done|];
  split; [by eexists|]; unfold item; cbn [fst snd];
  repeat match goal with H : jindex _ _ = Ok _ |- _ => rewrite H; clear H end;
  repeat match goal with H : _ = Ok _ |- _ => rewrite H; clear H end;
  repeat constructor.

Lemma sast_step x vuln st st' :
  sast_vulnerability repr permalink server_base_url excluded_severities excluded_states d
    (make_md_link (py_str repr (item "queryDescriptionLink" x)) (py_str repr (item "queryName" x)))
    vuln st = Ok st' →
  detail_step SastDetailRows (result_excluded vuln) (shows_sast x vuln) st st'.
Proof. unfold sast_vulnerability. result_step SastDetailRows. Qed.

Lemma sca_step x result st st' :
  sca_cat_result repr display_url server_base_url excluded_severities excluded_states
    project_id scanid x result st = Ok st' →
  detail_step ScaDetailRows (result_excluded result) (shows_sca x result) st st'.
Proof. unfold sca_cat_result. result_step ScaDetailRows. Qed.

Lemma iac_step x q result st st' :
  iac_query_result repr permalink server_base_url excluded_severities excluded_states d x q
    result st = Ok st' →
  detail_step IacDetailRows (result_excluded result) (shows_iac (x, q) result) st st'.
Proof. unfold iac_query_result. result_step IacDetailRows. Qed.

Lemma resolved_step vuln result st st' :
  resolved_result server_base_url excluded_severities project_id vuln result st = Ok st' →
  detail_step ResolvedDetailRows (severity_excluded excluded_severities result)
    (shows_resolved vuln result) st st'.
Proof. unfold resolved_result. result_step ResolvedDetailRows. Qed.

(** *** Many results: the rows of those that are not left out, in order *)
Definition kept {A} (skip : A → outcome bool) (a : A) : bool :=
  match skip a with Ok b => negb b | Err _ => false end.

Definition shown_if (b : bool) (t : detail_table) : list element :=
  if b then section_header t else [].

Record listed {A} (t : detail_table) (skip : A → outcome bool) (shows : A → DetailRow → Prop)
    (l : list A) (st st' : comment * bool) : Prop := Listed {
  listed_rows : ∃ rows, c_rows st'.1 t = c_rows st.1 t ++ rows ∧
    Forall2 (λ a kr, shows a kr.2) (List.filter (kept skip) l) rows;
  listed_others : ∀ t', t' ≠ t → c_rows st'.1 t' = c_rows st.1 t';
  listed_flag : st'.2 = st.2 || existsb (kept skip) l;
  listed_details : c_elements st'.1 Details =
    c_elements st.1 Details ++ shown_if (negb st.2 && existsb (kept skip) l) t;
  listed_sections : ∀ s, s ≠ Details → c_elements st'.1 s = c_elements st.1 s }.

Section listing.
Context {A : Type} (t : detail_table) (skip : A → outcome bool) (shows_of : A → DetailRow → Prop).

Lemma listed_nil st : listed t skip shows_of [] st st.
Proof.
  split; simpl; try done.
  - exists []. rewrite app_nil_r. by split; [|constructor].
  - by rewrite orb_false_r.
  - by rewrite andb_false_r, app_nil_r.
Qed.

Lemma titled_rows st : c_rows (titled (start_section t) st) = c_rows st.1.
Proof. destruct st as [c []]; [done|]. by destruct t. Qed.
Lemma titled_details st :
  c_elements (titled (start_section t) st) Details =
    c_elements st.1 Details ++ shown_if (negb st.2) t.
Proof. destruct st as [c []]; simpl; [by rewrite app_nil_r|]. by destruct t. Qed.
Lemma titled_sections st s :
  s ≠ Details → c_elements (titled (start_section t) st) s = c_elements st.1 s.
Proof. intros H. destruct st as [c []]; [done|]. destruct t; simpl; by rewrite decide_False by done. Qed.

Lemma listed_one a st st' :
  detail_step t (skip a) (shows_of a) st st' → listed t skip shows_of [a] st st'.
Proof.
  intros [Hs|key r Hs Hk Hr];
    split; simpl; unfold kept; rewrite ?Hs; simpl; try done.
  - exists []. rewrite app_nil_r. by split; [|constructor].
  - by rewrite orb_false_r.
  - by rewrite andb_false_r, app_nil_r.
  - exists [(key, r)]. rewrite decide_True, titled_rows by done. split; [done|]. by repeat constructor.
  - intros t' Ht. by rewrite decide_False, titled_rows by done.
  - by rewrite orb_true_r.
  - by rewrite titled_details, andb_true_r.
  - by apply titled_sections.
Qed.

Lemma listed_app l1 l2 st1 st2 st3 :
  listed t skip shows_of l1 st1 st2 → listed t skip shows_of l2 st2 st3 →
  listed t skip shows_of (l1 ++ l2) st1 st3.
Proof.
  intros [(r1 & Hr1 & Hf1) Ho1 Hb1 Hd1 Hs1] [(r2 & Hr2 & Hf2) Ho2 Hb2 Hd2 Hs2]. split.
  - exists (r1 ++ r2). rewrite Hr2, Hr1, <- (assoc_L (++)), List.filter_app. split; [done|].
    by apply Forall2_app.
  - intros t' Ht. by rewrite Ho2, Ho1.
  - by rewrite Hb2, Hb1, existsb_app, orb_assoc.
  - rewrite Hd2, Hd1, Hb1, existsb_app, <- (assoc_L (++)). f_equal.
    by destruct st1.2, (existsb _ l1), (existsb _ l2); simpl; rewrite ?app_nil_r.
  - intros s Hs. by rewrite Hs2, Hs1.
Qed.

Lemma foldO_listed {B} (g : B → list A) (f : B → comment * bool → outcome (comment * bool)) l st st' :
  (∀ x st st', f x st = Ok st' → listed t skip shows_of (g x) st st') →
  foldO f l st = Ok st' → listed t skip shows_of (l ≫= g) st st'.
Proof.
  intros Hf. revert st. induction l as [|x l IH]; intros st H; simpl in H.
  - simplify_eq. apply listed_nil.
  - apply bindO_ok in H as (st1 & H1 & H). simpl. eapply listed_app; eauto.
Qed.
End listing.

(** *** The results of a report, with their contexts *)
Definition items (k : string) (v : json) : list json :=
  match (let? l := jindex k v in py_iter l) with Ok l => l | Err _ => [] end.

Definition sast_findings : list (json * json) :=
  x ← jp sast_results_query report; pair x <$> items "vulnerabilities" x.
Definition sca_findings : list (json * json) :=
  x ← jp sca_results_query report;
  category ← items "packageCategory" x; pair x <$> items "categoryResults" category.
Definition iac_findings : list ((json * json) * json) :=
  x ← jp iac_results_query report;
  query ← items "queries" x; pair (x, query) <$> items "resultsList" query.
Definition resolved_findings : list (json * json) :=
  v ← jp resolved_results_query report;
  vuln ← items "resolvedVulnerabilities" v; pair vuln <$> items "resolvedResults" vuln.
Definition skip_result {A} (f : A * json) : outcome bool := result_excluded f.2.
Definition skip_resolved {A} (f : A * json) : outcome bool := severity_excluded excluded_severities f.2.
Definition violated_rules (violations : json) : list (json * json) :=
  policy ← match violations with JArr l => l | _ => [] end;
  pair policy <$> match attribute "ViolatedRules" policy with
                  | Ok v => match py_iter v with Ok l => l | Err _ => [] end
                  | Err _ => [] end.

Lemma bind_singleton {A B} (f : A → B) (l : list A) : l ≫= (λ a, [f a]) = f <$> l.
Proof. induction l as [|a l IH]; [done|]. cbn. by f_equal. Qed.

(** The innermost loop: the results of a context. *)
Lemma results_listed {A} t (skip : A * json → outcome bool) (shows_of : A * json → DetailRow → Prop)
    (f : json → comment * bool → outcome (comment * bool)) (ctx : A) k v st st' :
  (∀ r st st', f r st = Ok st' → detail_step t (skip (ctx, r)) (shows_of (ctx, r)) st st') →
  (let? l := jindex k v in let? l := py_iter l in foldO f l st) = Ok st' →
  listed t skip shows_of (pair ctx <$> items k v) st st'.
Proof.
  intros Hf H. apply bindO_ok in H as (l & Hl & H). apply bindO_ok in H as (l' & Hl' & H).
  unfold items. rewrite Hl. simpl. rewrite Hl'. rewrite <- bind_singleton.
  eapply foldO_listed; [|done]. intros r st1 st2 Hr. apply listed_one. by apply Hf.
Qed.

(** A loop around it. *)
Lemma nested_listed {A} t (skip : A → outcome bool) (shows_of : A → DetailRow → Prop)
    (f : json → comment * bool → outcome (comment * bool)) (g : json → list A) k v st st' :
  (∀ r st st', f r st = Ok st' → listed t skip shows_of (g r) st st') →
  (let? l := jindex k v in let? l := py_iter l in foldO f l st) = Ok st' →
  listed t skip shows_of (items k v ≫= g) st st'.
Proof.
  intros Hf H. apply bindO_ok in H as (l & Hl & H). apply bindO_ok in H as (l' & Hl' & H).
  unfold items. rewrite Hl. simpl. rewrite Hl'. by eapply foldO_listed.
Qed.

Definition sast_shown (f : json * json) := shows_sast f.1 f.2.
Definition sca_shown (f : json * json) := shows_sca f.1 f.2.
Definition iac_shown (f : (json * json) * json) := shows_iac f.1 f.2.
Definition resolved_shown (f : json * json) := shows_resolved f.1 f.2.

Lemma sast_listed c c' :
  add_sast_details repr jp permalink server_base_url excluded_severities excluded_states report d c
    = Ok c' → ∃ b, listed SastDetailRows skip_result sast_shown sast_findings (c, false) (c', b).
Proof.
  unfold add_sast_details. intros H. apply bindO_ok in H as ([c1 b] & H & [= <-]). exists b.
  eapply foldO_listed; [|done]. intros x st st' Hx. unfold sast_result in Hx.
  apply bindO_ok in Hx as (v1 & Hv1 & Hx). apply bindO_ok in Hx as (v2 & Hv2 & Hx).
  eapply results_listed; [|done]. intros r st1 st2 Hr. apply sast_step.
  unfold item; cbn [fst snd]. by rewrite Hv1, Hv2.
Qed.

Lemma sca_listed c c' :
  add_sca_details repr jp display_url server_base_url excluded_severities excluded_states
    project_id scanid report c = Ok c' →
  ∃ b, listed ScaDetailRows skip_result sca_shown sca_findings (c, false) (c', b).
Proof.
  unfold add_sca_details. intros H. apply bindO_ok in H as ([c1 b] & H & [= <-]). exists b.
  eapply foldO_listed; [|done]. intros x st st' Hx. eapply nested_listed; [|exact Hx].
  intros category st1 st2 Hc. eapply results_listed; [|exact Hc].
  intros r st3 st4 Hr. by apply sca_step.
Qed.

Lemma iac_listed c c' :
  add_iac_details repr jp permalink server_base_url excluded_severities excluded_states report d c
    = Ok c' → ∃ b, listed IacDetailRows skip_result iac_shown iac_findings (c, false) (c', b).
Proof.
  unfold add_iac_details. intros H. apply bindO_ok in H as ([c1 b] & H & [= <-]). exists b.
  eapply foldO_listed; [|done]. intros x st st' Hx. eapply nested_listed; [|exact Hx].
  intros q st1 st2 Hc. eapply results_listed; [|exact Hc].
  intros r st3 st4 Hr. by apply iac_step.
Qed.

Lemma resolved_listed c c' :
  add_resolved_details jp server_base_url excluded_severities project_id report c = Ok c' →
  ∃ b, listed ResolvedDetailRows skip_resolved resolved_shown resolved_findings (c, false) (c', b).
Proof.
  unfold add_resolved_details. intros H. apply bindO_ok in H as ([c1 b] & H & [= <-]). exists b.
  eapply foldO_listed; [|done]. intros x st st' Hx. eapply nested_listed; [|exact Hx].
  intros q st1 st2 Hc. eapply results_listed; [|exact Hc].
  intros r st3 st4 Hr. by apply resolved_step.
Qed.

(** *** The policies *)
Definition policy_shown (base : string) (pr : json * json) (r : DetailRow) : Prop :=
  dr_severity r = INFO ∧ row_item r "policy_rule_name" = pr.2 ∧
  attribute "PolicyName" pr.1 = Ok (row_item r "policy_name") ∧
  ∃ b, attribute "BreakBuild" pr.1 = Ok b ∧
    row_item r "break_build_indicator" = JStr (if truthy b then failure_unicode
      else make_md_severity_indicator base "ResultSeverity.INFO").

(** Rows added to the table of policies, and nothing else. *)
Definition policy_rows (c c' : comment) (rules : list (json * json)) : Prop :=
  (c_elements c' = c_elements c ∧ c_server_base_url c' = c_server_base_url c) ∧
  (∀ t, t ≠ PolicyViolationDetailRows → c_rows c' t = c_rows c t) ∧
  ∃ rows, c_rows c' PolicyViolationDetailRows = c_rows c PolicyViolationDetailRows ++ rows ∧
    Forall2 (λ a kr, policy_shown (c_server_base_url c) a kr.2) rules rows.

Lemma policy_rows_nil c : policy_rows c c [].
Proof. split_and!; [done..|]. exists []. rewrite app_nil_r. by split; [|constructor]. Qed.
Lemma policy_rows_app c1 c2 c3 l1 l2 :
  policy_rows c1 c2 l1 → policy_rows c2 c3 l2 → policy_rows c1 c3 (l1 ++ l2).
Proof.
  intros ([He1 Hb1] & Ho1 & r1 & Hr1 & Hf1) ([He2 Hb2] & Ho2 & r2 & Hr2 & Hf2). split_and!.
  - by rewrite He2.
  - by rewrite Hb2.
  - intros t Ht. by rewrite Ho2, Ho1.
  - exists (r1 ++ r2). rewrite Hr2, Hr1, <- (assoc_L (++)). split; [done|].
    rewrite Hb1 in Hf2. by apply Forall2_app.
Qed.

Lemma policy_rules_rows policy c c' :
  policy_rules policy c = Ok c' →
  policy_rows c c' (pair policy <$> match attribute "ViolatedRules" policy with
                                    | Ok v => match py_iter v with Ok l => l | Err _ => [] end
                                    | Err _ => [] end).
Proof.
  unfold policy_rules. intros H. apply bindO_ok in H as (v & -> & H).
  apply bindO_ok in H as (l & -> & H). revert c H.
  induction l as [|rule l IH]; intros c H; simpl in H; [simplify_eq; apply policy_rows_nil|].
  apply bindO_ok in H as (c1 & H1 & H). apply (policy_rows_app c c1 c' [_]); [|by apply IH].
  apply bindO_ok in H1 as (name & Hn & H1). apply bindO_ok in H1 as (b & Hbreak & H1).
  unfold add_policy_violation_detail, add_row in H1. apply bindO_ok in H1 as (key & _ & [= <-]).
  split_and!; [done..| |].
  - intros t Ht. simpl. by rewrite decide_False by done.
  - eexists [_]. simpl. split; [done|]. repeat constructor; [done|]. exists b. by split.
Qed.

Lemma policies_rows violations c c' :
  add_policy_violation_details violations c = Ok c' →
  policy_rows (match violations with
               | JArr (_ :: _) => start_policy_violation_detail_section c | _ => c end)
              c' (violated_rules violations).
Proof.
  unfold add_policy_violation_details, violated_rules. intros H.
  destruct violations as [| | | |[|p l]|]; try done; try (simplify_eq/=; apply policy_rows_nil).
  simpl in H. revert H. change (foldO policy_rules (p :: l) (start_policy_violation_detail_section c)
    = Ok c' → policy_rows (start_policy_violation_detail_section c) c' ((p :: l) ≫= λ policy,
      pair policy <$> match attribute "ViolatedRules" policy with
                      | Ok v => match py_iter v with Ok l => l | Err _ => [] end
                      | Err _ => [] end)).
  generalize (start_policy_violation_detail_section c) (p :: l). clear.
  intros c l. revert c. induction l as [|p l IH]; intros c H; simpl in H;
    [simplify_eq; apply policy_rows_nil|].
  apply bindO_ok in H as (c1 & H1 & H). simpl.
  eapply policy_rows_app; [by apply policy_rules_rows|by apply IH].
Qed.

(** The rows of a table against the results they come from. *)
Definition table_shows {A} (c : comment) (t : detail_table) (shown : A → DetailRow → Prop)
    (l : list A) : Prop := Forall2 (λ f kr, shown f kr.2) l (c_rows c t).
Definition reported {A} (skip : A → outcome bool) (l : list A) : list A := List.filter (kept skip) l.
Definition has_policies (violations : json) : bool :=
  match violations with JArr (_ :: _) => true | _ => false end.

Lemma annotation_details c c' :
  add_annotation_section repr jp display_url project_id scanid report d c = Ok c' →
  c_rows c' = c_rows c ∧ c_elements c' Details = c_elements c Details ∧
  c_server_base_url c' = c_server_base_url c.
Proof.
  unfold add_annotation_section. intros H. apply bindO_ok in H as (link & _ & H).
  apply bindO_ok in H as (stat & _ & [= <-]). done.
Qed.

Lemma listed_table {A} t (skip : A → outcome bool) shown l c c' b :
  listed t skip shown l (c, false) (c', b) → c_rows c t = [] →
  table_shows c' t shown (reported skip l).
Proof. intros [(rows & Hr & Hf) _ _ _ _] Hc. unfold table_shows. simpl in Hr. by rewrite Hr, Hc. Qed.

Lemma table_shows_rows {A} c c' t (shown : A → DetailRow → Prop) l :
  c_rows c' t = c_rows c t → table_shows c t shown l → table_shows c' t shown l.
Proof. unfold table_shows. by intros ->. Qed.

(** C30: the report of a scan shows exactly the results that are neither in an
    excluded state nor of an excluded severity, each in one row of the table of
    its engine with all the cells that are made of its own data, the links
    included; the resolved results that are not of an excluded severity; and every
    violated rule.  The section of a table of results is there, once and in a fixed
    order, exactly when it has a row; that of the policies exactly when a policy is
    violated, even by no rule, and then it has no rows ([policies_without_rules]). *)
Theorem report_details violations c :
  make_feedback violations = Ok c →
  table_shows c PolicyViolationDetailRows (policy_shown server_base_url) (violated_rules violations) ∧
  table_shows c SastDetailRows sast_shown (reported skip_result sast_findings) ∧
  table_shows c ResolvedDetailRows resolved_shown (reported skip_resolved resolved_findings) ∧
  table_shows c ScaDetailRows sca_shown (reported skip_result sca_findings) ∧
  table_shows c IacDetailRows iac_shown (reported skip_result iac_findings) ∧
  c_elements c Details =
    shown_if (has_policies violations) PolicyViolationDetailRows ++
    shown_if (existsb (kept skip_result) sast_findings) SastDetailRows ++
    shown_if (existsb (kept skip_resolved) resolved_findings) ResolvedDetailRows ++
    shown_if (existsb (kept skip_result) sca_findings) ScaDetailRows ++
    shown_if (existsb (kept skip_result) iac_findings) IacDetailRows.
Proof.
  unfold feedback_comment. intros H. apply bindO_ok in H as (link & _ & H).
  apply bindO_ok in H as (url & _ & H). apply bindO_ok in H as (c1 & H1 & H).
  apply annotation_details in H1 as (Hr1 & Hd1 & Hb1).
  apply bindO_ok in H as (c2 & H2 & H). apply policies_rows in H2 as ([He2 _] & Ho2 & r2 & Hr2 & Hf2).
  apply bindO_ok in H as (c3 & [b3 H3]%sast_listed & H).
  apply bindO_ok in H as (c4 & [b4 H4]%resolved_listed & H).
  apply bindO_ok in H as (c5 & [b5 H5]%sca_listed & [b6 H6]%iac_listed).
  set (c1' := add_summary_section _ _ _ _ c1) in *.
  set (start := match violations with JArr (_ :: _) => _ | _ => _ end) in *.
  assert (Hs : c_rows start = λ _, []) by 
    (transitivity (c_rows c1); [subst start; by destruct violations as [| | | |[]|]|by rewrite Hr1]).
  assert (Hd : c_elements start Details = shown_if (has_policies violations) PolicyViolationDetailRows).
  { subst start. destruct violations as [| | | |[]|]; simpl; by rewrite ?Hd1. }
  assert (Hrows : ∀ t, t ≠ PolicyViolationDetailRows → c_rows c2 t = []) by (intros; by rewrite Ho2, Hs).
  pose proof (listed_others _ _ _ _ _ _ H3) as O3. pose proof (listed_others _ _ _ _ _ _ H4) as O4.
  pose proof (listed_others _ _ _ _ _ _ H5) as O5. pose proof (listed_others _ _ _ _ _ _ H6) as O6.
  simpl in O3, O4, O5, O6. split_and!.
  - assert (Hbase : c_server_base_url start = server_base_url)
      by (subst start; destruct violations as [| | | |[]|]; simpl; by rewrite ?Hb1).
    unfold table_shows. rewrite O6, O5, O4, O3, Hr2, Hs by done. by rewrite Hbase in Hf2.
  - eapply table_shows_rows; [by rewrite O6, O5, O4|]. eapply listed_table; [done|by apply Hrows].
  - eapply table_shows_rows; [by rewrite O6, O5|]. eapply listed_table; [done|]. rewrite O3; auto.
  - eapply table_shows_rows; [by rewrite O6|]. eapply listed_table; [done|]. rewrite O4, O3; auto.
  - eapply listed_table; [done|]. rewrite O5, O4, O3; auto.
  - pose proof (listed_details _ _ _ _ _ _ H3) as D3. pose proof (listed_details _ _ _ _ _ _ H4) as D4.
    pose proof (listed_details _ _ _ _ _ _ H5) as D5. pose proof (listed_details _ _ _ _ _ _ H6) as D6.
    cbn [fst snd negb andb] in D3, D4, D5, D6.
    rewrite D6, D5, D4, D3, He2, Hd, <- !(assoc_L (++)). done.
Qed.

(** A policy without violated rules starts the section and gives it no row. *)
Lemma policies_without_rules v c :
  attribute "ViolatedRules" v = Ok (JArr []) →
  add_policy_violation_details (JArr [v]) c = Ok (start_policy_violation_detail_section c).
Proof. unfold add_policy_violation_details, policy_rules. simpl. by intros ->. Qed.

(** *** The comment is built by the operations of its class *)
Section built.
Context (base overflow url : string).
Abbreviation built' := (built repr base overflow url).
Definition built_state (st : comment * bool) : Prop := built' st.1.

Lemma start_section_built t c : built' c → built' (start_section t c).
Proof. apply built_start. destruct t; set_solver. Qed.
Lemma titled_built t st : built_state st → built' (titled (start_section t) st).
Proof. destruct st as [c []]; [done|]. apply start_section_built. Qed.

Lemma items_inv {S} (I : S → Prop) (f : json → S → outcome S) k v s s' :
  (∀ r s s', f r s = Ok s' → I s → I s') →
  (let? l := jindex k v in let? l := py_iter l in foldO f l s) = Ok s' → I s → I s'.
Proof.
  intros Hf H. apply bindO_ok in H as (l & _ & H). apply bindO_ok in H as (l' & _ & H).
  revert H. by apply foldO_inv.
Qed.
(** The loop over the values of a query, for its comment. *)
Lemma query_built (f : json → comment * bool → outcome (comment * bool)) l c c' :
  (∀ x st st', f x st = Ok st' → built_state st → built_state st') →
  (let? ' (c, _) := foldO f l (c, false) in Ok c) = Ok c' → built' c → built' c'.
Proof.
  intros Hf H Hc. apply bindO_ok in H as ([c1 b] & H & [= <-]).
  by apply (foldO_inv built_state _ _ _ _ Hf H).
Qed.

Ltac result_built t op :=
  let H := fresh "H" in
  intros H Hs; apply bindO_ok in H as ([] & _ & H); [by injection H as <-|];
  inv_ok; simplify_eq; eapply op; [by apply (titled_built t)|done].

Lemma sast_vulnerability_built link x st st' :
  sast_vulnerability repr permalink server_base_url excluded_severities excluded_states d link x st
    = Ok st' → built_state st → built_state st'.
Proof. unfold sast_vulnerability. result_built SastDetailRows built_sast. Qed.
Lemma sca_cat_result_built x r st st' :
  sca_cat_result repr display_url server_base_url excluded_severities excluded_states
    project_id scanid x r st = Ok st' → built_state st → built_state st'.
Proof. unfold sca_cat_result. result_built ScaDetailRows built_sca. Qed.
Lemma iac_query_result_built x q r st st' :
  iac_query_result repr permalink server_base_url excluded_severities excluded_states d x q r st
    = Ok st' → built_state st → built_state st'.
Proof. unfold iac_query_result. result_built IacDetailRows built_iac. Qed.
Lemma resolved_result_built x r st st' :
  resolved_result server_base_url excluded_severities project_id x r st = Ok st' →
  built_state st → built_state st'.
Proof. unfold resolved_result. result_built ResolvedDetailRows built_resolved. Qed.

Lemma policies_built violations c c' :
  add_policy_violation_details violations c = Ok c' → built' c → built' c'.
Proof.
  unfold add_policy_violation_details. intros H Hc. destruct violations; try done.
  - by injection H as <-.
  - simpl in H. destruct l as [|p l]; [by injection H as <-|].
    apply (start_section_built PolicyViolationDetailRows) in Hc. revert H Hc. apply foldO_inv.
    intros policy c1 c2 H. unfold policy_rules in H.
    apply bindO_ok in H as (rules & _ & H). apply bindO_ok in H as (l' & _ & H). revert H.
    apply foldO_inv. intros rule c3 c4 H Hb. inv_ok. by eapply built_policy.
Qed.

End built.

Lemma feedback_built violations c link url :
  make_feedback violations = Ok c →
  make_cxone_md_scan_link repr display_url project_id scanid (prd_source_branch d)
    (Some "More results...") = Ok link →
  make_cxone_scan_url repr display_url project_id scanid (prd_source_branch d) = Ok url →
  built repr server_base_url (nl +:+ nl +:+ link) url c.
Proof.
  unfold feedback_comment. intros H Hl Hu. rewrite Hl, Hu in H. cbn [bindO] in H. apply bindO_ok in H as (c1 & H1 & H).
  assert (Hc : built repr server_base_url (nl +:+ nl +:+ link) url (add_summary_section repr jp_ext excluded_severities report c1)).
  { unfold add_annotation_section in H1. inv_ok. simplify_eq.
    repeat first [apply built_entry | apply built_summary | apply built_annotation | apply built_new]. }
  apply bindO_ok in H as (c2 & H2 & H). apply (policies_built _ _ _ _ _ _ H2) in Hc.
  apply bindO_ok in H as (c3 & H3 & H).
  eapply query_built in H3; [|intros x st st' Hx; unfold sast_result in Hx;
    apply bindO_ok in Hx as (? & _ & Hx); apply bindO_ok in Hx as (? & _ & Hx); revert Hx;
    apply items_inv; intros; by eapply sast_vulnerability_built|exact Hc].
  apply bindO_ok in H as (c4 & H4 & H).
  eapply query_built in H4; [|intros x st st'; apply items_inv; intros ? ? ?; apply items_inv;
    intros; by eapply resolved_result_built|exact H3].
  apply bindO_ok in H as (c5 & H5 & H6).
  eapply query_built in H5; [|intros x st st'; apply items_inv; intros ? ? ?; apply items_inv;
    intros; by eapply sca_cat_result_built|exact H4].
  eapply query_built in H6; [exact H6|intros x st st'; apply items_inv; intros ? ? ?; apply items_inv;
    intros; by eapply iac_query_result_built|exact H5].
Qed.
End report.

(** The count of a severity with several names is that of the first name found:
    the findings under the other names are not counted. *)
Lemma first_alias_counts repr jp_ext report (query_gen : string → string) found rest :
  jp_ext (query_gen "Info") report = found :: rest →
  get_result_count_map repr jp_ext [] report query_gen INFO =
    str_Z (Z.of_nat (length (found :: rest))).
Proof. intros H. unfold get_result_count_map, first_count. simpl. by rewrite H. Qed.

(** ** What a content promises the service that posts it *)
Section posted.
Context (repr : json → string) (jp jp_ext : string → json → list json).
Context (sorted_rows : list (string * DetailRow) → list DetailRow).
Context (permalink : PRDetails → json → json → outcome string).
Context (display_url server_base_url : string).

(** The text a content is cut off with. *)
Definition overflow_link (p : pr_content) : outcome string :=
  match p with
  | PrescanPullRequestMarkdownAnnotation _ => Ok ""
  | PullRequestMarkdownAnnotation project_id scan_id _ branch =>
      make_cxone_md_scan_link repr display_url project_id scan_id branch None
  | PullRequestMarkdownFeedback _ _ project_id scan_id _ d _ _ =>
      let? link := make_cxone_md_scan_link repr display_url project_id scan_id
                     (prd_source_branch d) (Some "More results...") in
      Ok (nl +:+ nl +:+ link)
  end.

Lemma starts_matches rest : comment_matches_identifier (nl +:+ identifier +:+ nl +:+ rest) = true.
Proof. done. Qed.
Lemma identifier_matches rest : comment_matches_identifier (identifier +:+ rest) = true.
Proof. done. Qed.

Lemma content_recognised c limit s :
  c_elements c Identifier = [Line identifier] →
  (17 + Z.of_nat (String.length (c_overflow_link c)) < limit)%Z →
  get_content sorted_rows c limit = Ok s → comment_matches_identifier s = true.
Proof. intros Hi Hl H. destruct (content_starts _ _ _ _ Hi Hl H) as [rest ->]. apply starts_matches. Qed.

Lemma take_identifier n rest :
  15 ≤ n → take_str n (identifier +:+ rest) = identifier +:+ take_str (n - 15) rest.
Proof.
  intros H. replace n with (15 + (n - 15)) at 1 by lia. done.
Qed.

(** A content that was made fits in the number of characters it is asked for,
    and when there is room for the identifier, a line break and the link to the
    scan, the service recognises the text, when it finds it again among the
    comments of the pull request, as one of its own. *)
Theorem posted_content p cc limit s link :
  make_content repr jp jp_ext sorted_rows permalink display_url server_base_url p = Ok cc →
  overflow_link p = Ok link →
  (17 + Z.of_nat (String.length link) < limit)%Z →
  cc_content cc limit = Ok s →
  (Z.of_nat (String.length s) <= limit)%Z ∧ comment_matches_identifier s = true.
Proof.
  intros Hcc Hlink Hlimit Hs. destruct p as [annotation|pid sid annotation branch|sevs states pid sid
    report d violations status]; simpl in Hcc, Hlink.
  - injection Hcc as <-. simpl in Hs. injection Hs as <-. injection Hlink as <-.
    simpl in Hlimit. unfold prescan_content, slice0.
    rewrite (proj2 (Z.ltb_ge limit 0)) by lia. split.
    + pose proof (length_take_str (Z.to_nat limit)
        (append_comment_identifier ("*" +:+ annotation +:+ "*"))). lia.
    + unfold append_comment_identifier. rewrite take_identifier by lia. apply identifier_matches.
  - apply bindO_ok in Hcc as (c & Hc & [= <-]). unfold annotation_comment in Hc.
    rewrite Hlink in Hc. cbn [bindO] in Hc. apply bindO_ok in Hc as (url & _ & [= <-]).
    cbn [cc_content markdown_content] in Hs. split; [by apply content_cut in Hs as (? & ? & _ & ? & _)|].
    revert Hs. apply content_recognised; [done|exact Hlimit].
  - apply bindO_ok in Hcc as (c & Hc & [= <-]). cbn [cc_content markdown_content] in Hs.
    apply bindO_ok in Hlink as (l & Hl & [= <-]).
    assert (∃ url, make_cxone_scan_url repr display_url pid sid (prd_source_branch d) = Ok url)
      as [url Hu].
    { unfold make_cxone_md_scan_link in Hl. apply bindO_ok in Hl as (url & Hu & _). eauto. }
    pose proof (feedback_built _ _ _ _ _ _ _ _ _ _ _ _ _ _ _ _ Hc Hl Hu) as Hb.
    split; [by apply content_cut in Hs as (? & ? & _ & ? & _)|].
    revert Hs. apply content_recognised; [by apply built_well_formed in Hb as [? _]|].
    apply built_links in Hb as [-> _]. exact Hlimit.
Qed.

Lemma slice0_length t n : (0 <= n)%Z → (Z.of_nat (String.length (slice0 t n)) <= n)%Z.
Proof.
  intros Hn. unfold slice0. rewrite (proj2 (Z.ltb_ge n 0)) by done.
  pose proof (length_take_str (Z.to_nat n) t). lia.
Qed.

(** Every content keeps the limits it is given. *)
Lemma make_content_laws p cc :
  make_content repr jp jp_ext sorted_rows permalink display_url server_base_url p = Ok cc →
  ContentLaws cc.
Proof.
  intros Hcc. split; intros n t Hn; destruct p as [annotation|pid sid annotation branch|sevs states
    pid sid report d violations status]; simpl in Hcc.
  - injection Hcc as <-. simpl. intros [= <-]. by apply slice0_length.
  - apply bindO_ok in Hcc as (c & Hc & [= <-]). simpl. intros Ht. by apply content_cut in Ht as (? & ? & _ & ? & _).
  - apply bindO_ok in Hcc as (c & Hc & [= <-]). simpl. intros Ht. by apply content_cut in Ht as (? & ? & _ & ? & _).
  - injection Hcc as <-. simpl. intros <-. by apply slice0_length.
  - apply bindO_ok in Hcc as (c & Hc & [= <-]). simpl. intros <-. by apply slice0_length.
  - apply bindO_ok in Hcc as (c & Hc & [= <-]). simpl. intros <-. by apply slice0_length.
Qed.
End posted.

(** ** Witnesses *)
Definition demo_finding (state severity : string) : json :=
  JObj [("state", JStr state); ("severity", JStr severity); ("sourceFileName", JStr "a.py");
        ("sourceLine", JInt 7); ("resultViewerLink", JStr "https://v")].
(** A query with two findings; the second is not exploitable. *)
Definition demo_result : json :=
  JObj [("queryDescriptionLink", JStr "https://d"); ("queryName", JStr "SQLI");
        ("vulnerabilities", JArr [demo_finding "Urgent" "High"; demo_finding "Not Exploitable" "High"])].
Definition demo_jp (query : string) (doc : json) : list json :=
  if String.eqb query "$.scanResults.resultsList[*]" then [demo_result] else [].
Definition demo_permalink (d : PRDetails) (file line : json) : outcome string := Ok "https://p".
Definition demo_pr : PRDetails :=
  MkPRDetails (JStr "u") (JStr "p") (JStr "r") (JStr "o") (MkEventContext "" [] (JObj []))
    (JStr "7") (JStr "dev") (JStr "main") (JStr "aa") (JStr "bb").

Definition demo_feedback : outcome comment :=
  feedback_comment demo_repr demo_jp (λ _ _, []) demo_permalink "https://cx/" "https://s"
    [LOW] [NOT_EXPLOITABLE] (JStr "P") (JStr "S") (JObj []) demo_pr JNull.
Definition demo_comment : comment :=
  match demo_feedback with Ok c => c | Err _ => comment_new "" "" "" end.

(** One of the two findings is shown, in the only section there is. *)
Lemma report_details_witness :
  demo_feedback = Ok demo_comment ∧ length (c_rows demo_comment SastDetailRows) = 1 ∧
  c_elements demo_comment Details = section_header SastDetailRows.
Proof.
  split; [reflexivity|].
  pose proof (report_details demo_repr demo_jp (λ _ _, []) demo_permalink "https://cx/" "https://s"
    [LOW] [NOT_EXPLOITABLE] (JStr "P") (JStr "S") (JObj []) demo_pr JNull demo_comment eq_refl)
    as (_ & H & _ & _ & _ & Hd).
  split; [|exact Hd]. symmetry. exact (Forall2_length _ _ _ H).
Defined.

Definition demo_note : pr_content :=
  PullRequestMarkdownAnnotation (JStr "P") (JStr "S") "Scan started" (JStr "dev").
Definition demo_note_content : comment_content :=
  match make_content demo_repr demo_jp (λ _ _, []) merge_rows demo_permalink "https://cx/"
          "https://s" demo_note with
  | Ok cc => cc | Err _ => CommentContent (λ _, Ok "") (slice0 "") None end.
Definition demo_note_text : string :=
  match cc_content demo_note_content 400 with Ok s => s | Err _ => "" end.

Lemma posted_content_witness :
  cc_content demo_note_content 400 = Ok demo_note_text ∧
  comment_matches_identifier demo_note_text = true.
Proof.
  split; [vm_compute; reflexivity|].
  refine (proj2 (posted_content demo_repr demo_jp (λ _ _, []) merge_rows demo_permalink "https://cx/"
    "https://s" demo_note demo_note_content 400 demo_note_text _ eq_refl eq_refl _ _));
    vm_compute; reflexivity.
Defined.
