(* ===== verification/ScmServices.v ===== *)
(** * Decoration of pull requests: [src/scm_services/scm.py], [src/scm_services/gh/]
    and [src/scm_services/policy/]

    The operations a service of a source code host offers the feedback services,
    and the three services of GitHub: comments, commit statuses and check runs.
    Every request goes through the REST session of the service and is a call
    here. *)
From S2P Require Import Prelude PyStr PyJson Url Auth ApiSession Messaging Markdown Content.
Open Scope string_scope.
Open Scope nat_scope.
Open Scope list_scope.

(** ** Calls *)

(** The body of a request: a JSON text, or a dictionary the HTTP library sends. *)
Inductive scm_body : Type := NoBody | JsonBody (v : json) | FormBody (d : dict json).

Inductive scm_ev : Type :=
| ScmCall (ctx : option EventContext) (method path : string) (query : dict json) (body : scm_body)
    (extra_headers : dict string) (url_vars : option (dict string))
| ScmNow                                   (* [datetime.now(UTC).isoformat()] *)
| CxOneDisplayLink.                        (* [self.services.cxone.display_link] *)
Definition scm_resp (e : scm_ev) : Type :=
  match e with ScmCall _ _ _ _ _ _ _ => response | ScmNow | CxOneDisplayLink => string end.
#[global] Arguments scm_resp : simpl never.
Abbreviation scm_prog := (prog scm_ev scm_resp).
Definition scm (e : scm_ev) : scm_prog (scm_resp e) := call e.

(** The requests that change something at the host. *)
Definition is_write (e : scm_ev) : bool :=
  match e with
  | ScmCall _ method _ _ _ _ _ => negb (String.eqb method "GET")
  | _ => false
  end.

(** ** [SCMService]: what it promises the feedback services *)
Record scm_ops : Type := ScmOps {
  s_update : PRDetails → comment_content → ScanMessage → scm_prog unit;
  s_pending : PRDetails → comment_content → scm_prog unit;
  s_failure : PRDetails → comment_content → ScanMessage → scm_prog unit;
  s_success : PRDetails → comment_content → ScanMessage → scm_prog unit;
  s_unrecoverable : PRDetails → ScanMessage → string → scm_prog unit;
  s_prescan_failure : PRDetails → string → scm_prog unit;
  s_permalink : PRDetails → json → json → outcome string }.

Definition SCMService : scm_ops := {|
  s_update _ _ _ := Raise NotImplementedError;
  s_pending _ _ := Raise NotImplementedError;
  s_failure _ _ _ := Raise NotImplementedError;
  s_success _ _ _ := Raise NotImplementedError;
  s_unrecoverable _ _ _ := Raise NotImplementedError;
  s_prescan_failure _ _ := Raise NotImplementedError;
  s_permalink _ _ _ := Err NotImplementedError |}.

(** The double quote *)
Definition dquote : string := String "034"%char "".

(** [PolicyProperties] *)
Definition default_check_name : string := "CheckmarxOne Scan".
Definition policy_check_name (check_name : json) : json :=
  if not_none check_name then check_name else JStr default_check_name.

Definition is_SCMAuthException (e : exn) : bool :=
  match e with SCMAuthException => true | _ => false end.

Section gh.
Context (repr : json → string).
(** [jsonpath_ng], plain and with filters; [cxone_api.util.json_on_ok]. *)
Context (jp jp_ext : string → json → list json).
Context (json_on_ok : response → outcome json).
Context (display_url : string).
(** The most comments a search looks at. *)
Context (page_fuel : nat).

Definition pstr (v : json) : string := py_str repr v.

(** [found.pop().value] *)
Definition pop_value (l : list json) : outcome json := pop l.

(** ** [AbstractGHService] *)
Definition gh_head_sha (d : PRDetails) : outcome json :=
  pop_value (jp "$.pull_request.head.sha" (message (prd_event_context d))).
Definition gh_permalink (d : PRDetails) (code_path code_line : json) : outcome string :=
  Ok (form_url display_url
        ("/" +:+ pstr (prd_organization d) +:+ "/" +:+ pstr (prd_repo_slug d) +:+ "/blob/"
         +:+ pstr (prd_source_branch d) +:+ pstr code_path) (Some ("L" +:+ pstr code_line)) []).

Definition gh_repo (d : PRDetails) : string :=
  "/repos/" +:+ pstr (prd_organization d) +:+ "/" +:+ pstr (prd_repo_slug d).

(** ** [GHServiceBasic]: one comment of the pull request *)
Definition gh_max_content_chars : Z := 65535.
Definition gh_comments_page_max : nat := 100.

(** The second component says that the page is the last. *)
Definition gh_comment_extractor (resp : response) : outcome (option (list json) * bool) :=
  if r_ok resp then
    let? j := r_json resp in
    let? l := as_arr j in
    Ok (Some l, gh_comments_page_max <=? length l)
  else Err TypeError.
Definition gh_comments_path (d : PRDetails) : string :=
  gh_repo d +:+ "/issues/" +:+ pstr (prd_pr_id d) +:+ "/comments".
Definition gh_comment_request (d : PRDetails) (offset : nat) : scm_prog response :=
  scm (ScmCall (Some (prd_event_context d)) "GET" (gh_comments_path d)
         [("per_page", JInt (Z.of_nat gh_comments_page_max)); ("page", JInt (Z.of_nat (offset + 1)))]
         NoBody [] None).

(** The body of the search: the identifier of a comment that is recognised. *)
Definition gh_comment_found (comment : json) : outcome (option json) :=
  let? has_id := jhas "id" comment in
  let? has_body := if has_id then jhas "body" comment else Ok false in
  if has_body then
    let? id := jindex "id" comment in
    let? body := jindex "body" comment in
    let? text := as_str body in
    Ok (if comment_matches_identifier text then Some id else None)
  else Ok None.

Definition gh_find_comment (d : PRDetails) : scm_prog (option json) :=
  gen_find (gh_comment_request d) gh_comment_extractor gh_comment_found page_fuel gen_init.

Definition gh_post_comment (d : PRDetails) (content : string) : scm_ev :=
  ScmCall (Some (prd_event_context d)) "POST" (gh_comments_path d) []
    (JsonBody (JObj [("body", JStr content)])) [] None.
Definition gh_patch_comment (d : PRDetails) (target_id : json) (content : string) : scm_ev :=
  ScmCall (Some (prd_event_context d)) "PATCH"
    (gh_repo d +:+ "/issues/comments/" +:+ pstr target_id) []
    (JsonBody (JObj [("body", JStr content)])) [] None.

(** [__create_or_update_pr_comment]; a [null] identifier is none. *)
Definition gh_create_or_update (d : PRDetails) (content : string) : scm_prog unit :=
  let! found := gh_find_comment d in
  match found with
  | None | Some JNull =>
      let! r := (scm (gh_post_comment d content) : scm_prog response) in
      let! resp := lift (json_on_ok r) in
      let! _ := lift (jindex "id" resp) in Ret tt
  | Some target_id =>
      let! r := (scm (gh_patch_comment d target_id content) : scm_prog response) in
      let! _ := lift (json_on_ok r) in Ret tt
  end.

Definition gh_decorate (d : PRDetails) (content : comment_content) : scm_prog unit :=
  let! text := lift (cc_content content gh_max_content_chars) in
  gh_create_or_update d text.

Definition GHServiceBasic : scm_ops := {|
  s_update d content _ := gh_decorate d content;
  s_pending d content := gh_decorate d content;
  s_failure d content _ := gh_decorate d content;
  s_success d content _ := gh_decorate d content;
  s_unrecoverable d _ _ := gh_create_or_update d (append_comment_identifier
    "An unrecoverable error was encountered while processing the pull-request.");
  s_prescan_failure d _ := gh_create_or_update d (append_comment_identifier
    "Unrecoverable PR prescan failure.");
  s_permalink := gh_permalink |}.

(** ** [GHServiceCommitStatus]: also a status of the commit *)
Definition gh_status_msg_max : Z := 64.
Definition gh_api_headers : dict string :=
  [("accept", "application/vnd.github+json"); ("Content-Type", "application/json")].

Definition scan_url_json (content : comment_content) : json :=
  match cc_scan_url content with Some u => JStr u | None => JNull end.

Section policy.
Context (check_name : json).

Definition gh_status_payload (state : string) (content : comment_content) : json :=
  JObj [("state", JStr state); ("target_url", scan_url_json content);
        ("description", JStr (cc_status_msg content gh_status_msg_max)); ("context", check_name)].
Definition gh_plaintext_payload (state content : string) : json :=
  JObj [("state", JStr state); ("target_url", JNull); ("description", JStr content);
        ("context", check_name)].
Definition gh_status_url (d : PRDetails) : outcome string :=
  let? sha := gh_head_sha d in Ok (gh_repo d +:+ "/statuses/" +:+ pstr sha).

Definition gh_post_update (d : PRDetails) (update_body : json) : scm_prog response :=
  let! url := lift (gh_status_url d) in
  scm (ScmCall (Some (prd_event_context d)) "POST" url [] (JsonBody update_body) gh_api_headers None).

(** A status that is refused is only logged. *)
Definition gh_update_status (state : string) (d : PRDetails) (content : comment_content) :
    scm_prog unit :=
  let! _ := lift (gh_status_url d) in
  let! resp := gh_post_update d (gh_status_payload state content) in
  if r_ok resp then let! _ := lift (json_on_ok resp) in Ret tt else Ret tt.

Definition GHServiceCommitStatus : scm_ops := {|
  s_update d content m := do! gh_update_status "pending" d content in s_update GHServiceBasic d content m;
  s_pending d content := do! gh_update_status "pending" d content in s_pending GHServiceBasic d content;
  s_failure d content m := do! gh_update_status "error" d content in s_failure GHServiceBasic d content m;
  s_success d content m := do! gh_update_status "success" d content in s_success GHServiceBasic d content m;
  s_unrecoverable d m fail_msg :=
    let! _ := gh_post_update d (gh_plaintext_payload "error" fail_msg) in
    s_unrecoverable GHServiceBasic d m fail_msg;
  s_prescan_failure d fail_msg :=
    let! _ := gh_post_update d (gh_plaintext_payload "error" fail_msg) in Ret tt;
  s_permalink := gh_permalink |}.

(** ** [GHServiceChecks]: check runs *)

(** [CheckActionEnum] *)
Definition SCAN_ACTION : string := "RERUNSCAN".
Definition CANCEL_ACTION : string := "CANCELSCAN".
Definition gh_summary_text : string :=
  "[CheckmarxOne](https://docs.checkmarx.com/) scans are orchestrated by [CxOneFlow](https://github.com/checkmarx-ts/cxone-flow)".

(** [_get_head_sha]: of a requested action, or else of the pull request. *)
Definition check_head_sha (d : PRDetails) : outcome json :=
  match jp "$.check_run.check_suite.pull_requests[0].head.sha" (message (prd_event_context d)) with
  | [] => gh_head_sha d
  | found => pop_value found
  end.

(** [except SCMAuthException]: logged, and the method returns [None]. *)
Definition unless_forbidden (p : scm_prog json) : scm_prog json :=
  catch is_SCMAuthException p (λ _, Ret JNull).

Definition find_running_check (d : PRDetails) (status : string) : scm_prog json :=
  let! head_sha := lift (check_head_sha d) in
  if negb (not_none head_sha) then Ret JNull
  else
    unless_forbidden
      (let! resp := (scm (ScmCall (Some (prd_event_context d)) "GET"
                       (gh_repo d +:+ "/commits/" +:+ pstr head_sha +:+ "/check-runs")
                       [("check_name", check_name); ("status", JStr status)] NoBody
                       gh_api_headers None) : scm_prog response) in
       let! check_data := lift (json_on_ok resp) in
       match jp_ext ("$.check_runs[?(@.head_sha == " +:+ dquote +:+ pstr head_sha +:+ dquote +:+ ")].id")
                    check_data with
       | [] => Ret JNull
       | found_check => lift (pop_value found_check)
       end).

Definition patch_check_run (d : PRDetails) (payload run_id : json) : scm_ev :=
  ScmCall (Some (prd_event_context d)) "PATCH" (gh_repo d +:+ "/check-runs/" +:+ pstr run_id) []
    (JsonBody payload) gh_api_headers None.
Definition post_check_run (d : PRDetails) (payload : json) : scm_ev :=
  ScmCall (Some (prd_event_context d)) "POST" (gh_repo d +:+ "/check-runs") [] (JsonBody payload)
    gh_api_headers None.
Definition update_run (d : PRDetails) (payload run_id : json) : scm_prog json :=
  unless_forbidden
    (let! resp := (scm (patch_check_run d payload run_id) : scm_prog response) in
     do! lift (json_on_ok resp) in Ret JNull).
Definition create_run (d : PRDetails) (payload : json) : scm_prog json :=
  unless_forbidden
    (let! resp := (scm (post_check_run d payload) : scm_prog response) in
     let! create_data := lift (json_on_ok resp) in
     lift (pop_value (jp "$.id" create_data))).

Definition check_output (title text : string) : json :=
  JObj [("title", JStr title); ("summary", JStr gh_summary_text); ("text", JStr text)].
Definition check_actions (label description id : string) : json :=
  JArr [JObj [("label", JStr label); ("description", JStr description); ("identifier", JStr id)]].
Definition rerun_action : json := check_actions "Re-run scan" "Runs the scan again" SCAN_ACTION.
Definition cancel_action : json := check_actions "Cancel scan" "Cancels the running scan" CANCEL_ACTION.

(** The output of a content, within the limit of a check run. *)
Definition content_output (content : comment_content) : outcome json :=
  let title := cc_status_msg content gh_max_content_chars in
  let? text := cc_content content gh_max_content_chars in
  Ok (check_output title text).

(** A payload: the name and commit, [fields], the output and the actions. *)
Definition check_payload (sha : json) (fields : dict json) (output : json) (actions : list json) : json :=
  JObj ([("name", check_name); ("head_sha", sha)] ++ fields ++ [("output", output)]
        ++ (pair "actions" <$> actions)).

Definition check_scan_update (d : PRDetails) (content : comment_content) (m : ScanMessage) :
    scm_prog unit :=
  let! run_id := find_running_check d "queued" in
  let! sha := lift (check_head_sha d) in
  let! output := lift (content_output content) in
  let payload := check_payload sha [("external_id", sm_scanid m); ("status", JStr "in_progress")]
                   output [cancel_action] in
  do! (if negb (not_none run_id) then create_run d payload else update_run d payload run_id) in Ret tt.

Definition check_scan_pending (d : PRDetails) (content : comment_content) : scm_prog unit :=
  let! sha := lift (check_head_sha d) in
  let! output := lift (content_output content) in
  do! create_run d (check_payload sha [("status", JStr "queued")] output []) in Ret tt.

(** The run is completed, when there is one in the given status. *)
Definition complete_run (d : PRDetails) (status : string) (fields : dict json) (conclusion : string)
    (output : outcome json) (actions : list json) : scm_prog unit :=
  let! run_id := find_running_check d status in
  if negb (not_none run_id) then Ret tt
  else
    let! sha := lift (check_head_sha d) in
    let! output := lift output in
    do! update_run d (check_payload sha (fields ++ [("status", JStr "completed");
                       ("conclusion", JStr conclusion)]) output actions) run_id in
    Ret tt.

Definition GHServiceChecks : scm_ops := {|
  s_update := check_scan_update;
  s_pending := check_scan_pending;
  s_failure d content m :=
    complete_run d "in_progress" [("external_id", sm_scanid m)] "failure" (content_output content)
      [rerun_action];
  s_success d content m :=
    complete_run d "in_progress" [("external_id", sm_scanid m)] "success" (content_output content) [];
  s_unrecoverable d m fail_msg :=
    complete_run d "in_progress" [("external_id", sm_scanid m)] "failure"
      (Ok (check_output "Unrecoverable Error" fail_msg)) [rerun_action];
  s_prescan_failure d fail_msg :=
    complete_run d "queued" [] "failure" (Ok (check_output "Prescan failure" fail_msg)) [];
  s_permalink := gh_permalink |}.
End policy.

(** ** Theorems: check runs *)
Section check_theorems.
Context (check_name : json).
Abbreviation service := (GHServiceChecks check_name).

Ltac silent := intros; repeat first [apply only_ret | apply only_lift | apply only_bind; [|intros ?]].

(** One request, whatever comes of it. *)
Lemma unless_forbidden_one (e : scm_ev) (q : scm_resp e → scm_prog json) tr o :
  (∀ r, only (λ _, False) (q r)) →
  exec (unless_forbidden (let! r := scm e in q r)) tr o → ∃ ob, tr = [ob] ∧ projT1 ob = e.
Proof.
  unfold unless_forbidden, scm, catch. intros Hq H.
  apply exec_on_outcome in H as (o1 & tr1 & tr2 & -> & H1 & H).
  assert (tr2 = []) as ->. { destruct o1 as [v|x]; [by destruct H|]. case_match; by destruct H. }
  rewrite app_nil_r. call_step H1 as [(r & tr & -> & H1)|(x & -> & _)]; [|by eexists].
  specialize (Hq r tr _ H1). destruct tr; [by eexists|]. by inversion Hq.
Qed.

Lemma update_run_one d payload run tr o :
  exec (update_run d payload run) tr o → ∃ ob, tr = [ob] ∧ projT1 ob = patch_check_run d payload run.
Proof. apply unless_forbidden_one. silent. Qed.
Lemma create_run_one d payload tr o :
  exec (create_run d payload) tr o → ∃ ob, tr = [ob] ∧ projT1 ob = post_check_run d payload.
Proof. apply unless_forbidden_one. silent. Qed.

(** Looking for a run is at most one read. *)
Lemma find_running_reads d status tr run :
  exec (find_running_check check_name d status) tr (Ok run) →
  tr = [] ∨ ∃ ob, tr = [ob] ∧ is_write (projT1 ob) = false.
Proof.
  unfold find_running_check. intros H. apply exec_lift_bind_ok in H as (sha & _ & H).
  destruct (not_none sha); [|left; by destruct H].
  apply unless_forbidden_one in H as (ob & -> & He); [right; exists ob; by rewrite He|].
  intros r. apply only_bind; [silent|]. intros v. destruct (jp_ext _ v); silent.
Qed.

(** The request that gives the run of a pull request its next state. *)
Inductive moves_run (d : PRDetails) (run : json) (fields : dict json) (output : json)
    (actions : list json) : list (obs scm_ev scm_resp) → Prop :=
| move_run ob sha :
    check_head_sha d = Ok sha →
    projT1 ob = (let payload := check_payload check_name sha fields output actions in
                 if not_none run then patch_check_run d payload run else post_check_run d payload) →
    moves_run d run fields output actions [ob].

Lemma complete_run_moves d status fields conclusion output actions tr :
  exec (complete_run check_name d status fields conclusion output actions) tr (Ok tt) →
  ∃ found run rest, tr = found ++ rest ∧
    exec (find_running_check check_name d status) found (Ok run) ∧
    if not_none run
    then ∃ out, output = Ok out ∧
      moves_run d run (fields ++ [("status", JStr "completed"); ("conclusion", JStr conclusion)]) out
        actions rest
    else rest = [].
Proof.
  unfold complete_run. intros H. apply exec_bind_ok in H as (run & tr1 & tr2 & -> & H1 & H).
  exists tr1, run, tr2. split; [done|]. split; [done|].
  destruct (not_none run) eqn:Hr; [|by destruct H].
  apply exec_lift_bind_ok in H as (sha & Hs & H). apply exec_lift_bind_ok in H as (out & Ho & H).
  exists out. split; [done|]. apply exec_bind_ok in H as (v & tr3 & tr4 & -> & H & [-> _]).
  rewrite app_nil_r. apply update_run_one in H as (ob & -> & Hob).
  econstructor; [done|]. by rewrite Hr.
Qed.

(** The check run of a pull request goes through its states in order.  A
    pending scan queues a new run.  A scan that starts puts the queued run of the
    commit in progress, or starts a new one when there is none.  A finished scan
    completes the run in progress of the commit, with its conclusion, and a
    delegated scan that failed completes the queued one; without such a run they
    change nothing. *)
Theorem check_run_states d cc m fail_msg tr :
  (exec (s_pending service d cc) tr (Ok tt) →
     ∃ out, content_output cc = Ok out ∧
       moves_run d JNull [("status", JStr "queued")] out [] tr) ∧
  (exec (s_update service d cc m) tr (Ok tt) →
     ∃ found run rest out, tr = found ++ rest ∧ content_output cc = Ok out ∧
       exec (find_running_check check_name d "queued") found (Ok run) ∧
       moves_run d run [("external_id", sm_scanid m); ("status", JStr "in_progress")] out
         [cancel_action] rest) ∧
  (∀ p status fields conclusion output actions,
     (p, (status, fields, conclusion), (output, actions)) ∈
       [(s_success service d cc m, ("in_progress", [("external_id", sm_scanid m)], "success"),
           (content_output cc, []));
        (s_failure service d cc m, ("in_progress", [("external_id", sm_scanid m)], "failure"),
           (content_output cc, [rerun_action]));
        (s_unrecoverable service d m fail_msg,
           ("in_progress", [("external_id", sm_scanid m)], "failure"),
           (Ok (check_output "Unrecoverable Error" fail_msg), [rerun_action]));
        (s_prescan_failure service d fail_msg, ("queued", [], "failure"),
           (Ok (check_output "Prescan failure" fail_msg), []))] →
     exec p tr (Ok tt) →
     ∃ found run rest, tr = found ++ rest ∧
       exec (find_running_check check_name d status) found (Ok run) ∧
       if not_none run
       then ∃ out, output = Ok out ∧
         moves_run d run (fields ++ [("status", JStr "completed"); ("conclusion", JStr conclusion)])
           out actions rest
       else rest = []).
Proof.
  split_and!.
  - simpl. unfold check_scan_pending. intros H. apply exec_lift_bind_ok in H as (sha & Hs & H).
    apply exec_lift_bind_ok in H as (out & Ho & H). exists out. split; [done|].
    apply exec_bind_ok in H as (v & tr3 & tr4 & -> & H & [-> _]). rewrite app_nil_r.
    apply create_run_one in H as (ob & -> & Hob). by econstructor.
  - simpl. unfold check_scan_update. intros H. apply exec_bind_ok in H as (run & tr1 & tr2 & -> & H1 & H).
    apply exec_lift_bind_ok in H as (sha & Hs & H). apply exec_lift_bind_ok in H as (out & Ho & H).
    exists tr1, run, tr2, out. split_and!; [done..|].
    apply exec_bind_ok in H as (v & tr3 & tr4 & -> & H & [-> _]). rewrite app_nil_r.
    destruct (not_none run) eqn:Hr.
    + apply update_run_one in H as (ob & -> & Hob). econstructor; [done|]. by rewrite Hr.
    + apply create_run_one in H as (ob & -> & Hob). econstructor; [done|]. by rewrite Hr.
  - intros p status fields conclusion output actions Hin. rewrite !elem_of_cons, elem_of_nil in Hin.
    destruct Hin as [[= -> -> -> -> -> ->]|[[= -> -> -> -> -> ->]|[[= -> -> -> -> -> ->]|[[= -> -> -> -> -> ->]|[]]]]];
      apply complete_run_moves.
Qed.
End check_theorems.

(** The page flag of the comments is the wrong way round: a full page counts as
    the last.  With a hundred comments of others on it, the program's own
    comment on the next page is not found, and another one is made. *)
Lemma gh_full_page_is_last d l resp :
  r_ok resp = true → r_json resp = Ok (JArr l) → gh_comments_page_max ≤ length l →
  (∀ x, x ∈ l → gh_comment_found x = Ok None) → length l < page_fuel →
  ∃ tr, exec (gh_find_comment d) tr (Ok None) ∧ length tr = 1.
Proof.
  intros Hok Hj Hl Hnone Hfuel.
  set (e := ScmCall (Some (prd_event_context d)) "GET" (gh_comments_path d)
    [("per_page", JInt (Z.of_nat gh_comments_page_max)); ("page", JInt (Z.of_nat (0 + 1)))] NoBody [] None
    : scm_ev).
  exists [Obs e (Ok resp)]. split; [|done]. unfold gh_find_comment.
  replace page_fuel with (length l + S (page_fuel - length l - 1)) by lia.
  apply (gen_find_pass _ _ _ 0 [Obs e (Ok resp)] resp l true []).
  - unfold gh_comment_request, scm. by apply (exec_call (Ev:=scm_ev) (Resp:=scm_resp)).
  - destruct l; [unfold gh_comments_page_max in Hl; simpl in Hl; lia|done].
  - unfold gh_comment_extractor. rewrite Hok, Hj. cbn [bindO as_arr].
    by rewrite (proj2 (Nat.leb_le _ _) Hl).
  - done.
  - done.
Qed.
End gh.
