(* ===== verification/ScmHosts.v ===== *)
(** * Decoration of pull requests: [src/scm_services/gl.py],
    [src/scm_services/adoe/] and [src/scm_services/bitbucket/]

    The services of GitLab, Azure DevOps, Bitbucket Data Center and Bitbucket
    Cloud, and the service of each configured class. *)
From S2P Require Import Prelude PyStr PyJson Url Auth ApiSession Messaging ScmConfig Markdown Content ScmServices.
Open Scope string_scope.
Open Scope nat_scope.
Open Scope list_scope.

Section hosts.
Context (repr : json → string).
Context (jp jp_ext : string → json → list json).
Context (json_on_ok : response → outcome json).
(** [json.dumps] of a value inside another one *)
Context (dumps : json → string).
Context (display_url : string).
Context (page_fuel : nat).

Abbreviation pstr := (pstr repr).

(** [comment[k]] as the text the identifier is looked for in. *)
Definition recognised (k : string) (comment : json) : outcome bool :=
  let? v := jindex k comment in
  let? text := as_str v in
  Ok (comment_matches_identifier text).

Definition json_headers : dict string := [("Content-Type", "application/json")].

(** ** GitLab: [GLService] *)
Definition gl_max_content_chars : Z := 1000000.
Definition gl_notes_api_path : string := "/projects/:id/merge_requests/:merge_request_iid/notes".
Definition gl_note_update_api_path : string :=
  "/projects/:id/merge_requests/:merge_request_iid/notes/:note_id".

(** The loop over all notes: the last one that is recognised. *)
Definition gl_note (comment : json) (note_id : option json) : outcome (option json) :=
  let? mine := recognised "body" comment in
  if mine then let? id := jindex "id" comment in Ok (Some id) else Ok note_id.

Definition gl_post (method path : string) (vars : dict string) (content : string) : scm_ev :=
  ScmCall None method path [] (FormBody [("body", JStr content)]) [] (Some vars).

(** The content: one of the classes, or the text of an error. *)
Definition gl_create_or_update (d : PRDetails) (content : outcome string) : scm_prog unit :=
  let! slug := lift (need_str (prd_repo_slug d)) in
  let vars := [("id", quote_plus slug); ("merge_request_iid", pstr (prd_pr_id d))] in
  let! resp := (scm (ScmCall None "GET" gl_notes_api_path [] NoBody [] (Some vars)) : scm_prog response) in
  let! existing := lift (json_on_ok resp) in
  let! comments := lift (py_iter existing) in
  let! note := lift (foldO gl_note comments None) in
  let! text := lift content in
  let! posted := (match note with
                  | None => scm (gl_post "POST" gl_notes_api_path vars text)
                  | Some id => scm (gl_post "PUT" gl_note_update_api_path
                                      (vars ++ [("note_id", pstr id)]) text)
                  end : scm_prog response) in
  let! _ := lift (json_on_ok posted) in Ret tt.

Definition gl_decorate (d : PRDetails) (content : comment_content) : scm_prog unit :=
  gl_create_or_update d (cc_content content gl_max_content_chars).

Definition GLService : scm_ops := {|
  s_update d content _ := gl_decorate d content;
  s_pending d content := gl_decorate d content;
  s_failure d content _ := gl_decorate d content;
  s_success d content _ := gl_decorate d content;
  s_unrecoverable d _ fail_msg := gl_create_or_update d (Ok (append_comment_identifier fail_msg));
  s_prescan_failure := s_prescan_failure SCMService;
  s_permalink d code_path code_line :=
    Ok (form_url display_url
          ("/" +:+ pstr (prd_repo_slug d) +:+ "/-/blob/" +:+ pstr (prd_source_branch d)
           +:+ pstr code_path) (Some ("L" +:+ pstr code_line)) []) |}.

(** ** Azure DevOps: [ADOEServiceBasic] *)
Definition ado_max_content_chars : Z := 150000.
Definition thread_prop_key : string := "cxoneflow".

Definition ado_threads_path (d : PRDetails) : string :=
  pstr (prd_organization d) +:+ "/" +:+ pstr (prd_repo_project d) +:+ "/_apis/git/repositories/"
  +:+ pstr (prd_repo_slug d) +:+ "/pullRequests/" +:+ pstr (prd_pr_id d) +:+ "/threads".
Definition ado_api_version : dict json := [("api-version", JStr "7.0")].

(** The thread is one of the program's, and not deleted. *)
Definition ado_own_thread (thread : json) : outcome bool :=
  let? has := jhas "properties" thread in
  if negb has then Ok false
  else
    let? props := jindex "properties" thread in
    if negb (not_none props) then Ok false
    else
      let? own := jhas thread_prop_key props in
      if negb own then Ok false
      else let? deleted := jindex "isDeleted" thread in Ok (negb (truthy deleted)).
Fixpoint ado_first_thread (threads : list json) : outcome json :=
  match threads with
  | [] => Ok JNull
  | t :: threads' =>
      let? own := ado_own_thread t in
      if own then jindex "id" t else ado_first_thread threads'
  end.
Definition ado_get_pr_thread (d : PRDetails) : scm_prog json :=
  let! resp := (scm (ScmCall None "GET" (ado_threads_path d) ado_api_version NoBody [] None) : scm_prog response) in
  let! threads := lift (json_on_ok resp) in
  let! value := lift (jindex "value" threads) in
  let! l := lift (py_iter value) in
  lift (ado_first_thread l).

Definition ado_patch_thread (d : PRDetails) (thread_id : json) (annotation : string) : scm_ev :=
  ScmCall None "PATCH" (ado_threads_path d +:+ "/" +:+ pstr thread_id +:+ "/comments/1")
    ado_api_version (JsonBody (JObj [("content", JStr annotation)])) json_headers None.
Definition ado_update_pr_thread (d : PRDetails) (thread_id : json) (annotation : string) : scm_prog unit :=
  let! resp := (scm (ado_patch_thread d thread_id annotation) : scm_prog response) in
  let! _ := lift (json_on_ok resp) in Ret tt.

Definition ado_thread_payload (now annotation status_msg : string) : json :=
  JObj [("comments", JArr [JObj [("parentCommentId", JInt 0); ("content", JStr annotation);
                                 ("commentType", JInt 1)]]);
        ("status", JInt 1);
        ("properties", JObj [(thread_prop_key,
           JStr (dumps (JObj [("timestamp", JStr now); ("status", JStr status_msg)])))])].
Definition ado_post_thread (d : PRDetails) (now annotation status_msg : string) : scm_ev :=
  ScmCall None "POST" (ado_threads_path d) ado_api_version
    (JsonBody (ado_thread_payload now annotation status_msg)) json_headers None.
Definition ado_create_pr_thread (d : PRDetails) (annotation status_msg : string) : scm_prog unit :=
  let! now := (scm ScmNow : scm_prog string) in
  let! resp := (scm (ado_post_thread d now annotation status_msg) : scm_prog response) in
  let! thread := lift (json_on_ok resp) in
  if not_none thread then let! _ := lift (jindex "id" thread) in Ret tt else Ret tt.

Definition ado_create_or_update (d : PRDetails) (content : comment_content) : scm_prog unit :=
  let! existing_thread := ado_get_pr_thread d in
  let! text := lift (cc_content content ado_max_content_chars) in
  if negb (not_none existing_thread)
  then ado_create_pr_thread d text (cc_status_msg content ado_max_content_chars)
  else ado_update_pr_thread d existing_thread text.

Definition ADOEServiceBasic : scm_ops := {|
  s_update d content _ := ado_create_or_update d content;
  s_pending d content := ado_create_or_update d content;
  s_failure d content _ := ado_create_or_update d content;
  s_success d content _ := ado_create_or_update d content;
  s_unrecoverable d _ fail_msg :=
    let! existing_thread := ado_get_pr_thread d in
    if not_none existing_thread then ado_update_pr_thread d existing_thread fail_msg else Ret tt;
  s_prescan_failure := s_prescan_failure SCMService;
  s_permalink d code_path code_line :=
    Ok (form_url display_url
          (pstr (prd_organization d) +:+ "/" +:+ pstr (prd_repo_project d) +:+ "/_git/"
           +:+ pstr (prd_repo_slug d)) None
          [("path", pstr code_path); ("version", "GB" +:+ pstr (prd_source_branch d));
           ("line", pstr code_line); ("lineEnd", pstr code_line); ("lineStartColumn", "0");
           ("lineEndColumn", "1024"); ("lineStyle", "plain"); ("_a", "contents")]) |}.

(** *** [ADOEServiceChecks]: also a status of the iteration *)
Definition ado_max_check_string_len : Z := 128.

Section ado_checks.
Context (check_name check_genre : json).

(** [genre + '/'] needs a string. *)
Definition ado_check_name : outcome string :=
  let? prefix := (if not_none check_genre then let? g := need_str check_genre in Ok (g +:+ "/")
                  else Ok "") in
  Ok (prefix +:+ pstr check_name).

(** The conditional expression covers the whole union. *)
Definition ado_payload (state : string) (scan_url : option string) (msg : string) (iteration : json) :
    outcome json :=
  match scan_url with
  | Some url =>
      let? name := ado_check_name in
      Ok (JObj (dunion [("iterationId", iteration); ("state", JStr state);
                        ("description", JStr (name +:+ ": " +:+ msg));
                        ("context", JObj [("name", check_name); ("genre", check_genre)])]
                       [("targetUrl", JStr url)]))
  | None => Ok (JObj [])
  end.

Definition ado_pr_path (d : PRDetails) (suffix : string) : string :=
  "/" +:+ pstr (prd_organization d) +:+ "/" +:+ pstr (prd_repo_project d)
  +:+ "/_apis/git/repositories/" +:+ pstr (prd_repo_slug d) +:+ "/pullRequests/"
  +:+ pstr (prd_pr_id d) +:+ suffix.

Definition ado_get_iteration (d : PRDetails) : scm_prog json :=
  let! resp := (scm (ScmCall None "GET" (ado_pr_path d "/iterations?api-version=7.1") [] NoBody [] None)
                : scm_prog response) in
  let! iterations := lift (json_on_ok resp) in
  let! hash := lift (pop_value (jp "$.resource.lastMergeSourceCommit.commitId"
                                  (message (prd_event_context d)))) in
  match jp_ext ("$.value[?(@.sourceRefCommit.commitId == " +:+ dquote +:+ pstr hash +:+ dquote +:+ ")].id")
               iterations with
  | [] => Ret (JInt 1)
  | l => lift (pop_value l)
  end.

Definition ado_status (d : PRDetails) (payload : json) : scm_ev :=
  ScmCall None "POST" (ado_pr_path d "/statuses?api-version=7.1") [] (JsonBody payload) json_headers None.

(** A status that is refused, or not permitted, is only logged; the log of a
    refusal needs the name of the check. *)
Definition ado_set_check_status (d : PRDetails) (state : string) (scan_url : option string)
    (msg : string) : scm_prog unit :=
  catch is_SCMAuthException
    (let! iteration := ado_get_iteration d in
     let! payload := lift (ado_payload state scan_url msg iteration) in
     let! resp := (scm (ado_status d payload) : scm_prog response) in
     if r_ok resp then Ret tt else let! _ := lift ado_check_name in Ret tt)
    (λ _, Ret tt).

Definition ado_check_then (state : string) (d : PRDetails) (content : comment_content) (rest : scm_prog unit) :
    scm_prog unit :=
  do! ado_set_check_status d state (cc_scan_url content)
        (cc_status_msg content ado_max_check_string_len) in
  rest.

Definition ADOEServiceChecks : scm_ops := {|
  s_update d content m := ado_check_then "pending" d content (s_update ADOEServiceBasic d content m);
  s_pending d content := ado_check_then "pending" d content (s_pending ADOEServiceBasic d content);
  s_failure d content m := ado_check_then "failed" d content (s_failure ADOEServiceBasic d content m);
  s_success d content m := ado_check_then "succeeded" d content (s_success ADOEServiceBasic d content m);
  s_unrecoverable d m fail_msg :=
    do! ado_set_check_status d "error" None fail_msg in s_unrecoverable ADOEServiceBasic d m fail_msg;
  s_prescan_failure := s_prescan_failure SCMService;
  s_permalink := s_permalink ADOEServiceBasic |}.
End ado_checks.

(** ** Bitbucket Cloud: [BBCServiceBasic]

    Its page generator has the loop of [async_api_page_generator], with the pages
    counted from one. *)
Definition bbc_max_content_chars : Z := 32767.

Definition bbc_comments_path (d : PRDetails) : string :=
  "/repositories/" +:+ pstr (prd_organization d) +:+ "/" +:+ pstr (prd_repo_slug d)
  +:+ "/pullrequests/" +:+ pstr (prd_pr_id d) +:+ "/comments".
Definition bbc_page (path : string) (k : nat) : scm_prog response :=
  scm (ScmCall None "GET" path [("page", JInt (Z.of_nat (k + 1)))] NoBody [] None).
Definition bbc_page_values (resp : response) : outcome (option (list json) * bool) :=
  let? j := json_on_ok resp in
  let? values := jindex "values" j in
  match values with
  | JNull => Ok (None, false)
  | v => let? l := as_arr v in
         match l with
         | [] => Ok (Some [], false)
         | _ => let? next := jget "next" j in Ok (Some l, negb (not_none next))
         end
  end.

(** [comment.get("content", {}).get("raw", None)] *)
Definition bbc_comment_found (comment : json) : outcome (option json) :=
  let? has := jhas "content" comment in
  let? content := if has then jget "content" comment else Ok (JObj []) in
  let? raw := jget "raw" content in
  if negb (not_none raw) then Ok None
  else
    let? text := as_str raw in
    if comment_matches_identifier text then let? id := jget "id" comment in Ok (Some id) else Ok None.
Definition bbc_find_existing_comment (d : PRDetails) : scm_prog (option json) :=
  gen_find (bbc_page (bbc_comments_path d)) bbc_page_values bbc_comment_found page_fuel gen_init.

(** [__mutate_comment]: a refusal is only logged. *)
Definition bbc_mutate_comment (exec_coroutine : scm_prog response) : scm_prog unit :=
  let! response := exec_coroutine in
  if negb (r_ok response) then Ret tt
  else
    let! comment := lift (r_json response) in
    let! _ := lift (jget "id" comment) in Ret tt.
Definition bbc_content (content : string) : json :=
  JObj [("content", JObj [("raw", JStr content)])].
Definition bbc_post (d : PRDetails) (content : string) : scm_ev :=
  ScmCall None "POST" (bbc_comments_path d) [] (JsonBody (bbc_content content)) json_headers None.
Definition bbc_put (d : PRDetails) (comment_id : json) (content : string) : scm_ev :=
  ScmCall None "PUT" (bbc_comments_path d +:+ "/" +:+ pstr comment_id) []
    (JsonBody (bbc_content content)) json_headers None.

(** A comment without an identifier is none. *)
Definition bbc_create_or_update (d : PRDetails) (markdown : string) : scm_prog unit :=
  let! existing_id := bbc_find_existing_comment d in
  match existing_id with
  | None | Some JNull => bbc_mutate_comment (scm (bbc_post d markdown))
  | Some id => bbc_mutate_comment (scm (bbc_put d id markdown))
  end.
Definition bbc_decorate (d : PRDetails) (content : comment_content) : scm_prog unit :=
  let! text := lift (cc_content content bbc_max_content_chars) in
  bbc_create_or_update d text.

Definition BBCServiceBasic : scm_ops := {|
  s_update d content _ := bbc_decorate d content;
  s_pending d content := bbc_decorate d content;
  s_failure d content _ := bbc_decorate d content;
  s_success d content _ := bbc_decorate d content;
  s_unrecoverable d _ fail_msg := bbc_create_or_update d (append_comment_identifier fail_msg);
  s_prescan_failure d fail_msg := bbc_create_or_update d (append_comment_identifier fail_msg);
  s_permalink d code_path code_line :=
    Ok (form_url display_url
          ("/" +:+ pstr (prd_organization d) +:+ "/" +:+ pstr (prd_repo_slug d) +:+ "/src/"
           +:+ pstr (prd_source_hash d) +:+ pstr code_path) (Some ("lines-" +:+ pstr code_line)) []) |}.

(** *** [BBCServiceChecks]: also a build status of the commit *)
Definition bbc_check_key : string := "cxoneflow".
Definition bbc_max_description_length : Z := 128.

Section bbc_checks.
Context (check_name : json).

(** The answer is not looked at. *)
Definition bbc_update_check (state : string) (d : PRDetails) (description : string) (url : json) :
    scm_prog unit :=
  let! _ := (scm (ScmCall None "POST"
               ("/repositories/" +:+ pstr (prd_organization d) +:+ "/" +:+ pstr (prd_repo_slug d)
                +:+ "/commit/" +:+ pstr (prd_source_hash d) +:+ "/statuses/build") []
               (JsonBody (JObj [("key", JStr bbc_check_key); ("state", JStr state);
                                ("description", JStr description); ("url", url); ("name", check_name)]))
               json_headers None) : scm_prog response) in Ret tt.

Definition bbc_check_content (state : string) (d : PRDetails) (content : comment_content) : scm_prog unit :=
  bbc_update_check state d (cc_status_msg content bbc_max_description_length) (scan_url_json content).

Definition BBCServiceChecks : scm_ops := {|
  s_update d content m :=
    do! bbc_check_content "INPROGRESS" d content in s_update BBCServiceBasic d content m;
  s_pending d content :=
    let! link := (scm CxOneDisplayLink : scm_prog string) in
    do! bbc_update_check "INPROGRESS" d (cc_status_msg content bbc_max_description_length) (JStr link) in
    s_pending BBCServiceBasic d content;
  s_failure d content m :=
    do! bbc_check_content "FAILED" d content in s_failure BBCServiceBasic d content m;
  s_success d content m :=
    do! bbc_check_content "SUCCESSFUL" d content in s_success BBCServiceBasic d content m;
  s_unrecoverable d m fail_msg :=
    let! link := (scm CxOneDisplayLink : scm_prog string) in
    let! url := lift (make_cxone_scan_url repr link (sm_projectid m) (sm_scanid m) (prd_target_branch d)) in
    do! bbc_update_check "FAILED" d fail_msg (JStr url) in
    s_unrecoverable BBCServiceBasic d m fail_msg;
  s_prescan_failure d fail_msg :=
    let! link := (scm CxOneDisplayLink : scm_prog string) in
    do! bbc_update_check "FAILED" d fail_msg (JStr link) in
    s_prescan_failure BBCServiceBasic d fail_msg;
  s_permalink := s_permalink BBCServiceBasic |}.
End bbc_checks.

(** ** Bitbucket Data Center: [BBDCService]

    The same loop again; each page starts one item after the one before. *)
Definition bbdc_max_content_chars : Z := 32000.

Definition bbdc_pr_path (d : PRDetails) (suffix : string) : string :=
  "/rest/api/latest/projects/" +:+ pstr (prd_repo_project d) +:+ "/repos/"
  +:+ pstr (prd_repo_slug d) +:+ "/pull-requests/" +:+ pstr (prd_pr_id d) +:+ suffix.
Definition bbdc_page (path : string) (offset : nat) : scm_prog response :=
  scm (ScmCall None "GET" path [("start", JInt (Z.of_nat offset))] NoBody [] None).
Definition bbdc_page_values (resp : response) : outcome (option (list json) * bool) :=
  let? j := json_on_ok resp in
  let? values := jindex "values" j in
  match values with
  | JNull => Ok (None, false)
  | v => let? l := as_arr v in
         match l with
         | [] => Ok (Some [], false)
         | _ => let? last := jindex "isLastPage" j in Ok (Some l, truthy last)
         end
  end.

(** An open comment that may be edited. *)
Definition bbdc_editable (comment : json) : outcome bool :=
  let? has := jhas "threadResolved" comment in
  let? resolved := if has then jindex "threadResolved" comment else Ok (JBool true) in
  if truthy resolved then Ok false
  else
    let? has := jhas "permittedOperations" comment in
    if negb has then Ok false
    else
      let? operations := jindex "permittedOperations" comment in
      let? has := jhas "editable" operations in
      if negb has then Ok false
      else let? editable := jindex "editable" operations in
           if truthy editable then jhas "text" comment else Ok false.
Definition bbdc_comment_found (item : json) : outcome (option (Z * Z)) :=
  let? has := jhas "comment" item in
  if negb has then Ok None
  else
    let? comment := jindex "comment" item in
    let? editable := bbdc_editable comment in
    if negb editable then Ok None
    else
      let? mine := recognised "text" comment in
      if mine then
        let? id := jindex "id" comment in
        let? id := py_int id in
        let? version := jindex "version" comment in
        let? version := py_int version in
        Ok (Some (id, version))
      else Ok None.
Definition bbdc_find_existing_comment (d : PRDetails) : scm_prog (option (Z * Z)) :=
  gen_find (bbdc_page (bbdc_pr_path d "/activities")) bbdc_page_values bbdc_comment_found page_fuel gen_init.

Definition bbdc_post (d : PRDetails) (markdown : string) : scm_ev :=
  ScmCall None "POST" (bbdc_pr_path d "/comments") [] (JsonBody (JObj [("text", JStr markdown)]))
    json_headers None.
Definition bbdc_put (d : PRDetails) (comment_id comment_version : Z) (markdown : string) : scm_ev :=
  ScmCall None "PUT" (bbdc_pr_path d ("/comments/" +:+ str_Z comment_id)) []
    (JsonBody (JObj [("version", JInt comment_version); ("text", JStr markdown)])) json_headers None.

Definition bbdc_create_or_update (d : PRDetails) (content : string) : scm_prog unit :=
  let! found := bbdc_find_existing_comment d in
  match found with
  | None =>
      let! resp := (scm (bbdc_post d content) : scm_prog response) in
      let! j := lift (json_on_ok resp) in
      let! id := lift (let? v := jindex "id" j in py_int v) in
      let! version := lift (let? v := jindex "version" j in py_int v) in Ret tt
  | Some (id, version) =>
      let! _ := (scm (bbdc_put d id version content) : scm_prog response) in Ret tt
  end.
Definition bbdc_decorate (d : PRDetails) (content : comment_content) : scm_prog unit :=
  let! text := lift (cc_content content bbdc_max_content_chars) in
  bbdc_create_or_update d text.

Definition BBDCService : scm_ops := {|
  s_update d content _ := bbdc_decorate d content;
  s_pending d content := bbdc_decorate d content;
  s_failure d content _ := bbdc_decorate d content;
  s_success d content _ := bbdc_decorate d content;
  s_unrecoverable d _ fail_msg := bbdc_create_or_update d (append_comment_identifier fail_msg);
  s_prescan_failure := s_prescan_failure SCMService;
  s_permalink d code_path code_line :=
    Ok (form_url display_url
          ("projects/" +:+ pstr (prd_repo_project d) +:+ "/repos/" +:+ pstr (prd_repo_slug d)
           +:+ "/browse" +:+ pstr code_path)
          (if not_none code_line then Some (pstr code_line) else None)
          [("at", pstr (prd_source_branch d))]) |}.

(** ** The service of a configured class *)
Definition ops_of (c : scm_class) : scm_ops :=
  match c with
  | ScmConfig.GHServiceBasic =>
      ScmServices.GHServiceBasic repr json_on_ok display_url page_fuel
  | ScmConfig.GHServiceCommitStatus name =>
      ScmServices.GHServiceCommitStatus repr jp json_on_ok display_url page_fuel (policy_check_name name)
  | ScmConfig.GHServiceChecks name =>
      ScmServices.GHServiceChecks repr jp jp_ext json_on_ok display_url (policy_check_name name)
  | ScmConfig.GLService => GLService
  | ScmConfig.ADOEServiceBasic => ADOEServiceBasic
  | ScmConfig.ADOEServiceChecks name genre => ADOEServiceChecks name genre
  | ScmConfig.BBCServiceBasic => BBCServiceBasic
  | ScmConfig.BBCServiceChecks name => BBCServiceChecks (policy_check_name name)
  | ScmConfig.BBDCService => BBDCService
  end.
End hosts.

(** ** Theorems *)
Section theorems.
Context (repr : json → string).
Context (jp jp_ext : string → json → list json).
Context (json_on_ok : response → outcome json).
Context (dumps : json → string).
Context (display_url : string).
Context (page_fuel : nat).

Abbreviation ops := (ops_of repr jp jp_ext json_on_ok dumps display_url page_fuel).

(** The four decorations of a pull request. *)
Inductive decoration (o : scm_ops) (d : PRDetails) (cc : comment_content) (m : ScanMessage) :
    scm_prog unit → Prop :=
| of_update : decoration o d cc m (s_update o d cc m)
| of_pending : decoration o d cc m (s_pending o d cc)
| of_failure : decoration o d cc m (s_failure o d cc m)
| of_success : decoration o d cc m (s_success o d cc m).

(** The hosts whose decoration is a comment, and how long one may be. *)
Definition comment_limit (c : scm_class) : option Z :=
  match c with
  | ScmConfig.GHServiceBasic | ScmConfig.GHServiceCommitStatus _ => Some 65535
  | ScmConfig.GHServiceChecks _ => None
  | ScmConfig.GLService => Some 1000000
  | ScmConfig.ADOEServiceBasic | ScmConfig.ADOEServiceChecks _ _ => Some 150000
  | ScmConfig.BBCServiceBasic | ScmConfig.BBCServiceChecks _ => Some 32767
  | ScmConfig.BBDCService => Some 32000
  end%Z.

(** The request writes a comment with this text: a new one, or one that exists. *)
Definition posts_comment (c : scm_class) (d : PRDetails) (text : string) (e : scm_ev) : Prop :=
  match c with
  | ScmConfig.GHServiceBasic | ScmConfig.GHServiceCommitStatus _ | ScmConfig.GHServiceChecks _ =>
      e = gh_post_comment repr d text ∨ ∃ id, e = gh_patch_comment repr d id text
  | ScmConfig.GLService => ∃ method path vars, e = gl_post method path vars text
  | ScmConfig.ADOEServiceBasic | ScmConfig.ADOEServiceChecks _ _ =>
      (∃ id, e = ado_patch_thread repr d id text) ∨
      ∃ now status, e = ado_post_thread repr dumps d now text status
  | ScmConfig.BBCServiceBasic | ScmConfig.BBCServiceChecks _ =>
      e = bbc_post repr d text ∨ ∃ id, e = bbc_put repr d id text
  | ScmConfig.BBDCService => e = bbdc_post repr d text ∨ ∃ id version, e = bbdc_put repr d id version text
  end.

(** The request writes the status of a commit, a build or an iteration. *)
Definition sets_status (c : scm_class) (d : PRDetails) (e : scm_ev) : Prop :=
  match c with
  | ScmConfig.GHServiceCommitStatus _ =>
      ∃ url body, gh_status_url repr jp d = Ok url ∧
        e = ScmCall (Some (prd_event_context d)) "POST" url [] (JsonBody body) gh_api_headers None
  | ScmConfig.ADOEServiceChecks _ _ => ∃ payload, e = ado_status repr d payload
  | ScmConfig.BBCServiceChecks _ =>
      ∃ body, e = ScmCall None "POST"
        ("/repositories/" +:+ pstr repr (prd_organization d) +:+ "/" +:+ pstr repr (prd_repo_slug d)
         +:+ "/commit/" +:+ pstr repr (prd_source_hash d) +:+ "/statuses/build") []
        (JsonBody body) json_headers None
  | _ => False
  end.

Definition beforehand (c : scm_class) (d : PRDetails) (e : scm_ev) : Prop :=
  is_write e = false ∨ sets_status c d e.

(** Reads and statuses, and one comment last. *)
Definition ends_in_comment (c : scm_class) (d : PRDetails) (text : outcome string) (p : scm_prog unit) :
    Prop :=
  ∀ tr, exec p tr (Ok tt) → ∃ before w t,
    events tr = before ++ [w] ∧ Forall (beforehand c d) before ∧ text = Ok t ∧ posts_comment c d t w.

Lemma only_scm (Q : scm_ev → Prop) (e : scm_ev) : Q e → only Q (scm e).
Proof. apply only_call. Qed.

Lemma ends_after {A} c d text (q : scm_prog A) (p : A → scm_prog unit) :
  only (beforehand c d) q → (∀ a, ends_in_comment c d text (p a)) →
  ends_in_comment c d text (bindP q p).
Proof.
  intros Hq Hp tr H. apply exec_bind_ok in H as (a & tr1 & tr2 & -> & H1 & H2).
  apply Hp in H2 as (before & w & t & Hev & Hb & Ht & Hw).
  exists (events tr1 ++ before), w, t. rewrite events_app, Hev, (assoc_L (++)).
  split_and!; [done| |done..]. apply Forall_app. split; [by eapply Hq|done].
Qed.

(** The text is made before the rest. *)
Lemma ends_lift c d (text : outcome string) (p : string → scm_prog unit) :
  (∀ t, text = Ok t → ends_in_comment c d text (p t)) → ends_in_comment c d text (bindP (lift text) p).
Proof. intros H tr Hx. apply exec_lift_bind_ok in Hx as (t & -> & Hx). by apply (H t). Qed.

(** The write, and what is only looked at after it. *)
Lemma ends_write {A} c d t (e : scm_ev) (k : scm_resp e → outcome A) (q : A → scm_prog unit) :
  posts_comment c d t e → (∀ a, only (λ _, False) (q a)) →
  ends_in_comment c d (Ok t) (let! r := scm e in let! a := lift (k r) in q a).
Proof.
  intros Hw Hq tr H. unfold scm in H. call_step H as [(r & tr1 & -> & H)|(x & _ & ?)]; [|done].
  apply exec_lift_bind_ok in H as (a & _ & H). specialize (Hq a tr1 _ H).
  exists [], e, t. split_and!; [|constructor|done|done]. simpl.
  destruct tr1 as [|ob tr1]; [done|]. by inversion Hq.
Qed.

Lemma only_none_ret {A} (a : A) : only (λ _ : scm_ev, False) (Ret a : scm_prog A).
Proof. apply only_ret. Qed.

Ltac silent := intros; repeat first [apply only_ret | apply only_lift | apply only_bind; [|intros ?]].
Ltac reads :=
  lazymatch goal with |- only _ (scm ?e) => refine (only_scm _ e _); left; reflexivity end.

Lemma gh_comment_ends c d t :
  match c with ScmConfig.GHServiceBasic | ScmConfig.GHServiceCommitStatus _ => True | _ => False end →
  ends_in_comment c d (Ok t) (gh_create_or_update repr json_on_ok page_fuel d t).
Proof.
  intros Hc. unfold gh_create_or_update. apply ends_after.
  { apply gen_find_only. intros k. unfold gh_comment_request. reads. }
  assert (Hpost : posts_comment c d t (gh_post_comment repr d t)) by (destruct c; try done; by left).
  assert (Hpatch : ∀ id, posts_comment c d t (gh_patch_comment repr d id t))
    by (destruct c; try done; right; eauto).
  intros [[]|]; apply ends_write; try done; silent.
Qed.

Lemma gl_comment_ends d text :
  ends_in_comment ScmConfig.GLService d text (gl_create_or_update repr json_on_ok d text).
Proof.
  unfold gl_create_or_update. apply ends_after; [silent|]. intros slug.
  apply ends_after; [reads|]. intros resp. apply ends_after; [silent|]. intros existing.
  apply ends_after; [silent|]. intros comments. apply ends_after; [silent|]. intros note.
  apply ends_lift. intros t ->. destruct note as [id|]; apply ends_write; try silent; simpl; eauto.
Qed.

Lemma ado_thread_reads c d : only (beforehand c d) (ado_get_pr_thread repr json_on_ok d).
Proof. unfold ado_get_pr_thread. apply only_bind; [reads|silent]. Qed.

Lemma ado_comment_ends c d cc :
  match c with ScmConfig.ADOEServiceBasic | ScmConfig.ADOEServiceChecks _ _ => True | _ => False end →
  ends_in_comment c d (cc_content cc ado_max_content_chars)
    (ado_create_or_update repr json_on_ok dumps d cc).
Proof.
  intros Hc. unfold ado_create_or_update. apply ends_after; [apply ado_thread_reads|].
  intros thread. apply ends_lift. intros t ->. destruct (not_none thread); simpl.
  - unfold ado_update_pr_thread. apply ends_write; [|silent]. destruct c; try done; left; eauto.
  - unfold ado_create_pr_thread. apply ends_after; [refine (only_scm _ ScmNow _); by left|].
    intros now. apply ends_write; [destruct c; try done; right; eauto|].
    intros v. destruct (not_none v); silent.
Qed.

Lemma bbc_comment_ends c d t :
  match c with ScmConfig.BBCServiceBasic | ScmConfig.BBCServiceChecks _ => True | _ => False end →
  ends_in_comment c d (Ok t) (bbc_create_or_update repr json_on_ok page_fuel d t).
Proof.
  intros Hc. unfold bbc_create_or_update. apply ends_after.
  { apply gen_find_only. intros k. unfold bbc_page. reads. }
  assert (Hm : ∀ ctx m p q b h v, posts_comment c d t (ScmCall ctx m p q b h v) →
    ends_in_comment c d (Ok t) (bbc_mutate_comment (scm (ScmCall ctx m p q b h v)))).
  { intros ctx m p q b h v He tr H. unfold bbc_mutate_comment, scm in H.
    call_step H as [(r & tr1 & -> & H)|(x & _ & ?)]; [|done]. eexists [], _, t.
    split_and!; [|constructor|done|exact He]. simpl.
    destruct (r_ok r); simpl in H; [|by destruct H as [-> _]].
    apply exec_lift_bind_ok in H as (? & _ & H). apply exec_lift_bind_ok in H as (? & _ & H).
    by destruct H as [-> _]. }
  intros [[]|]; apply Hm; destruct c; try done; solve [by left|right; eauto].
Qed.

Lemma bbdc_comment_ends d t :
  ends_in_comment ScmConfig.BBDCService d (Ok t) (bbdc_create_or_update repr json_on_ok page_fuel d t).
Proof.
  unfold bbdc_create_or_update. apply ends_after.
  { apply gen_find_only. intros k. unfold bbdc_page. reads. }
  intros [[id version]|].
  - intros tr H. unfold scm in H. call_step H as [(r & tr1 & -> & H)|(x & _ & ?)]; [|done].
    destruct H as [-> _]. eexists [], _, t. split_and!; [done|constructor|done|]. right. eauto.
  - apply ends_write; [by left|silent].
Qed.

(** *** Statuses *)
Lemma gh_status_before name d state cc :
  only (beforehand (ScmConfig.GHServiceCommitStatus name) d)
    (gh_update_status repr jp json_on_ok (policy_check_name name) state d cc).
Proof.
  intros tr o H. unfold gh_update_status in H.
  apply exec_lift_bind in H as [(url & Hu & H)|(e & _ & -> & _)]; [|constructor].
  unfold gh_post_update in H. rewrite Hu in H.
  change (bindP (lift (Ok url)) ?k) with (k url) in H. cbv beta in H.
  unfold scm in H. call_step H as [(r & tr1 & -> & H)|(x & -> & _)].
  - assert (Hq : only (beforehand (ScmConfig.GHServiceCommitStatus name) d)
      (if r_ok r then let! _ := lift (json_on_ok r) in Ret tt else Ret tt : scm_prog unit))
      by (destruct (r_ok r); silent).
    constructor; [|exact (Hq _ _ H)]. right. simpl. eauto.
  - constructor; [|constructor]. right. simpl. eauto.
Qed.

Lemma ado_status_before name genre d state url msg :
  only (beforehand (ScmConfig.ADOEServiceChecks name genre) d)
    (ado_set_check_status repr jp jp_ext json_on_ok name genre d state url msg).
Proof.
  unfold ado_set_check_status. apply only_catch; [|intros; apply only_ret].
  apply only_bind.
  - unfold ado_get_iteration. apply only_bind; [reads|]. intros. apply only_bind; [silent|].
    intros. apply only_bind; [silent|]. intros. case_match; silent.
  - intros iteration. apply only_bind; [silent|]. intros payload. apply only_bind.
    + refine (only_scm _ (ado_status repr d payload) _). right. simpl. eauto.
    + intros resp. destruct (r_ok resp); silent.
Qed.

Lemma bbc_check_before name d state description url :
  only (beforehand (ScmConfig.BBCServiceChecks name) d)
    (bbc_update_check repr (policy_check_name name) state d description url).
Proof.
  unfold bbc_update_check. apply only_bind; [|silent].
  lazymatch goal with |- only _ (scm ?e) => refine (only_scm _ e _); right; simpl; eauto end.
Qed.

Lemma ends_content c d cc n (p : string → scm_prog unit) :
  (∀ t, ends_in_comment c d (Ok t) (p t)) →
  ends_in_comment c d (cc_content cc n) (let! text := lift (cc_content cc n) in p text).
Proof. intros H. apply ends_lift. intros t ->. apply H. Qed.

(** *** Check runs *)

(** The request creates a check run, or gives one that exists its next state, and
    shows this text in it. *)
Definition posts_check_run (name : json) (d : PRDetails) (text : string) (e : scm_ev) : Prop :=
  ∃ sha fields title actions,
    let payload := check_payload name sha fields (check_output title text) actions in
    e = post_check_run repr d payload ∨ ∃ run, e = patch_check_run repr d payload run.

(** At most one read, and one check run written last; or no run was found that the
    finished scan could complete. *)
Definition ends_in_check_run (name : json) (d : PRDetails) (text : outcome string)
    (tr : list (obs scm_ev scm_resp)) : Prop :=
  ∃ found rest, events tr = found ++ rest ∧ length found ≤ 1 ∧
    Forall (λ e, is_write e = false) found ∧
    ((∃ w t, rest = [w] ∧ text = Ok t ∧ posts_check_run name d t w) ∨
     (rest = [] ∧ ∃ run, not_none run = false ∧
        exec (find_running_check repr jp jp_ext json_on_ok name d "in_progress") tr (Ok run))).

Lemma check_run_found name d status found run :
  exec (find_running_check repr jp jp_ext json_on_ok name d status) found (Ok run) →
  length (events found) ≤ 1 ∧ Forall (λ e, is_write e = false) (events found).
Proof.
  intros [->|(ob & -> & Hw)]%find_running_reads; [split; [simpl; lia|constructor]|].
  split; [simpl; lia|]. by repeat constructor.
Qed.

Lemma check_run_moved name d cc found run fields out actions rest :
  length (events found) ≤ 1 → Forall (λ e, is_write e = false) (events found) →
  content_output cc = Ok out → moves_run repr jp name d run fields out actions rest →
  ends_in_check_run name d (cc_content cc gh_max_content_chars) (found ++ rest).
Proof.
  intros Hl Hf Hout [ob sha _ Hob]. unfold content_output in Hout.
  apply bindO_ok in Hout as (text & Ht & [= <-]).
  exists (events found), [projT1 ob]. split; [by rewrite events_app|]. split_and!; [done..|].
  left. exists (projT1 ob), text. split_and!; [done..|]. exists sha, fields, (cc_status_msg cc gh_max_content_chars), actions.
  rewrite Hob. destruct (not_none run); [right; eauto|by left].
Qed.

Lemma complete_run_ends name d cc fields conclusion actions tr :
  exec (complete_run repr jp jp_ext json_on_ok name d "in_progress" fields conclusion
          (content_output cc) actions) tr (Ok tt) →
  ends_in_check_run name d (cc_content cc gh_max_content_chars) tr.
Proof.
  intros (found & run & rest & -> & Hf & H)%complete_run_moves.
  pose proof (check_run_found _ _ _ _ _ Hf) as [Hl Hr]. destruct (not_none run) eqn:Hrun.
  - destruct H as (out & Hout & Hm). by eapply check_run_moved.
  - subst rest. rewrite app_nil_r. exists (events found), []. rewrite app_nil_r. split_and!; [done..|].
    right. eauto.
Qed.

Lemma check_decoration_ends name d cc m p tr :
  decoration (ops (ScmConfig.GHServiceChecks name)) d cc m p → exec p tr (Ok tt) →
  ends_in_check_run (policy_check_name name) d (cc_content cc gh_max_content_chars) tr.
Proof.
  intros [| | |] H; simpl in H; try by eapply complete_run_ends.
  - unfold check_scan_update in H. apply exec_bind_ok in H as (run & tr1 & tr2 & -> & H1 & H).
    apply check_run_found in H1 as [Hl Hr].
    apply exec_lift_bind_ok in H as (sha & Hs & H). apply exec_lift_bind_ok in H as (out & Ho & H).
    eapply check_run_moved; [done..|].
    apply exec_bind_ok in H as (v & tr3 & tr4 & -> & H & [-> _]). rewrite app_nil_r.
    destruct (not_none run) eqn:Hrun; simpl in H;
      [apply update_run_one in H as (ob & -> & Hob)|apply create_run_one in H as (ob & -> & Hob)];
      (econstructor; [exact Hs|]; rewrite Hrun; exact Hob).
  - unfold check_scan_pending in H. apply exec_lift_bind_ok in H as (sha & Hs & H).
    apply exec_lift_bind_ok in H as (out & Ho & H).
    apply (check_run_moved _ _ cc [] JNull [("status", JStr "queued")] out []); [simpl; lia|constructor|done|].
    apply exec_bind_ok in H as (v & tr3 & tr4 & -> & H & [-> _]). rewrite app_nil_r.
    apply create_run_one in H as (ob & -> & Hob). by econstructor.
Qed.

(** C35: whatever the service of a host whose decoration is a comment, a decoration
    of a pull request that returns has made reads, at most the status requests of a
    service with checks, and then as its last request exactly one that writes a
    comment, creating or editing it, whose text is the content within the limit of
    that host.  The one service that writes no comment, that of GitHub with check
    runs, makes at most one read and then one request for a check run with the
    content; or none, when the scan is finished and no run of it is found. *)
Theorem decoration_posts_comment c d cc m p tr :
  ContentLaws cc → decoration (ops c) d cc m p → exec p tr (Ok tt) →
  match comment_limit c with
  | Some limit =>
      ∃ before w text, events tr = before ++ [w] ∧ Forall (beforehand c d) before ∧
        cc_content cc limit = Ok text ∧ (Z.of_nat (String.length text) <= limit)%Z ∧
        posts_comment c d text w
  | None =>
      ∃ name, c = ScmConfig.GHServiceChecks name ∧
        ends_in_check_run (policy_check_name name) d (cc_content cc 65535) tr ∧
        (∀ text, cc_content cc 65535 = Ok text → (Z.of_nat (String.length text) <= 65535)%Z)
  end.
Proof.
  intros Hcc Hp Hx. destruct (comment_limit c) as [limit|] eqn:Hlimit.
  2: { destruct c as [|name| | | | | | |]; try done. exists name. split; [done|].
       split; [by eapply check_decoration_ends|]. intros text. by apply content_fits. }
  revert tr Hx. cut (ends_in_comment c d (cc_content cc limit) p).
  { intros H tr Hx. destruct (H tr Hx) as (before & w & t & Hev & Hb & Ht & Hw).
    exists before, w, t. split_and!; try done. eapply content_fits; [|done].
    destruct c; simpl in Hlimit; simplify_eq; lia. }
  destruct c; simpl in Hlimit; simplify_eq; destruct Hp; simpl;
    unfold gh_decorate, bbdc_decorate, bbc_decorate, gl_decorate, ado_check_then, bbc_check_content;
    try (apply ends_after; [first [apply gh_status_before | apply ado_status_before
      | apply bbc_check_before | refine (only_scm _ CxOneDisplayLink _); by left]|intros ?]);
    try (apply ends_after; [apply bbc_check_before|intros ?]);
    first [ apply ends_content; intros t; first [by apply gh_comment_ends | by apply bbc_comment_ends
                                                | by apply bbdc_comment_ends]
          | apply gl_comment_ends | by apply ado_comment_ends ].
Qed.

(** Without the link of a scan, as before a scan and for an error, the status of
    Azure DevOps is set with an empty payload: the conditional covers it all. *)
Lemma ado_status_without_url name genre d state msg :
  only (λ e, is_write e = true → e = ado_status repr d (JObj []))
    (ado_set_check_status repr jp jp_ext json_on_ok name genre d state None msg).
Proof.
  unfold ado_set_check_status. apply only_catch; [|intros; apply only_ret].
  apply only_bind.
  - unfold ado_get_iteration. apply only_bind.
    + lazymatch goal with |- only _ (scm ?e) => by refine (only_scm _ e _) end.
    + intros. apply only_bind; [silent|]. intros. apply only_bind; [silent|]. intros. case_match; silent.
  - intros iteration.
    change (lift (ado_payload repr name genre state None msg iteration))
      with (Ret (JObj []) : scm_prog json).
    change (bindP (Ret ?a) ?f) with (f a). cbv beta. apply only_bind.
    + by refine (only_scm _ (ado_status repr d (JObj [])) _).
    + intros resp. destruct (r_ok resp); silent.
Qed.

(** Four of the classes can not report a failed delegated scan. *)
Lemma prescan_failure_unsupported c d fail_msg :
  match c with
  | ScmConfig.GLService | ScmConfig.ADOEServiceBasic | ScmConfig.ADOEServiceChecks _ _
  | ScmConfig.BBDCService => True
  | _ => False
  end → s_prescan_failure (ops c) d fail_msg = Raise NotImplementedError.
Proof. by destruct c. Qed.
End theorems.

(** ** Witnesses *)
Definition demo_content : comment_content :=
  CommentContent (λ n, Ok (slice0 (append_comment_identifier "done") n)) (slice0 "done") None.
Lemma demo_content_laws : ContentLaws demo_content.
Proof.
  split; intros n s Hn; simpl; [intros [= <-]|intros <-]; by apply slice0_length.
Qed.
Definition demo_message : ScanMessage :=
  MkScanMessage "svc" FEEDBACK PR no_details (JStr "S") (JStr "P").
Definition demo_json_on_ok (r : response) : outcome json := r_json r.
(** The host lists one comment of the program, number 7, and accepts all. *)
Definition demo_scm_world (n : nat) (e : scm_ev) : outcome (scm_resp e) * nat :=
  match e return outcome (scm_resp e) * nat with
  | ScmCall _ method _ _ _ _ _ =>
      (Ok (Response true 200 (Ok (if String.eqb method "GET" then
         if n =? 0 then JArr [JObj [("id", JInt 7); ("body", JStr (append_comment_identifier "old"))]]
         else JArr [] else JObj [("id", JInt 7)])) [] ""), S n)
  | ScmNow | CxOneDisplayLink => (Ok "", n)
  end.
Definition demo_ops : scm_ops :=
  ops_of demo_repr demo_jp demo_jp demo_json_on_ok demo_repr "https://gh" 10 ScmConfig.GHServiceBasic.
Definition demo_success : scm_prog unit := s_success demo_ops demo_pr demo_content demo_message.

(** A scan is finished; the host knows a run of it, number 9. *)
Definition demo_check_jp (query : string) (doc : json) : list json :=
  if String.eqb query "$.pull_request.head.sha" then [JStr "aa"] else
  if String.eqb query "$.check_run.check_suite.pull_requests[0].head.sha" then [] else [JInt 9].
Definition demo_check_ops : scm_ops :=
  ops_of demo_repr demo_check_jp demo_check_jp demo_json_on_ok demo_repr "https://gh" 10
    (ScmConfig.GHServiceChecks (JStr "cx")).

Lemma decoration_posts_comment_witness :
  run_outcome demo_scm_world 0 demo_success = Ok tt ∧
  (∃ before w text, events (run_trace demo_scm_world 0 demo_success) = before ++ [w] ∧
    posts_comment demo_repr demo_repr ScmConfig.GHServiceBasic demo_pr text w) ∧
  let finished := s_success demo_check_ops demo_pr demo_content demo_message in
  run_outcome demo_scm_world 0 finished = Ok tt ∧
  ends_in_check_run demo_repr demo_check_jp demo_check_jp demo_json_on_ok
    (policy_check_name (JStr "cx")) demo_pr (cc_content demo_content 65535)
    (run_trace demo_scm_world 0 finished).
Proof.
  split; [vm_compute; reflexivity|]. split.
  2: { cbv zeta. split; [vm_compute; reflexivity|].
       destruct (decoration_posts_comment demo_repr demo_check_jp demo_check_jp demo_json_on_ok demo_repr
         "https://gh" 10 (ScmConfig.GHServiceChecks (JStr "cx")) demo_pr demo_content demo_message
         (s_success demo_check_ops demo_pr demo_content demo_message)
         (run_trace demo_scm_world 0 (s_success demo_check_ops demo_pr demo_content demo_message))
         demo_content_laws (of_success _ _ _ _) (exec_run demo_scm_world 0 _))
         as (name & Hname & H & _).
       injection Hname as <-. exact H. }
  destruct (decoration_posts_comment demo_repr demo_jp demo_jp demo_json_on_ok demo_repr "https://gh" 10
    ScmConfig.GHServiceBasic demo_pr demo_content demo_message demo_success
    (run_trace demo_scm_world 0 demo_success) demo_content_laws (of_success _ _ _ _)
    (exec_run demo_scm_world 0 demo_success)) as (before & w & text & H & _ & _ & _ & Hw).
  by exists before, w, text.
Defined.

Definition demo_checks : scm_ops :=
  ScmServices.GHServiceChecks demo_repr demo_check_jp demo_check_jp demo_json_on_ok "https://gh" (JStr "cx").
Definition demo_finish : scm_prog unit := s_success demo_checks demo_pr demo_content demo_message.

Lemma check_run_states_witness :
  run_outcome demo_scm_world 0 demo_finish = Ok tt ∧
  ∃ found run rest, run_trace demo_scm_world 0 demo_finish = found ++ rest ∧
    exec (find_running_check demo_repr demo_check_jp demo_check_jp demo_json_on_ok (JStr "cx") demo_pr
            "in_progress") found (Ok run).
Proof.
  split; [vm_compute; reflexivity|].
  destruct (proj2 (proj2 (check_run_states demo_repr demo_check_jp demo_check_jp demo_json_on_ok
    "https://gh" (JStr "cx") demo_pr demo_content demo_message "" (run_trace demo_scm_world 0 demo_finish)))
    _ _ _ _ _ _ (list_elem_of_here _ _) (exec_run demo_scm_world 0 demo_finish)) as (found & run & rest & H & Hx & _).
  by exists found, run, rest.
Defined.
