(* ===== verification/Polling.v ===== *)
(** * Scan polling: [src/workflows/scan_polling_service.py] and [process_poll]
    of [src/workflow_agent.py]

    A scan that executes is followed by one message.  The message waits in a
    queue until it expires, is delivered to [process_poll], and either ends -
    the scan finished, or its time is over - or is published again to wait
    longer. *)
From S2P Require Import Prelude PyStr PyJson Url Auth Grouping Messaging Broker CxOne Cloner Config Workflows ScmConfig Bootstrap.
Open Scope string_scope.
Open Scope nat_scope.
Open Scope list_scope.

(** An incoming message of the broker. *)
Record incoming : Type := Incoming {
  in_body : string; in_headers : dict json; in_routing_key : string }.

(** ** Calls: those of the services, and those of the handler itself. *)
Inductive poll_own : Type :=
| Ack
| Nack (requeue : bool)
| LoadInspector (scan_id : json)
| BreakBuild (project_id scan_id : json).

Definition own_resp (e : poll_own) : Type :=
  match e with
  | LoadInspector _ => inspector
  | BreakBuild _ _ => bool
  | _ => unit
  end.
#[global] Arguments own_resp : simpl never.

Abbreviation poll_ev := (mq_ev + poll_own)%type.
Abbreviation poll_resp := (sum_resp mq_resp own_resp).
Abbreviation poll_prog := (prog poll_ev poll_resp).

Definition own (e : poll_own) : poll_prog (own_resp e) := call (inr e : poll_ev).
Definition mq (e : mq_ev) : poll_prog (mq_resp e) := call (inl e : poll_ev).

(** What the polling promises to ask of a service, and what it does. *)
Record feedback_service : Type := FeedbackService {
  handle_completed_scan : ScanMessage → mq_prog unit;
  handle_awaited_scan_error : ScanMessage → string → mq_prog unit }.

Definition PRFeedbackService : feedback_service :=
  FeedbackService pr_handle_completed_scan pr_handle_awaited_scan_error.
Definition PushFeedbackService : feedback_service :=
  FeedbackService push_handle_completed_scan push_handle_awaited_scan_error.

(** [asyncio.gather]: every coroutine runs, whether another one fails or not;
    the first failure is raised. *)
Fixpoint gather {Ev Resp} (ps : list (prog Ev Resp unit)) : prog Ev Resp unit :=
  match ps with
  | [] => Ret tt
  | p :: ps' => on_outcome (λ o1, on_outcome (λ o2, match o1 with
                                                    | Ok _ => lift o2
                                                    | Err e => Raise e
                                                    end) (gather ps')) p
  end.

Definition attempt {Ev Resp A} (p : prog Ev Resp A) : prog Ev Resp (outcome A) :=
  on_outcome Ret p.

Section polling.
(** [ScanAwaitMessage.from_binary]: the message and its [drop_by]. *)
Context (from_binary : string → outcome (ScanMessage * string)).
Context (fromisoformat : string → outcome Z).
(** [str(v)], in the message of a [KeyError]. *)
Context (repr : json → string).

(** [_safe_deserialize_body] *)
Definition safe_deserialize_body (msg : incoming) : poll_prog (ScanMessage * string) :=
  match from_binary (in_body msg) with
  | Ok m => Ret m
  | Err e => do! own (Nack false) in Raise e
  end.

Section service.
Context (services : list feedback_service).
(** The maximum in seconds and the scalar, of the service's settings. *)
Context (max_interval : Z) (backoff : json).

Definition all_completed (m : ScanMessage) : poll_prog unit :=
  embed (gather ((λ svc, handle_completed_scan svc m) <$> services)).
Definition all_error (m : ScanMessage) (error_msg : string) : poll_prog unit :=
  embed (gather ((λ svc, handle_awaited_scan_error svc m error_msg) <$> services)).

(** The inner [try]: what the services are told of a finished scan.  The policy
    is asked again after a first answer that the build breaks. *)
Definition tell_services (m : ScanMessage) (i : inspector) : poll_prog unit :=
  let break_build := own (BreakBuild (i_project_id i) (i_scan_id i)) in
  let! success := (if i_successful i then let! bb := break_build in Ret (negb bb)
                   else Ret false) in
  if success : bool then all_completed m
  else if negb (i_successful i) then all_error m "Scan workflow failure"
  else let! bb := break_build in
       if bb : bool then all_error m "Policy violation" else all_error m (i_state_msg i).

(** The outer [try]: its outcome, and [requeue_on_finally]. *)
Definition poll_scan (m : ScanMessage) : poll_prog (outcome unit * bool) :=
  let! r := attempt (own (LoadInspector (sm_scanid m))) in
  match r with
  | Err e => Ret (Err e, true)
  | Ok i =>
      if i_executing i then Ret (Ok tt, true)
      else
        let! requeue := catch is_BaseException (do! tell_services m i in Ret false)
                          (λ _, Ret true) in
        if requeue : bool then Ret (Ok tt, true)
        else let! r := attempt (own Ack) in Ret (r, false)
  end.

(** [int(msg.headers["x-death"][0]["original-expiration"])], in milliseconds *)
Definition original_expiration (headers : dict json) : outcome Z :=
  let? deaths := dindex "x-death" headers in
  let? deaths := as_arr deaths in
  let? death := first deaths in
  let? v := jindex "original-expiration" death in
  py_int v.

Definition next_delay (scalar orig_exp : Z) : Z := Z.min (orig_exp * scalar) (1000 * max_interval).

(** The [finally] clause, once a channel is open. *)
Definition requeue_message (msg : incoming) (m : ScanMessage) (drop : string) : poll_prog unit :=
  let! found := mq (GetExchange EXCHANGE_SCAN_INPUT) in
  if found : bool then
    let! orig_exp := lift (original_expiration (in_headers msg)) in
    let! scalar := lift (as_number backoff) in
    let! confirmed := mq (Publish EXCHANGE_SCAN_INPUT (in_routing_key msg)
                            (Outgoing (scan_body (ScanAwaitMessage m drop)) None
                               (Some (next_delay scalar orig_exp)))) in
    if confirmed : bool then own Ack else own (Nack true)
  else Ret tt.

Definition poll_unexpired (msg : incoming) (m : ScanMessage) (drop : string) : poll_prog unit :=
  let! channel := attempt (do! mq MqClient in mq OpenChannel) in
  let! ' (o, requeue) :=
    match channel with Err e => Ret (Err e, true) | Ok _ => poll_scan m end in
  let! ' (o, requeue) :=
    match o with
    | Err ResponseException => let! r := attempt (own Ack) in Ret (r, false)
    | _ => Ret (o, requeue)
    end in
  do! (if requeue && is_ok channel then requeue_message msg m drop else Ret tt) in
  do! (if is_ok channel then mq CloseChannel else Ret tt) in
  lift o.

Definition execute_poll_scan_workflow (msg : incoming) : poll_prog unit :=
  let! ' (m, drop) := safe_deserialize_body msg in
  let! now := mq Now in
  let! expired := lift (is_expired fromisoformat now drop) in
  if expired : bool then own Ack else poll_unexpired msg m drop.
End service.

(** [process_poll], with the services of the routes. *)
Definition process_poll (r : routes) (msg : incoming) : poll_prog unit :=
  catch is_BaseException
    (let! ' (m, _) := lift (from_binary (in_body msg)) in
     let! s := lift (retrieve_services_by_moniker repr r (JStr (sm_moniker m))) in
     execute_poll_scan_workflow [PRFeedbackService; PushFeedbackService]
       (po_max_interval (fs_poll s)) (po_backoff (fs_poll s)) msg)
    (λ _, own (Nack false)).
End polling.

(** ** The interface of the feedback services *)

(** A service handles the scans of one workflow and leaves the others alone. *)
Class HandlesOnly (w : ScanWorkflow) (svc : feedback_service) : Prop := {
  others_completed m : sm_workflow m ≠ w → handle_completed_scan svc m = Ret tt;
  others_error m e : sm_workflow m ≠ w → handle_awaited_scan_error svc m e = Ret tt }.

#[export] Instance PRFeedbackService_only : HandlesOnly PR PRFeedbackService.
Proof.
  split; intros m; [|intros e]; simpl; unfold pr_handle_completed_scan, pr_handle_awaited_scan_error;
    by destruct (sm_workflow m).
Qed.
#[export] Instance PushFeedbackService_only : HandlesOnly PUSH PushFeedbackService.
Proof.
  split; intros m; [|intros e]; simpl;
    unfold push_handle_completed_scan, push_handle_awaited_scan_error;
    by destruct (sm_workflow m).
Qed.

Definition owner (w : ScanWorkflow) : feedback_service :=
  match w with PR => PRFeedbackService | PUSH => PushFeedbackService end.

(** What the owner of a scan publishes when it is over: the error, if any. *)
Definition feedback_topic (m : ScanMessage) (err : option string) : string :=
  match sm_workflow m with
  | PR => pr_topic (if err then FAILURE else FEEDBACK) (sm_moniker m)
  | PUSH => push_make_topic FEEDBACK (str_feedback FB_PUSH_GEN) (sm_moniker m)
  end.
Definition feedback_message (m : ScanMessage) (err : option string) : outgoing :=
  persistent (ScanFeedbackMessage
    (MkScanMessage (sm_moniker m) FEEDBACK (sm_workflow m) (sm_details m) (sm_scanid m)
       (sm_projectid m))
    (if err then true else false)
    (match sm_workflow m, err with PR, None => Some "NA" | _, _ => err end)).

(** The calls of a [_publish] that returns. *)
Definition publish_trace (exchange topic : string) (m : outgoing) (found : option bool) :
    list (obs mq_ev mq_resp) :=
  [Obs OpenChannel (Ok tt);
   Obs (GetExchange exchange) (Ok (if found then true else false))]
  ++ (match found with
      | Some confirmed => [Obs (Publish exchange topic m) (Ok confirmed)]
      | None => []
      end) ++ [Obs CloseChannel (Ok tt)].

Lemma publish_ok exchange topic m tr b :
  exec (publish topic m exchange) tr (Ok b) →
  ∃ found, tr = publish_trace exchange topic m found ∧ b = default false found.
Proof.
  unfold publish. intros H. apply exec_on_outcome in H as (o1 & tr1 & tr2 & -> & H1 & H).
  last_call H1. subst. destruct o1 as [[]|e]; [|by destruct H].
  unfold finally in H. apply exec_on_outcome in H as (o1 & tr1 & tr3 & -> & H1 & H).
  call_step H as [([] & tr' & -> & H)|(x & -> & ?)]; [|done].
  apply exec_lift in H as [-> <-].
  call_step H1 as [(found & tr' & -> & H1)|(x & -> & ?)]; [|done]. destruct found.
  - last_call H1. subst. by exists (Some b).
  - destruct H1 as [-> ?]. simplify_eq. by exists None.
Qed.

Lemma publish_scan_ok topic m tr :
  exec (publish_scan topic m) tr (Ok tt) →
  ∃ found, tr = publish_trace EXCHANGE_SCAN_INPUT topic m found.
Proof.
  unfold publish_scan. intros H. apply exec_bind_ok in H as (b & tr1 & tr2 & -> & H1 & [-> _]).
  rewrite app_nil_r. apply publish_ok in H1 as (found & -> & _). by exists found.
Qed.

(** The owner of a scan publishes its end in one message. *)
Definition svc_end (svc : feedback_service) (m : ScanMessage) (err : option string) : mq_prog unit :=
  match err with
  | None => handle_completed_scan svc m
  | Some e => handle_awaited_scan_error svc m e
  end.

Lemma owner_end_ok m err tr :
  exec (svc_end (owner (sm_workflow m)) m err) tr (Ok tt) →
  ∃ found, tr = Obs MqClient (Ok tt) ::
    publish_trace EXCHANGE_SCAN_INPUT (feedback_topic m err) (feedback_message m err) found.
Proof.
  unfold svc_end, feedback_topic, feedback_message. intros H.
  destruct (sm_workflow m) eqn:Hw, err as [e|]; simpl in H;
    unfold pr_handle_completed_scan, pr_handle_awaited_scan_error,
      push_handle_completed_scan, push_handle_awaited_scan_error in H; rewrite Hw in H;
    (call_step H as [([] & tr' & -> & H)|(x & -> & ?)]; [|done]);
    apply publish_scan_ok in H as [found ->]; by exists found.
Qed.

Lemma exec_gather_one (p : mq_prog unit) tr o : exec (gather [p]) tr o ↔ exec p tr o.
Proof.
  cbn [gather]. rewrite exec_on_outcome. split.
  - intros (o1 & tr1 & tr2 & -> & H1 & H). rewrite <- (app_nil_r tr1).
    destruct o1 as [[]|e]; destruct H as [-> ->]; by rewrite !app_nil_r.
  - intros H. exists o, tr, []. rewrite app_nil_r. split_and!; [done..|]. by destruct o as [[]|e].
Qed.

(** A coroutine that does nothing can be left out. *)
Lemma exec_gather_skip_l (p : mq_prog unit) tr o :
  exec (gather [Ret tt; p]) tr o ↔ exec p tr o.
Proof.
  rewrite <- (exec_gather_one p). change (gather [Ret tt; p]) with
    (on_outcome (λ o2, lift o2) (gather [p]) : mq_prog unit).
  rewrite exec_on_outcome. split.
  - intros (o1 & tr1 & tr2 & -> & H1 & H). apply exec_lift in H as [-> ->].
    by rewrite app_nil_r.
  - intros H. exists o, tr, []. rewrite app_nil_r. split_and!; [done..|]. by apply exec_lift.
Qed.

Lemma exec_gather_skip_r (p : mq_prog unit) tr o :
  exec (gather [p; Ret tt]) tr o ↔ exec p tr o.
Proof.
  rewrite <- (exec_gather_one p). cbn [gather]. rewrite !exec_on_outcome.
  split; intros (o1 & tr1 & tr2 & -> & H1 & H); exists o1, tr1, tr2;
    (split_and!; [done..|]); by destruct o1 as [[]|e].
Qed.

Lemma exec_gather_owner m err tr o :
  exec (gather ((λ svc, svc_end svc m err) <$> [PRFeedbackService; PushFeedbackService])) tr o ↔
  exec (svc_end (owner (sm_workflow m)) m err) tr o.
Proof.
  assert (Hother : ∀ w svc, HandlesOnly w svc → sm_workflow m ≠ w → svc_end svc m err = Ret tt).
  { intros w svc Hsvc Hw. destruct err; [by eapply others_error|by eapply others_completed]. }
  cbn [fmap list_fmap]. destruct (sm_workflow m) eqn:Hw.
  - rewrite (Hother PUSH PushFeedbackService _ ltac:(done)). apply exec_gather_skip_r.
  - rewrite (Hother PR PRFeedbackService _ ltac:(done)). apply exec_gather_skip_l.
Qed.

(** A call of a service, seen from the handler. *)
Definition svc_obs : obs mq_ev mq_resp → obs poll_ev poll_resp := obs_inl.

(** What the policy and the scan say of a finished scan. *)
Inductive verdict (i : inspector) : list (obs poll_ev poll_resp) → option string → Prop :=
| scan_failed : i_successful i = false → verdict i [] (Some "Scan workflow failure")
| scan_passed : i_successful i = true →
    verdict i [Obs (inr (BreakBuild (i_project_id i) (i_scan_id i)) : poll_ev) (Ok false)] None
| policy_broken again : i_successful i = true →
    verdict i [Obs (inr (BreakBuild (i_project_id i) (i_scan_id i)) : poll_ev) (Ok true);
               Obs (inr (BreakBuild (i_project_id i) (i_scan_id i)) : poll_ev) (Ok again)]
      (Some (if again : bool then "Policy violation" else i_state_msg i)).

(** A finished scan that is handed over without an exception. *)
Lemma tell_services_ok m i tr :
  exec (tell_services [PRFeedbackService; PushFeedbackService] m i) tr (Ok tt) →
  ∃ asked err found, verdict i asked err ∧
    tr = asked ++ (svc_obs <$> Obs MqClient (Ok tt) ::
      publish_trace EXCHANGE_SCAN_INPUT (feedback_topic m err) (feedback_message m err) found).
Proof.
  assert (Hend : ∀ asked err tr', verdict i asked err →
    exec (embed (gather ((λ svc, svc_end svc m err) <$> [PRFeedbackService; PushFeedbackService]))
      : poll_prog unit) tr' (Ok tt) →
    ∃ asked' err found, verdict i asked' err ∧
      asked ++ tr' = asked' ++ (svc_obs <$> Obs MqClient (Ok tt) ::
        publish_trace EXCHANGE_SCAN_INPUT (feedback_topic m err) (feedback_message m err) found)).
  { intros asked err tr' Hv H. apply exec_embed in H as (tr1 & H & ->).
    apply exec_gather_owner, owner_end_ok in H as [found ->]. by exists asked, err, found. }
  unfold tell_services, all_completed, all_error. intros H.
  apply exec_bind_ok in H as (ok & tr1 & tr2 & -> & H1 & H).
  destruct (i_successful i) eqn:Hs.
  - unfold own in H1. call_step H1 as [(bb & tr' & -> & H1)|(x & -> & ?)]; [|done].
    destruct H1 as [-> ?]. simplify_eq. destruct bb; simpl in H.
    + unfold own in H. call_step H as [(again & tr' & -> & H)|(x & -> & ?)]; [|done].
      apply (Hend _ (Some (if again : bool then "Policy violation" else i_state_msg i)) tr'
               (policy_broken i again Hs)).
      by destruct again.
    + exact (Hend _ _ _ (scan_passed i Hs) H).
  - destruct H1 as [-> ?]. simplify_eq. exact (Hend _ _ _ (scan_failed i Hs) H).
Qed.

(** When a finished scan is handed over without an exception, the verdict on
    it - passed, failed, or broken by a policy - is published exactly once, to
    the topic of its own workflow and with the identity of the scan, and is lost
    only when the broker does not have the exchange. *)
Theorem finished_scan_feedback m i tr :
  exec (tell_services [PRFeedbackService; PushFeedbackService] m i) tr (Ok tt) →
  ∃ asked err found, verdict i asked err ∧
    tr = asked ++ (svc_obs <$> Obs MqClient (Ok tt) ::
      publish_trace EXCHANGE_SCAN_INPUT (feedback_topic m err) (feedback_message m err) found).
Proof. apply tell_services_ok. Qed.

(** ** Nothing is acknowledged for nothing *)
Definition is_ack (e : poll_ev) : bool := match e with inr Ack => true | _ => false end.
Definition is_settle (e : poll_ev) : bool :=
  match e with inr Ack | inr (Nack _) => true | _ => false end.
Definition answered (e : poll_ev) (a : poll_resp e) : obs poll_ev poll_resp := Obs e (Ok a).
Definition failed (e : poll_ev) (x : exn) : obs poll_ev poll_resp := Obs e (Err x).

Section accounting.
Context (from_binary : string → outcome (ScanMessage * string)).
Context (fromisoformat : string → outcome Z).
Context (services : list feedback_service) (max_interval : Z) (backoff : json).
Context (msg : incoming) (m : ScanMessage) (drop : string).

(** The copy that waits for the next poll. *)
Definition requeued_copy (delay : Z) : poll_ev :=
  inl (Publish EXCHANGE_SCAN_INPUT (in_routing_key msg)
         (Outgoing (scan_body (ScanAwaitMessage m drop)) None (Some delay))).

(** Why a message may be acknowledged: its time is over; its scan is finished
    and every service was told of it; the broker confirmed a copy of it; or a
    call of the Checkmarx One library failed for good. *)
Inductive ack_reason (hist : list (obs poll_ev poll_resp)) : Prop :=
| time_over now : answered (inl Now) now ∈ hist →
    is_expired fromisoformat now drop = Ok true → ack_reason hist
| handed_over i pre told post : hist = pre ++ told ++ post → i_executing i = false →
    answered (inr (LoadInspector (sm_scanid m))) i ∈ pre →
    exec (tell_services services m i) told (Ok tt) → ack_reason hist
| copied orig_exp scalar : original_expiration (in_headers msg) = Ok orig_exp →
    as_number backoff = Ok scalar →
    answered (requeued_copy (next_delay max_interval scalar orig_exp)) true ∈ hist →
    ack_reason hist
| stopped e : failed e ResponseException ∈ hist → ack_reason hist.

Lemma ack_reason_more hist post : ack_reason hist → ack_reason (hist ++ post).
Proof.
  intros [now Hn He|i pre told post' -> Hex Hi Ht|oe sc Ho Hs Hc|e He].
  - eapply time_over; [|done]. apply elem_of_app. by left.
  - eapply (handed_over _ i pre told (post' ++ post)); [by simplify_list_eq|done..].
  - eapply copied; [done..|]. apply elem_of_app. by left.
  - eapply stopped. apply elem_of_app. by left.
Qed.

Abbreviation acks_justified := (guarded is_ack ack_reason).

Lemma embed_no_ack {A} hist (p : mq_prog A) : acks_justified hist (embed p : poll_prog A).
Proof.
  apply guarded_only. intros tr o H. apply exec_embed in H as (tr' & _ & ->).
  induction tr' as [|[e r] tr' IH]; [constructor|]. by constructor.
Qed.

Lemma guarded_own hist e : ack_reason hist → acks_justified hist (call (inr e : poll_ev)).
Proof. exact (guarded_call (Ev:=poll_ev) (Resp:=poll_resp) _ _ hist (inr e)). Qed.

Ltac no_ack := solve [apply guarded_only; only_calls].

Lemma gather_no_ack hist m' i : acks_justified hist (tell_services services m' i).
Proof.
  unfold tell_services, all_completed, all_error, own.
  apply guarded_bind; [case_match; no_ack|]. intros ok tr1 _.
  destruct ok; [apply embed_no_ack|]. case_match; [apply embed_no_ack|].
  apply guarded_bind; [no_ack|]. intros bb tr2 _. destruct bb; apply embed_no_ack.
Qed.

(** An exception of the outer [try] is one of a call. *)
Lemma poll_scan_justified hist :
  acks_justified hist (poll_scan services m).
Proof.
  unfold poll_scan, attempt, own. apply guarded_bind.
  { apply guarded_on_outcome; [no_ack|]. intros; no_ack. }
  intros r tr1 Hload. destruct r as [i|e]; [|no_ack].
  apply exec_on_outcome in Hload as (o1 & tr1' & tr2 & -> & Hload & [-> ?]).
  last_call Hload. simplify_eq. rewrite app_nil_r.
  destruct (i_executing i) eqn:Hex; [no_ack|].
  apply guarded_bind.
  { apply guarded_on_outcome; [|intros; case_match; no_ack].
    apply guarded_bind; [apply gather_no_ack|]. intros; no_ack. }
  intros requeue tr2 Htell. destruct requeue; [no_ack|].
  apply guarded_bind; [|intros; no_ack].
  apply guarded_on_outcome; [|intros; no_ack].
  refine (guarded_own _ Ack _).
  apply exec_on_outcome in Htell as (o1 & told & tr3 & -> & Htell & H).
  destruct o1 as [b|e]; [|by case_match; destruct H].
  destruct H as [-> ?]. simplify_eq.
  apply exec_bind_ok in Htell as ([] & told' & tr4 & -> & Htell & [-> _]).
  eapply (handed_over _ i _ told' []).
  - by rewrite !app_nil_r.
  - done.
  - apply elem_of_app. right. by left.
  - done.
Qed.

Lemma requeue_justified hist :
  acks_justified hist (requeue_message max_interval backoff msg m drop).
Proof.
  unfold requeue_message, mq, own. apply guarded_bind; [no_ack|].
  intros found tr1 _. destruct found; [|no_ack].
  apply guarded_bind; [no_ack|]. intros oe tr2 Ho. apply exec_lift in Ho as [-> Ho].
  apply guarded_bind; [no_ack|]. intros sc tr3 Hs. apply exec_lift in Hs as [-> Hs].
  apply guarded_bind; [no_ack|]. intros confirmed tr4 Hp. last_call Hp. subst.
  destruct confirmed; [|no_ack]. refine (guarded_own _ Ack _).
  eapply copied; [done..|]. apply elem_of_app. right. by left.
Qed.

(** The exceptions of the outer [try] are those of a call. *)
Lemma channel_failed tr e :
  exec (attempt (do! mq MqClient in mq OpenChannel)) tr (Ok (Err e)) → ∃ ev, failed ev e ∈ tr.
Proof.
  intros H. apply exec_on_outcome in H as (o1 & tr1 & tr2 & -> & H & [-> ?]). simplify_eq.
  rewrite app_nil_r. unfold mq in H. call_step H as [(a & tr' & -> & H)|(x & -> & ?)].
  - last_call H. subst. exists (inl OpenChannel). right. by left.
  - simplify_eq. exists (inl MqClient). by left.
Qed.

Lemma poll_scan_failed tr e requeue :
  exec (poll_scan services m) tr (Ok (Err e, requeue)) → ∃ ev, failed ev e ∈ tr.
Proof.
  unfold poll_scan, own. intros H. apply exec_bind_ok in H as (r & tr1 & tr2 & -> & H1 & H).
  apply exec_on_outcome in H1 as (o1 & tr1' & tr3 & -> & H1 & [-> ?]). simplify_eq.
  last_call H1. subst. destruct o1 as [i|x].
  - destruct (i_executing i); [by destruct H|].
    apply exec_bind_ok in H as (rq & tr4 & tr5 & -> & _ & H). destruct rq; [by destruct H|].
    apply exec_bind_ok in H as (r & tr6 & tr7 & -> & H & [-> ?]). simplify_eq.
    apply exec_on_outcome in H as (o1 & tr8 & tr9 & -> & H & [-> ?]). simplify_eq.
    last_call H. subst. exists (inr Ack). rewrite !elem_of_app. do 2 right. left. left. by left.
  - destruct H as [-> ?]. simplify_eq. eexists (inr _). left.
Qed.

Lemma poll_unexpired_justified hist :
  acks_justified hist (poll_unexpired services max_interval backoff msg m drop).
Proof.
  unfold poll_unexpired. apply guarded_bind.
  { unfold mq. apply guarded_on_outcome; [no_ack|]. intros; no_ack. }
  intros channel tr1 Hch. apply guarded_bind.
  { destruct channel; [apply poll_scan_justified|no_ack]. }
  intros [o rq] tr2 Hscan.
  assert (Hfail : ∀ e, o = Err e → ∃ ev, failed ev e ∈ hist ++ tr1 ++ tr2).
  { intros e ->. destruct channel as [[]|x].
    - apply poll_scan_failed in Hscan as [ev Hev]. exists ev. rewrite !elem_of_app. auto.
    - destruct Hscan as [-> ?]. simplify_eq. apply channel_failed in Hch as [ev Hev].
      exists ev. rewrite !elem_of_app. auto. }
  rewrite <- (assoc_L (++)). set (h := hist ++ tr1 ++ tr2) in *.
  apply guarded_bind.
  { destruct o as [[]|e]; [no_ack|]. destruct e; try no_ack.
    destruct (Hfail _ eq_refl) as [ev Hev].
    apply guarded_bind; [|intros; no_ack].
    apply guarded_on_outcome; [|intros; no_ack]. refine (guarded_own _ Ack _).
    by eapply stopped. }
  intros [o' rq'] tr3 _. apply guarded_bind.
  { destruct (rq' && is_ok channel); [apply requeue_justified|no_ack]. }
  intros _ tr4 _. unfold mq. apply guarded_bind; [destruct (is_ok channel); no_ack|]. intros; no_ack.
Qed.

Lemma execute_justified hist :
  from_binary (in_body msg) = Ok (m, drop) →
  acks_justified hist
    (execute_poll_scan_workflow from_binary fromisoformat services max_interval backoff msg).
Proof.
  intros Hbody. unfold execute_poll_scan_workflow, safe_deserialize_body. rewrite Hbody.
  apply guarded_bind; [no_ack|]. intros [m' drop'] tr1 [-> Heq]. simplify_eq.
  unfold mq. apply guarded_bind; [no_ack|]. intros now tr2 Hnow. last_call Hnow. subst.
  apply guarded_bind; [no_ack|]. intros expired tr3 He. apply exec_lift in He as [-> He].
  destruct expired; [|apply poll_unexpired_justified].
  refine (guarded_own _ Ack _). eapply (time_over _ now); [|done].
  rewrite !elem_of_app. left. right. by left.
Qed.

(** A poll that returns settles its message, unless the exchange is missing. *)
Definition settled (tr : list (obs poll_ev poll_resp)) : Prop :=
  answered (inr Ack) tt ∈ tr ∨ ∃ b, answered (inr (Nack b)) tt ∈ tr.
Definition exchange_missing (tr : list (obs poll_ev poll_resp)) : Prop :=
  answered (inl (GetExchange EXCHANGE_SCAN_INPUT)) false ∈ tr.
Definition accounted (tr : list (obs poll_ev poll_resp)) : Prop :=
  settled tr ∨ exchange_missing tr.

Lemma accounted_app tr1 tr2 : accounted tr1 ∨ accounted tr2 → accounted (tr1 ++ tr2).
Proof.
  unfold accounted, settled, exchange_missing. setoid_rewrite elem_of_app.
  intros [[[|[b ?]]|]|[[|[b ?]]|]]; eauto 6.
Qed.

Lemma requeue_accounted tr :
  exec (requeue_message max_interval backoff msg m drop) tr (Ok tt) → accounted tr.
Proof.
  unfold requeue_message, mq, own. intros H.
  call_step H as [(found & tr1 & -> & H)|(x & -> & ?)]; [|done].
  destruct found; [|right; left].
  apply exec_lift_bind_ok in H as (oe & _ & H). apply exec_lift_bind_ok in H as (sc & _ & H).
  call_step H as [(confirmed & tr2 & -> & H)|(x & -> & ?)]; [|done].
  left. destruct confirmed; last_call H; subst; [left|right; exists true]; do 2 right; left.
Qed.

Lemma poll_scan_accounted tr rq :
  exec (poll_scan services m) tr (Ok (Ok tt, rq)) → rq = true ∨ accounted tr.
Proof.
  unfold poll_scan, own. intros H. apply exec_bind_ok in H as (r & tr1 & tr2 & -> & _ & H).
  destruct r as [i|x]; [|by destruct H].
  destruct (i_executing i); [destruct H; simplify_eq; by left|].
  apply exec_bind_ok in H as (rq' & tr3 & tr4 & -> & _ & H).
  destruct rq'; [destruct H; simplify_eq; by left|]. right.
  apply exec_bind_ok in H as (r & tr5 & tr6 & -> & H & [-> ?]). simplify_eq.
  apply exec_on_outcome in H as (o1 & tr7 & tr8 & -> & H & [-> ?]). simplify_eq.
  last_call H. subst. left. left. rewrite !elem_of_app. do 2 right. left. left. by left.
Qed.

Lemma poll_unexpired_accounted tr :
  exec (poll_unexpired services max_interval backoff msg m drop) tr (Ok tt) → accounted tr.
Proof.
  unfold poll_unexpired. intros H.
  apply exec_bind_ok in H as (channel & tr1 & tr2 & -> & _ & H).
  apply exec_bind_ok in H as ([o rq] & tr3 & tr4 & -> & Hscan & H).
  apply exec_bind_ok in H as ([o' rq'] & tr5 & tr6 & -> & Hr & H).
  apply exec_bind_ok in H as ([] & tr7 & tr8 & -> & Hq & H).
  apply exec_bind_ok in H as ([] & tr9 & tr10 & -> & _ & H).
  apply exec_lift in H as [-> <-].
  assert (accounted tr5 ∨ (o, rq) = (Ok tt, rq')) as [?|Heq].
  { destruct o as [[]|e]; [destruct Hr; simplify_eq; by right|].
    destruct e; try by destruct Hr. left. unfold own in Hr.
    apply exec_bind_ok in Hr as (r & tr11 & tr12 & -> & H & [-> ?]). simplify_eq.
    apply exec_on_outcome in H as (o1 & tr13 & tr14 & -> & H & [-> ?]). simplify_eq.
    last_call H. subst. left. left. left. }
  { do 2 (apply accounted_app; right). apply accounted_app. by left. }
  simplify_eq. destruct channel as [[]|x]; [|by destruct Hscan].
  apply poll_scan_accounted in Hscan as [->|Hacc].
  - apply requeue_accounted in Hq. do 3 (apply accounted_app; right). apply accounted_app. by left.
  - apply accounted_app. right. apply accounted_app. by left.
Qed.
End accounting.

(** C19: [process_poll] acknowledges a message only when it has a reason to - the
    time of the scan is over, the scan is finished and both services have been
    told, the broker confirmed a copy that waits for the next poll, or the
    Checkmarx One library gave up - and whenever it returns, the message is
    settled, unless the exchange for the copy was not found. *)
Theorem process_poll_accounted from_binary fromisoformat repr r msg tr o :
  exec (process_poll from_binary fromisoformat repr r msg) tr o →
  (∀ pre ob post, tr = pre ++ ob :: post → is_ack (projT1 ob) = true →
     ∃ m drop s, from_binary (in_body msg) = Ok (m, drop) ∧
       retrieve_services_by_moniker repr r (JStr (sm_moniker m)) = Ok s ∧
       ack_reason fromisoformat [PRFeedbackService; PushFeedbackService]
         (po_max_interval (fs_poll s)) (po_backoff (fs_poll s)) msg m drop pre) ∧
  (o = Ok tt → accounted tr).
Proof.
  intros H. split.
  - revert tr o H. change (guarded is_ack (λ pre, ∃ m drop s, from_binary (in_body msg) = Ok (m, drop) ∧
       retrieve_services_by_moniker repr r (JStr (sm_moniker m)) = Ok s ∧
       ack_reason fromisoformat [PRFeedbackService; PushFeedbackService]
         (po_max_interval (fs_poll s)) (po_backoff (fs_poll s)) msg m drop pre) []
       (process_poll from_binary fromisoformat repr r msg)).
    unfold process_poll, own. apply guarded_on_outcome; [|intros; apply guarded_only; only_calls].
    apply guarded_bind; [apply guarded_only; only_calls|].
    intros [m drop] tr1 Hm. apply exec_lift in Hm as [-> Hm].
    apply guarded_bind; [apply guarded_only; only_calls|].
    intros s tr2 Hs. apply exec_lift in Hs as [-> Hs].
    eapply guarded_weaken; [|apply execute_justified; done].
    intros h Hh. by exists m, drop, s.
  - intros ->. unfold process_poll, own in H.
    apply exec_on_outcome in H as (o1 & tr1 & tr2 & -> & H1 & H). destruct o1 as [[]|e].
    + apply accounted_app. left.
      apply exec_lift_bind_ok in H1 as ([m drop] & Hm & H1).
      apply exec_lift_bind_ok in H1 as (s & Hs & H1).
      unfold execute_poll_scan_workflow, safe_deserialize_body in H1. rewrite Hm in H1.
      apply exec_bind_ok in H1 as ([m' drop'] & tr3 & tr4 & -> & [-> ?] & H1). simplify_eq.
      apply exec_bind_ok in H1 as (now & tr5 & tr6 & -> & _ & H1).
      apply accounted_app. right. apply accounted_app. right.
      apply exec_lift_bind_ok in H1 as (expired & _ & H1). destruct expired.
      * unfold own in H1. last_call H1. subst. left. left. left.
      * by eapply poll_unexpired_accounted.
    + destruct (is_BaseException e); [|by destruct H]. last_call H. subst.
      apply accounted_app. right. left. right. exists false. left.
Qed.

(** ** The delays *)

(** The expiration of the message, in milliseconds, at its nth poll; the first
    is the interval of the workflow. *)
Fixpoint delay (max_interval scalar first : Z) (n : nat) : Z :=
  match n with
  | 0 => first
  | S n' => next_delay max_interval scalar (delay max_interval scalar first n')
  end.

Lemma delay_lower max_interval scalar first n :
  (1 ≤ scalar)%Z → (0 ≤ first)%Z → (0 ≤ max_interval)%Z →
  (Z.min first (1000 * max_interval) ≤ delay max_interval scalar first n)%Z.
Proof.
  intros Hs Hf Hm. induction n as [|n IH]; simpl; unfold next_delay; [lia|]. nia.
Qed.

(** The delay between polls is the first one multiplied at each poll, up to
    the configured maximum, which it reaches after a number of polls
    logarithmic in the maximum and then keeps. *)
Theorem poll_backoff max_interval scalar first n :
  (1 ≤ scalar)%Z → (0 ≤ first)%Z → (0 ≤ max_interval)%Z →
  delay max_interval scalar first (S n) =
    Z.min (first * scalar ^ Z.of_nat (S n)) (1000 * max_interval) ∧
  ((1 < scalar)%Z → (0 < first)%Z → (1000 * max_interval ≤ 2 ^ Z.of_nat (S n))%Z →
   delay max_interval scalar first (S n) = (1000 * max_interval)%Z).
Proof.
  intros Hs Hf Hm.
  assert (delay max_interval scalar first (S n) =
    Z.min (first * scalar ^ Z.of_nat (S n)) (1000 * max_interval)) as Heq.
  { induction n as [|n IH].
    - simpl delay. unfold next_delay. by rewrite Z.pow_1_r.
    - change (delay max_interval scalar first (S (S n))) with
        (next_delay max_interval scalar (delay max_interval scalar first (S n))).
      rewrite IH. unfold next_delay. rewrite (Nat2Z.inj_succ (S n)), Z.pow_succ_r by lia.
      set (p := (scalar ^ Z.of_nat (S n))%Z) in *. clearbody p. clear IH.
      destruct (Z.min_spec (first * p) (1000 * max_interval)) as [[H1 ->]|[H1 ->]]; [lia|nia]. }
  split; [done|]. intros Hs' Hf' Hmax. rewrite Heq. apply Z.min_r.
  pose proof (Z.pow_le_mono_l 2 scalar (Z.of_nat (S n)) ltac:(lia)). nia.
Qed.

(** What the clock showed. *)
Definition now_of (ob : obs poll_ev poll_resp) : option Z :=
  match ob with
  | existT e r =>
      match e return outcome (poll_resp e) → option Z with
      | inl Now => λ r : outcome Z, match r with Ok now => Some now | Err _ => None end
      | _ => λ _, None
      end r
  end.

(** C37: polling terminates: when each poll comes no sooner than the delay its
    message was given, a scan that never finishes is dropped - acknowledged,
    without asking for the scan or publishing a copy - at the latest by the poll
    whose number times the smallest delay covers the time it had. *)
Theorem poll_terminates from_binary fromisoformat services max_interval backoff msg
    m drop scalar first limit (poll_time : nat → Z) n tr o :
  from_binary (in_body msg) = Ok (m, drop) → fromisoformat drop = Ok limit →
  (1 ≤ scalar)%Z → (0 ≤ first)%Z → (0 ≤ max_interval)%Z →
  (∀ k, 1000 * poll_time k + delay max_interval scalar first k ≤ 1000 * poll_time (S k))%Z →
  (1000 * (limit - poll_time 0%nat) ≤ Z.of_nat n * Z.min first (1000 * max_interval))%Z →
  exec (execute_poll_scan_workflow from_binary fromisoformat services max_interval backoff msg)
    (answered (inl Now) (poll_time n) :: tr) o →
  events tr = [inr Ack].
Proof.
  intros Hbody Hdrop Hs Hf Hm Htime Hn H.
  assert (Hreach : (Z.of_nat n * Z.min first (1000 * max_interval) ≤
            1000 * (poll_time n - poll_time 0%nat))%Z).
  { clear Hn H. induction n as [|n IH]; [lia|]. specialize (Htime n).
    pose proof (delay_lower max_interval scalar first n Hs Hf Hm). lia. }
  unfold execute_poll_scan_workflow, safe_deserialize_body in H. rewrite Hbody in H.
  change (exec (let! now := mq Now in let! expired := lift (is_expired fromisoformat now drop) in
    if expired : bool then own Ack else
    poll_unexpired services max_interval backoff msg m drop)
    (answered (inl Now) (poll_time n) :: tr) o) in H.
  unfold mq, own in H. call_step H as [(now & tr' & Heq & H)|(x & Heq & _)].
  2: { pose proof (f_equal (λ l, head l ≫= now_of) Heq) as Hnow. discriminate Hnow. }
  pose proof (f_equal (λ l, head l ≫= now_of) Heq) as Hnow. simpl in Hnow.
  unfold is_expired in H. rewrite Hdrop in H.
  pose proof (f_equal tail Heq) as Htr. simpl in Htr. subst tr'. injection Hnow as <-.
  assert (Hle : (limit <=? poll_time n)%Z = true) by (apply Z.leb_le; lia).
  change (exec (if (limit <=? poll_time n)%Z then own Ack
                else poll_unexpired services max_interval backoff msg m drop) tr o) in H.
  rewrite Hle in H. unfold own in H. last_call H. by subst.
Qed.

(** Without a connection to the broker, the message of a scan that may still be
    executing is rejected for good: no copy is published, and no dead letter
    exchange takes the message of the polling queue. *)
Theorem poll_lost_without_broker from_binary fromisoformat repr r msg m drop s limit now x tags key :
  from_binary (in_body msg) = Ok (m, drop) → fromisoformat drop = Ok limit → (now < limit)%Z →
  retrieve_services_by_moniker repr r (JStr (sm_moniker m)) = Ok s →
  x ≠ ResponseException → is_BaseException x = true →
  exec (process_poll from_binary fromisoformat repr r msg)
    [answered (inl Now) now; failed (inl MqClient) x; answered (inr (Nack false)) tt] (Ok tt) ∧
  expire (setup tags) QUEUE_SCAN_POLLING key = [].
Proof.
  intros Hbody Hdrop Hnow Hs Hx Hb. split.
  - unfold process_poll. apply exec_on_outcome.
    exists (Err x), [answered (inl Now) now; failed (inl MqClient) x], [answered (inr (Nack false)) tt].
    split_and!; [done| |].
    + rewrite Hbody. apply exec_lift_bind. left. eexists. split; [done|].
      apply exec_lift_bind. left. eexists. split; [done|].
      unfold execute_poll_scan_workflow, safe_deserialize_body. rewrite Hbody.
      change (exec (let! now := mq Now in
        let! expired := lift (is_expired fromisoformat now drop) in
        if expired : bool then own Ack else poll_unexpired
          [PRFeedbackService; PushFeedbackService] (po_max_interval (fs_poll s))
          (po_backoff (fs_poll s)) msg m drop)
        [answered (inl Now) now; failed (inl MqClient) x] (Err x)).
      apply (exec_call_bind (Ev:=poll_ev) (Resp:=poll_resp)). left. exists now, [failed (inl MqClient) x].
      split; [done|]. apply exec_lift_bind. left. exists false. split.
      { unfold is_expired. rewrite Hdrop. simpl. f_equal. apply Z.leb_gt. lia. }
      unfold poll_unexpired, attempt. apply exec_bind. left.
      exists (Err x), [failed (inl MqClient) x], []. split_and!; [done| |].
      * apply exec_on_outcome. exists (Err x), [failed (inl MqClient) x], [].
        split_and!; [done| |done].
        apply (exec_call_bind (Ev:=poll_ev) (Resp:=poll_resp)). right. by exists x.
      * by destruct x.
    + rewrite Hb. by apply (exec_call (Ev:=poll_ev) (Resp:=poll_resp)).
  - unfold expire. assert (dget QUEUE_SCAN_POLLING (dead_letters (setup tags)) = None) as ->; [|done].
    change (dget QUEUE_SCAN_POLLING ((λ qt : string * string,
      (qt.1, EXCHANGE_RESOLVER_SCAN_DLX)) <$> queue_and_topic_tuples tags) = None).
    induction tags as [|t tags IH]; [done|]. exact IH.
Qed.

(** ** Witnesses *)
Definition demo_routes : routes :=
  match demo_setup with Ok s => Routes [] [(JStr "n", s)] | Err _ => no_routes end.
Definition demo_scan : ScanMessage :=
  MkScanMessage "n" AWAIT PUSH no_details (JStr "S") (JStr "P").
Definition demo_incoming : incoming :=
  Incoming "scan" [("x-death", JArr [JObj [("original-expiration", JStr "90000")]])]
    (push_make_topic AWAIT (str_feedback FB_PUSH_GEN) "n").
Definition demo_from_binary (body : string) : outcome (ScanMessage * string) :=
  if String.eqb body "scan" then Ok (demo_scan, "late") else Err ValueError.
Definition demo_fromiso (s : string) : outcome Z :=
  if String.eqb s "late" then Ok 5000%Z else Err ValueError.

(** The clock shows [now], the scan is in the given state. *)
Definition demo_poll_world (i : inspector) (now : Z) (e : poll_ev) : outcome (poll_resp e) * Z :=
  match e return outcome (poll_resp e) * Z with
  | inl e => match e return outcome (mq_resp e) * Z with
             | GetExchange _ | Publish _ _ _ => (Ok true, now)
             | Now => (Ok now, now)
             | MqClient | OpenChannel | CloseChannel => (Ok tt, now)
             end
  | inr e => match e return outcome (own_resp e) * Z with
             | LoadInspector _ => (Ok i, now)
             | BreakBuild _ _ => (Ok false, now)
             | Ack | Nack _ => (Ok tt, now)
             end
  end.
Definition demo_busy : inspector := Inspector (JStr "P") (JStr "S") true false false "".
Definition demo_done : inspector := Inspector (JStr "P") (JStr "S") false true false "".

Lemma finished_scan_feedback_witness :
  ∃ asked err found, verdict demo_done asked err ∧
    run_trace (demo_poll_world demo_done) 0%Z
      (tell_services [PRFeedbackService; PushFeedbackService] demo_scan demo_done) =
    asked ++ (svc_obs <$> Obs MqClient (Ok tt) ::
      publish_trace EXCHANGE_SCAN_INPUT (feedback_topic demo_scan err)
        (feedback_message demo_scan err) found).
Proof.
  apply finished_scan_feedback.
  exact (exec_run (demo_poll_world demo_done) 0%Z
           (tell_services [PRFeedbackService; PushFeedbackService] demo_scan demo_done)).
Defined.

Definition demo_poll : poll_prog unit :=
  process_poll demo_from_binary demo_fromiso (λ _, "") demo_routes demo_incoming.

(** A scan that executes is polled again in three minutes. *)
Lemma process_poll_accounted_witness :
  answered (requeued_copy demo_incoming demo_scan "late" 180000) true
    ∈ run_trace (demo_poll_world demo_busy) 0%Z demo_poll ∧
  accounted (run_trace (demo_poll_world demo_busy) 0%Z demo_poll).
Proof.
  split; [vm_compute; repeat (first [apply list_elem_of_here | apply list_elem_of_further])|].
  apply (proj2 (process_poll_accounted demo_from_binary demo_fromiso (λ _, "") demo_routes
                  demo_incoming _ _ (exec_run (demo_poll_world demo_busy) 0%Z demo_poll))).
  vm_compute. reflexivity.
Defined.

Lemma poll_backoff_witness :
  delay 600 2 90000 2 = 360000%Z ∧ delay 600 2 90000 20 = 600000%Z.
Proof.
  split.
  - exact (proj1 (poll_backoff 600 2 90000 1 ltac:(lia) ltac:(lia) ltac:(lia))).
  - apply (proj2 (poll_backoff 600 2 90000 19 ltac:(lia) ltac:(lia) ltac:(lia))); vm_compute; done.
Defined.

Definition demo_execute : poll_prog unit :=
  execute_poll_scan_workflow demo_from_binary demo_fromiso [PRFeedbackService] 600 (JInt 1)
    demo_incoming.

Lemma poll_terminates_witness :
  events (tail (run_trace (demo_poll_world demo_busy) 5040%Z demo_execute)) = [inr Ack].
Proof.
  apply (poll_terminates demo_from_binary demo_fromiso [PRFeedbackService] 600 (JInt 1)
           demo_incoming demo_scan "late" 1 90000 5000 (λ k, Z.of_nat k * 90)%Z 56
           _ (run_outcome (demo_poll_world demo_busy) 5040%Z demo_execute));
    [reflexivity|reflexivity|lia|lia|lia| |lia|].
  - intros k. assert (delay 600 1 90000 k = 90000%Z) as ->; [|lia].
    induction k as [|k IH]; [reflexivity|]. simpl. rewrite IH. reflexivity.
  - exact (exec_run (demo_poll_world demo_busy) 5040%Z demo_execute).
Defined.
