(* ===== verification/Feedback.v ===== *)
(** * Feedback: [src/workflows/feedback_services/] and the handlers of
    [src/workflow_agent.py] that use it

    What is done with a finished scan: the decoration of its pull request, or
    the generation of its SARIF log and the delivery of the log.  Every handler
    settles its message. *)
From S2P Require Import Prelude PyStr PyJson Url Auth ApiSession Grouping Messaging Broker CxOne Cloner Config Workflows ScmConfig Bootstrap Content.
Open Scope string_scope.
Open Scope nat_scope.
Open Scope list_scope.

(** ** Calls *)
Inductive fb_ev : Type :=
| FbAck
| FbNack (requeue : bool)
(* services.cxone *)
| RetrieveReport (project_id scan_id : json)
| PolicyViolations (project_id scan_id : json)
| GetSarifLog (scan_id clone_url branch : json)
(* services.scm *)
| MakeContent (c : pr_content)
| ScanPendingDecorate (d : PRDetails) (c : pr_content)
| ScanUpdateDecorate (d : PRDetails) (c : pr_content) (m : ScanMessage)
| ScanSuccessDecorate (d : PRDetails) (c : pr_content) (m : ScanMessage)
| ScanFailureDecorate (d : PRDetails) (c : pr_content) (m : ScanMessage)
| UnrecoverableError (d : PRDetails) (m : ScanMessage) (text : string)
(* the delivery agents *)
| HttpPost (url : json) (body : string) (headers : dict json)
| HttpSleep (delay : json)
| AmqpOpen
| AmqpExchange (name : json)
| AmqpPublish (exchange : json) (topic : string) (body : string) (headers : dict json)
| AmqpClose.

Definition fb_resp (e : fb_ev) : Type :=
  match e with
  | RetrieveReport _ _ | PolicyViolations _ _ => json      (* [JNull]: no report *)
  | GetSarifLog _ _ _ => string                            (* the log as JSON *)
  | HttpPost _ _ _ => bool                                 (* [response.ok] *)
  | AmqpExchange _ => bool                                 (* not [None] *)
  | _ => unit
  end.
#[global] Arguments fb_resp : simpl never.
Abbreviation fb_prog := (prog fb_ev fb_resp).

Definition ack : fb_prog unit := call FbAck.
Definition nack (requeue : bool) : fb_prog unit := call (FbNack requeue).
Definition do_call (e : fb_ev) : fb_prog (fb_resp e) := call e.

(** [PRDetails.from_dict] and [PushDetails.from_dict] of the workflow details:
    the fields of the class must be there. *)
Definition PRDetails_from_dict (d : workflow_details) : outcome PRDetails :=
  match d with
  | pr_details d => Ok d
  | _ => Err (KeyError "pr_id")
  end.
Definition PushDetails_from_dict (d : workflow_details) : outcome PushDetails :=
  match d with
  | push_details d => Ok d
  | _ => Err (KeyError "commit_hash")
  end.

Section feedback.
(** [str(v)] of a value and of an exception. *)
Context (repr : json → string).
Context (str_exn : exn → string).

(** ** [PRFeedbackService] *)
Section pr.
Context (w : pr_settings).

Definition enabled : bool := truthy (pr_enabled w).

(** [try ... return True; except BaseException: return False] *)
Definition or_false (p : fb_prog unit) : fb_prog bool :=
  catch is_BaseException (do! p in Ret true) (λ _, Ret false).

Definition process_prescan_pr_notice (details : workflow_details) (annotation : string) :
    fb_prog bool :=
  let! d := lift (PRDetails_from_dict details) in
  or_false (if enabled then
              let c := PrescanPullRequestMarkdownAnnotation annotation in
              do! do_call (MakeContent c) in do_call (ScanPendingDecorate d c)
            else Ret tt).

Definition process_pr_notice (m : ScanMessage) (annotation : string) : fb_prog bool :=
  let! d := lift (PRDetails_from_dict (sm_details m)) in
  or_false (if enabled then
              let c := PullRequestMarkdownAnnotation (sm_projectid m) (sm_scanid m) annotation
                         (prd_source_branch d) in
              do! do_call (MakeContent c) in do_call (ScanUpdateDecorate d c m)
            else Ret tt).

Definition missing_report (m : ScanMessage) : exn :=
  WorkflowException ("Project " +:+ py_str repr (sm_projectid m) +:+ ": Report for scan "
    +:+ py_str repr (sm_scanid m) +:+ " not found.").

(** [... + (msg.error_msg if msg.is_error else "completed")]; [None] is no string. *)
Definition status_msg (m : ScanMessage) (is_error : bool) (error_msg : option string) :
    outcome string :=
  let? what := if is_error then of_option TypeError error_msg else Ok "completed" in
  Ok ("Scan " +:+ py_str repr (sm_scanid m) +:+ ": " +:+ what).

Definition pr_feedback (m : ScanMessage) (is_error : bool) (error_msg : option string)
    (d : PRDetails) : fb_prog unit :=
  let! report := do_call (RetrieveReport (sm_projectid m) (sm_scanid m)) in
  if negb (not_none report) then Raise (missing_report m)
  else
    let! status := lift (status_msg m is_error error_msg) in
    let! violations := do_call (PolicyViolations (sm_projectid m) (sm_scanid m)) in
    let c := PullRequestMarkdownFeedback (pr_excluded_severities w) (pr_excluded_states w)
               (sm_projectid m) (sm_scanid m) report d violations status in
    do! do_call (MakeContent c) in
    if is_error return fb_prog unit then do_call (ScanFailureDecorate d c m)
    else do_call (ScanSuccessDecorate d c m).

Definition process_pr_feedback (m : ScanMessage) (is_error : bool) (error_msg : option string) :
    fb_prog bool :=
  let! d := lift (PRDetails_from_dict (sm_details m)) in
  catch is_BaseException
    (do! (if enabled then pr_feedback m is_error error_msg d else Ret tt) in Ret true)
    (λ e, do! do_call (UnrecoverableError d m ("CxOneFlow: " +:+ str_exn e)) in Ret false).
End pr.

(** ** The delivery agents of [PushFeedbackService] *)
Section delivery.
Context (available : string → bool).
Context (hmac : string → string → string → string).
Context (gzip : string → string).
(** [json.dumps({"error": msg})] *)
Context (dumps_error : option string → string).

(** [_gen_signature_headers] *)
Definition gen_signature_headers (secret content : string) : outcome (dict json) :=
  let? ' (alg, hash) := gen_signature_header available hmac secret content in
  Ok [("x-cx-signature-alg", JStr alg); ("x-cx-signature", JStr hash)].

(** [AbstractMessageDeliveryAgent.package_message], and the update with the
    headers of the message. *)
Definition package_message (secret body : string) (msg_headers : dict json) :
    outcome (string * dict json) :=
  let compressed := gzip body in
  let? signature := gen_signature_headers secret compressed in
  Ok (compressed, dunion (("content-encoding", JStr "gzip") :: signature) msg_headers).

(** [AmqpDeliveryAgent.__get_topic] *)
Definition sarif_topic (moniker prefix suffix : json) : outcome string :=
  let? p := match prefix with JNull => Ok "" | JStr s => Ok (rstrip "." s +:+ ".")
            | _ => Err AttributeError end in
  let? m := match moniker with JStr s => Ok s | _ => Err TypeError end in
  let? s := match suffix with JNull => Ok "" | JStr s => Ok ("." +:+ lstrip "." s)
            | _ => Err AttributeError end in
  Ok (p +:+ m +:+ s).

(** [__publish_message]; the connection is part of opening the channel.  A
    missing exchange has no [publish]. *)
Definition amqp_publish (exchange : json) (topic : outcome string) (body : string)
    (headers : dict json) : fb_prog unit :=
  on_outcome (λ o, match o with
    | Err e => if is_BaseException e then Ret tt else Raise e
    | Ok _ =>
        finally
          (catch is_BaseException
             (let! found := do_call (AmqpExchange exchange) in
              if negb (found : bool) then Raise AttributeError else
              let! topic := lift topic in
              do_call (AmqpPublish exchange topic body headers))
             (λ _, Ret tt))
          (do_call (AmqpClose))
    end) (do_call (AmqpOpen)).

(** [HttpDeliveryAgent.__post]: the result says whether the log was delivered.
    [remaining] is the retries left after this attempt. *)
Fixpoint post_loop (url delay : json) (body : string) (headers : dict json)
    (once : bool) (remaining : nat) : fb_prog bool :=
  on_outcome (λ o, match o with
    | Ok true => Ret true
    | Ok false => match remaining with
                  | 0 => Ret false
                  | S remaining' => post_loop url delay body headers true remaining'
                  end
    | Err e => if is_BaseException e then Ret false else Raise e
    end)
    (do! (if once then do_call (HttpSleep delay) else Ret tt) in
     do_call (HttpPost url body headers)).

Definition http_post (url retries delay : json) (body : string) (headers : dict json) :
    fb_prog unit :=
  let! n := lift (as_number retries) in
  do! post_loop url delay body headers false (Z.to_nat (Z.max n 0)) in Ret tt.

(** [execute_sarif_delivery] and [execute_sarif_error_delivery] *)
Definition deliver (agent : delivery_agent) (body : string) (msg_headers : dict json) :
    fb_prog unit :=
  match agent with
  | AmqpDeliveryAgent moniker secret exchange prefix suffix _ =>
      let! ' (body, headers) := lift (package_message secret body msg_headers) in
      amqp_publish exchange (sarif_topic moniker prefix suffix) body headers
  | HttpDeliveryAgent secret url retries delay _ _ =>
      let! ' (body, headers) := lift (package_message secret body msg_headers) in
      http_post url retries delay body headers
  end.

(** [asyncio.wait] of one task for each agent: it needs a task, waits for all of
    them and raises none of their exceptions. *)
Fixpoint deliver_all (agents : list delivery_agent) (body : string) (headers : dict json) :
    fb_prog unit :=
  match agents with
  | [] => Ret tt
  | a :: agents' => on_outcome (λ _, deliver_all agents' body headers) (deliver a body headers)
  end.
Definition wait_deliveries (agents : list delivery_agent) (body : string)
    (headers : dict json) : fb_prog unit :=
  match agents with [] => Raise ValueError | _ => deliver_all agents body headers end.

Definition sarif_headers (m : ScanMessage) (is_error : bool) (d : PushDetails) : dict json :=
  [("x-cx-scanid", sm_scanid m); ("x-cx-projectid", sm_projectid m);
   ("x-cx-service", JStr (sm_moniker m)); ("x-cx-clone-url", pd_clone_url d);
   ("x-cx-branch", pd_source_branch d); ("x-cx-commit", pd_commit_hash d);
   ("x-cx-is-error", JStr (if is_error then "True" else "False"))].

(** [execute_sarif_generation] of a message that was decoded *)
Definition sarif_generation (w : push_settings) (m : ScanMessage) (is_error : bool)
    (error_msg : option string) (d : PushDetails) : fb_prog unit :=
  on_outcome (λ o, match o with
    | Ok _ => Ret tt
    | Err e => if is_CxOneException e then nack true
               else if is_BaseException e then ack else Raise e
    end)
    (if truthy (pu_enabled w) then
       let headers := sarif_headers m is_error d in
       do! (if is_error then wait_deliveries (pu_agents w) (dumps_error error_msg) headers
            else let! log := do_call (GetSarifLog (sm_scanid m) (pd_clone_url d) (pd_source_branch d)) in
                 wait_deliveries (pu_agents w) log headers) in
       ack
     else ack).

(** ** The handlers of the agent *)
Section handlers.
(** [from_binary] of the message classes, on the body of the incoming message. *)
Context (feedback_from_binary : string → outcome (ScanMessage * bool * option string)).
Context (annotation_from_binary : string → outcome (ScanMessage * string)).
Context (prescan_from_binary : string → outcome (string * workflow_details * string)).
Context (r : routes).

Definition services_for (moniker : string) : fb_prog flow_services :=
  lift (retrieve_services_by_moniker repr r (JStr moniker)).

(** [try: ... if await p: ack else nack; except BaseException: nack] *)
Definition settle (p : fb_prog bool) : fb_prog unit :=
  catch is_BaseException
    (let! ok := p in
     if ok : bool then ack else nack false)
    (λ _, nack false).

Definition process_prescan_pr_annotate (body : string) : fb_prog unit :=
  settle (let! ' (moniker, details, annotation) := lift (prescan_from_binary body) in
          let! s := services_for moniker in
          process_prescan_pr_notice (fs_pr s) details annotation).

Definition process_pr_annotate (body : string) : fb_prog unit :=
  settle (let! ' (m, annotation) := lift (annotation_from_binary body) in
          let! s := services_for (sm_moniker m) in
          process_pr_notice (fs_pr s) m annotation).

(** [process_pr_feedback] and [process_pr_feedback_error] have the same body. *)
Definition process_pr_feedback_message (body : string) : fb_prog unit :=
  settle (let! ' (m, is_error, error_msg) := lift (feedback_from_binary body) in
          let! s := services_for (sm_moniker m) in
          process_pr_feedback (fs_pr s) m is_error error_msg).

(** The body is decoded again by [execute_sarif_generation]. *)
Definition execute_sarif_generation (w : push_settings) (body : string) : fb_prog unit :=
  match feedback_from_binary body with
  | Err e => do! nack false in Raise e
  | Ok (m, is_error, error_msg) =>
      let! d := lift (PushDetails_from_dict (sm_details m)) in
      sarif_generation w m is_error error_msg d
  end.

Definition process_gen_sarif (body : string) : fb_prog unit :=
  catch is_BaseException
    (let! ' (m, _, _) := lift (feedback_from_binary body) in
     let! s := services_for (sm_moniker m) in
     execute_sarif_generation (fs_push s) body)
    (λ _, nack false).
End handlers.
End delivery.
End feedback.

(** ** Theorems: the feedback of pull requests *)
Definition fb_ok (e : fb_ev) (a : fb_resp e) : obs fb_ev fb_resp := Obs e (Ok a).
Definition is_unrecoverable (e : fb_ev) : bool :=
  match e with UnrecoverableError _ _ _ => true | _ => false end.
Definition is_fb_settle (e : fb_ev) : bool :=
  match e with FbAck | FbNack _ => true | _ => false end.

Lemma only_do_call (Q : fb_ev → Prop) e : Q e → only Q (do_call e).
Proof. exact (only_call Q e). Qed.

Ltac fb_only :=
  repeat first
    [ progress intros | apply only_ret | apply only_raise | apply only_lift
    | lazymatch goal with |- only ?Q (do_call ?e) => refine (only_do_call Q e _); done end | apply only_bind | apply only_catch
    | apply only_on_outcome | apply only_finally | case_match | done ].

(** The calls of a feedback that ends well. *)
Definition feedback_trace (w : pr_settings) (m : ScanMessage) (is_error : bool)
    (d : PRDetails) (report violations : json) (status : string) : list (obs fb_ev fb_resp) :=
  let c := PullRequestMarkdownFeedback (pr_excluded_severities w) (pr_excluded_states w)
             (sm_projectid m) (sm_scanid m) report d violations status in
  [fb_ok (RetrieveReport (sm_projectid m) (sm_scanid m)) report;
   fb_ok (PolicyViolations (sm_projectid m) (sm_scanid m)) violations;
   fb_ok (MakeContent c) tt;
   if is_error then fb_ok (ScanFailureDecorate d c m) tt else fb_ok (ScanSuccessDecorate d c m) tt].

Lemma pr_feedback_ok repr w m is_error error_msg d tr :
  exec (pr_feedback repr w m is_error error_msg d) tr (Ok tt) →
  ∃ report violations status, not_none report = true ∧
    status_msg repr m is_error error_msg = Ok status ∧
    tr = feedback_trace w m is_error d report violations status.
Proof.
  unfold pr_feedback, do_call. intros H.
  call_step H as [(report & tr1 & -> & H)|(x & -> & ?)]; [|done].
  destruct (not_none report) eqn:Hr; [|by destruct H]. simpl in H.
  apply exec_lift_bind_ok in H as (status & Hs & H).
  call_step H as [(violations & tr2 & -> & H)|(x & -> & ?)]; [|done].
  call_step H as [([] & tr3 & -> & H)|(x & -> & ?)]; [|done].
  exists report, violations, status. split_and!; [done..|].
  destruct is_error; last_call H; by subst.
Qed.

(** The feedback of a scan on its pull request has one of two ends.  Either the
    report and the policy violations of the scan were read and the pull request
    was decorated once, as a failure exactly when the message says so; or one
    unrecoverable error is reported on it, as the last call, and the message is
    refused. *)
Theorem process_pr_feedback_outcome repr str_exn w m is_error error_msg d tr o :
  PRDetails_from_dict (sm_details m) = Ok d → enabled w = true →
  exec (process_pr_feedback repr str_exn w m is_error error_msg) tr o →
  (o = Ok true ∧ ∃ report violations status, not_none report = true ∧
     status_msg repr m is_error error_msg = Ok status ∧
     tr = feedback_trace w m is_error d report violations status) ∨
  (∃ work text r, tr = work ++ [Obs (UnrecoverableError d m text : fb_ev) r] ∧
     Forall (λ e, is_unrecoverable e = false) (events work) ∧
     o = match r with Ok _ => Ok false | Err x => Err x end) ∨
  o = Err OutOfFuel.
Proof.
  intros Hd Hw H. unfold process_pr_feedback in H. rewrite Hd in H.
  apply exec_lift_bind in H as [(d' & ? & H)|(e & ? & _)]; simplify_eq.
  apply exec_on_outcome in H as (o1 & tr1 & tr2 & -> & H1 & H). rewrite Hw in H1.
  apply exec_bind in H1 as [([] & tr3 & tr4 & -> & H1 & [-> ->])|(e & H1 & ->)].
  - left. destruct H as [-> ->]. rewrite !app_nil_r. split; [done|].
    by eapply pr_feedback_ok.
  - right. destruct (is_BaseException e) eqn:Hb.
    + left. assert (only (λ e, is_unrecoverable e = false)
                (pr_feedback repr w m is_error error_msg d')) as Honly.
      { unfold pr_feedback. fb_only. }
      specialize (Honly _ _ H1).
      unfold do_call in H. call_step H as [([] & tr3 & -> & [-> ->])|(x & -> & ->)].
      * by exists tr1, ("CxOneFlow: " +:+ str_exn e), (Ok tt).
      * by exists tr1, ("CxOneFlow: " +:+ str_exn e), (Err x).
    + right. destruct H as [_ ->]. by destruct e.
Qed.

(** ** Settlement *)

(** A handler does its work, which settles nothing, and then acknowledges the
    message when the work returned [True] and refuses it otherwise.  An
    acknowledgement that raises is followed by a refusal. *)
Definition settled_after (p : fb_prog bool) (tr : list (obs fb_ev fb_resp)) : Prop :=
  ∃ r work settlement, tr = work ++ settlement ∧ exec p work r ∧
    Forall (λ e, is_fb_settle e = false) (events work) ∧
    match r with
    | Ok true => settlement = [fb_ok FbAck tt] ∨
                 ∃ x, settlement = [Obs FbAck (Err x) : obs fb_ev fb_resp; fb_ok (FbNack false) tt]
    | Err OutOfFuel => False
    | _ => settlement = [fb_ok (FbNack false) tt] ∨
           ∃ x, settlement = [Obs (FbNack false) (Err x) : obs fb_ev fb_resp;
                              fb_ok (FbNack false) tt]
    end.

Lemma settle_spec p tr :
  only (λ e, is_fb_settle e = false) p → exec (settle p) tr (Ok tt) → settled_after p tr.
Proof.
  intros Hp H. unfold settle in H.
  apply exec_on_outcome in H as (o1 & tr1 & tr2 & -> & H1 & H).
  assert (Hlast : ∀ tr, exec (nack false) tr (Ok tt) → tr = [fb_ok (FbNack false) tt]).
  { intros tr Hn. unfold nack in Hn. last_call Hn. by subst. }
  apply exec_bind in H1 as [(ok & tr3 & tr4 & -> & H1 & H2)|(e & H1 & ->)].
  - exists (Ok ok), tr3, (tr4 ++ tr2). rewrite (assoc_L (++)).
    split_and!; [done..|by eapply Hp|].
    assert (tr4 = [Obs (if ok then FbAck else FbNack false : fb_ev)
                     (match ok return outcome (fb_resp (if ok then FbAck else FbNack false)) with
                      | true => o1 | false => o1 end)]) as ->.
    { unfold ack, nack in H2. destruct ok; last_call H2; by subst. }
    destruct o1 as [[]|x].
    + destruct H as [-> _]. destruct ok; by left.
    + destruct (is_BaseException x); [|by destruct H].
      apply Hlast in H as ->. destruct ok; right; by exists x.
  - exists (Err e), tr1, tr2. split_and!; [done..|by eapply Hp|].
    destruct (is_BaseException e) eqn:Hb; [|by destruct H].
    apply Hlast in H as ->. destruct e; try (by left). done.
Qed.

(** A message of the pull request queues is acknowledged, after all the work,
    exactly when the service says the work was done; a
    message that can not be decoded, that names no service, or whose work failed
    is refused and never put back on the queue. *)
Theorem pr_handlers_settle repr str_exn from_f from_a from_p r body tr :
  (exec (process_pr_feedback_message repr str_exn from_f r body) tr (Ok tt) →
   settled_after (let! ' (m, is_error, error_msg) := lift (from_f body) in
                  let! s := services_for repr r (sm_moniker m) in
                  process_pr_feedback repr str_exn (fs_pr s) m is_error error_msg) tr) ∧
  (exec (process_pr_annotate repr from_a r body) tr (Ok tt) →
   settled_after (let! ' (m, annotation) := lift (from_a body) in
                  let! s := services_for repr r (sm_moniker m) in
                  process_pr_notice (fs_pr s) m annotation) tr) ∧
  (exec (process_prescan_pr_annotate repr from_p r body) tr (Ok tt) →
   settled_after (let! ' (moniker, details, annotation) := lift (from_p body) in
                  let! s := services_for repr r moniker in
                  process_prescan_pr_notice (fs_pr s) details annotation) tr).
Proof.
  split_and!; apply settle_spec.
  - unfold services_for, process_pr_feedback, pr_feedback. fb_only.
  - unfold services_for, process_pr_notice, or_false. fb_only.
  - unfold services_for, process_prescan_pr_notice, or_false. fb_only.
Qed.

(** ** The delivery of SARIF logs *)
Definition is_post (e : fb_ev) : bool := match e with HttpPost _ _ _ => true | _ => false end.

(** Refused attempts, each after the first preceded by the delay. *)
Fixpoint refused_posts (url delay : json) (body : string) (headers : dict json)
    (once : bool) (n : nat) : list (obs fb_ev fb_resp) :=
  match n with
  | 0 => []
  | S n' => (if once then [fb_ok (HttpSleep delay) tt] else [])
              ++ [fb_ok (HttpPost url body headers) false]
              ++ refused_posts url delay body headers true n'
  end.

(** The last attempt of [post_loop]: what it was answered. *)
Inductive last_post (url delay : json) (body : string) (headers : dict json) (once : bool) :
    list (obs fb_ev fb_resp) → bool → bool → Prop :=
| post_answered ok :
    last_post url delay body headers once
      ((if once then [fb_ok (HttpSleep delay) tt] else []) ++ [fb_ok (HttpPost url body headers) ok])
      true ok
| post_raised x : is_BaseException x = true →
    last_post url delay body headers once
      ((if once then [fb_ok (HttpSleep delay) tt] else [])
       ++ [Obs (HttpPost url body headers : fb_ev) (Err x)]) false false
| sleep_raised x : once = true → is_BaseException x = true →
    last_post url delay body headers once [Obs (HttpSleep delay : fb_ev) (Err x)] false false.

(** One attempt of the loop. *)
Lemma post_attempt url delay body headers (once : bool) tr o :
  exec (do! (if once then do_call (HttpSleep delay) else Ret tt) in
        do_call (HttpPost url body headers)) tr o →
  match o with
  | Ok ok => last_post url delay body headers once tr true ok
  | Err x => is_BaseException x = true → last_post url delay body headers once tr false false
  end.
Proof.
  unfold do_call. intros H. destruct once.
  - call_step H as [([] & tr3 & -> & H)|(x & -> & ->)]; [|intros; by apply sleep_raised].
    last_call H. subst. destruct o as [ok|x].
    + exact (post_answered url delay body headers true ok).
    + exact (post_raised url delay body headers true x).
  - change (exec (call (HttpPost url body headers : fb_ev)) tr o) in H. last_call H. subst.
    destruct o as [ok|x].
    + exact (post_answered url delay body headers false ok).
    + exact (post_raised url delay body headers false x).
Qed.

Lemma post_loop_spec url delay body headers once remaining tr delivered :
  exec (post_loop url delay body headers once remaining) tr (Ok delivered) →
  ∃ n last answered, n ≤ remaining ∧
    tr = refused_posts url delay body headers once n ++ last ∧
    last_post url delay body headers (once || negb (n =? 0)) last answered delivered ∧
    (answered = true → delivered = false → n = remaining).
Proof.
  revert once tr. induction remaining as [|k IH]; intros once tr H; cbn [post_loop] in H;
    apply exec_on_outcome in H as (o1 & tr1 & tr2 & -> & H1 & H);
    apply post_attempt in H1; destruct o1 as [ok|x].
  - exists 0, tr1, true. destruct ok; destruct H as [-> ?]; simplify_eq;
      rewrite app_nil_r, orb_false_r; done.
  - destruct (is_BaseException x); [|by destruct H]. destruct H as [-> ?]. simplify_eq.
    exists 0, tr1, false. rewrite app_nil_r, orb_false_r. split_and!; [done..|by apply H1|done].
  - destruct ok.
    + destruct H as [-> ?]. simplify_eq. exists 0, tr1, true.
      rewrite app_nil_r, orb_false_r. split_and!; [lia|done..].
    + apply IH in H as (n & last & answered & Hn & -> & Hl & Hd).
      exists (S n), last, answered. inversion H1 as [ok Htr Heq| |]; subst.
      split_and!; [lia| | |intros; f_equal; auto].
      * simpl. by simplify_list_eq.
      * by rewrite orb_true_r.
  - destruct (is_BaseException x); [|by destruct H]. destruct H as [-> ?]. simplify_eq.
    exists 0, tr1, false. rewrite app_nil_r, orb_false_r.
    split_and!; [lia|done|by apply H1|done].
Qed.

(** A SARIF log is posted at most once more than the configured retries, with
    the configured delay before each retry; posting stops at the first accepted
    post or the first exception, it is only given up after an answer when no
    retry is left, and no exception of a post escapes. *)
Theorem http_delivery url delay body headers retries tr o :
  exec (post_loop url delay body headers false retries) tr o → o ≠ Err OutOfFuel →
  ∃ n last answered delivered, o = Ok delivered ∧ n ≤ retries ∧
    tr = refused_posts url delay body headers false n ++ last ∧
    last_post url delay body headers (negb (n =? 0)) last answered delivered ∧
    (answered = true → delivered = false → n = retries) ∧
    count is_post tr ≤ S retries.
Proof.
  intros H Ho.
  assert (∃ delivered, o = Ok delivered) as [delivered ->].
  { revert tr H. generalize false. induction retries as [|k IH]; intros once tr H;
      cbn [post_loop] in H; apply exec_on_outcome in H as (o1 & tr1 & tr2 & -> & _ & H);
      (destruct o1 as [[]|x]; [destruct H as [_ ->]; eauto| |
         destruct x; destruct H as [_ ->]; eauto; done]).
    - destruct H as [_ ->]. eauto.
    - by eapply IH. }
  apply post_loop_spec in H as (n & last & answered & Hn & -> & Hl & Hd).
  exists n, last, answered, delivered. split_and!; [done..|].
  rewrite count_app.
  assert (count is_post (refused_posts url delay body headers false n) = n) as ->.
  { clear. generalize false. induction n as [|n IH]; intros once; [done|].
    cbn [refused_posts]. rewrite !count_app, IH. by destruct once. }
  assert (count is_post last ≤ 1); [|lia].
  destruct Hl; rewrite ?count_app; destruct (negb _); simpl; unfold count; simpl; lia.
Qed.

(** Every agent gets the log, whatever happened to the deliveries before it. *)
Lemma deliver_all_spec available hmac gzip agents body headers tr o :
  exec (deliver_all available hmac gzip agents body headers) tr o ↔
  o = Ok tt ∧ ∃ trs, tr = concat trs ∧
    Forall2 (λ a t, ∃ o, exec (deliver available hmac gzip a body headers) t o) agents trs.
Proof.
  revert tr. induction agents as [|a agents IH]; intros tr; cbn [deliver_all].
  - split.
    + intros [-> ->]. split; [done|]. exists []. by constructor.
    + intros [-> (trs & -> & H)]. by inversion H.
  - rewrite exec_on_outcome. split.
    + intros (o1 & tr1 & tr2 & -> & H1 & H). apply IH in H as [-> (trs & -> & H)].
      split; [done|]. exists (tr1 :: trs). split; [done|]. constructor; [by exists o1|done].
    + intros [-> (trs & -> & H)]. inversion H as [|? t ? trs' [o1 H1] H2]; subst.
      exists o1, t, (concat trs'). split_and!; [done..|]. apply IH. split; [done|]. by exists trs'.
Qed.

Section sarif.
Context (available : string → bool) (hmac : string → string → string → string).
Context (gzip : string → string) (dumps_error : option string → string).
Context (w : push_settings) (m : ScanMessage) (is_error : bool) (error_msg : option string).
Context (d : PushDetails).

(** What a SARIF workflow did before it settled, and how it settled. *)
Inductive sarif_end : list (obs fb_ev fb_resp) → obs fb_ev fb_resp → Prop :=
| sarif_disabled : truthy (pu_enabled w) = false → sarif_end [] (fb_ok FbAck tt)
| sarif_no_agents work : truthy (pu_enabled w) = true → pu_agents w = [] →
    Forall (λ e, is_fb_settle e = false) (events work) → sarif_end work (fb_ok FbAck tt)
| sarif_not_generated e r : truthy (pu_enabled w) = true → is_error = false →
    (r = fb_ok (FbNack true) tt ∧ is_CxOneException e = true ∨
     r = fb_ok FbAck tt ∧ is_CxOneException e = false) →
    sarif_end [Obs (GetSarifLog (sm_scanid m) (pd_clone_url d) (pd_source_branch d) : fb_ev) (Err e)] r
| sarif_delivered asked body trs : truthy (pu_enabled w) = true → pu_agents w ≠ [] →
    (is_error = true ∧ asked = [] ∧ body = dumps_error error_msg ∨
     is_error = false ∧
       asked = [fb_ok (GetSarifLog (sm_scanid m) (pd_clone_url d) (pd_source_branch d)) body]) →
    Forall2 (λ a t, ∃ o, exec (deliver available hmac gzip a body (sarif_headers m is_error d)) t o)
      (pu_agents w) trs →
    sarif_end (asked ++ concat trs) (fb_ok FbAck tt).

(** A settlement that the broker takes is the last step. *)
Lemma ack_settles tr o :
  exec ack tr o → (∀ x, Obs (FbAck : fb_ev) (Err x) ∉ tr) → tr = [fb_ok FbAck tt] ∧ o = Ok tt.
Proof.
  intros Ha Hx. unfold ack in Ha. last_call Ha. subst. destruct o as [[]|x]; [done|].
  destruct (Hx x). left.
Qed.
Lemma nack_settles tr : exec (nack true) tr (Ok tt) → tr = [fb_ok (FbNack true) tt].
Proof. intros H. unfold nack in H. last_call H. by subst. Qed.

(** The deliveries, before the message is settled. *)
Definition sarif_work : fb_prog unit :=
  if is_error then wait_deliveries available hmac gzip (pu_agents w) (dumps_error error_msg)
                     (sarif_headers m is_error d)
  else let! log := do_call (GetSarifLog (sm_scanid m) (pd_clone_url d) (pd_source_branch d)) in
       wait_deliveries available hmac gzip (pu_agents w) log (sarif_headers m is_error d).

Lemma wait_deliveries_spec body tr o :
  exec (wait_deliveries available hmac gzip (pu_agents w) body (sarif_headers m is_error d)) tr o →
  pu_agents w = [] ∧ tr = [] ∧ o = Err ValueError ∨
  pu_agents w ≠ [] ∧ o = Ok tt ∧ ∃ trs, tr = concat trs ∧
    Forall2 (λ a t, ∃ o, exec (deliver available hmac gzip a body (sarif_headers m is_error d)) t o)
      (pu_agents w) trs.
Proof.
  unfold wait_deliveries. destruct (pu_agents w) as [|a l] eqn:Ha; [intros [-> ->]; by left|].
  intros (-> & trs & -> & H)%deliver_all_spec. right. eauto.
Qed.

Lemma sarif_work_spec tr o :
  truthy (pu_enabled w) = true → exec sarif_work tr o →
  o = Ok tt ∧ sarif_end tr (fb_ok FbAck tt) ∨
  o = Err ValueError ∧ sarif_end tr (fb_ok FbAck tt) ∨
  ∃ e, o = Err e ∧ is_error = false ∧
    tr = [Obs (GetSarifLog (sm_scanid m) (pd_clone_url d) (pd_source_branch d) : fb_ev) (Err e)].
Proof.
  intros Hw H. unfold sarif_work, do_call in H. destruct is_error eqn:He.
  - rewrite <- He in H.
    apply wait_deliveries_spec in H as [(Ha & -> & ->)|(Ha & -> & trs & -> & H)].
    + right. left. split; [done|]. by apply sarif_no_agents.
    + left. split; [done|]. apply (sarif_delivered [] (dumps_error error_msg)); try done. by left.
  - call_step H as [(log & tr5 & -> & H)|(x & -> & ->)]; [|right; right; eauto].
    rewrite <- He in H.
    apply wait_deliveries_spec in H as [(Ha & -> & ->)|(Ha & -> & trs & -> & H)].
    + right. left. split; [done|]. apply sarif_no_agents; [done..|]. by repeat constructor.
    + left. split; [done|]. apply (sarif_delivered [_] log); try done. by right.
Qed.

(** A SARIF workflow ends in one of these ways: it is disabled; the log can
    not be generated, and the message is put back on the queue for an error of
    Checkmarx One and dropped otherwise; or every configured agent is given the
    log, or the error message, whatever happens to the other deliveries, and
    then the message is acknowledged. *)
Theorem sarif_generation_outcome tr :
  (∀ e x, is_fb_settle e = true → Obs (e : fb_ev) (Err x) ∉ tr) →
  exec (sarif_generation available hmac gzip dumps_error w m is_error error_msg d) tr (Ok tt) →
  ∃ work settlement, tr = work ++ [settlement] ∧ sarif_end work settlement.
Proof.
  intros Hok H. unfold sarif_generation in H.
  apply exec_on_outcome in H as (o1 & tr1 & tr2 & -> & H1 & H).
  assert (Hx : ∀ x, Obs (FbAck : fb_ev) (Err x) ∉ tr1 ++ tr2) by (intros x; by apply Hok).
  clear Hok. setoid_rewrite elem_of_app in Hx.
  destruct (truthy (pu_enabled w)) eqn:Hw.
  2: { apply ack_settles in H1 as [-> ->]; [|naive_solver]. destruct H as [-> _].
       exists [], (fb_ok FbAck tt). split; [done|]. by constructor. }
  apply exec_bind in H1 as [([] & tr3 & tr4 & -> & H1 & H2)|(e & H1 & ->)];
    apply sarif_work_spec in H1 as [[Ho H1]|[[Ho H1]|(e' & Ho & He & ->)]]; try done.
  - apply ack_settles in H2 as [-> ->]; [|setoid_rewrite elem_of_app in Hx; naive_solver].
    destruct H as [-> _]. rewrite app_nil_r. by exists tr3, (fb_ok FbAck tt).
  - injection Ho as ->. apply ack_settles in H as [-> _]; [|naive_solver].
    by exists tr1, (fb_ok FbAck tt).
  - injection Ho as ->. destruct (is_CxOneException e') eqn:Hc.
    + apply nack_settles in H as ->. eexists _, _. split; [reflexivity|].
      apply (sarif_not_generated e'); [done..|by left].
    + destruct (is_BaseException e'); [|by destruct H].
      apply ack_settles in H as [-> _]; [|naive_solver]. eexists _, _. split; [reflexivity|].
      apply (sarif_not_generated e'); [done..|by right].
Qed.
End sarif.

(** ** Witnesses *)
Definition demo_pr_workflow : pr_settings := PrSettings [LOW] [] (JBool true) 90 48 default_amqp.
Definition demo_pr_scan : ScanMessage :=
  MkScanMessage "n" FEEDBACK PR (pr_details demo_pr_details) (JStr "S") (JStr "P").
(** The report is there; the posts are answered with these statuses in turn. *)
Definition demo_fb_world (oks : list bool) (e : fb_ev) : outcome (fb_resp e) * list bool :=
  match e return outcome (fb_resp e) * list bool with
  | RetrieveReport _ _ => (Ok (JObj [("riskTotals", JInt 0)]), oks)
  | PolicyViolations _ _ => (Ok (JArr []), oks)
  | GetSarifLog _ _ _ => (Ok "log", oks)
  | HttpPost _ _ _ => (Ok (hd true oks), tail oks)
  | AmqpExchange _ => (Ok true, oks)
  | ScanSuccessDecorate _ _ _ => (Err (OtherException "rate limit"), oks)
  | _ => (Ok tt, oks)
  end.
Definition demo_str_exn (e : exn) : string := "error".
Definition demo_pr_feedback (is_error : bool) : fb_prog bool :=
  process_pr_feedback (λ _, "S") demo_str_exn demo_pr_workflow demo_pr_scan is_error (Some "failed").

(** A failed scan is decorated; a comment that is refused is reported. *)
Lemma process_pr_feedback_outcome_witness :
  run_outcome demo_fb_world [] (demo_pr_feedback true) = Ok true ∧
  ∃ work text r, run_trace demo_fb_world [] (demo_pr_feedback false) =
    work ++ [Obs (UnrecoverableError demo_pr_details demo_pr_scan text : fb_ev) r].
Proof.
  split; [reflexivity|].
  destruct (process_pr_feedback_outcome (λ _, "S") demo_str_exn demo_pr_workflow demo_pr_scan
              false (Some "failed") demo_pr_details _ _ eq_refl eq_refl
              (exec_run demo_fb_world [] (demo_pr_feedback false)))
    as [[H _]|[(work & text & r & H & _)|H]].
  - vm_compute in H. discriminate H.
  - exists work, text, r. exact H.
  - vm_compute in H. discriminate H.
Defined.

Definition demo_annotation_binary (body : string) : outcome (ScanMessage * string) :=
  if String.eqb body "scan" then Ok (demo_pr_scan, "started") else Err ValueError.
Definition demo_fb_routes : routes :=
  match demo_setup with Ok s => Routes [] [(JStr "n", s)] | Err _ => no_routes end.
Definition demo_annotate : fb_prog unit :=
  process_pr_annotate (λ _, "") demo_annotation_binary
    demo_fb_routes "garbage".

Lemma pr_handlers_settle_witness :
  run_trace demo_fb_world [] demo_annotate = [fb_ok (FbNack false) tt] ∧
  settled_after (let! ' (m, annotation) := lift (demo_annotation_binary "garbage") in
    let! s := services_for (λ _, "")
      demo_fb_routes
      (sm_moniker m) in
    process_pr_notice (fs_pr s) m annotation) (run_trace demo_fb_world [] demo_annotate).
Proof.
  split; [reflexivity|].
  apply (proj1 (proj2 (pr_handlers_settle (λ _, "") demo_str_exn (λ _, Err ValueError)
           demo_annotation_binary (λ _, Err ValueError)
           demo_fb_routes
           "garbage" _))).
  exact (exec_run demo_fb_world [] demo_annotate).
Defined.

Definition demo_post : fb_prog bool :=
  post_loop (JStr "https://hook") (JInt 60) "log" [] false 2.

(** Two refusals, then the log is accepted. *)
Lemma http_delivery_witness :
  run_outcome demo_fb_world [false; false; true] demo_post = Ok true ∧
  count is_post (run_trace demo_fb_world [false; false; true] demo_post) ≤ 3.
Proof.
  split; [reflexivity|].
  destruct (http_delivery (JStr "https://hook") (JInt 60) "log" [] 2 _ _
              (exec_run demo_fb_world [false; false; true] demo_post))
    as (n & last & answered & delivered & _ & _ & _ & _ & _ & Hc); [|exact Hc].
  vm_compute. intros H. discriminate H.
Defined.

Definition demo_push_settings : push_settings :=
  PushSettings (JStr "n") [HttpDeliveryAgent "k" (JStr "https://hook") (JInt 2) (JInt 60) JNull
                             (JBool true)] JNull (JBool true) 90 48 default_amqp.
Definition demo_push_details : PushDetails :=
  MkPushDetails (JStr "https://git/r.git") (JStr "p") (JStr "r") (JStr "o") (JStr "main")
    demo_context (JStr "aa").
Definition demo_sarif : fb_prog unit :=
  sarif_generation (λ _, true) (λ _ _ _, "h") (λ s, s) (λ _, "{}") demo_push_settings
    demo_pr_scan false None demo_push_details.

Lemma sarif_generation_outcome_witness :
  ∃ work settlement, run_trace demo_fb_world [false] demo_sarif = work ++ [settlement] ∧
    sarif_end (λ _, true) (λ _ _ _, "h") (λ s, s) (λ _, "{}") demo_push_settings
      demo_pr_scan false None demo_push_details work settlement.
Proof.
  apply sarif_generation_outcome; [|exact (exec_run demo_fb_world [false] demo_sarif)].
  intros e x He Hin. vm_compute in Hin.
  repeat (apply elem_of_cons in Hin as [Hin|Hin];
    [try discriminate (f_equal (λ ob, projT1 ob) Hin); destruct e; simplify_eq|]).
  all: try (by apply elem_of_nil in Hin).
Defined.
