(* ===== verification/Resolver.v ===== *)
(** * Delegated scans, on the server: [src/workflows/resolver_workflow.py],
    [src/workflows/resolver_scan_service.py] and the two agents of
    [src/agent/resolver/] that read the queues of results and timeouts

    A scan that a resolver agent executes is a signed message in the queue of a
    tag.  When no agent takes it in time it is published again, with one retry
    less, or returned as a failure. *)
From S2P Require Import Prelude PyStr PyJson Url Auth Grouping Messaging Broker CxOne Cloner Config Workflows Polling.
Open Scope string_scope.
Open Scope nat_scope.
Open Scope list_scope.

(** ** [ResolverScanningWorkflow] *)
Inductive resolver_workflow : Type :=
| DummyResolverScanningWorkflow
| from_private_key (capture_logs : bool) (key : string) (scan_retries scan_timeout_secs : Z)
| from_public_key (capture_logs : bool) (key : string).

Definition is_enabled (w : resolver_workflow) : bool :=
  match w with DummyResolverScanningWorkflow => false | _ => true end.
Definition wf_capture_logs (w : resolver_workflow) : bool :=
  match w with
  | DummyResolverScanningWorkflow => false
  | from_private_key c _ _ _ | from_public_key c _ => c
  end.

(** The calls of the agents: those of the broker, and their own. *)
Inductive res_own : Type :=
| ResAck
| ResNack (requeue : bool)
| ComputeFilters (project_id : json)
| DispatchHardFailure (orchestrator : string) (ctx : EventContext)
| DispatchDelegatedScan (orchestrator : string) (ctx : EventContext) (scan_id : json).

Definition res_own_resp (e : res_own) : Type :=
  match e with
  | ComputeFilters _ => json
  | _ => unit
  end.
#[global] Arguments res_own_resp : simpl never.
Abbreviation res_ev := (mq_ev + res_own)%type.
Abbreviation res_resp := (sum_resp mq_resp res_own_resp).
Abbreviation res_prog := (prog res_ev res_resp).
Definition res_call (e : res_own) : res_prog (res_own_resp e) := call (inr e : res_ev).
Definition res_mq {A} (p : mq_prog A) : res_prog A := embed p.
Definition res_nack (requeue : bool) : res_prog unit := res_call (ResNack requeue).

Definition retry_header_key : string := "x-remaining-retries".

Section workflow.
(** The signatures of the cryptography library: with a private key, and checked
    with the key a workflow was made of; [verify] raises when they differ. *)
Context (sign : string → string → outcome string).
Context (verify_private verify_public : string → string → string → outcome unit).
(** [DelegatedScanDetails.to_binary] *)
Context (details_binary : DelegatedScanDetails → string).

Definition get_signature (w : resolver_workflow) (d : DelegatedScanDetails) : outcome string :=
  match w with
  | DummyResolverScanningWorkflow => Err NotImplementedError
  | from_private_key _ key _ _ => sign key (details_binary d)
  | from_public_key _ _ =>
      Err (WorkflowException "The payload signature private key was not provided, this instance can't sign messages.")
  end.

Definition validate_signature (w : resolver_workflow) (signature payload : string) : outcome bool :=
  let checked (o : outcome unit) :=
    match o with
    | Ok _ => Ok true
    | Err e => if is_Exception e then Ok false else Err e
    end in
  match w with
  | DummyResolverScanningWorkflow => Err NotImplementedError
  | from_private_key _ key _ _ => checked (verify_private key signature payload)
  | from_public_key _ key => checked (verify_public key signature payload)
  end.

Definition deliver_delegated_scan_outcome (w : resolver_workflow) (route_key : string)
    (m : DelegatedScanResultMessage) (exchange : string) : mq_prog bool :=
  match w with
  | DummyResolverScanningWorkflow => Raise NotImplementedError
  | _ => publish route_key (Outgoing (result_body m) None None) exchange
  end.

(** The expiration of a delegated scan; without a private key there is none. *)
Definition scan_expiration (w : resolver_workflow) : option Z :=
  match w with from_private_key _ _ _ timeout => Some (1000 * timeout)%Z | _ => None end.

Definition delegated_scan_resubmit (w : resolver_workflow) (route_key : string)
    (m : DelegatedScanMessage) (exchange : string) (retries : Z) : mq_prog bool :=
  match w with
  | DummyResolverScanningWorkflow => Raise NotImplementedError
  | _ => publish route_key
           (Outgoing (delegated_body m) (Some (Z.max retries 0)) (scan_expiration w)) exchange
  end.

Definition delegated_scan_kickoff (w : resolver_workflow) (route_key : string)
    (m : DelegatedScanMessage) (exchange : string) : mq_prog bool :=
  match w with
  | DummyResolverScanningWorkflow => Raise NotImplementedError
  | from_private_key _ _ retries _ => delegated_scan_resubmit w route_key m exchange retries
  | from_public_key _ _ =>
      Raise (WorkflowException "This instance can't delegate a resolver scan.")
  end.

Definition get_delegated_scan_resubmit_count (w : resolver_workflow) (headers : dict json) :
    outcome Z :=
  match w with
  | DummyResolverScanningWorkflow => Err NotImplementedError
  | _ => match dget retry_header_key headers with
         | None => Err (WorkflowException "Timeout message has no retry count header.")
         | Some last_retry => let? n := as_number last_retry in Ok (n - 1)%Z
         end
  end.

(** ** [ResolverScanService] *)
Record resolver_service : Type := ResolverService {
  rsv_moniker : string; rsv_workflow : resolver_workflow; rsv_agent_tags : option (list string) }.

Definition skip (s : resolver_service) : bool := negb (is_enabled (rsv_workflow s)).
Definition agent_tags (s : resolver_service) : list string := default [] (rsv_agent_tags s).
Definition signature_valid (s : resolver_service) (signature payload : string) : outcome bool :=
  validate_signature (rsv_workflow s) signature payload.

(** [capture_logs]: the text is only logged, but it must be UTF-8. *)
Definition capture_logs (s : resolver_service) (logs : option string) : outcome unit :=
  match logs with
  | Some data => if wf_capture_logs (rsv_workflow s) then let? _ := decode_utf8 data in Ok tt
                 else Ok tt
  | None => Ok tt
  end.

(** [request_resolver_scan]; the services are pickled by the standard library. *)
Definition request_resolver_scan (s : resolver_service) (pickled_scm pickled_cxone : string)
    (tag : string) (project_id clone_url commit_hash scan_branch : json)
    (scan_tags : dict json) (workflow : ScanWorkflow) (ctx : EventContext)
    (orchestrator : string) : res_prog bool :=
  if negb (bool_decide (tag ∈ agent_tags s))
  then Raise (WorkflowException ("Unknown resolver tag [" +:+ tag +:+ "]"))
  else
    let! filters := res_call (ComputeFilters project_id) in
    let! filters := lift (match filters with JObj _ => jindex "filter" filters | f => Ok f end) in
    let d := MkDelegatedScanDetails clone_url commit_hash scan_branch scan_tags filters project_id
               pickled_scm pickled_cxone ctx orchestrator in
    let! signature := lift (get_signature (rsv_workflow s) d) in
    let m := MkDelegatedScanMessage (rsv_moniker s) EXECUTE workflow d signature
               (wf_capture_logs (rsv_workflow s)) in
    res_mq (do! call (MqClient : mq_ev) in
            delegated_scan_kickoff (rsv_workflow s) (make_topic_for_tag (rsv_moniker s) tag) m
              EXCHANGE_RESOLVER_SCAN).

(** [DelegatedScanMessage.from_binary] and the one of the results. *)
Context (delegated_from_binary : string → outcome DelegatedScanMessage).
Context (result_from_binary : string → outcome DelegatedScanResultMessage).

(** The message expired: [x-death] and its reason. *)
Definition expired_in_queue (headers : dict json) : outcome bool :=
  match dget "x-death" headers with
  | None => Ok false
  | Some deaths =>
      let? deaths := as_arr deaths in
      let? death := first deaths in
      let? has := jhas "reason" death in
      if negb has then Ok false
      else let? reason := jindex "reason" death in Ok (bool_decide (reason = JStr "expired"))
  end.

(** The result of a scan that no agent took. *)
Definition timed_out_result (m : DelegatedScanMessage) : DelegatedScanResultMessage :=
  MkDelegatedScanResultMessage (ds_moniker m) FAILURE (ds_workflow m) (ds_details m)
    (ds_signature m) None None None.

(** [_safe_deserialize_body] *)
Definition safe_deserialize {A} (o : outcome A) : res_prog A :=
  match o with
  | Ok m => Ret m
  | Err e => do! res_nack false in Raise e
  end.

Definition handle_resolver_scan_timeout (s : resolver_service) (msg : incoming) : res_prog unit :=
  let! m := safe_deserialize (delegated_from_binary (in_body msg)) in
  let! expired := lift (expired_in_queue (in_headers msg)) in
  if expired : bool then
    do! res_mq (call (MqClient : mq_ev)) in
    let! resub_count :=
      lift (get_delegated_scan_resubmit_count (rsv_workflow s) (in_headers msg)) in
    if (0 <? resub_count)%Z then
      do! res_mq (do! call (MqClient : mq_ev) in
                  delegated_scan_resubmit (rsv_workflow s) (in_routing_key msg) m
                    EXCHANGE_RESOLVER_SCAN resub_count) in
      Ret tt
    else
      do! res_mq (do! call (MqClient : mq_ev) in
                  deliver_delegated_scan_outcome (rsv_workflow s) ROUTEKEY_RESOLVER_RESULT_STUB
                    (timed_out_result m) EXCHANGE_RESOLVER_SCAN) in
      Ret tt
  else Ret tt.

(** ** [ResolverTimeoutAgent.__call__]

    The message for an invalid signature reads an attribute the details do not
    have, in both agents. *)
Definition timeout_agent (s : resolver_service) (msg : incoming) : res_prog unit :=
  let! m := safe_deserialize (delegated_from_binary (in_body msg)) in
  catch is_BaseException
    (let! valid := lift (signature_valid s (ds_signature m) (details_binary (ds_details m))) in
     if valid : bool then
       do! handle_resolver_scan_timeout s msg in res_call ResAck
     else Raise AttributeError)
    (λ _, res_nack false).

(** ** [ResolverResultsAgent.__call__] *)
Definition results_agent (s : resolver_service) (msg : incoming) : res_prog unit :=
  let! m := safe_deserialize (result_from_binary (in_body msg)) in
  catch is_BaseException
    (let! valid := lift (signature_valid s (dr_signature m) (details_binary (dr_details m))) in
     do! (if valid : bool then
            let d := dr_details m in
            do! (if bool_decide (dr_state m = FAILURE) then
                   match dr_scan_id m, dr_workflow m with
                   | None, PR => res_call (DispatchHardFailure (df_orchestrator d) (df_event_context d))
                   | _, _ => Ret tt
                   end
                 else Ret tt) in
            let! _ := lift (capture_logs s (dr_logs m)) in
            match dr_scan_id m with
            | Some scan_id =>
                res_call (DispatchDelegatedScan (df_orchestrator d) (df_event_context d) scan_id)
            | None => Ret tt
            end
          else Raise AttributeError) in
     res_call ResAck)
    (λ _, res_nack false).
End workflow.

(** ** Theorems *)
Definition res_ok (e : res_ev) (a : res_resp e) : obs res_ev res_resp := Obs e (Ok a).
Definition mq_obs : obs mq_ev mq_resp → obs res_ev res_resp := obs_inl.

(** What a run hands to the broker. *)
Definition published_of (ob : obs res_ev res_resp) : option (string * string * outgoing) :=
  match projT1 ob with inl (Publish exchange key m) => Some (exchange, key, m) | _ => None end.
Definition published (tr : list (obs res_ev res_resp)) : list (string * string * outgoing) :=
  omap published_of tr.

Lemma published_app tr1 tr2 : published (tr1 ++ tr2) = published tr1 ++ published tr2.
Proof. apply omap_app. Qed.

Section resolver.
Context (sign : string → string → outcome string).
Context (verify_private verify_public : string → string → string → outcome unit).
Context (details_binary : DelegatedScanDetails → string).
Context (delegated_from_binary : string → outcome DelegatedScanMessage).
Context (result_from_binary : string → outcome DelegatedScanResultMessage).

(** The calls of a step that connects and publishes. *)
Definition publication (exchange key : string) (m : outgoing) (found : option bool) :
    list (obs res_ev res_resp) :=
  mq_obs <$> Obs MqClient (Ok tt) :: publish_trace exchange key m found.

Lemma published_publication exchange key m found :
  published (publication exchange key m found) =
    if found then [(exchange, key, m)] else [].
Proof. by destruct found. Qed.

Lemma connect_publish_ok key m exchange tr b :
  exec (res_mq (do! call (MqClient : mq_ev) in publish key m exchange)) tr (Ok b) →
  ∃ found, tr = publication exchange key m found ∧ b = default false found.
Proof.
  unfold res_mq. intros H. apply exec_embed in H as (tr' & H & ->).
  call_step H as [([] & tr1 & -> & H)|(x & -> & ?)]; [|done].
  apply publish_ok in H as (found & -> & ->). by exists found.
Qed.

Lemma publish_runs exchange key m :
  exec (publish key m exchange) (publish_trace exchange key m (Some true)) (Ok true).
Proof.
  unfold publish, publish_trace. apply exec_on_outcome.
  eexists (Ok tt), [_], _. split_and!; [reflexivity|by apply (exec_call (Ev:=mq_ev) (Resp:=mq_resp))|].
  unfold finally. apply exec_on_outcome.
  eexists (Ok true), [_; _], [_]. split_and!; [reflexivity| |].
  - apply (exec_call_bind (Ev:=mq_ev) (Resp:=mq_resp)). left. eexists true, [_]. split; [done|].
    by apply (exec_call (Ev:=mq_ev) (Resp:=mq_resp) (Publish exchange key m)).
  - apply (exec_call_bind (Ev:=mq_ev) (Resp:=mq_resp)). left. by exists tt, [].
Qed.

Lemma connect_publish_runs key m exchange :
  exec (res_mq (do! call (MqClient : mq_ev) in publish key m exchange))
    (publication exchange key m (Some true)) (Ok true).
Proof.
  apply exec_embed. eexists. split; [|reflexivity].
  apply (exec_call_bind (Ev:=mq_ev) (Resp:=mq_resp)). left. exists tt. eexists. split; [done|].
  apply publish_runs.
Qed.

Section server.
Context (s : resolver_service) (capture : bool) (key : string) (retries timeout : Z).
Hypothesis Hworkflow : rsv_workflow s = from_private_key capture key retries timeout.

(** What the server publishes for a message that no agent took. *)
Definition after_timeout (route_key : string) (m : DelegatedScanMessage) (n : Z) :
    string * outgoing :=
  if (0 <? n - 1)%Z
  then (route_key, Outgoing (delegated_body m) (Some (n - 1)%Z) (Some (1000 * timeout)%Z))
  else (ROUTEKEY_RESOLVER_RESULT_STUB, Outgoing (result_body (timed_out_result m)) None None).

Lemma handle_timeout_ok msg m n tr :
  delegated_from_binary (in_body msg) = Ok m →
  expired_in_queue (in_headers msg) = Ok true →
  dget retry_header_key (in_headers msg) = Some (JInt n) →
  exec (handle_resolver_scan_timeout delegated_from_binary s msg) tr (Ok tt) →
  ∃ found, tr = res_ok (inl MqClient) tt ::
    publication EXCHANGE_RESOLVER_SCAN (after_timeout (in_routing_key msg) m n).1
      (after_timeout (in_routing_key msg) m n).2 found.
Proof.
  intros Hm He Hn H. unfold handle_resolver_scan_timeout, safe_deserialize in H.
  rewrite Hm in H. apply exec_bind_ok in H as (m' & tr1 & tr2 & -> & Hr & H2).
  destruct Hr as [-> [= ->]]. rename H2 into H.
  rewrite He in H. apply exec_lift_bind_ok in H as (b & Hb & H2). injection Hb as <-.
  rename H2 into H.
  apply exec_bind_ok in H as ([] & tr1 & tr3 & -> & H1 & H).
  unfold res_mq in H1. apply exec_embed in H1 as (tr' & H1 & ->). last_call H1. subst.
  apply exec_lift_bind_ok in H as (c & Hc & H).
  unfold get_delegated_scan_resubmit_count in Hc. rewrite Hworkflow, Hn in Hc.
  injection Hc as <-. unfold after_timeout. destruct (0 <? n - 1)%Z eqn:Hpos;
    apply exec_bind_ok in H as (b & tr4 & tr5 & -> & H2 & [-> _]); rewrite app_nil_r;
    unfold delegated_scan_resubmit, deliver_delegated_scan_outcome in H2;
    rewrite Hworkflow in H2; apply connect_publish_ok in H2 as (found & -> & _);
    exists found; [|done].
  apply Z.ltb_lt in Hpos. by rewrite Z.max_l by lia.
Qed.

Abbreviation agent := (timeout_agent verify_private verify_public details_binary
                         delegated_from_binary s).

(** A delegated scan that the server published with [route_key], whose time in
    the queue of its tag ran out: what the timeout agent publishes in turn. *)
Definition times_out (route_key : string) (out : outgoing) (published_next : string * outgoing) : Prop :=
  ∃ msg m n work, out_message out = delegated_body m ∧ out_retries out = Some n ∧
    delegated_from_binary (in_body msg) = Ok m ∧ in_routing_key msg = route_key ∧
    expired_in_queue (in_headers msg) = Ok true ∧
    dget retry_header_key (in_headers msg) = Some (JInt n) ∧
    exec (agent msg) (work ++ [res_ok (inr ResAck) tt]) (Ok tt) ∧
    published work = [(EXCHANGE_RESOLVER_SCAN, published_next.1, published_next.2)].

(** The messages of a scan no agent ever takes, until it is given up. *)
Inductive unattended (route_key : string) : outgoing → list outgoing → Prop :=
| given_up out m r : times_out route_key out (m, r) →
    (∃ result, out_message r = result_body result) → unattended route_key out [r]
| retried out out' l : times_out route_key out (route_key, out') →
    (∃ m, out_message out' = delegated_body m) → unattended route_key out' l →
    unattended route_key out (out' :: l).

Lemma timeout_agent_acked msg m n work :
  delegated_from_binary (in_body msg) = Ok m →
  expired_in_queue (in_headers msg) = Ok true →
  dget retry_header_key (in_headers msg) = Some (JInt n) →
  exec (agent msg) (work ++ [res_ok (inr ResAck) tt]) (Ok tt) →
  ∃ found, work = res_ok (inl MqClient) tt ::
    publication EXCHANGE_RESOLVER_SCAN (after_timeout (in_routing_key msg) m n).1
      (after_timeout (in_routing_key msg) m n).2 found.
Proof.
  intros Hm He Hn H. unfold timeout_agent, safe_deserialize in H. rewrite Hm in H.
  apply exec_bind_ok in H as (m' & tr1 & tr2 & Heq & Hr & H2). destruct Hr as [-> [= ->]].
  simpl in Heq. subst tr2. apply exec_on_outcome in H2 as (o1 & tr1 & tr2 & Heq & H1 & H).
  destruct o1 as [[]|e].
  - destruct H as [-> _]. rewrite app_nil_r in Heq. subst tr1.
    apply exec_lift_bind_ok in H1 as (valid & _ & H1). destruct valid; [|by destruct H1].
    apply exec_bind_ok in H1 as ([] & tr1 & tr2 & Heq & H1 & H2).
    unfold res_call in H2. last_call H2. subst tr2. apply app_inj_tail in Heq as [-> _].
    by apply (handle_timeout_ok msg m n).
  - destruct (is_BaseException e); [|by destruct H].
    unfold res_nack, res_call in H. last_call H. subst tr2.
    apply app_inj_tail in Heq as [_ Heq].
    pose proof (f_equal (λ ob, projT1 ob) Heq) as Hev. discriminate Hev.
Qed.

Lemma times_out_after route_key out m n next :
  out_message out = delegated_body m → out_retries out = Some n →
  times_out route_key out next → next = after_timeout route_key m n.
Proof.
  intros Hm Hn (msg & m' & n' & work & Hm' & Hn' & Hbody & <- & He & Hh & H & Hp).
  rewrite Hm in Hm'. rewrite Hn in Hn'. injection Hm' as <-. injection Hn' as <-.
  apply (timeout_agent_acked msg m n) in H as [found ->]; [|done..].
  change (published (publication EXCHANGE_RESOLVER_SCAN (after_timeout (in_routing_key msg) m n).1
            (after_timeout (in_routing_key msg) m n).2 found) =
          [(EXCHANGE_RESOLVER_SCAN, next.1, next.2)]) in Hp.
  rewrite published_publication in Hp. destruct found; [|done].
  destruct next. simpl in Hp. destruct (after_timeout _ _ _). by simplify_eq.
Qed.

(** The copies of a request, with [n] retries left in the first. *)
Fixpoint resubmissions (m : DelegatedScanMessage) (n : nat) : list outgoing :=
  match n with
  | 0 => []
  | S n' => Outgoing (delegated_body m) (Some (Z.of_nat n)) (Some (1000 * timeout)%Z)
              :: resubmissions m n'
  end.
Definition given_up_result (m : DelegatedScanMessage) : outgoing :=
  Outgoing (result_body (timed_out_result m)) None None.

Lemma unattended_spec route_key out m n l :
  unattended route_key out l → out_message out = delegated_body m → out_retries out = Some n →
  l = resubmissions m (Z.to_nat (n - 1)) ++ [given_up_result m].
Proof.
  intros H. revert n. induction H as [out key' r Ht [result Hr]|out out' l Ht [m' Hm'] Hun IH];
    intros n Hm Hn; pose proof (times_out_after _ _ _ _ _ Hm Hn Ht) as Heq;
    unfold after_timeout in Heq; destruct (0 <? n - 1)%Z eqn:Hpos; simplify_eq; try done.
  - apply Z.ltb_ge in Hpos. by rewrite Z2Nat.nonpos by lia.
  - apply Z.ltb_lt in Hpos. rewrite (IH (n - 1)%Z) by done.
    replace (Z.to_nat (n - 1)) with (S (Z.to_nat (n - 1 - 1))) by lia.
    simpl resubmissions. rewrite <- app_comm_cons. do 3 f_equal. f_equal. lia.
Qed.

(** The broker delivers an expired message with this header. *)
Definition expired_message (body route_key : string) (n : Z) : incoming :=
  Incoming body [(retry_header_key, JInt n);
                 ("x-death", JArr [JObj [("reason", JStr "expired")]])] route_key.

Lemma times_out_runs route_key body m n out :
  delegated_from_binary body = Ok m →
  signature_valid verify_private verify_public s (ds_signature m)
    (details_binary (ds_details m)) = Ok true →
  out_message out = delegated_body m → out_retries out = Some n →
  times_out route_key out (after_timeout route_key m n).
Proof.
  intros Hbody Hsig Hm Hn. exists (expired_message body route_key n), m, n.
  exists (res_ok (inl MqClient) tt :: publication EXCHANGE_RESOLVER_SCAN
            (after_timeout route_key m n).1 (after_timeout route_key m n).2 (Some true)).
  split_and!; try done.
  unfold timeout_agent, safe_deserialize. simpl in_body. rewrite Hbody.
  apply exec_on_outcome. eexists (Ok tt), _, []. rewrite app_nil_r. split_and!; [reflexivity| |done].
  rewrite Hsig. apply exec_lift_bind_ok. exists true. split; [done|].
  apply exec_bind_ok. eexists tt, _, [_]. split_and!; [reflexivity| |].
  2: { by apply (exec_call (Ev:=res_ev) (Resp:=res_resp)). }
  unfold handle_resolver_scan_timeout, safe_deserialize. simpl in_body. rewrite Hbody.
  apply exec_lift_bind_ok. exists true. split; [done|].
  apply exec_bind_ok. eexists tt, [_], _. split_and!; [reflexivity| |].
  { apply exec_embed. exists [Obs MqClient (Ok tt)]. split; [|done].
    by apply (exec_call (Ev:=mq_ev) (Resp:=mq_resp)). }
  apply exec_lift_bind_ok. exists (n - 1)%Z. split.
  { unfold get_delegated_scan_resubmit_count. by rewrite Hworkflow. }
  unfold after_timeout. destruct (0 <? n - 1)%Z eqn:Hpos; apply exec_bind_ok;
    eexists true, _, []; rewrite app_nil_r; (split_and!; [reflexivity| |done]);
    unfold delegated_scan_resubmit, deliver_delegated_scan_outcome; rewrite Hworkflow;
    [|apply connect_publish_runs].
  rewrite Z.max_l by (apply Z.ltb_lt in Hpos; lia). apply connect_publish_runs.
Qed.

(** What [delegated_scan_kickoff] publishes for a new request. *)
Definition first_request (m : DelegatedScanMessage) : outgoing :=
  Outgoing (delegated_body m) (Some (Z.max retries 0)) (Some (1000 * timeout)%Z).

End server.

(** *** Results *)

(** What a result asks of the orchestration: a pull request is told of a scan
    that was not made, and the workflow of a scan that was made goes on. *)
Definition result_dispatch (m : DelegatedScanResultMessage) : list res_own :=
  let d := dr_details m in
  (match dr_state m, dr_scan_id m, dr_workflow m with
   | FAILURE, None, PR => [DispatchHardFailure (df_orchestrator d) (df_event_context d)]
   | _, _, _ => []
   end) ++
  (match dr_scan_id m with
   | Some id => [DispatchDelegatedScan (df_orchestrator d) (df_event_context d) id]
   | None => []
   end).

Definition is_dispatch (e : res_ev) : bool :=
  match e with inr (DispatchHardFailure _ _) | inr (DispatchDelegatedScan _ _ _) => true | _ => false end.

Lemma res_call_ok (e : res_own) tr a :
  exec (res_call e) tr (Ok a) → tr = [res_ok (inr e) a].
Proof. unfold res_call. intros H. last_call H. by subst. Qed.

Lemma does_res_call (e : res_own) :
  match e return res_prog (res_own_resp e) → Prop with
  | ComputeFilters _ => λ _, True
  | e => λ p, does [inr e] (p : res_prog unit)
  end (res_call e).
Proof.
  destruct e; try done; intros tr o H; unfold res_call in H; last_call H; subst;
    (destruct o as [[]|x]; [by left|right; by exists x]).
Qed.

(** C26: a result is acted on only under a valid signature of its details.  Then
    the orchestration is asked for exactly what the result calls for - the
    failure of a pull request whose scan was not made, or the workflow of the
    scan that was made, never both - and the message is acknowledged last; an
    exception on the way, or an invalid signature, refuses it. *)
Theorem results_agent_spec s msg m tr :
  result_from_binary (in_body msg) = Ok m →
  exec (results_agent verify_private verify_public details_binary result_from_binary s msg) tr (Ok tt) →
  (signature_valid verify_private verify_public s (dr_signature m)
     (details_binary (dr_details m)) = Ok true ∧
   (events tr = (inr <$> result_dispatch m) ++ [inr ResAck : res_ev] ∨
    ∃ done, events tr = (inr <$> done) ++ [inr (ResNack false) : res_ev] ∧
      done `prefix_of` result_dispatch m ++ [ResAck])) ∨
  (signature_valid verify_private verify_public s (dr_signature m)
     (details_binary (dr_details m)) ≠ Ok true ∧ tr = [res_ok (inr (ResNack false)) tt]).
Proof.
  intros Hm H. unfold results_agent, safe_deserialize in H. rewrite Hm in H.
  apply exec_on_outcome in H as (o1 & tr1 & tr2 & -> & H1 & H).
  assert (Hnack : ∀ e, o1 = Err e → tr2 = [res_ok (inr (ResNack false)) tt]).
  { intros e ->. destruct (is_BaseException e); [|by destruct H]. by apply res_call_ok in H. }
  apply exec_lift_bind in H1 as [(valid & Hv & H1)|(e & Hv & -> & ->)].
  2: { right. split; [congruence|]. by apply (Hnack e). }
  rewrite Hv. destruct valid.
  2: { right. split; [done|]. destruct H1 as [-> ->]. by eapply Hnack. }
  left. split; [done|]. unfold result_dispatch.
  set (act := bindP _ _) in H1.
  assert (Hdo : does ((inr <$> result_dispatch m) ++ [inr ResAck : res_ev]) act).
  { subst act. apply does_bind; [|exact (does_res_call ResAck)].
    unfold result_dispatch. rewrite fmap_app. apply does_bind.
    - case_bool_decide as Hs.
      + rewrite Hs. destruct (dr_scan_id m), (dr_workflow m); try apply does_ret.
        exact (does_res_call (DispatchHardFailure _ _)).
      + destruct (dr_state m), (dr_scan_id m), (dr_workflow m); try apply does_ret. done.
    - apply (does_bind []); [apply does_lift|].
      destruct (dr_scan_id m) as [id|]; [|apply does_ret].
      exact (does_res_call (DispatchDelegatedScan _ _ id)). }
  destruct (Hdo _ _ H1) as [[-> Hev]|(e & -> & Hev)].
  - left. destruct H as [-> _]. by rewrite app_nil_r.
  - right. rewrite (Hnack e eq_refl), events_app.
    change [inr ResAck : res_ev] with ((inr : res_own → res_ev) <$> [ResAck]) in Hev.
    rewrite <- fmap_app in Hev. destruct Hev as [k Hk].
    apply fmap_app_inv in Hk as (l1 & l2 & Hl & -> & Hk).
    exists l1. split; [by rewrite Hl|]. by exists l2.
Qed.

(** Logs that are not UTF-8 lose a scan: when the service captures logs and the
    resolver wrote anything else, the result of a scan that was made is refused
    and the workflow of its event is never asked to go on, although Checkmarx One
    executes the scan. *)
Theorem undecodable_logs_lose_result s msg m logs tr :
  result_from_binary (in_body msg) = Ok m → dr_logs m = Some logs →
  wf_capture_logs (rsv_workflow s) = true → utf8_valid logs = false →
  exec (results_agent verify_private verify_public details_binary result_from_binary s msg) tr (Ok tt) →
  Forall (λ e, match e with inr (DispatchDelegatedScan _ _ _) | inr ResAck => False | _ => True end)
    (events tr).
Proof.
  intros Hm Hl Hc Hu H. unfold results_agent, safe_deserialize in H. rewrite Hm in H.
  set (Q := λ e : res_ev, match e with
    inr (DispatchDelegatedScan _ _ _) | inr ResAck => False | _ => True end).
  assert (Hcap : capture_logs s (dr_logs m) = Err ValueError).
  { unfold capture_logs, decode_utf8. by rewrite Hl, Hc, Hu. }
  apply exec_on_outcome in H as (o1 & tr1 & tr2 & -> & H1 & H).
  rewrite events_app. apply Forall_app. split.
  - clear H. revert tr1 o1 H1.
    match goal with |- ∀ tr o, exec ?p tr o → _ => change (only Q p) end.
    apply only_bind; [apply only_lift|intros valid].
    intros tr o H. apply exec_bind in H as [([] & tr3 & tr4 & -> & H & _)|(e & H & ->)].
    + destruct valid; [|by destruct H].
      apply exec_bind_ok in H as ([] & tr5 & tr6 & -> & _ & H).
      apply exec_lift_bind_ok in H as (u & Hu' & _). by rewrite Hcap in Hu'.
    + revert H. generalize (Err e : outcome unit). revert tr.
      match goal with |- ∀ tr o, exec ?p tr o → _ => change (only Q p) end.
      destruct valid; [|apply only_raise].
      apply only_bind.
      * case_bool_decide; [|apply only_ret].
        destruct (dr_scan_id m), (dr_workflow m); try apply only_ret.
        unfold res_call. only_call_step. exact I.
      * intros _ tr o H. rewrite Hcap in H. destruct H as [-> _]. constructor.
  - destruct o1 as [[]|e]; [destruct H as [-> _]; constructor|].
    destruct (is_BaseException e); [|by destruct H].
    apply res_call_ok in H as ->. by repeat constructor.
Qed.

(** *** Requests *)
Section request.
Context (s : resolver_service) (capture : bool) (key public : string) (retries timeout : Z).
Hypothesis Hworkflow : rsv_workflow s = from_private_key capture key retries timeout.
(** The public key of the agents is the one of the private key. *)
Hypothesis Hkeys : ∀ payload signature, sign key payload = Ok signature →
  verify_public public signature payload = Ok tt.
Context (pickled_scm pickled_cxone tag : string) (project_id clone_url hash branch : json).
Context (tags : dict json) (workflow : ScanWorkflow) (ctx : EventContext) (orch : string).

Abbreviation request := (request_resolver_scan sign details_binary s pickled_scm pickled_cxone tag
  project_id clone_url hash branch tags workflow ctx orch).

(** A delegated scan is requested for the agents' tags only, without a call
    for any other tag.  A request that returns has published one message, for
    the queue of its tag and no other, whose details are those of the scan and
    whose signature an agent with the public key accepts; or the exchange was
    not found. *)
Theorem delegated_request_signed tr o :
  exec request tr o →
  (tag ∉ agent_tags s → tr = [] ∧ ∃ text, o = Err (WorkflowException text)) ∧
  (∀ confirmed, o = Ok confirmed →
     tag ∈ agent_tags s ∧ ∃ d signature found,
     df_clone_url d = clone_url ∧ df_commit_hash d = hash ∧ df_scan_branch d = branch ∧
     df_scan_tags d = tags ∧ df_project_id d = project_id ∧ df_event_context d = ctx ∧
     df_orchestrator d = orch ∧
     validate_signature verify_private verify_public (from_public_key capture public) signature
       (details_binary d) = Ok true ∧
     published tr = (if found : option bool then
       [(EXCHANGE_RESOLVER_SCAN, make_topic_for_tag (rsv_moniker s) tag,
         Outgoing (delegated_body (MkDelegatedScanMessage (rsv_moniker s) EXECUTE workflow d
           signature capture)) (Some (Z.max retries 0)) (Some (1000 * timeout)%Z))] else []) ∧
     confirmed = default false found ∧
     (forallb plain_word (tag :: agent_tags s) = true → NoDup (agent_tags s) →
      route 1 (setup (agent_tags s)) EXCHANGE_RESOLVER_SCAN
        (make_topic_for_tag (rsv_moniker s) tag) = [make_queuename_for_tag tag])).
Proof.
  intros H. unfold request_resolver_scan in H. case_bool_decide as Htag; simpl in H.
  2: { split; [|intros c ->; by destruct H]. intros _. destruct H as [-> ->]. eauto. }
  split; [done|]. intros confirmed ->. split; [done|].
  apply exec_bind_ok in H as (filters & tr1 & tr2 & -> & H1 & H). unfold res_call in H1.
  last_call H1. subst. apply exec_lift_bind_ok in H as (f & _ & H).
  apply exec_lift_bind_ok in H as (signature & Hsig & H).
  unfold get_signature in Hsig. rewrite Hworkflow in Hsig.
  unfold delegated_scan_kickoff, delegated_scan_resubmit in H. rewrite Hworkflow in H.
  apply connect_publish_ok in H as (found & -> & ->).
  exists (MkDelegatedScanDetails clone_url hash branch tags f project_id pickled_scm pickled_cxone
    ctx orch), signature, found. do 7 (split; [reflexivity|]). split_and!.
  - unfold validate_signature. by rewrite (Hkeys _ _ Hsig).
  - exact (published_publication EXCHANGE_RESOLVER_SCAN _ _ found).
  - done.
  - intros Hplain Hnodup. rewrite route_tag by done.
    assert (filter (λ t, t = tag) (agent_tags s) = [tag]) as ->; [|done].
    clear -Htag Hnodup. induction (agent_tags s) as [|t l IH]; [by apply elem_of_nil in Htag|].
    apply NoDup_cons in Hnodup as [Hnot Hl]. rewrite filter_cons.
    destruct (decide (t = tag)) as [->|Hne].
    + f_equal. clear -Hnot. induction l as [|t l IH]; [done|]. rewrite filter_cons.
      rewrite elem_of_cons in Hnot. rewrite decide_False by naive_solver. apply IH. naive_solver.
    + apply elem_of_cons in Htag as [?|Htag]; [congruence|]. by apply IH.
Qed.
End request.
End resolver.

(** ** Witnesses *)
Definition demo_details : DelegatedScanDetails :=
  MkDelegatedScanDetails (JStr "https://git/r.git") (JStr "aa") (JStr "main") [] JNull (JStr "P")
    "scm" "cxone" demo_context "orchestration.gh.GithubOrchestrator".
Definition demo_delegated : DelegatedScanMessage :=
  MkDelegatedScanMessage "gh" EXECUTE PR demo_details "signed" false.
Definition demo_details_binary (d : DelegatedScanDetails) : string := "details".
Definition demo_sign (key payload : string) : outcome string := Ok ("signed").
Definition demo_verify (key signature payload : string) : outcome unit :=
  if String.eqb signature "signed" then Ok tt else Err (OtherException "InvalidSignature").
Definition demo_resolver : resolver_service :=
  ResolverService "gh" (from_private_key false "key" 3 10800) (Some ["linux"]).


Definition demo_result : DelegatedScanResultMessage :=
  MkDelegatedScanResultMessage "gh" FAILURE PR demo_details "signed" None None None.
Definition demo_res_world (n : nat) (e : res_ev) : outcome (res_resp e) * nat :=
  match e return outcome (res_resp e) * nat with
  | inl e => match e return outcome (mq_resp e) * nat with
             | GetExchange _ | Publish _ _ _ => (Ok true, n)
             | Now => (Ok 0%Z, n)
             | MqClient | OpenChannel | CloseChannel => (Ok tt, n)
             end
  | inr e => match e return outcome (res_own_resp e) * nat with
             | ComputeFilters _ => (Ok JNull, n)
             | ResAck | ResNack _ | DispatchHardFailure _ _ | DispatchDelegatedScan _ _ _ => (Ok tt, n)
             end
  end.
Definition demo_results : res_prog unit :=
  results_agent demo_verify demo_verify demo_details_binary (λ _, Ok demo_result) demo_resolver
    (Incoming "result" [] "").

Lemma results_agent_spec_witness :
  events (run_trace demo_res_world 0 demo_results) =
    [inr (DispatchHardFailure "orchestration.gh.GithubOrchestrator" demo_context); inr ResAck].
Proof.
  destruct (results_agent_spec demo_verify demo_verify demo_details_binary (λ _, Ok demo_result)
              demo_resolver (Incoming "result" [] "") demo_result _ eq_refl
              (exec_run demo_res_world 0 demo_results)) as [[_ [H|(l & H & _)]]|[H _]].
  - exact H.
  - vm_compute in H. destruct l as [|? [|? [|]]]; discriminate H.
  - destruct (H eq_refl).
Defined.

(** A scan that was made, with a log in Latin-1. *)
Definition demo_latin : DelegatedScanResultMessage :=
  MkDelegatedScanResultMessage "gh" DONE PR demo_details "signed" (Some 0%Z) (Some (JStr "S"))
    (Some (String "233"%char "t")).
Definition demo_capturing : resolver_service :=
  ResolverService "gh" (from_private_key true "key" 3 10800) (Some ["linux"]).
Definition demo_latin_results : res_prog unit :=
  results_agent demo_verify demo_verify demo_details_binary (λ _, Ok demo_latin) demo_capturing
    (Incoming "result" [] "").

Lemma undecodable_logs_lose_result_witness :
  events (run_trace demo_res_world 0 demo_latin_results) = [inr (ResNack false)] ∧
  Forall (λ e : res_ev, match e with inr (DispatchDelegatedScan _ _ _) | inr ResAck => False | _ => True end)
    (events (run_trace demo_res_world 0 demo_latin_results)).
Proof.
  split; [reflexivity|].
  exact (undecodable_logs_lose_result demo_verify demo_verify demo_details_binary (λ _, Ok demo_latin)
    demo_capturing (Incoming "result" [] "") demo_latin _ _ eq_refl eq_refl eq_refl eq_refl
    (exec_run demo_res_world 0 demo_latin_results)).
Defined.

Definition demo_request : res_prog bool :=
  request_resolver_scan demo_sign demo_details_binary demo_resolver "scm" "cxone" "linux"
    (JStr "P") (JStr "https://git/r.git") (JStr "aa") (JStr "main") [] PUSH demo_context "O".

Lemma delegated_request_signed_witness :
  run_outcome demo_res_world 0 demo_request = Ok true ∧ "linux" ∈ agent_tags demo_resolver.
Proof.
  split; [reflexivity|].
  exact (proj1 (proj2 (delegated_request_signed demo_sign demo_verify demo_verify demo_details_binary
     demo_resolver false "key" "public" 3 10800 eq_refl
     ltac:(intros payload signature H; injection H as <-; reflexivity)
     "scm" "cxone" "linux" (JStr "P") (JStr "https://git/r.git") (JStr "aa") (JStr "main") []
     PUSH demo_context "O" _ _ (exec_run demo_res_world 0 demo_request)) true eq_refl)).
Defined.
