(* ===== verification/Runner.v ===== *)
(** * Resolver runners: [src/agent/__init__.py] ([DictCmdLineOpts]),
    [src/agent/resolver/resolver_opts.py] and the runners of
    [src/agent/resolver/]

    How a scan agent runs the dependency resolver on a clone: the options it
    passes on, the working directory, and the four execution contexts with their entry
    and exit ([context_life]). *)
From S2P Require Import Prelude PyStr PyJson.
Open Scope string_scope.
Open Scope nat_scope.
Open Scope list_scope.

(** ** Options *)

(** [ResolverOpts.__forbidden_opts] *)
Definition forbidden_opts : list string :=
  ["logs-path"; "a"; "account"; "containers-result-path"; "resolver-result-path";
   "project-name"; "authentication-server-url"; "p"; "password"; "sso-provider"; "sca-app-url";
   "s"; "scan-path"; "server-url"; "u"; "username"; "project-tags"; "scan-tags";
   "bypass-exitcode"; "no-upload-manifest"; "help"; "manifests-path"; "t"; "project-teams";
   "q"; "quiet"; "save-evidence-path"; "severity-threshold"; "report-content";
   "report-extension"; "report-path"; "report-type"; "sast-result-path"; "cxpassword";
   "cxuser"; "cxprojectid"; "cxprojectname"; "cxserver"].

Definition validate_arg (arg_name : string) : bool :=
  negb (bool_decide (arg_name ∈ forbidden_opts)).

Definition flag (k : string) : string :=
  match k with String _ "" => "-" +:+ k | _ => "--" +:+ k end.

(** The arguments an option gives, its value under [proc]; [None]: left out. *)
Definition option_args (proc : string → string) (k : string) (value : json) :
    option (list string) :=
  if String.eqb k "" || negb (validate_arg k) then None
  else match value with
       | JNull => Some [flag k]
       | JStr v => Some [flag k; proc v]
       | _ => None
       end.

(** [_compile]; [proc] is assigned before the loop and, by an option that has a
    processor, for that option and all the options after it. *)
Fixpoint compile_opts (processor : dict (string → string)) (proc : string → string)
    (opts : dict json) : list string :=
  match opts with
  | [] => []
  | (k, value) :: opts' =>
      let proc := match dget k processor with Some f => f | None => proc end in
      default [] (option_args proc k value) ++ compile_opts processor proc opts'
  end.

(** The dictionary of the configuration, or [None]. *)
Definition as_args (opts : option (dict json)) (processor : dict (string → string)) : list string :=
  compile_opts processor (λ x, x) (default [] opts).
Definition as_string (opts : option (dict json)) (processor : dict (string → string)) : string :=
  join " " (as_args opts processor).
Definition has_one_of (opts : option (dict json)) (arg_keys : list string) : bool :=
  match opts with
  | None => false
  | Some d => existsb (λ x, dhas x d) arg_keys
  end.

(** ** Calls on the operating system *)
Record completed : Type := Completed { returncode : Z; stdout : option string }.

Inductive os_ev : Type :=
| OsMakeTempDir (prefix : option string)
| OsCleanup (dir : string)
| OsChmod (path : string) (mode : Z)
| OsMkdir (path : string)
| OsListDir (path : string)              (* [Path.iterdir] *)
| OsIsDir (path : string)
| OsExists (path : string)
| OsIsFile (path : string)
| OsCopyFile (src dst : string)
| OsRun (args : list json) (env : dict (option string)).  (* [check=True] *)

Definition os_resp (e : os_ev) : Type :=
  match e with
  | OsMakeTempDir _ => string
  | OsExists _ | OsIsFile _ | OsIsDir _ => bool
  | OsListDir _ => list string
  | OsRun _ _ => completed
  | _ => unit
  end.
#[global] Arguments os_resp : simpl never.
Abbreviation os_prog := (prog os_ev os_resp).
Definition os (e : os_ev) : os_prog (os_resp e) := call e.

(** ** Runners, as configured *)
Inductive runner : Type :=
| NoResolverRunner
| ResolverShellRunner (workpath : string) (opts : option (dict json)) (resolver_path : string)
    (runas_user : option string)
| ResolverToolkitRunner (workpath : string) (opts : option (dict json)) (run_container_tag : string)
| ResolverTwoStageRunner (workpath : string) (opts : option (dict json)) (resolver : runner)
    (run_resolver_before : bool) (container_tag shell script : string) (user_opts : list string).

(** [AbstractExecutionContext.home] *)
Definition home (r : runner) : option string :=
  match r with
  | NoResolverRunner => None
  | ResolverShellRunner w _ _ _ | ResolverToolkitRunner w _ _
  | ResolverTwoStageRunner w _ _ _ _ _ _ _ => Some (rstrip "/" w +:+ "/")
  end.

Definition runner_opts (r : runner) : option (dict json) :=
  match r with
  | NoResolverRunner => None
  | ResolverShellRunner _ o _ _ | ResolverToolkitRunner _ o _
  | ResolverTwoStageRunner _ o _ _ _ _ _ _ => o
  end.

(** [_reqd_permissions]: the bits of [stat] for the owner and the group. *)
Definition reqd_permissions : Z :=
  (let S_IRUSR := 256 in let S_IWUSR := 128 in let S_IXUSR := 64 in
   let S_IRGRP := 32 in let S_IWGRP := 16 in let S_IXGRP := 8 in
   S_IRUSR + S_IWUSR + S_IXUSR + S_IRGRP + S_IWGRP + S_IXGRP)%Z.

(** All for the owner and the group, and nothing for the others. *)
Lemma reqd_permissions_bits :
  (λ i, Z.testbit reqd_permissions (Z.of_nat i)) <$> seq 0 12 =
    replicate 3 false ++ replicate 6 true ++ replicate 3 false.
Proof. reflexivity. Qed.

(** [ResolverShellExecutionContext.__recurse_chmod]: the depth is the limit that
    the interpreter sets for the nesting of calls, those of the callers not
    counted; a path of the system is not longer than 4096 bytes. *)
Definition recursion_limit : nat := 1000.
Fixpoint recurse_chmod (depth : nat) (path : string) : os_prog unit :=
  match depth with
  | 0 => Raise (OtherException "RecursionError")
  | S depth =>
      do! os (OsChmod path reqd_permissions) in
      let! elems := os (OsListDir path) in
      do! mapP (λ elem, do! os (OsChmod elem reqd_permissions) in
                        let! dir := os (OsIsDir elem) in
                        if dir : bool then recurse_chmod depth elem else Ret tt) elems in
      Ret tt
  end.

(** ** Execution contexts, in a working directory [root] *)
Section context.
Context (str_json : json → string).
Context (root : string).

Definition clone_directory : string := "clone".
Definition resolver_result_directory : string := "resolver".
Definition container_result_directory : string := "container".
Definition resolver_result_filename : string := "resolver.json".
Definition container_result_filename : string := "container.json".

Definition under (p : string) : string := rstrip "/" root +:+ "/" +:+ p.
Definition clone_path : string := under clone_directory.
Definition resolver_loc : string := under resolver_result_directory.
Definition container_loc : string := under container_result_directory.
Definition result_resolver_out_file_path : string :=
  resolver_loc +:+ "/" +:+ resolver_result_filename.
Definition result_container_out_file_path : string :=
  container_loc +:+ "/" +:+ container_result_filename.

(** The paths as the resolver sees them: inside the container for the toolkit. *)
Definition toolkit_clone_path : string := "/sandbox/input_sandbox".
Definition toolkit_resolver_out : string :=
  "/sandbox/output/" +:+ resolver_result_directory +:+ "/" +:+ resolver_result_filename.
Definition toolkit_container_out : string :=
  "/sandbox/output/" +:+ container_result_directory +:+ "/" +:+ container_result_filename.
Definition execution_clone_path (r : runner) : string :=
  match r with ResolverToolkitRunner _ _ _ => toolkit_clone_path | _ => clone_path end.
Definition execution_resolver_out (r : runner) : string :=
  match r with
  | ResolverToolkitRunner _ _ _ => toolkit_resolver_out
  | _ => result_resolver_out_file_path
  end.
Definition execution_container_out (r : runner) : string :=
  match r with
  | ResolverToolkitRunner _ _ _ => toolkit_container_out
  | _ => result_container_out_file_path
  end.

Definition docker_cmd : list string := ["docker"; "run"; "-t"; "--rm"].
Definition resolver_name : string := "ScaResolver".

(** [_get_resolver_exec_cmd]; a shell runner that finds no resolver adds a list
    and [None]. *)
Definition noresolver_exec_cmd : os_prog (list string) := Ret [].
Definition shell_exec_cmd (home : option string) (path : string) (runas : option string) :
    os_prog (list string) :=
  let runas := match runas with
               | Some u => ["sudo"; "-u"; u; "HOME=" +:+ default "None" home]
               | None => [] end in
  let! exists_ := os (OsExists path) in
  let! found := (if exists_ : bool then os (OsIsFile path) else Ret false) in
  if found : bool then Ret (runas ++ [path])
  else let! here := os (OsExists resolver_name) in
       if here : bool then Ret (runas ++ [resolver_name]) else Raise TypeError.
Definition toolkit_exec_cmd (tag : string) : os_prog (list string) :=
  Ret (docker_cmd ++ ["-v"; clone_path +:+ ":/sandbox/input:ro"; "-v";
                      root +:+ ":/sandbox/output"; tag]).
Definition get_resolver_exec_cmd (r : runner) : os_prog (list string) :=
  match r with
  | NoResolverRunner => noresolver_exec_cmd
  | ResolverShellRunner _ _ path runas => shell_exec_cmd (home r) path runas
  | ResolverToolkitRunner _ _ tag => toolkit_exec_cmd tag
  | ResolverTwoStageRunner _ _ _ _ _ _ _ _ => Raise NotImplementedError
  end.

(** [can_execute]: a command that is a list is never [None]. *)
Fixpoint can_execute (r : runner) : os_prog bool :=
  match r with
  | ResolverTwoStageRunner _ _ inner _ _ _ _ _ => can_execute inner
  | r => do! get_resolver_exec_cmd r in Ret true
  end.

Definition merge_exclusions (exclusions : json) (x : string) : string :=
  x +:+ "," +:+ str_json exclusions.

(** The arguments of [ResolverExecutionContext.execute_resolver] *)
Definition exec_opts (r : runner) (project_name exclusions : json) : list json :=
  let processor := [("e", merge_exclusions exclusions); ("excludes", merge_exclusions exclusions)] in
  [JStr "offline"]
  ++ (JStr <$> as_args (runner_opts r) processor)
  ++ (if has_one_of (runner_opts r) ["excludes"; "e"] then []
      else [JStr "--excludes"; exclusions])
  ++ [JStr "--logs-path"; JStr "/sandbox/scalogs"; JStr "--scan-path";
      JStr (execution_clone_path r); JStr "--containers-result-path";
      JStr (execution_container_out r); JStr "--resolver-result-path";
      JStr (execution_resolver_out r); JStr "--project-name"; project_name].

(** A command that fails is a result, too. *)
Definition or_failed (p : os_prog completed) : os_prog completed :=
  catch is_CalledProcessError p
    (λ e, match e with
          | CalledProcessError code out _ => Ret (Completed code (Some out))
          | e => Raise e
          end).

Definition base_execute_resolver (r : runner) (project_name exclusions : json) :
    os_prog completed :=
  let! cmd := get_resolver_exec_cmd r in
  or_failed (os (OsRun ((JStr <$> cmd) ++ exec_opts r project_name exclusions)
                   [("HOME", home r)])).

Definition is_cancelled (e : exn) : bool := match e with CancelledError => true | _ => false end.

Definition shell_stage (container_tag shell script : string) (user_opts : list string) :
    os_prog completed :=
  or_failed (os (OsRun (JStr <$> docker_cmd ++ user_opts ++
      ["-v"; clone_path +:+ ":/code"; "-w"; "/code"; "--entrypoint"; shell; container_tag;
       "-c"; script]) [("HOME", Some "/code")])).

Definition first_failure (c1 c2 : Z) : Z := if (c1 =? 0)%Z then c2 else c1.

(** The log of a finished run; the exit code is already known when it is made. *)
Definition stage_log (resolver shell : completed) : string :=
  default "" (stdout resolver) +:+ default "" (stdout shell).

(** [execute_resolver] of each context.  An exception of the two stages, other
    than a cancellation, is only logged: the exit code is the one there was. *)
Definition noresolver_execute : os_prog completed := Ret (Completed 0 None).
Definition shell_execute (r : runner) (runas : option string) (project_name exclusions : json) :
    os_prog completed :=
  do! (if runas then recurse_chmod recursion_limit clone_path else Ret tt) in
  base_execute_resolver r project_name exclusions.
Fixpoint execute_resolver (r : runner) (project_name exclusions : json) : os_prog completed :=
  match r with
  | NoResolverRunner => noresolver_execute
  | ResolverShellRunner _ _ _ runas => shell_execute r runas project_name exclusions
  | ResolverToolkitRunner _ _ _ => base_execute_resolver r project_name exclusions
  | ResolverTwoStageRunner _ _ inner before tag shell script user_opts =>
      let given_up (code : Z) (e : exn) : os_prog completed :=
        if is_cancelled e then Raise e
        else if is_BaseException e then Ret (Completed code (Some "")) else Raise e in
      let inner_run := or_failed (execute_resolver inner project_name exclusions) in
      let shell_run := shell_stage tag shell script user_opts in
      if before then
        on_outcome (λ o1, match o1 with
          | Err e => given_up 0%Z e
          | Ok res => on_outcome (λ o2, match o2 with
              | Err e => given_up (returncode res) e
              | Ok sh => Ret (Completed (first_failure (returncode res) (returncode sh))
                                (Some (stage_log res sh)))
              end) shell_run
          end) inner_run
      else
        on_outcome (λ o1, match o1 with
          | Err e => given_up 0%Z e
          | Ok sh => on_outcome (λ o2, match o2 with
              | Err e => given_up (returncode sh) e
              | Ok res => Ret (Completed (first_failure (returncode sh) (returncode res))
                                 (Some (stage_log res sh)))
              end) inner_run
          end) shell_run
  end.
End context.

(** [__aenter__]: the directories of a run; the result is the working directory. *)
Definition make_dir (path : string) : os_prog unit :=
  do! os (OsMkdir path) in os (OsChmod path reqd_permissions).

Definition enter_work_root (r : runner) : os_prog string := os (OsMakeTempDir (home r)).
Definition enter_context (r : runner) : os_prog string :=
  let! root := enter_work_root r in
  do! os (OsChmod root reqd_permissions) in
  do! make_dir (clone_path root) in
  do! make_dir (resolver_loc root) in
  do! make_dir (container_loc root) in
  Ret root.

(** [__aexit__] and whether it suppresses the exception of the block: the
    context of the two stages returns itself. *)
Definition leave_work_root (root : string) : os_prog unit := os (OsCleanup root).
Definition exit_context (r : runner) (root : string) : os_prog bool :=
  do! leave_work_root root in
  Ret (match r with ResolverTwoStageRunner _ _ _ _ _ _ _ _ => true | _ => false end).

(** ** The life of a context

    The attributes of an execution context that change: its working directory and,
    in the one of two stages, the working directory of the executor of its inner
    runner. *)
Record context_state : Type := MkContextState {
  cs_work_root : option string;
  cs_executor : option string;
}.
Definition new_context : context_state := MkContextState None None.
Definition is_two_stage (r : runner) : bool :=
  match r with ResolverTwoStageRunner _ _ _ _ _ _ _ _ => true | _ => false end.

(** [AbstractExecutionContext.work_root] *)
Definition work_root (st : context_state) : outcome string :=
  of_option ResolverAgentException (cs_work_root st).

(** [__aenter__] *)
Definition aenter (r : runner) (st : context_state) : os_prog context_state :=
  match r, cs_executor st with
  | ResolverTwoStageRunner _ _ _ _ _ _ _ _, Some _ => Raise ResolverAgentException
  | _, _ =>
      let! root := enter_context r in
      Ret (MkContextState (Some root) (if is_two_stage r then Some root else cs_executor st))
  end.

(** [__aexit__]: the context is then as it was made; [None] has no [cleanup]. *)
Definition aexit (r : runner) (st : context_state) : os_prog (bool * context_state) :=
  let! root := lift (of_option AttributeError (cs_work_root st)) in
  do! leave_work_root root in
  Ret (is_two_stage r, MkContextState None (if is_two_stage r then None else cs_executor st)).

(** [can_execute], of the context in a state: the command of a shell runner does not
    name the working directory. *)
Definition context_can_execute (r : runner) (st : context_state) : os_prog bool :=
  match r, cs_executor st with
  | ResolverTwoStageRunner _ _ _ _ _ _ _ _, None => Ret false
  | ResolverTwoStageRunner _ _ inner _ _ _ _ _, Some root => can_execute root inner
  | NoResolverRunner, _ => do! noresolver_exec_cmd in Ret true
  | ResolverShellRunner _ _ path runas, _ => do! shell_exec_cmd (home r) path runas in Ret true
  | ResolverToolkitRunner _ _ tag, _ =>
      let! root := lift (work_root st) in do! toolkit_exec_cmd root tag in Ret true
  end.

(** ** Theorems *)

(** Where an argument made of the options comes from. *)
Definition from_option (opts : dict json) (a : string) : Prop :=
  ∃ k v, (k, v) ∈ opts ∧ validate_arg k = true ∧ k ≠ "" ∧
    (a = flag k ∧ (v = JNull ∨ ∃ s, v = JStr s) ∨ ∃ s f, v = JStr s ∧ a = f s).

Lemma option_args_from opts proc k v args a :
  (k, v) ∈ opts → option_args proc k v = Some args → a ∈ args → from_option opts a.
Proof.
  unfold option_args. intros Hin H Ha.
  destruct (String.eqb_spec k ""); [done|]. destruct (validate_arg k) eqn:Hk; [|done].
  simpl in H. exists k, v. split_and!; [done..|].
  destruct v; simplify_eq; rewrite ?elem_of_cons, ?elem_of_nil in Ha; naive_solver.
Qed.

Lemma compile_opts_from processor proc opts all a :
  opts ⊆ all → a ∈ compile_opts processor proc opts → from_option all a.
Proof.
  revert proc. induction opts as [|[k v] opts IH]; intros proc Hsub Ha; simpl in Ha.
  - by apply elem_of_nil in Ha.
  - apply elem_of_app in Ha as [Ha|Ha]; [|eapply IH; [set_solver|exact Ha]].
    set (f := match dget k processor with Some f => f | None => proc end) in Ha.
    destruct (option_args f k v) as [args|] eqn:Hargs; [|by apply elem_of_nil in Ha].
    eapply option_args_from; [|exact Hargs|exact Ha]. apply Hsub. left.
Qed.

(** An option with a processor is passed with its value processed. *)
Lemma compile_opts_processed processor proc opts k v f :
  (k, JStr v) ∈ opts → dget k processor = Some f → validate_arg k = true → k ≠ "" →
  ∃ l1 l2, compile_opts processor proc opts = l1 ++ [flag k; f v] ++ l2.
Proof.
  intros Hin Hf Hk Hne. revert proc. induction opts as [|[k' v'] opts IH]; intros proc.
  - by apply elem_of_nil in Hin.
  - apply elem_of_cons in Hin as [[= <- <-]|Hin]; simpl.
    + rewrite Hf. unfold option_args. rewrite Hk.
      destruct (String.eqb_spec k ""); [done|]. simpl. by exists [], (compile_opts processor f opts).
    + destruct (IH Hin (match dget k' processor with Some f => f | None => proc end))
        as (l1 & l2 & ->).
      exists (default [] (option_args (match dget k' processor with Some f => f | None => proc end) k' v') ++ l1), l2.
      by rewrite app_assoc.
Qed.

(** The command line of the resolver is its fixed arguments around those of
    the configured options; none of these comes from an option that the agent
    reserves for itself, whatever the options are and however their values are
    changed, and the exclusions of the project are passed once: merged into the
    configured ones, or in an option of their own. *)
Theorem resolver_command_line str_json root r project_name exclusions :
  ∃ user, exec_opts str_json root r project_name exclusions =
    [JStr "offline"] ++ (JStr <$> user)
    ++ (if has_one_of (runner_opts r) ["excludes"; "e"] then []
        else [JStr "--excludes"; exclusions])
    ++ [JStr "--logs-path"; JStr "/sandbox/scalogs"; JStr "--scan-path";
        JStr (execution_clone_path root r); JStr "--containers-result-path";
        JStr (execution_container_out root r); JStr "--resolver-result-path";
        JStr (execution_resolver_out root r); JStr "--project-name"; project_name] ∧
    (∀ a, a ∈ user → from_option (default [] (runner_opts r)) a) ∧
    (∀ k, k ∈ forbidden_opts → validate_arg k = false) ∧
    (∀ k v opts, runner_opts r = Some opts → (k, JStr v) ∈ opts → k = "e" ∨ k = "excludes" →
     ∃ l1 l2, user = l1 ++ [flag k; v +:+ "," +:+ str_json exclusions] ++ l2).
Proof.
  eexists. split; [reflexivity|]. split_and!.
  - intros a Ha. unfold as_args in Ha. by eapply compile_opts_from.
  - intros k Hk. unfold validate_arg. by rewrite bool_decide_true.
  - intros k v opts Hr Hin Hk. rewrite Hr. unfold as_args.
    eapply (compile_opts_processed _ _ _ _ _ (merge_exclusions str_json exclusions)); [done|..];
      destruct Hk as [-> | ->]; done.
Qed.

(** The stages in the order they run. *)
Definition first_stage (str_json : json → string) (root : string) (inner : runner) (before : bool)
    (tag shell script : string) (user_opts : list string) (project exclusions : json) :
    os_prog completed :=
  if before then or_failed (execute_resolver str_json root inner project exclusions)
  else shell_stage root tag shell script user_opts.
Definition second_stage (str_json : json → string) (root : string) (inner : runner) (before : bool)
    (tag shell script : string) (user_opts : list string) (project exclusions : json) :
    os_prog completed :=
  first_stage str_json root inner (negb before) tag shell script user_opts project exclusions.

(** When both stages of a scan return, the run succeeds exactly when both do;
    but a stage that raises is not a failure: the exit code is then the one of
    the stage before it, or success when there was none. *)
Theorem two_stage_exit_code str_json root w opts inner before tag shell script user_opts
    project exclusions tr c :
  exec (execute_resolver str_json root
          (ResolverTwoStageRunner w opts inner before tag shell script user_opts) project exclusions)
    tr (Ok c) →
  let stage1 := first_stage str_json root inner before tag shell script user_opts project exclusions in
  let stage2 := second_stage str_json root inner before tag shell script user_opts project exclusions in
  (∃ tr1 c1 tr2 c2, tr = tr1 ++ tr2 ∧ exec stage1 tr1 (Ok c1) ∧ exec stage2 tr2 (Ok c2) ∧
     (returncode c = 0%Z ↔ returncode c1 = 0%Z ∧ returncode c2 = 0%Z)) ∨
  (∃ tr1 c1 tr2 e, tr = tr1 ++ tr2 ∧ exec stage1 tr1 (Ok c1) ∧ exec stage2 tr2 (Err e) ∧
     returncode c = returncode c1) ∨
  (∃ e, exec stage1 tr (Err e) ∧ returncode c = 0%Z).
Proof.
  intros H stage1 stage2. subst stage1 stage2. unfold second_stage, first_stage.
  assert (Hgive : ∀ code e tr, exec (if is_cancelled e then Raise e
      else if is_BaseException e then Ret (Completed code (Some "")) else Raise e : os_prog completed)
      tr (Ok c) → tr = [] ∧ returncode c = code).
  { intros code e tr' Hg. destruct (is_cancelled e); [by destruct Hg|].
    destruct (is_BaseException e); destruct Hg as [-> ?]; by simplify_eq. }
  assert (Hcode : ∀ c1 c2, first_failure c1 c2 = 0%Z ↔ c1 = 0%Z ∧ c2 = 0%Z).
  { intros c1 c2. unfold first_failure. destruct (c1 =? 0)%Z eqn:E; [apply Z.eqb_eq in E|
      apply Z.eqb_neq in E]; lia. }
  cbn [execute_resolver] in H.
  destruct before; simpl negb; cbv beta iota;
    apply exec_on_outcome in H as (o1 & tr1 & tr2 & -> & H1 & H);
    (destruct o1 as [c1|e];
     [apply exec_on_outcome in H as (o2 & tr3 & tr4 & -> & H2 & H); destruct o2 as [c2|e]|]).
  1, 4: (destruct H as [-> [= ->]]; left; exists tr1, c1, tr3, c2; rewrite app_nil_r;
         split_and!; [done..|apply Hcode]).
  1, 3: (apply Hgive in H as [-> Hc]; right; left; exists tr1, c1, tr3, e; by rewrite app_nil_r).
  all: apply Hgive in H as [-> Hc]; right; right; exists e; by rewrite app_nil_r.
Qed.

(** The exclusions are also appended to the values of the options after. *)
Lemma exclusions_stick str_json :
  as_args (Some [("e", JStr "tests"); ("log-level", JStr "Debug")])
    [("e", merge_exclusions str_json (JStr "x"))] =
  ["-e"; "tests," +:+ str_json (JStr "x"); "--log-level"; "Debug," +:+ str_json (JStr "x")].
Proof. reflexivity. Qed.

(** ** The permissions of a clone *)
Section permissions.
(** What a path holds when it is a directory.  [os.chmod], [is_dir] and [iterdir]
    follow symbolic links, so a link to a directory holds what that holds. *)
Context (children : string → option (list string)).

Definition file_answer (ob : obs os_ev os_resp) : Prop :=
  match projT1 ob as e return outcome (os_resp e) → Prop with
  | OsChmod _ _ => λ r, r = Ok tt
  | OsListDir p => λ r, r = match children p with Some l => Ok l | None => r end
  | OsIsDir p => λ r, r = Ok (bool_decide (is_Some (children p)))
  | _ => λ _, True
  end (projT2 ob).

Inductive below (p : string) : string → Prop :=
| below_itself : below p p
| below_child l c q : children p = Some l → c ∈ l → below c q → below p q.

(** Directories nest less than [n] deep. *)
Fixpoint shallow (n : nat) (p : string) : Prop :=
  match n with
  | 0 => False
  | S n => ∀ l c, children p = Some l → c ∈ l → is_Some (children c) → shallow n c
  end.

(** A program that changes the permissions of the paths [P], and of no others; it
    does not raise when [good]. *)
Definition opens {A} (P : string → Prop) (good : Prop) (p : os_prog A) : Prop :=
  ∀ tr o, exec p tr o → Forall file_answer tr →
    (∀ e, e ∈ events tr → ∃ q, e = OsChmod q reqd_permissions ∧ P q ∨ e = OsListDir q ∨ e = OsIsDir q) ∧
    (is_ok o = true → ∀ q, P q → OsChmod q reqd_permissions ∈ events tr) ∧
    (good → is_ok o = true).

Lemma opens_ret {A} good (a : A) : opens (λ _, False) good (Ret a).
Proof. intros tr o [-> ->] _. simpl. set_solver. Qed.

Lemma opens_weaken {A} P P' (good good' : Prop) (p : os_prog A) :
  opens P good p → (∀ q, P q ↔ P' q) → (good' → good) → opens P' good' p.
Proof.
  intros H HP Hg tr o He Hans. destruct (H tr o He Hans) as (H1 & H2 & H3). split_and!.
  - intros e (q & He')%H1. exists q. rewrite <- HP. done.
  - intros Ho q Hq%HP. by apply H2.
  - auto.
Qed.

Lemma opens_bind {A B} P1 P2 g1 g2 (p : os_prog A) (f : A → os_prog B) :
  opens P1 g1 p → (∀ a, opens P2 g2 (f a)) →
  opens (λ q, P1 q ∨ P2 q) (g1 ∧ g2) (bindP p f).
Proof.
  intros Hp Hf tr o H Hans.
  apply exec_bind in H as [(a & tr1 & tr2 & -> & H1 & H2)|(e & H & ->)].
  - apply Forall_app in Hans as [Ha1 Ha2]. rewrite events_app.
    destruct (Hp _ _ H1 Ha1) as (E1 & C1 & _). destruct (Hf a _ _ H2 Ha2) as (E2 & C2 & G2).
    split_and!.
    + intros e [[q ?]%E1|[q ?]%E2]%elem_of_app; exists q; tauto.
    + intros Ho q [Hq|Hq]; apply elem_of_app; [left; by apply C1|right; by apply C2].
    + intros [_ ?]. by apply G2.
  - destruct (Hp _ _ H Hans) as (E1 & _ & G1). split_and!.
    + intros e' [q ?]%E1; exists q; tauto.
    + done.
    + intros [? _]. by apply G1.
Qed.

(** A call that the files answer. *)
Lemma opens_answered {B} P good e x (f : os_resp e → os_prog B) path :
  (∀ r, file_answer (Obs e r) → r = Ok x) → e = OsListDir path ∨ e = OsIsDir path →
  opens P good (f x) → opens P good (bindP (os e) f).
Proof.
  intros Hx Hpath Hf tr o H Hans. unfold os in H.
  call_step H as [(a & tr' & -> & H)|(x' & -> & ->)]; apply Forall_cons in Hans as [Ha Hans];
    apply Hx in Ha; simplify_eq.
  destruct (Hf tr' o H Hans) as (E1 & C1 & G1). split_and!; [|intros Ho q Hq; right; auto|done].
  intros e' [->|He]%elem_of_cons; [exists path; tauto|auto].
Qed.

Lemma opens_chmod p : opens (λ q, q = p) True (os (OsChmod p reqd_permissions)).
Proof.
  intros tr o ->%exec_call Hans. apply Forall_cons in Hans as [Hans _].
  unfold file_answer in Hans. simpl in Hans. subst o. simpl. split_and!; [|set_solver|done].
  intros e [->|He]%elem_of_cons; [eauto|set_solver].
Qed.

Lemma opens_mapP {A B} (P : A → string → Prop) (good : A → Prop) (f : A → os_prog B) l :
  (∀ a, a ∈ l → opens (P a) (good a) (f a)) →
  opens (λ q, ∃ a, a ∈ l ∧ P a q) (∀ a, a ∈ l → good a) (mapP f l).
Proof.
  induction l as [|a l IH]; intros Hf; cbn [mapP].
  - eapply opens_weaken; [apply opens_ret|set_solver|exact (λ x, x)].
  - eapply opens_weaken.
    + apply opens_bind; [apply Hf; left|]. intros b.
      apply opens_bind; [apply IH; intros; apply Hf; by right|]. intros bs. apply (opens_ret True).
    + intros q. simpl. set_solver.
    + simpl. set_solver.
Qed.

Lemma recurse_chmod_opens n p l :
  children p = Some l → opens (below p) (shallow n p) (recurse_chmod n p).
Proof.
  revert p l. induction n as [|n IH]; intros p l Hp.
  { intros tr o [-> ->] _. simpl. set_solver. }
  cbn [recurse_chmod].
  set (Q := λ c q, q = c ∨ is_Some (children c) ∧ below c q).
  eapply (opens_weaken (λ q, q = p ∨ (∃ c, c ∈ l ∧ Q c q) ∨ False)
    (λ q, below p q) (True ∧ (∀ c, c ∈ l → is_Some (children c) → shallow n c) ∧ True)).
  - apply opens_bind; [apply opens_chmod|]. intros _.
    apply (opens_answered _ _ (OsListDir p) l _ p); [|by left|].
    { intros r Hr. unfold file_answer in Hr. simpl in Hr. by rewrite Hp in Hr. }
    apply opens_bind; [|intros; apply opens_ret].
    apply (opens_mapP Q). intros c Hc.
    eapply (opens_weaken _ _ (True ∧ _)); [|done|by split].
    apply opens_bind; [apply opens_chmod|]. intros _.
    apply (opens_answered _ _ (OsIsDir c) (bool_decide (is_Some (children c))) _ c); [by intros|by right|].
    case_bool_decide as Hdir.
    + destruct Hdir as [l' Hl']. eapply opens_weaken; [by eapply IH|by rewrite Hl'; naive_solver|auto].
    + eapply opens_weaken; [by apply opens_ret|tauto|done].
  - intros q. unfold Q. split.
    + intros [->|[(c & Hc & [->|[_ H]])|[]]]; [constructor|..]; eapply below_child; eauto using below.
    + intros H. inversion H as [|l' c q' Hl' Hc Hb]; subst; [by left|].
      simplify_eq. right; left. exists c. split; [done|].
      destruct Hb as [|? ? ? ? ? ?]; eauto using below.
  - simpl. eauto 7.
Qed.

(** C40: A resolver that runs as another user is started when every path that its
    clone leads to, through symbolic links as well, has been given the permissions of
    [reqd_permissions], all for the owner and the group and none for others, and no
    other path has: the calls before it are those of the walk
    through the clone, which ends unless directories nest deeper than the
    interpreter follows. *)
Theorem shared_clone_permissions str_json root w opts path user project exclusions l tr o :
  exec (execute_resolver str_json root (ResolverShellRunner w opts path (Some user))
          project exclusions) tr o →
  Forall file_answer tr → children (clone_path root) = Some l →
  shallow recursion_limit (clone_path root) →
  ∃ tr1 tr2, tr = tr1 ++ tr2 ∧
    exec (base_execute_resolver str_json root (ResolverShellRunner w opts path (Some user))
            project exclusions) tr2 o ∧
    (∀ q mode, OsChmod q mode ∈ events tr1 ↔ mode = reqd_permissions ∧ below (clone_path root) q) ∧
    (∀ e, e ∈ events tr1 → ∃ q, e = OsChmod q reqd_permissions ∨ e = OsListDir q ∨ e = OsIsDir q).
Proof.
  intros H Hans Hl Hs. unfold execute_resolver in H.
  pose proof (recurse_chmod_opens recursion_limit _ _ Hl) as Hwalk.
  apply exec_bind in H as [([] & tr1 & tr2 & -> & H1 & H2)|(e & H & ->)].
  - apply Forall_app in Hans as [Hans1 _].
    destruct (Hwalk _ _ H1 Hans1) as (E1 & C1 & _).
    exists tr1, tr2. split_and!; [done|done|intros q mode; split|].
    + intros [q' [[[= -> ->] ?]|[?|?]]]%E1; done.
    + intros [-> ?]. by apply C1.
    + intros e [q ?]%E1. exists q. tauto.
  - destruct (Hwalk _ _ H Hans) as (_ & _ & G). by apply G in Hs.
Qed.
End permissions.

Lemma entered_state r st tr st1 :
  cs_executor st = None → exec (aenter r st) tr (Ok st1) →
  ∃ root, exec (enter_context r) tr (Ok root) ∧
    st1 = MkContextState (Some root) (if is_two_stage r then Some root else None).
Proof.
  intros Hst H. unfold aenter in H. rewrite Hst in H.
  assert (exec (let! root := enter_context r in
    Ret (MkContextState (Some root) (if is_two_stage r then Some root else None))) tr (Ok st1)) as H'
    by (destruct r; exact H).
  apply exec_bind_ok in H' as (root & tr1 & tr2 & -> & H1 & [-> [= ->]]).
  rewrite app_nil_r. by exists root.
Qed.

(** A context is usable exactly between its entry and its exit: inside, its working
    directory is the one that was made, a runner of two stages hands it to its inner
    one, and the context cannot be entered again; the exit removes that directory and
    leaves the context as it was made, outside of which two stages do not run. *)
Theorem context_life r tr st1 :
  exec (aenter r new_context) tr (Ok st1) →
  ∃ root, exec (enter_context r) tr (Ok root) ∧ work_root st1 = Ok root ∧
    (∀ tr' o, exec (context_can_execute r st1) tr' o ↔ exec (can_execute root r) tr' o) ∧
    (is_two_stage r = true → ∀ tr' o, exec (aenter r st1) tr' o ↔
       tr' = [] ∧ o = Err ResolverAgentException) ∧
    (∀ tr' x st2, exec (aexit r st1) tr' (Ok (x, st2)) ↔
       exec (exit_context r root) tr' (Ok x) ∧ st2 = new_context).
Proof.
  intros (root & H & ->)%entered_state; [|done]. exists root. split; [done|]. split; [done|].
  split; [by destruct r|]. split; [by destruct r|].
  intros tr' x st2. unfold aexit, exit_context. rewrite exec_lift_bind_ok. split.
  - intros (? & [= <-] & H'). apply exec_bind_ok in H' as ([] & tr1 & tr2 & -> & Hc & [-> [= -> ->]]).
    split; [|by destruct r]. apply exec_bind_ok. by exists tt, tr1, [].
  - intros [H' ->]. exists root. split; [done|].
    apply exec_bind_ok in H' as ([] & tr1 & tr2 & -> & Hc & [-> [= ->]]).
    apply exec_bind_ok. exists tt, tr1, []. split_and!; [done..|]. by destruct r.
Qed.

(** Outside of its scope a context has no working directory, two stages do not run,
    and a container has no command. *)
Lemma unused_context r :
  work_root new_context = Err ResolverAgentException ∧
  exec (aexit r new_context) [] (Err AttributeError) ∧
  match r with
  | ResolverTwoStageRunner _ _ _ _ _ _ _ _ =>
      exec (context_can_execute r new_context) [] (Ok false)
  | ResolverToolkitRunner _ _ _ =>
      exec (context_can_execute r new_context) [] (Err ResolverAgentException)
  | _ => True
  end.
Proof. split; [done|]. split; [done|]. by destruct r. Qed.

(** ** Witnesses *)
Definition demo_two_stage : runner :=
  ResolverTwoStageRunner "/tmp" None NoResolverRunner false "img" "/bin/sh" "true" [].
(** Docker is not installed. *)
Definition demo_os_world (n : nat) (e : os_ev) : outcome (os_resp e) * nat :=
  match e return outcome (os_resp e) * nat with
  | OsMakeTempDir _ => (Ok "/tmp/x", n)
  | OsExists _ | OsIsFile _ => (Ok true, n)
  | OsIsDir _ => (Ok false, n)
  | OsListDir _ => (Ok [], n)
  | OsRun _ _ => (Err (OtherException "FileNotFoundError"), n)
  | OsCleanup _ | OsChmod _ _ | OsMkdir _ | OsCopyFile _ _ => (Ok tt, n)
  end.
Definition demo_execute : os_prog completed :=
  execute_resolver (λ _, "") "/tmp/x" demo_two_stage (JStr "p") JNull.

(** A pre-scan script that can not be started is reported as a success. *)
Lemma two_stage_exit_code_witness :
  run_outcome demo_os_world 0 demo_execute = Ok (Completed 0 (Some "")) ∧
  ∃ e, exec (first_stage (λ _, "") "/tmp/x" NoResolverRunner false "img" "/bin/sh" "true" []
               (JStr "p") JNull) (run_trace demo_os_world 0 demo_execute) (Err e).
Proof.
  split; [reflexivity|].
  destruct (two_stage_exit_code (λ _, "") "/tmp/x" "/tmp" None NoResolverRunner false "img"
    "/bin/sh" "true" [] (JStr "p") JNull _ _ (exec_run demo_os_world 0 demo_execute))
    as [(tr1 & c1 & tr2 & c2 & Htr & H1 & H2 & _)|[(tr1 & c1 & tr2 & e & Htr & H1 & H2 & _)|(e & H & _)]].
  - destruct H2 as [-> _]. rewrite app_nil_r in Htr.
    apply exec_on_outcome in H1 as (o1 & t1 & t2 & -> & Ha & Hb). unfold os in Ha.
    last_call Ha. subst t1.
    pose proof (f_equal (λ l, head l ≫= λ ob : obs os_ev os_resp,
      match projT2 ob with Err e => Some e | Ok _ => None end) Htr) as He.
    vm_compute in He. destruct o1 as [c'|e]; [discriminate He|]. injection He as <-.
    destruct Hb as [_ Hb]. discriminate Hb.
  - exfalso. destruct H2 as [_ H2]. discriminate H2.
  - exists e. exact H.
Defined.

(** A clone with a directory that has a link to the directory of the agent. *)
Definition demo_children (p : string) : option (list string) :=
  if String.eqb p (clone_path "/tmp/x") then Some ["/c/src"; "/c/README"]
  else if String.eqb p "/c/src" then Some ["/c/src/link"]
  else if String.eqb p "/c/src/link" then Some ["/c/src/link/agent.yaml"] else None.
Definition demo_files_world (n : nat) (e : os_ev) : outcome (os_resp e) * nat :=
  match e return outcome (os_resp e) * nat with
  | OsListDir p => (Ok (default [] (demo_children p)), n)
  | OsIsDir p => (Ok (bool_decide (is_Some (demo_children p))), n)
  | OsExists _ | OsIsFile _ => (Ok true, n)
  | OsMakeTempDir _ => (Ok "/tmp/x", n)
  | OsRun _ _ => (Ok (Completed 0 None), n)
  | OsCleanup _ | OsChmod _ _ | OsMkdir _ | OsCopyFile _ _ => (Ok tt, n)
  end.
Definition demo_shell_run : os_prog completed :=
  execute_resolver (λ _, "") "/tmp/x" (ResolverShellRunner "/tmp" None "/bin/ScaResolver" (Some "sca"))
    (JStr "p") JNull.
Lemma demo_shallow n p : match demo_children p with
  | Some l => Forall (λ c, is_Some (demo_children c) → shallow demo_children n c) l
  | None => True end → shallow demo_children (S n) p.
Proof. cbn [shallow]. intros H l c Hl. rewrite Hl, Forall_forall in H. apply H. Qed.
Lemma shared_clone_permissions_witness :
  ∃ tr1 tr2, run_trace demo_files_world 0 demo_shell_run = tr1 ++ tr2 ∧
    OsChmod "/c/src/link/agent.yaml" 504 ∈ events tr1.
Proof.
  destruct (shared_clone_permissions demo_children (λ _, "") "/tmp/x" "/tmp" None "/bin/ScaResolver"
    "sca" (JStr "p") JNull ["/c/src"; "/c/README"] _ _ (exec_run demo_files_world 0 demo_shell_run))
    as (tr1 & tr2 & Htr & _ & Hall & _).
  - vm_compute. repeat constructor.
  - reflexivity.
  - change recursion_limit with (S (S (S (S (Nat.pred (Nat.pred (Nat.pred (Nat.pred 1000)))))))).
    apply demo_shallow. repeat constructor; [intros _|intros []%is_Some_None].
    apply demo_shallow. repeat constructor. intros _.
    apply demo_shallow. repeat constructor. intros []%is_Some_None.
  - exists tr1, tr2. split; [exact Htr|]. apply Hall. split; [reflexivity|].
    eapply below_child; [reflexivity|left|]. eapply below_child; [reflexivity|left|].
    eapply below_child; [reflexivity|left|]. constructor.
Defined.
