(* ===== verification/AgentConfig.v ===== *)
(** * The agent's configuration: [src/config/resolver/__init__.py], the toolkit
    runner's constructor, and [spawn_agents] of [src/cx_scan_agent.py]

    The options and the strings of the configuration are checked to be a mapping
    and strings where they are read, not where they are first used. *)
From S2P Require Import Prelude PyStr PyJson Url Auth Messaging Grouping Broker Config Runner.
Open Scope string_scope.
Open Scope nat_scope.
Open Scope list_scope.

(** [ResolverRunnerAgent.__init__] *)
Record agent_settings : Type := AgentSettings {
  ag_tag : string; ag_public_key : string; ag_runner : runner; ag_amqp : amqp_settings }.

Section agent_config.
Context (secret_file : string → option string).
Context (default_ssl_verify : json).
(** [f"{os.getuid()}:{os.getgid()}"] *)
Context (uid_gid : string).

(** [ResolverOpts(config_dict)] *)
Definition resolver_opts (v : json) : outcome (option (dict json)) :=
  match v with
  | JNull => Ok None
  | JObj d => Ok (Some d)
  | _ => Err AttributeError
  end.

(** [__check_cmd_on_path_or_fail] *)
Definition check_cmd_on_path_or_fail (cmd : string) : os_prog unit :=
  let! exists_ := os (OsExists cmd) in
  let! fail := (if exists_ : bool then Ret false else os (OsIsFile cmd)) in
  if fail : bool then Raise ResolverAgentException else Ret tt.

(** [ResolverToolkitRunner.__init__] *)
Definition toolkit_runner (work_path : string) (opts : option (dict json))
    (toolkit_path container_tag : string) (inherit_uid inherit_gid : bool) : os_prog runner :=
  let toolkit := rstrip "/" toolkit_path +:+ "/" in
  do! check_cmd_on_path_or_fail "docker" in
  do! check_cmd_on_path_or_fail "bash" in
  let! built := os (OsRun (JStr <$> [toolkit +:+ "autobuild.sh"; "-t"; container_tag; "-d"; toolkit]
                             ++ (if inherit_uid then ["-u"] else [])
                             ++ (if inherit_gid then ["-g"] else []))
                      [("HOME", Some (rstrip "/" work_path +:+ "/"))]) in
  let! tag := lift (of_option AttributeError (stdout built)) in
  Ret (ResolverToolkitRunner work_path opts (rstrip nl tag)).

Definition opt_str (v : json) : outcome (option string) :=
  match v with JNull => Ok None | JStr s => Ok (Some s) | _ => Err TypeError end.

(** [__resolver_runner_factory] *)
Definition inner_runner (config_path : string) (config : json) (work_path : string)
    (opts : option (dict json)) : os_prog runner :=
  let! container := lift (get_value_warn_deprecated "run-resolver-with-container"
                            "run-with-container" config JNull) in
  let! disable := lift (get_value_or_default "disable-resolver" config (JBool false)) in
  let! resolver_path := lift (get_value_or_default "resolver-path" config JNull) in
  if truthy disable then Ret NoResolverRunner
  else if not_none resolver_path then
    let! runas := lift (get_value_or_default "resolver-run-as" config JNull) in
    let! runas := lift (opt_str runas) in
    let! path := lift (as_str resolver_path) in
    Ret (ResolverShellRunner work_path opts path runas)
  else if not_none container then
    let path := config_path +:+ "/run-resolver-with-container" in
    let! toolkit := lift (get_value_or_fail path "supply-chain-toolkit-path" container) in
    let! tag := lift (get_value_or_fail path "container-image-tag" container) in
    let! uid := lift (get_value_or_default "use-running-uid" container (JBool true)) in
    let! gid := lift (get_value_or_default "use-running-gid" container (JBool true)) in
    let! toolkit := lift (as_str toolkit) in
    let! tag := lift (as_str tag) in
    toolkit_runner work_path opts toolkit tag (truthy uid) (truthy gid)
  else Raise (missing_at_least_one_key_path config_path
                ["disable-resolver"; "run-resolver-with-container"; "resolver-path"]).

Definition resolver_runner_factory (config_path : string) (config : json) : os_prog runner :=
  let! opts := lift (get_value_or_default "resolver-opts" config JNull) in
  let! opts := lift (resolver_opts opts) in
  let! work_path := lift (get_value_warn_deprecated "scan-agent-work-path" "resolver-work-path"
                            config (JStr "/tmp")) in
  let! work_path := lift (as_str work_path) in
  let! inner := inner_runner config_path config work_path opts in
  let! prescan := lift (get_value_or_default "pre-scan" config JNull) in
  if negb (not_none prescan) then Ret inner
  else
    let path := config_path +:+ "/pre-scan" in
    let! before := lift (get_value_or_default "resolver-before-script" prescan (JBool false)) in
    let! tag := lift (get_value_or_fail path "container-image-tag" prescan) in
    let! shell := lift (get_value_or_default "shell" prescan (JStr "/bin/sh")) in
    let! script := lift (get_value_or_fail path "script" prescan) in
    let! as_agent := lift (get_value_or_default "run-as-agent" prescan (JBool true)) in
    let! tag := lift (as_str tag) in
    let! shell := lift (as_str shell) in
    let! script := lift (as_str script) in
    Ret (ResolverTwoStageRunner work_path opts inner (truthy before) tag shell script
           (if truthy as_agent then ["-u"; uid_gid] else [])).

(** [__agent_factory] *)
Definition agent_factory (config_path tag : string) (config : json) : os_prog agent_settings :=
  let! key := lift (get_secret_or_fail secret_file config_path "public-key" config) in
  let! r := resolver_runner_factory config_path config in
  let! amqp := lift (load_amqp_settings secret_file default_ssl_verify config_path config) in
  Ret (AgentSettings tag key r amqp).

(** [bootstrap]: the agents, appended in the order of the tags. *)
Fixpoint add_agents (tags : dict json) (agents : list agent_settings) :
    os_prog (list agent_settings) :=
  match tags with
  | [] => Ret agents
  | (tag, config) :: tags' =>
      let! a := agent_factory ("serviced-tags/" +:+ tag) tag config in
      add_agents tags' (agents ++ [a])
  end.

Definition agent_bootstrap (raw_yaml : json) : os_prog (list agent_settings) :=
  let! _ := lift (get_value_or_fail "" "secret-root-path" raw_yaml) in
  let! tags := lift (get_value_or_fail "" "serviced-tags" raw_yaml) in
  if negb (not_none tags) then Ret []
  else let! tags := lift (match tags with JObj d => Ok d | _ => Err TypeError end) in
       add_agents tags [].
End agent_config.

(** [spawn_agents]: the queue each agent reads, one message at a time. *)
Definition agent_queues (agents : list agent_settings) : list (agent_settings * string) :=
  (λ a, (a, make_queuename_for_tag (ag_tag a))) <$> agents.

(** ** Theorems *)
Section theorems.
Context (secret_file : string → option string).
Context (default_ssl_verify : json).
Context (uid_gid : string).

(** What the configuration of a tag chooses. *)
Definition chosen (config : dict json) (r : runner) : Prop :=
  let disabled := truthy (default (JBool false) (dget "disable-resolver" config)) in
  let inner := match r with ResolverTwoStageRunner _ _ inner _ _ _ _ _ => inner | r => r end in
  (not_none (default JNull (dget "pre-scan" config)) = true ↔
     match r with ResolverTwoStageRunner _ _ _ _ _ _ _ _ => True | _ => False end) ∧
  match inner with
  | NoResolverRunner => disabled = true
  | ResolverShellRunner _ _ path _ =>
      disabled = false ∧ dget "resolver-path" config = Some (JStr path)
  | ResolverToolkitRunner _ _ _ =>
      disabled = false ∧ not_none (default JNull (dget "resolver-path" config)) = false ∧
      is_Some (dget "run-resolver-with-container" config) ∧
      dget "run-with-container" config = None
  | ResolverTwoStageRunner _ _ _ _ _ _ _ _ => False
  end.

Lemma inner_runner_chosen config_path config work_path opts tr r :
  exec (inner_runner config_path (JObj config) work_path opts) tr (Ok r) →
  let disabled := truthy (default (JBool false) (dget "disable-resolver" config)) in
  match r with
  | NoResolverRunner => disabled = true
  | ResolverShellRunner _ _ path _ =>
      disabled = false ∧ dget "resolver-path" config = Some (JStr path)
  | ResolverToolkitRunner _ _ _ =>
      disabled = false ∧ not_none (default JNull (dget "resolver-path" config)) = false ∧
      is_Some (dget "run-resolver-with-container" config) ∧
      dget "run-with-container" config = None
  | ResolverTwoStageRunner _ _ _ _ _ _ _ _ => False
  end.
Proof.
  intros H. cbv zeta. unfold inner_runner in H.
  apply exec_lift_bind_ok in H as (container & Hc & H).
  apply exec_lift_bind_ok in H as (disable & [= <-] & H).
  apply exec_lift_bind_ok in H as (path & [= Hp] & H).
  destruct (truthy (default (JBool false) (dget "disable-resolver" config))); [by destruct H as [_ [= ->]]|].
  destruct (not_none path) eqn:Hpath.
  - apply exec_lift_bind_ok in H as (runas & _ & H).
    apply exec_lift_bind_ok in H as (runas' & _ & H).
    apply exec_lift_bind_ok in H as (path' & Hs & H). destruct H as [_ [= ->]].
    split; [done|]. destruct path; try done. injection Hs as ->.
    destruct (dget "resolver-path" config); simpl in Hp; by simplify_eq.
  - destruct (not_none container) eqn:Hcont; [|by destruct H].
    do 6 (apply exec_lift_bind_ok in H as (? & _ & H)).
    unfold toolkit_runner in H.
    apply exec_bind_ok in H as ([] & ? & ? & -> & _ & H).
    apply exec_bind_ok in H as ([] & ? & ? & -> & _ & H).
    apply exec_bind_ok in H as (built & ? & ? & -> & _ & H).
    apply exec_lift_bind_ok in H as (tag & _ & H). destruct H as [_ [= ->]].
    split; [done|]. rewrite Hp, Hpath. split; [done|].
    unfold get_value_warn_deprecated, dhas, dindex in Hc.
    destruct (dget "run-with-container" config); [by simplify_eq|].
    destruct (dget "run-resolver-with-container" config); [|by simplify_eq]. split; [by eexists|done].
Qed.

(** The runner of a tag is the one its configuration chooses: none when the
    resolver is disabled, else the resolver at a path, else the toolkit, which
    only the current key selects; within two stages exactly when a pre-scan is
    configured. *)
Theorem agent_runner_chosen config_path tag config tr a :
  exec (agent_factory secret_file default_ssl_verify uid_gid config_path tag (JObj config)) tr (Ok a) →
  ag_tag a = tag ∧ chosen config (ag_runner a) ∧
  get_secret_or_fail secret_file config_path "public-key" (JObj config) = Ok (ag_public_key a).
Proof.
  unfold agent_factory. intros H. apply exec_lift_bind_ok in H as (key & Hkey & H).
  apply exec_bind_ok in H as (r & tr1 & tr2 & -> & Hr & H).
  apply exec_lift_bind_ok in H as (amqp & _ & H). destruct H as [_ [= ->]].
  split; [done|]. split; [|done]. simpl. unfold resolver_runner_factory in Hr.
  do 4 (apply exec_lift_bind_ok in Hr as (? & _ & Hr)).
  apply exec_bind_ok in Hr as (inner & tr3 & tr4 & -> & Hin & Hr).
  apply inner_runner_chosen in Hin. cbv zeta in Hin.
  apply exec_lift_bind_ok in Hr as (prescan & [= Hp] & Hr). unfold chosen. rewrite Hp.
  destruct (not_none prescan); simpl in Hr.
  - do 8 (apply exec_lift_bind_ok in Hr as (? & _ & Hr)). destruct Hr as [_ [= ->]].
    split; [done|]. by destruct inner.
  - destruct Hr as [_ [= ->]]. destruct inner; done.
Qed.

(** The check of the docker command raises only for a file that does not
    exist. *)
Lemma check_cmd_never_fails cmd tr e :
  exec (check_cmd_on_path_or_fail cmd) tr (Err e) →
  (∃ ev x, Obs (ev : os_ev) (Err x) ∈ tr) ∨
  tr = [Obs (OsExists cmd : os_ev) (Ok false); Obs (OsIsFile cmd : os_ev) (Ok true)].
Proof.
  unfold check_cmd_on_path_or_fail, os. intros H.
  call_step H as [(ex & tr1 & -> & H)|(x & -> & _)]; [|left; exists (OsExists cmd), x; left].
  destruct ex; [by destruct H as (?&?)|].
  apply exec_bind in H as [(f & tr2 & tr3 & -> & H1 & H)|(x & H & _)].
  - last_call H1. subst. destruct f; [|by destruct H]. destruct H as [-> _]. by right.
  - last_call H. subst. left. exists (OsIsFile cmd), x. right. left.
Qed.
End theorems.

(** ** Witnesses *)
Definition demo_agent_config : dict json :=
  [("public-key", JStr "key"); ("resolver-path", JStr "/opt/ScaResolver");
   ("pre-scan", JObj [("container-image-tag", JStr "img"); ("script", JStr "npm i")])].
Definition demo_agent_factory : os_prog agent_settings :=
  agent_factory (λ _, Some "KEY") (JBool true) "1:1" "serviced-tags/linux" "linux"
    (JObj demo_agent_config).

Lemma agent_runner_chosen_witness :
  ∃ a, run_outcome demo_os_world 0 demo_agent_factory = Ok a ∧ chosen demo_agent_config (ag_runner a).
Proof.
  destruct (run_outcome demo_os_world 0 demo_agent_factory) as [a|e] eqn:H;
    [|vm_compute in H; discriminate H].
  exists a. split; [reflexivity|].
  refine (proj1 (proj2 (agent_runner_chosen (λ _, Some "KEY") (JBool true) "1:1"
    "serviced-tags/linux" "linux" demo_agent_config _ a _))).
  rewrite <- H. exact (exec_run demo_os_world 0 demo_agent_factory).
Defined.
