(* ===== verification/Orchestration.v ===== *)
(** * The scan workflows: [src/orchestration/base.py]

    [AbstractOrchestrator] drives every scan.  Its overridable members are the
    record [orchestrator]: what a subclass's properties return once it has read
    the event ([outcome]: a property of an attribute that was never set raises).
    The calls it makes on the services of a route are the events [orch_ev]; the
    files of the services say what each of them does. *)
From S2P Require Import Prelude PyStr PyJson Url Auth ApiSession Messaging Grouping CxOne.
Open Scope string_scope.
Open Scope nat_scope.
Open Scope list_scope.

(** ** Archiving a clone: [__get_path_dict]

    A directory tree; [Other] is a socket or a dangling link, which is skipped.
    The result maps the path of each file to its path in the archive. *)
Inductive fs_entry : Type :=
| File
| Other
| Dir (entries : list (string * fs_entry)).

Fixpoint entry_paths (path rel : string) (e : fs_entry) : list (string * string) :=
  match e with
  | File => [(path, rel)]
  | Other => []
  | Dir entries =>
      concat ((λ ne, entry_paths (path +:+ "/" +:+ ne.1) (rel +:+ "/" +:+ ne.1) ne.2)
                <$> entries)
  end.

Definition get_path_dict (path : string) (entries : list (string * fs_entry)) :
    list (string * string) :=
  concat ((λ ne, entry_paths (path +:+ "/" +:+ ne.1) ne.1 ne.2) <$> entries).

(** ** Calls on the services *)
Inductive orch_ev : Type :=
(* services.scm *)
| ScmExec (ctx : option EventContext) (method path : string) (query : dict json)
| ClonerClone (clone_url : json) (ctx : EventContext) (force_reauth : bool)
| WorkerLoc (worker : nat)
| WorkerExit (worker : nat)
| ResetHead (code_path : string) (hash : json)
| ExecPrescanFailure (details : PRDetails) (fail_msg : string)
(* services.naming *)
| GetProjectName (default_name : string) (ctx : EventContext)
(* services.cxone *)
| LoadProjectConfig (default_name name : string) (clone_url : json)
| GetResolverTag (pc : project_config) (tag_key : json) (default_tag : option string)
| ExecuteScan (zip : list (string * string)) (pc : project_config) (branch : json)
    (tags : dict json)
| LoadScanInspector (scan_id : json)
| FindPrScans (project_name : string) (pr_id : json) (commit : json)
| UpdateScanPrTags (project_name : string) (pr_id commit target state status : json)
| CancelScan (scan_id : json)
(* services.resolver *)
| RequestResolverScan (tag : string) (pc : project_config) (clone_url : json)
    (hash branch : json) (tags : dict json) (workflow : ScanWorkflow)
    (ctx : EventContext) (orchestrator : string)
(* services.push and services.pr *)
| StartSarifFeedback (project_id scan_id : json) (details : PushDetails)
| StartPrScanWorkflow (project_id scan_id : json) (details : PRDetails)
| StartDelegatedPrScanWorkflow (details : PRDetails)
(* the file system *)
| ReadTree (code_path : string).

Definition orch_resp (e : orch_ev) : Type :=
  match e with
  | ScmExec _ _ _ _ => response
  | ClonerClone _ _ _ => nat
  | WorkerLoc _ => string
  | GetProjectName _ _ => string
  | LoadProjectConfig _ _ _ => project_config
  | GetResolverTag _ _ _ => option string
  | ExecuteScan _ _ _ _ => json
  | LoadScanInspector _ => inspector
  | FindPrScans _ _ _ | UpdateScanPrTags _ _ _ _ _ _ => list json
  | CancelScan _ | RequestResolverScan _ _ _ _ _ _ _ _ _ => bool
  | ReadTree _ => list (string * fs_entry)
  | _ => unit
  end.
#[global] Arguments orch_resp : simpl never.

Abbreviation orch_prog := (prog orch_ev orch_resp).

(** What the orchestrator reads of the services' own configuration. *)
Record services : Type := Services {
  cxone_moniker : string;
  resolver_project_tag_key : json;
  resolver_default_tag : option string;
  scm_shared_secret : string;
  (* [cloner.select_protocol_from_supported] on the protocols of a repository *)
  select_protocol : list string → option string }.

Inductive ScanAction : Type := DELEGATED | EXECUTING | SKIPPED | FAILED | COMPLETE.

#[export] Instance ScanAction_eq_dec : EqDecision ScanAction.
Proof. solve_decision. Defined.

(** [str(scan_source_msg)] and the like are only logged. *)
Definition normalize_branch_str (branch : string) : string :=
  replace "refs/heads/" "" (lstrip "/" branch).

(** [AbstractOrchestrator.normalize_branch_name] on a payload's value. *)
Definition normalize_branch_name (branch : json) : outcome json :=
  match branch with
  | JStr s => Ok (JStr (normalize_branch_str s))
  | _ => Err AttributeError
  end.

(** ** The overridable members *)
Record orchestrator : Type := Orchestrator {
  o_class : string;                       (* module and class name *)
  o_event_context : EventContext;
  o_delegated_scan : bool;
  o_target : outcome (json * json);       (* _get_target_branch_and_hash *)
  o_source : outcome (json * json);       (* _get_source_branch_and_hash *)
  o_protected : orch_prog (list json);    (* _get_protected_branches *)
  o_clone_url : services → outcome json;  (* _repo_clone_url *)
  o_default_name : outcome string;        (* get_default_cxone_project_name *)
  o_project_key : outcome json;
  o_slug : outcome json;
  o_organization : outcome json;
  o_pr_id : outcome json;
  o_pr_state : outcome json;
  o_pr_status : outcome json }.

(** The workflow that a table has for the name of an event, any value of JSON. *)
Definition handler_for {A} (table : dict A) (event : json) : outcome (option A) :=
  if hashable event then Ok (match event with JStr s => dget s table | _ => None end)
  else Err TypeError.

(** [_repo_clone_url] of the orchestrators: the URL of the first protocol the
    cloner supports; [None] is not a key. *)
Definition repo_clone_url (clone_urls : dict json) (svc : services) : outcome json :=
  match select_protocol svc (dkeys clone_urls) with
  | Some p => dindex p clone_urls
  | None => Err (KeyError "None")
  end.

Section base.
(** [ScanInspector(scan_submit)], of the Checkmarx One library. *)
Context (scan_inspector : json → outcome inspector).
Context (version : string).
Context (svc : services).

(** [exec_local_scan] *)
Definition exec_local_scan (code_path : string) (source_branch : json)
    (pc : project_config) (tags : dict json) : orch_prog (inspector * ScanAction) :=
  let! tree := call (ReadTree code_path) in
  let! scan_submit := call (ExecuteScan (get_path_dict code_path tree) pc source_branch tags) in
  let! _ := lift (jindex "id" scan_submit) in
  let! i := lift (scan_inspector scan_submit) in
  Ret (i, EXECUTING).

(** One clone: the [async with] block of [exec_clone_scan]. *)
Definition clone_and_scan (clone_url source_hash source_branch : json)
    (pc : project_config) (tags : dict json) (ctx : EventContext) (force : bool) :
    orch_prog (inspector * ScanAction) :=
  let! worker := call (ClonerClone clone_url ctx force) in
  finally
    (let! code_path := call (WorkerLoc worker) in
     do! call (ResetHead code_path source_hash) in
     exec_local_scan code_path source_branch pc tags)
    (call (WorkerExit worker)).

(** [while clone_auth_fails <= 1]; the method returns [None] when the loop
    ends.  The fuel 3 is one more than the iterations there can be. *)
Fixpoint clone_loop (fuel clone_auth_fails : nat) (clone_url source_hash source_branch : json)
    (pc : project_config) (tags : dict json) (ctx : EventContext) :
    orch_prog (option (inspector * ScanAction)) :=
  match fuel with
  | 0 => Raise OutOfFuel
  | S fuel' =>
      if clone_auth_fails <=? 1 then
        on_outcome (λ r, match r with
          | Ok v => Ret (Some v)
          | Err e =>
              if is_CloneAuthException e then
                if clone_auth_fails <=? 1 then
                  clone_loop fuel' (S clone_auth_fails) clone_url source_hash
                    source_branch pc tags ctx
                else Raise e
              else Raise e
          end)
          (clone_and_scan clone_url source_hash source_branch pc tags ctx
             (0 <? clone_auth_fails))
      else Ret None
  end.

Definition exec_clone_scan (clone_url source_hash source_branch : json)
    (pc : project_config) (tags : dict json) (ctx : EventContext) :
    orch_prog (option (inspector * ScanAction)) :=
  clone_loop 3 0 clone_url source_hash source_branch pc tags ctx.

(** The delegation of a scan to a resolver agent, the [try] block of
    [__orchestrate_scan]: whether the scan was delegated. *)
Definition try_delegate (o : orchestrator) (pc : project_config)
    (clone_url source_hash source_branch : json) (scan_tags : dict json)
    (workflow : ScanWorkflow) : orch_prog bool :=
  catch is_WorkflowException
    (let! resolver_tag := call (GetResolverTag pc (resolver_project_tag_key svc)
                                  (resolver_default_tag svc)) in
     match resolver_tag return orch_prog bool with
     | Some tag => call (RequestResolverScan tag pc clone_url source_hash source_branch
                           scan_tags workflow (o_event_context o) (o_class o))
     | None => Ret false
     end)
    (λ _, Ret false).

(** [__orchestrate_scan] *)
Definition orchestrate_scan (o : orchestrator) (scan_tags : dict json)
    (workflow : ScanWorkflow) : orch_prog (option inspector * ScanAction) :=
  let! branches := o_protected o in
  let! protected_branches := lift (py_set branches) in
  let! ' (target_branch, target_hash) := lift (o_target o) in
  let! ' (source_branch, source_hash) := lift (o_source o) in
  let! clone_url := lift (o_clone_url o svc) in
  if negb (not_none clone_url)
  then Raise (OrchestrationException "Clone URL could not be determined.")
  else if negb (hashable target_branch) then Raise TypeError
  else if bool_decide (target_branch ∈ protected_branches) then
    let! default_name := lift (o_default_name o) in
    let! name := call (GetProjectName default_name (o_event_context o)) in
    let! pc := call (LoadProjectConfig default_name name clone_url) in
    let! delegated := if o_delegated_scan o then Ret false
                      else try_delegate o pc clone_url source_hash source_branch
                             scan_tags workflow in
    if (delegated : bool) then Ret (None, DELEGATED)
    else
      let! r := exec_clone_scan clone_url source_hash source_branch pc scan_tags
                  (o_event_context o) in
      match r with
      | Some (i, action) => Ret (Some i, action)
      | None => Raise TypeError
      end
  else Ret (None, SKIPPED).

(** [PushDetails.factory] and [_make_prdetails] *)
Definition make_push_details (o : orchestrator) : orch_prog PushDetails :=
  let! ' (source_branch, commit_hash) := lift (o_source o) in
  let! clone_url := lift (o_clone_url o svc) in
  let! project := lift (o_project_key o) in
  let! slug := lift (o_slug o) in
  let! org := lift (o_organization o) in
  Ret (MkPushDetails clone_url project slug org source_branch (o_event_context o)
         commit_hash).

Definition make_prdetails (o : orchestrator) : orch_prog PRDetails :=
  let! ' (source_branch, source_hash) := lift (o_source o) in
  let! ' (target_branch, target_hash) := lift (o_target o) in
  let! clone_url := lift (o_clone_url o svc) in
  let! project := lift (o_project_key o) in
  let! slug := lift (o_slug o) in
  let! org := lift (o_organization o) in
  let! pr_id := lift (o_pr_id o) in
  Ret (MkPRDetails clone_url project slug org (o_event_context o) pr_id
         source_branch target_branch source_hash target_hash).

Definition start_sarif (o : orchestrator) (i : inspector) : orch_prog unit :=
  let! details := make_push_details o in
  call (StartSarifFeedback (i_project_id i) (i_scan_id i) details).

(** [_execute_delegated_push_scan_workflow] *)
Definition execute_delegated_push_scan (o : orchestrator) (scan_id : json) :
    orch_prog (inspector * ScanAction) :=
  let! i := call (LoadScanInspector scan_id) in
  if i_executing i then do! start_sarif o i in Ret (i, EXECUTING)
  else if i_failed i then Ret (i, FAILED)
  else Ret (i, COMPLETE).

Definition push_tags (commit : json) : dict json :=
  [(COMMIT_TAG, commit); ("workflow", JStr (str_workflow PUSH));
   ("cxone-flow", JStr version); ("service", JStr (cxone_moniker svc))].

(** [_execute_push_scan_workflow] *)
Definition execute_push_scan (o : orchestrator) (scan_tags : option (dict json)) :
    orch_prog (option inspector * ScanAction) :=
  let! ' (_, hash) := lift (o_source o) in
  let submitted := dunion (push_tags hash) (default [] scan_tags) in
  let! ' (i, action) := orchestrate_scan o submitted PUSH in
  match i, action with
  | Some insp, EXECUTING => do! start_sarif o insp in Ret (i, action)
  | _, _ => Ret (i, action)
  end.

(** [__start_pr_workflow] and [__start_delegated_pr_workflow] *)
Definition start_pr_workflow (o : orchestrator) (i : inspector) : orch_prog unit :=
  let! details := make_prdetails o in
  call (StartPrScanWorkflow (i_project_id i) (i_scan_id i) details).

Definition start_delegated_pr_workflow (o : orchestrator) : orch_prog unit :=
  let! details := make_prdetails o in call (StartDelegatedPrScanWorkflow details).

(** [_execute_delegated_pr_scan_workflow] *)
Definition execute_delegated_pr_scan (o : orchestrator) (scan_id : json) :
    orch_prog ScanAction :=
  let! i := call (LoadScanInspector scan_id) in
  do! start_pr_workflow o i in Ret EXECUTING.

Definition pr_tags (source_hash pr_id target_branch status state : json) : dict json :=
  [(COMMIT_TAG, source_hash); (PR_ID_TAG, pr_id); (PR_TARGET_TAG, target_branch);
   (PR_STATUS_TAG, status); (PR_STATE_TAG, state); ("workflow", JStr (str_workflow PR));
   ("cxone-flow", JStr version); ("service", JStr (cxone_moniker svc))].

(** [_execute_pr_scan_workflow] *)
Definition execute_pr_scan (o : orchestrator) (scan_tags : option (dict json)) :
    orch_prog ScanAction :=
  let! ' (_, source_hash) := lift (o_source o) in
  let! ' (target_branch, _) := lift (o_target o) in
  let! pr_id := lift (o_pr_id o) in
  let! status := lift (o_pr_status o) in
  let! state := lift (o_pr_state o) in
  let submitted := dunion (pr_tags source_hash pr_id target_branch status state)
                     (default [] scan_tags) in
  let! ' (i, action) := orchestrate_scan o submitted PR in
  match i, action with
  | Some insp, EXECUTING => do! start_pr_workflow o insp in Ret action
  | _, DELEGATED => do! start_delegated_pr_workflow o in Ret action
  | _, _ => Ret action
  end.

(** [_execute_pr_tag_update_workflow] *)
Definition execute_pr_tag_update (o : orchestrator) : orch_prog (list json) :=
  let! ' (_, source_hash) := lift (o_source o) in
  let! ' (target_branch, _) := lift (o_target o) in
  let! default_name := lift (o_default_name o) in
  let! name := call (GetProjectName default_name (o_event_context o)) in
  let! pr_id := lift (o_pr_id o) in
  let! state := lift (o_pr_state o) in
  let! status := lift (o_pr_status o) in
  (call (UpdateScanPrTags name pr_id source_hash target_branch state status)
     : orch_prog (list json)).

End base.

(** ** Theorems *)

(** The archive paths of the files of a tree are their paths below the root. *)
Lemma entry_paths_rel root e : ∀ rel p r,
  (p, r) ∈ entry_paths (root +:+ "/" +:+ rel) rel e → p = root +:+ "/" +:+ r.
Proof.
  revert e. fix IH 1. intros [| |entries] rel p r; simpl.
  - set_solver.
  - set_solver.
  - induction entries as [|[n e] entries IHl]; simpl; [set_solver|].
    intros [H|H]%elem_of_app; [|by apply IHl].
    assert ((root +:+ "/" +:+ rel) +:+ "/" +:+ n = root +:+ "/" +:+ rel +:+ "/" +:+ n) as E
      by by rewrite <- !app_str_assoc.
    apply (IH e (rel +:+ "/" +:+ n)).
    exact (eq_ind _ (λ x, (p, r) ∈ entry_paths x (rel +:+ "/" +:+ n) e) H _ E).
Qed.

Lemma get_path_dict_rel root entries p r :
  (p, r) ∈ get_path_dict root entries → p = root +:+ "/" +:+ r.
Proof.
  unfold get_path_dict. induction entries as [|[n e] entries IH]; simpl; [set_solver|].
  intros [H|H]%elem_of_app; [exact (entry_paths_rel root e n p r H)|by apply IH].
Qed.

Section theorems.
Context (scan_inspector : json → outcome inspector).
Context (version : string).
Context (svc : services).
Implicit Types tr : list (obs orch_ev orch_resp).

Definition is_clone (e : orch_ev) : bool :=
  match e with ClonerClone _ _ _ => true | _ => false end.
Definition is_execute_scan (e : orch_ev) : bool :=
  match e with ExecuteScan _ _ _ _ => true | _ => false end.
Definition is_exit (e : orch_ev) : bool :=
  match e with WorkerExit _ => true | _ => false end.
Definition is_delegation (e : orch_ev) : bool :=
  match e with RequestResolverScan _ _ _ _ _ _ _ _ _ => true | _ => false end.
Definition starts_feedback (e : orch_ev) : bool :=
  match e with
  | StartSarifFeedback _ _ _ | StartPrScanWorkflow _ _ _
  | StartDelegatedPrScanWorkflow _ => true
  | _ => false
  end.

(** C14: a clone is always cleaned up: the worker is left exactly once, after
    everything else, however the scan of the clone ends; and what is uploaded
    for the scan is read after the clone was reset to the requested commit. *)
Theorem clone_and_scan_cleanup url hash branch pc tags ctx force tr o :
  exec (clone_and_scan scan_inspector url hash branch pc tags ctx force) tr o →
  (∃ x, tr = [Obs (ClonerClone url ctx force) (Err x)] ∧ o = Err x) ∨
  (∃ w mid r, tr = Obs (ClonerClone url ctx force) (Ok w) :: mid ++ [Obs (WorkerExit w) r] ∧
     count is_exit mid = 0 ∧ count is_clone mid = 0 ∧
     (count is_execute_scan mid = 0 ∨
      ∃ path tree rs, mid = [Obs (WorkerLoc w) (Ok path); Obs (ResetHead path hash) (Ok tt);
         Obs (ReadTree path) (Ok tree);
         Obs (ExecuteScan (get_path_dict path tree) pc branch tags) rs])).
Proof.
  unfold clone_and_scan, finally, exec_local_scan. intros H.
  call_step H as [(w & tr1 & -> & H)|(x & -> & ->)]; [right|left; eauto].
  apply exec_on_outcome in H as (o1 & tr2 & tr3 & -> & H1 & H).
  assert (Hexit : ∃ r, tr3 = [Obs (WorkerExit w) r]).
  { call_step H as [([] & tr4 & -> & H)|(x & -> & ->)]; [|eauto].
    apply exec_lift in H as [-> _]. eauto. }
  destruct Hexit as [r ->]. exists w, tr2, r. split; [done|]. clear H r.
  call_step H1 as [(path & tr1 & -> & H)|(x & -> & _)];
    [|by split_and!; [..|left]].
  call_step H as [([] & tr2 & -> & H)|(x & -> & _)];
    [|by split_and!; [..|left]].
  call_step H as [(tree & tr3 & -> & H)|(x & -> & _)];
    [|by split_and!; [..|left]].
  assert (∃ rs, tr3 = [Obs (ExecuteScan (get_path_dict path tree) pc branch tags) rs])
    as [rs ->].
  { call_step H as [(sub & tr4 & -> & H)|(x & -> & ->)]; [|eauto].
    inv_exec; eauto. }
  split_and!; [done..|]. right. eauto 10.
Qed.

(** C12: a scan clones at most twice.  The second clone happens exactly when
    the first was refused for its credentials, and renews them; any other
    outcome of a clone is the outcome of the scan.  When both are refused the
    method ends without a result, where the caller expects a pair. *)
Theorem exec_clone_scan_spec url hash branch pc tags ctx tr o :
  exec (exec_clone_scan scan_inspector url hash branch pc tags ctx) tr o ↔
  ∃ r1 tr1,
    exec (clone_and_scan scan_inspector url hash branch pc tags ctx false) tr1 r1 ∧
    match r1 with
    | Ok v => tr = tr1 ∧ o = Ok (Some v)
    | Err e =>
        if is_CloneAuthException e then
          ∃ r2 tr2, exec (clone_and_scan scan_inspector url hash branch pc tags ctx true)
                      tr2 r2 ∧ tr = tr1 ++ tr2 ∧
            o = match r2 with
                | Ok v => Ok (Some v)
                | Err e' => if is_CloneAuthException e' then Ok None else Err e'
                end
        else tr = tr1 ∧ o = Err e
    end.
Proof.
  unfold exec_clone_scan. cbn [clone_loop Nat.leb Nat.ltb]. rewrite exec_on_outcome. split.
  - intros (r1 & tr1 & tr2 & -> & H1 & H). exists r1, tr1. split; [exact H1|].
    destruct r1 as [v|e]; [destruct H as [-> ->]; by rewrite app_nil_r|].
    destruct (is_CloneAuthException e); [|destruct H as [-> ->]; by rewrite app_nil_r].
    apply exec_on_outcome in H as (r2 & tr3 & tr4 & -> & H2 & H).
    assert (tr4 = [] ∧ o = match r2 with
                | Ok v => Ok (Some v)
                | Err e' => if is_CloneAuthException e' then Ok None else Err e'
                end) as [-> ->].
    { destruct r2 as [v|e']; [exact H|]. by destruct (is_CloneAuthException e'). }
    exists r2, tr3. by rewrite app_nil_r.
  - intros (r1 & tr1 & H1 & H). exists r1, tr1.
    destruct r1 as [v|e]; [destruct H as [-> ->]; exists []; by rewrite app_nil_r|].
    destruct (is_CloneAuthException e);
      [|destruct H as [-> ->]; exists []; by rewrite app_nil_r].
    destruct H as (r2 & tr2 & H2 & -> & ->). exists tr2. split_and!; [done..|].
    apply exec_on_outcome. exists r2, tr2, []. rewrite app_nil_r.
    split_and!; [done..|]. destruct r2 as [v|e']; [done|].
    by destruct (is_CloneAuthException e').
Qed.

Lemma clone_and_scan_quiet url hash branch pc tags ctx force :
  only (λ e, starts_feedback e = false ∧ is_delegation e = false)
    (clone_and_scan scan_inspector url hash branch pc tags ctx force).
Proof. unfold clone_and_scan, exec_local_scan. only_calls. Qed.

Lemma exec_clone_scan_quiet url hash branch pc tags ctx :
  only (λ e, starts_feedback e = false ∧ is_delegation e = false)
    (exec_clone_scan scan_inspector url hash branch pc tags ctx).
Proof.
  unfold exec_clone_scan. cbn [clone_loop Nat.leb].
  repeat first [apply only_on_outcome; [apply clone_and_scan_quiet|]
               |apply only_ret|apply only_raise|intros []|case_match].
Qed.

(** The calls that act on the repository or on Checkmarx One for a scan. *)
Definition acts (e : orch_ev) : bool :=
  is_clone e || is_execute_scan e || is_delegation e ||
  match e with LoadProjectConfig _ _ _ => true | _ => false end.

Lemma try_delegate_only o pc url hash branch tags wf :
  only (λ e, is_clone e = false ∧ starts_feedback e = false)
    (try_delegate svc o pc url hash branch tags wf).
Proof. unfold try_delegate. only_calls. Qed.

(** C5: nothing is done for a scan, no project is created, no clone is made
    and nothing is scanned or delegated, unless the target branch of the event
    is one of the protected branches that the orchestrator determined first;
    otherwise the scan is skipped. *)
Theorem orchestrate_scan_protected o tags wf tr r :
  exec (orchestrate_scan scan_inspector svc o tags wf) tr r →
  ∃ trp rp tr2, tr = trp ++ tr2 ∧ exec (o_protected o) trp rp ∧
    (tr2 = [] ∨ ∃ bs target hash, rp = Ok bs ∧ o_target o = Ok (target, hash) ∧ target ∈ bs) ∧
    (∀ i a, r = Ok (i, a) → tr2 = [] → i = None ∧ a = SKIPPED).
Proof.
  unfold orchestrate_scan. intros H.
  apply exec_bind in H as [(bs & trp & tr2 & -> & Hp & H)|(e & H & ->)];
    [|exists tr, (Err e), []; rewrite app_nil_r; split_and!; eauto; done].
  exists trp, (Ok bs), tr2. split; [done|]. split; [done|].
  apply exec_lift_bind in H as [(set & Hset & H)|(? & _ & -> & ->)]; [|split; [by left|done]].
  apply exec_lift_bind in H as [([target th] & Ht & H)|(? & _ & -> & ->)];
    [|split; [by left|done]].
  apply exec_lift_bind in H as [([source sh] & _ & H)|(? & _ & -> & ->)];
    [|split; [by left|done]].
  apply exec_lift_bind in H as [(url & _ & H)|(? & _ & -> & ->)]; [|split; [by left|done]].
  destruct (negb (not_none url)); [destruct H as [-> ->]; split; [by left|done]|].
  destruct (negb (hashable target)); [destruct H as [-> ->]; split; [by left|done]|].
  case_bool_decide as Hin.
  - rewrite (elem_of_py_set _ _ _ Hset) in Hin. split; [right; by exists bs, target, th|].
    intros i a -> ->. inv_exec.
  - destruct H as [-> ->]. split; [by left|]. by intros i a [= <- <-] _.
Qed.

Lemma count_quiet {A} (f : orch_ev → bool) (Q : orch_ev → Prop) (p : orch_prog A) tr o :
  only Q p → (∀ e, Q e → f e = false) → exec p tr o → count f tr = 0.
Proof. intros Hp HQ H. apply count_only. eapply Forall_impl; [by eapply Hp|exact HQ]. Qed.

Lemma only_count {A} (f : orch_ev → bool) (p : orch_prog A) tr o :
  only (λ e, f e = false) p → exec p tr o → count f tr = 0.
Proof. intros Hp H. by eapply count_quiet. Qed.

(** Checkmarx One accepted a scan and returned what the inspector shows. *)
Definition submitted (i : inspector) (tr : list (obs orch_ev orch_resp)) : Prop :=
  ∃ zip pc branch tags submit,
    Obs (ExecuteScan zip pc branch tags) (Ok submit) ∈ tr ∧ scan_inspector submit = Ok i.

Lemma submitted_app i tr1 tr2 : submitted i tr1 ∨ submitted i tr2 → submitted i (tr1 ++ tr2).
Proof.
  intros [H|H]; destruct H as (zip & pc & branch & tags & submit & H & Hi);
    exists zip, pc, branch, tags, submit; rewrite elem_of_app; auto.
Qed.

(** One round: one clone, and a scan that is returned was submitted. *)
Lemma clone_and_scan_round url hash branch pc tags ctx force tr r :
  exec (clone_and_scan scan_inspector url hash branch pc tags ctx force) tr r →
  count is_clone tr = 1 ∧ ∀ i a, r = Ok (i, a) → a = EXECUTING ∧ submitted i tr.
Proof.
  unfold clone_and_scan, finally. intros H.
  call_step H as [(w & tr1 & -> & H)|(x & -> & ->)]; [|done].
  apply exec_on_outcome in H as (o1 & tr2 & tr3 & -> & H1 & H). split.
  - autorewrite with effects_rw. simpl.
    assert (count is_clone tr3 = 0) as -> by (call_step H as [([] & tr4 & -> & H)|(x & -> & _)];
      [apply exec_lift in H as [-> _]|]; done).
    assert (count is_clone tr2 = 0) as ->; [|done].
    eapply only_count; [|exact H1]. unfold exec_local_scan. only_calls.
  - intros i a ->. unfold exec_local_scan in H1. inv_exec. split; [done|].
    eexists _, _, _, _, _. split; [|done]. set_solver.
Qed.

(** A trace of [exec_clone_scan] that returns a scan: one clone or two. *)
Lemma exec_clone_scan_clones url hash branch pc tags ctx tr v :
  exec (exec_clone_scan scan_inspector url hash branch pc tags ctx) tr (Ok v) →
  1 ≤ count is_clone tr ≤ 2 ∧ ∀ i a, v = Some (i, a) → a = EXECUTING ∧ submitted i tr.
Proof.
  unfold exec_clone_scan. cbn [clone_loop Nat.leb Nat.ltb]. intros H.
  apply exec_on_outcome in H as (r1 & tr1 & tr2 & -> & H1 & H).
  apply clone_and_scan_round in H1 as [Hc1 Ha1]. rewrite count_app.
  destruct r1 as [w|e].
  { destruct H as [-> [= ->]]. split; [autorewrite with effects_rw; lia|]. intros i a [= ->].
    rewrite app_nil_r. by apply Ha1. }
  destruct (is_CloneAuthException e); [|by destruct H].
  apply exec_on_outcome in H as (r2 & tr3 & tr4 & -> & H2 & H).
  apply clone_and_scan_round in H2 as [Hc2 Ha2].
  destruct r2 as [w|e']; [|destruct (is_CloneAuthException e')];
    destruct H as [-> [= ->]]; rewrite app_nil_r; (split; [lia|]); [|done].
  intros i a [= ->]. destruct (Ha2 i a eq_refl) as [? ?]. split; [done|].
  apply submitted_app. by right.
Qed.

(** Whether a scan is handed to an agent: a delegated one is not, and one that is
    has been requested once; nothing is cloned for it. *)
Lemma delegation_step o pc url sh source tags wf tr delegated :
  exec (if o_delegated_scan o then Ret false
        else try_delegate svc o pc url sh source tags wf) tr (Ok delegated) →
  count is_clone tr = 0 ∧
  (o_delegated_scan o = true → delegated = false ∧ count is_delegation tr = 0) ∧
  (delegated = true → count is_delegation tr = 1).
Proof.
  intros Hd. destruct (o_delegated_scan o); [destruct Hd as [-> [= ->]]; split_and!; done|].
  split; [by eapply count_quiet; [apply try_delegate_only|intros e []|exact Hd]|].
  split; [done|]. intros ->. unfold try_delegate, catch in Hd.
  apply exec_on_outcome in Hd as (o1 & tr7 & tr8 & -> & H1 & H2).
  call_step H1 as [(tag & tr9 & -> & H1)|(x & -> & ->)];
    [|by destruct (is_WorkflowException x); destruct H2].
  destruct tag as [tag|]; [|destruct H1 as [-> ->]; by destruct H2].
  last_call H1. subst tr9. destruct o1 as [b|x]; [|by destruct (is_WorkflowException x); destruct H2].
  destruct H2 as [-> ?]. simplify_eq. done.
Qed.

(** C7: when [__orchestrate_scan] returns, either the scan executes and the
    code was cloned once or twice, or a resolver agent accepted it and nothing
    was cloned, or it was skipped and nothing was done; and a scan that comes
    back from an agent is never handed to an agent again. *)
Theorem orchestrate_scan_outcome o tags wf tr i a :
  only (λ e, acts e = false) (o_protected o) →
  exec (orchestrate_scan scan_inspector svc o tags wf) tr (Ok (i, a)) →
  (o_delegated_scan o = true → count is_delegation tr = 0) ∧
  ((a = EXECUTING ∧ is_Some i ∧ 1 ≤ count is_clone tr ≤ 2)
   ∨ (a = DELEGATED ∧ i = None ∧ count is_clone tr = 0 ∧ count is_delegation tr = 1)
   ∨ (a = SKIPPED ∧ i = None ∧ count acts tr = 0)).
Proof.
  intros Hprot H. unfold orchestrate_scan in H.
  apply exec_bind_ok in H as (bs & trp & tr2 & -> & Hp & H).
  pose proof (only_count _ _ _ _ Hprot Hp) as Hpa.
  assert (Hpc : count is_clone trp = 0 ∧ count is_delegation trp = 0).
  { split; (eapply count_quiet; [exact Hprot| |exact Hp]); intros e; unfold acts;
      rewrite !orb_false_iff; tauto. }
  apply exec_lift_bind_ok in H as (set & _ & H).
  apply exec_lift_bind_ok in H as ([target th] & _ & H).
  apply exec_lift_bind_ok in H as ([source sh] & _ & H).
  apply exec_lift_bind_ok in H as (url & _ & H).
  destruct (negb (not_none url)); [by destruct H|].
  destruct (negb (hashable target)); [by destruct H|].
  case_bool_decide as Hin.
  2:{ destruct H as [-> [= -> ->]]. rewrite app_nil_r. split; [tauto|]. right. right. tauto. }
  apply exec_lift_bind_ok in H as (dn & _ & H).
  call_step H as [(name & tr3 & -> & H)|(? & _ & ?)]; [|done].
  call_step H as [(pc & tr4 & -> & H)|(? & _ & ?)]; [|done].
  apply exec_bind_ok in H as (delegated & tr5 & tr6 & -> & Hd & H).
  pose proof (delegation_step o pc url sh source tags wf tr5 delegated Hd) as (Hd1 & Hd2 & Hd3). clear Hd.
  destruct delegated.
  - destruct H as [-> [= -> ->]]. rewrite app_nil_r. autorewrite with effects_rw. simpl.
    split; [intros Ho; destruct (Hd2 Ho) as [? _]; done|]. right. left.
    specialize (Hd3 eq_refl). split_and!; try done; lia.
  - apply exec_bind_ok in H as (r & tr7 & tr8 & -> & Hc & H).
    assert (count is_delegation tr7 = 0) as Hq.
    { eapply count_quiet; [apply exec_clone_scan_quiet| |exact Hc]. tauto. }
    apply exec_clone_scan_clones in Hc as [Hn Ha].
    destruct r as [[i' a']|]; [|by destruct H]. destruct H as [-> [= -> ->]].
    rewrite app_nil_r. autorewrite with effects_rw. simpl. split.
    + intros Ho. destruct (Hd2 Ho) as [_ ?]. lia.
    + left. destruct (Ha _ _ eq_refl) as [-> _]. split_and!; [done|by eexists|lia..].
Qed.

(** A scan that executes is the one that Checkmarx One accepted. *)
Lemma orchestrate_scan_submitted o tags wf tr i :
  exec (orchestrate_scan scan_inspector svc o tags wf) tr (Ok (i, EXECUTING)) →
  ∃ i', i = Some i' ∧ submitted i' tr.
Proof.
  intros H. unfold orchestrate_scan in H.
  apply exec_bind_ok in H as (bs & trp & tr2 & -> & _ & H).
  apply exec_lift_bind_ok in H as (set & _ & H).
  apply exec_lift_bind_ok in H as ([target th] & _ & H).
  apply exec_lift_bind_ok in H as ([source sh] & _ & H).
  apply exec_lift_bind_ok in H as (url & _ & H).
  destruct (negb (not_none url)); [by destruct H|].
  destruct (negb (hashable target)); [by destruct H|].
  case_bool_decide; [|by destruct H].
  apply exec_lift_bind_ok in H as (dn & _ & H).
  call_step H as [(name & tr3 & -> & H)|(? & _ & ?)]; [|done].
  call_step H as [(pc & tr4 & -> & H)|(? & _ & ?)]; [|done].
  apply exec_bind_ok in H as (delegated & tr5 & tr6 & -> & _ & H).
  destruct delegated; [by destruct H|].
  apply exec_bind_ok in H as (v & tr7 & tr8 & -> & Hc & H).
  apply exec_clone_scan_clones in Hc as [_ Hs].
  destruct v as [[i' a']|]; [|by destruct H]. destruct H as [-> ?]. simplify_eq.
  exists i'. split; [done|]. rewrite app_nil_r. apply submitted_app. right.
  apply (submitted_app _ [_; _]). right. apply submitted_app. right. by eapply Hs.
Qed.

(** The workflows start the feedback of a scan that executes. *)
Lemma push_scan_started o scan_tags tr i :
  exec (execute_push_scan scan_inspector version svc o scan_tags) tr (Ok (i, EXECUTING)) →
  ∃ i' d, i = Some i' ∧ submitted i' tr ∧ pd_event_context d = o_event_context o ∧
    Obs (StartSarifFeedback (i_project_id i') (i_scan_id i') d) (Ok tt) ∈ tr.
Proof.
  intros H. unfold execute_push_scan in H.
  apply exec_lift_bind_ok in H as ([branch hash] & Hs & H).
  apply exec_bind_ok in H as ([i1 a1] & tr1 & rest & -> & Ho & H).
  assert (a1 = EXECUTING ∧ i1 = i) as [-> ->].
  { destruct i1, a1; inv_exec; done. }
  destruct (orchestrate_scan_submitted _ _ _ _ _ Ho) as (i' & -> & Hsub).
  apply exec_bind_ok in H as ([] & tr2 & tr3 & -> & H1 & _).
  unfold start_sarif, make_push_details in H1. rewrite Hs in H1. inv_exec.
  exists i'. eexists. split; [done|]. split; [apply submitted_app; by left|].
  split; [|apply elem_of_app; right; apply elem_of_cons; by left]. done.
Qed.

Lemma pr_scan_started o scan_tags tr :
  exec (execute_pr_scan scan_inspector version svc o scan_tags) tr (Ok EXECUTING) →
  ∃ i d, submitted i tr ∧ prd_event_context d = o_event_context o ∧
    Obs (StartPrScanWorkflow (i_project_id i) (i_scan_id i) d) (Ok tt) ∈ tr.
Proof.
  intros H. unfold execute_pr_scan in H.
  apply exec_lift_bind_ok in H as ([source hash] & Hs & H).
  apply exec_lift_bind_ok in H as ([target th] & Ht & H).
  apply exec_lift_bind_ok in H as (pr_id & Hid & H).
  apply exec_lift_bind_ok in H as (status & Hst & H).
  apply exec_lift_bind_ok in H as (state & Hstate & H).
  apply exec_bind_ok in H as ([i1 a1] & tr1 & rest & -> & Ho & H).
  assert (a1 = EXECUTING) as -> by (destruct i1, a1; inv_exec; done).
  destruct (orchestrate_scan_submitted _ _ _ _ _ Ho) as (i' & -> & Hsub).
  apply exec_bind_ok in H as ([] & tr2 & tr3 & -> & H1 & _).
  unfold start_pr_workflow, make_prdetails in H1. rewrite Hs, Ht in H1. inv_exec.
  exists i'. eexists. split; [apply submitted_app; by left|].
  split; [|apply elem_of_app; right; apply elem_of_cons; by left]. done.
Qed.

Lemma orchestrate_scan_quiet o tags wf :
  only (λ e, starts_feedback e = false) (o_protected o) →
  only (λ e, starts_feedback e = false) (orchestrate_scan scan_inspector svc o tags wf).
Proof.
  intros Hp. unfold orchestrate_scan.
  repeat first
    [ exact Hp
    | eapply only_weaken; [|apply exec_clone_scan_quiet]; by intros e [? _]
    | eapply only_weaken; [|apply try_delegate_only]; by intros e [_ ?]
    | apply only_bind | apply only_lift | apply only_ret | apply only_raise
    | lazymatch goal with
      | |- only ?Q (@call ?Ev ?Resp ?e) => by apply (only_call (Ev:=Ev) (Resp:=Resp) Q e)
      end
    | progress intros | case_match ].
Qed.

(** C17: a push workflow submits the scan with the commit of the event, the
    workflow, and the tags it is given, which override the others; it starts
    the SARIF feedback exactly when the scan executes, once and after the scan,
    for the project and the scan of the inspector, with the commit and the
    context of the event. *)
Theorem execute_push_scan_feedback o scan_tags tr i action :
  only (λ e, starts_feedback e = false) (o_protected o) →
  NoDup (dkeys (default [] scan_tags)) →
  exec (execute_push_scan scan_inspector version svc o scan_tags) tr (Ok (i, action)) →
  ∃ branch hash tr1 rest submitted,
    o_source o = Ok (branch, hash) ∧
    exec (orchestrate_scan scan_inspector svc o submitted PUSH) tr1 (Ok (i, action)) ∧
    (∀ k, dget k submitted =
       match dget k (default [] scan_tags) with
       | Some v => Some v
       | None => dget k (push_tags version svc hash)
       end) ∧
    tr = tr1 ++ rest ∧ count starts_feedback tr1 = 0 ∧
    match i, action with
    | Some insp, EXECUTING => ∃ d, pd_commit_hash d = hash ∧ pd_source_branch d = branch ∧
        pd_event_context d = o_event_context o ∧
        rest = [Obs (StartSarifFeedback (i_project_id insp) (i_scan_id insp) d) (Ok tt)]
    | _, _ => rest = []
    end.
Proof.
  intros Hp Hnd H. unfold execute_push_scan in H.
  apply exec_lift_bind_ok in H as ([branch hash] & Hs & H).
  apply exec_bind_ok in H as ([i' a'] & tr1 & rest & -> & Ho & H).
  assert (Hret : i' = i ∧ a' = action ∧
    match i', a' with
    | Some insp, EXECUTING => ∃ d, pd_commit_hash d = hash ∧ pd_source_branch d = branch ∧
        pd_event_context d = o_event_context o ∧
        rest = [Obs (StartSarifFeedback (i_project_id insp) (i_scan_id insp) d) (Ok tt)]
    | _, _ => rest = []
    end).
  { destruct i' as [insp|], a'; try (destruct H as [-> ?]; by simplify_eq).
    apply exec_bind_ok in H as ([] & tr2 & tr3 & -> & H1 & [-> ?]).
    unfold start_sarif, make_push_details in H1. rewrite Hs in H1. inv_exec.
    split_and!; [done..|]. eexists. split_and!; [..|done]; done. }
  destruct Hret as (-> & -> & Hrest). eexists branch, hash, tr1, rest, _.
  split_and!; [done|done|intros k; by apply dget_dunion|done| |done].
  eapply only_count; [by apply orchestrate_scan_quiet|done].
Qed.

(** C20: a pull request workflow submits the scan tagged with the commit, the
    pull request and its state; after the scan it starts the feedback of the
    pull request when the scan executes, the delegated feedback when an agent
    took the scan, and nothing otherwise, always with the details of the event. *)
Theorem execute_pr_scan_feedback o scan_tags tr action :
  only (λ e, starts_feedback e = false) (o_protected o) →
  NoDup (dkeys (default [] scan_tags)) →
  exec (execute_pr_scan scan_inspector version svc o scan_tags) tr (Ok action) →
  ∃ source hash target th pr_id status state tr1 rest i submitted,
    o_source o = Ok (source, hash) ∧ o_target o = Ok (target, th) ∧
    o_pr_id o = Ok pr_id ∧ o_pr_status o = Ok status ∧ o_pr_state o = Ok state ∧
    exec (orchestrate_scan scan_inspector svc o submitted PR) tr1 (Ok (i, action)) ∧
    (∀ k, dget k submitted =
       match dget k (default [] scan_tags) with
       | Some v => Some v
       | None => dget k (pr_tags version svc hash pr_id target status state)
       end) ∧
    tr = tr1 ++ rest ∧ count starts_feedback tr1 = 0 ∧
    let event_details d := prd_pr_id d = pr_id ∧ prd_source_hash d = hash ∧
      prd_target_branch d = target ∧ prd_event_context d = o_event_context o in
    match i, action with
    | Some insp, EXECUTING => ∃ d, event_details d ∧
        rest = [Obs (StartPrScanWorkflow (i_project_id insp) (i_scan_id insp) d) (Ok tt)]
    | _, DELEGATED => ∃ d, event_details d ∧
        rest = [Obs (StartDelegatedPrScanWorkflow d) (Ok tt)]
    | _, _ => rest = []
    end.
Proof.
  intros Hp Hnd H. unfold execute_pr_scan in H.
  apply exec_lift_bind_ok in H as ([source hash] & Hs & H).
  apply exec_lift_bind_ok in H as ([target th] & Ht & H).
  apply exec_lift_bind_ok in H as (pr_id & Hid & H).
  apply exec_lift_bind_ok in H as (status & Hst & H).
  apply exec_lift_bind_ok in H as (state & Hstate & H).
  apply exec_bind_ok in H as ([i' a'] & tr1 & rest & -> & Ho & H).
  exists source, hash, target, th, pr_id, status, state, tr1, rest, i'.
  assert (Hret : a' = action).
  { destruct i' as [insp|], a'; inv_exec; done. }
  subst a'. eexists.
  split_and!; [done..|intros k; by apply dget_dunion|done| |].
  { eapply only_count; [by apply orchestrate_scan_quiet|done]. }
  destruct i' as [insp|], action; try (by destruct H);
    apply exec_bind_ok in H as ([] & tr2 & tr3 & -> & H1 & [-> _]);
    unfold start_pr_workflow, start_delegated_pr_workflow, make_prdetails in H1;
    rewrite Hs, Ht, Hid in H1; inv_exec;
    eexists; (split; [|done]); done.
Qed.
End theorems.

(** ** Witnesses: a push to a protected branch whose first clone is refused *)
Definition demo_services : services :=
  Services "svc" (JStr "resolver") None "secret" head.
Definition demo_orch (target : string) : orchestrator :=
  {| o_class := "demo.Orchestrator";
     o_event_context := MkEventContext "" [] (JObj []);
     o_delegated_scan := false;
     o_target := Ok (JStr target, JStr "c0ffee");
     o_source := Ok (JStr target, JStr "c0ffee");
     o_protected := Ret [JStr "main"];
     o_clone_url := repo_clone_url [("https", JStr "https://scm/r.git")];
     o_default_name := Ok "org/repo";
     o_project_key := Ok (JStr "P"); o_slug := Ok (JStr "S"); o_organization := Ok (JStr "O");
     o_pr_id := Ok (JStr "1"); o_pr_state := Ok (JStr "open"); o_pr_status := Ok (JStr "NEW") |}.
Definition demo_inspector : inspector :=
  Inspector (JStr "p") (JStr "s") true false false "".
Definition demo_make_inspector (v : json) : outcome inspector := Ok demo_inspector.

(** Refuses the first [n] clones; [tag] is the resolver tag of the project. *)
Definition demo_orch_world (tag : option string) (n : nat) (e : orch_ev) :
    outcome (orch_resp e) * nat :=
  match e return outcome (orch_resp e) * nat with
  | ScmExec _ _ _ _ => (Ok (demo_response JNull), n)
  | ClonerClone _ _ _ => (Ok n, n)
  | WorkerLoc _ => match n with
                   | 0 => (Ok "/tmp/c", 0)
                   | S n' => (Err (CloneAuthException "denied"), n')
                   end
  | GetProjectName d _ => (Ok d, n)
  | LoadProjectConfig _ _ _ => (Ok (ProjectConfig (JStr "p") JNull [] JNull), n)
  | GetResolverTag _ _ _ => (Ok tag, n)
  | ExecuteScan _ _ _ _ => (Ok (JObj [("id", JStr "s")]), n)
  | LoadScanInspector _ => (Ok demo_inspector, n)
  | FindPrScans _ _ _ => (Ok [], n)
  | UpdateScanPrTags _ _ _ _ _ _ => (Ok [], n)
  | CancelScan _ => (Ok true, n)
  | RequestResolverScan _ _ _ _ _ _ _ _ _ => (Ok true, n)
  | ReadTree _ => (Ok [("a.c", File)], n)
  | _ => (Ok tt, n)
  end.

Definition demo_pc : project_config := ProjectConfig (JStr "p") JNull [] JNull.

Lemma clone_and_scan_cleanup_witness :
  ∃ w mid r, run_trace (demo_orch_world None) 0
    (clone_and_scan demo_make_inspector (JStr "u") (JStr "h") (JStr "b") demo_pc []
       (MkEventContext "" [] JNull) false) =
    Obs (ClonerClone (JStr "u") (MkEventContext "" [] JNull) false) (Ok w) :: mid ++
      [Obs (WorkerExit w) r] ∧ count is_exit mid = 0.
Proof.
  destruct (clone_and_scan_cleanup demo_make_inspector (JStr "u") (JStr "h") (JStr "b")
    demo_pc [] (MkEventContext "" [] JNull) false _ _
    (exec_run (demo_orch_world None) 0
       (clone_and_scan demo_make_inspector (JStr "u") (JStr "h") (JStr "b") demo_pc []
          (MkEventContext "" [] JNull) false))) as [(x & _ & H)|(w & mid & r & Htr & Hm & _)].
  - discriminate H.
  - exists w, mid, r. split; [exact Htr|exact Hm].
Defined.

Lemma exec_clone_scan_spec_witness :
  ∃ r1 tr1, exec (clone_and_scan demo_make_inspector (JStr "u") (JStr "h") (JStr "b") demo_pc []
    (MkEventContext "" [] JNull) false) tr1 r1 ∧
  run_outcome (demo_orch_world None) 2
    (exec_clone_scan demo_make_inspector (JStr "u") (JStr "h") (JStr "b") demo_pc []
       (MkEventContext "" [] JNull)) = Ok None.
Proof.
  destruct (proj1 (exec_clone_scan_spec demo_make_inspector (JStr "u") (JStr "h") (JStr "b")
    demo_pc [] (MkEventContext "" [] JNull) _ _)
    (exec_run (demo_orch_world None) 2
       (exec_clone_scan demo_make_inspector (JStr "u") (JStr "h") (JStr "b") demo_pc []
          (MkEventContext "" [] JNull)))) as (r1 & tr1 & H & _).
  exists r1, tr1. split; [exact H|reflexivity].
Defined.

Definition demo_push (tag : option string) (refused : nat) (target : string) :=
  run (demo_orch_world tag) refused
    (orchestrate_scan demo_make_inspector demo_services (demo_orch target) [] PUSH).

(** A push to another branch is skipped. *)
Lemma orchestrate_scan_protected_witness :
  ∃ trp rp tr2, (demo_push None 0 "feature").1.1 = trp ++ tr2 ∧
    exec (o_protected (demo_orch "feature")) trp rp ∧ tr2 = [].
Proof.
  destruct (orchestrate_scan_protected demo_make_inspector demo_services (demo_orch "feature")
    [] PUSH _ _ (exec_run (demo_orch_world None) 0 _)) as (trp & rp & tr2 & Htr & Hp & Hin & _).
  exists trp, rp, tr2. split; [exact Htr|]. split; [exact Hp|].
  destruct Hin as [H|(bs & t & h & Hrp & Ht & Hin)]; [exact H|exfalso].
  injection Ht as <- <-. destruct Hp as [_ Hp]. rewrite Hp in Hrp. injection Hrp as <-.
  apply list_elem_of_singleton in Hin. discriminate Hin.
Defined.

Lemma demo_protected_only (f : orch_ev → bool) target :
  only (λ e, f e = false) (o_protected (demo_orch target)).
Proof. apply only_ret. Defined.

(** A resolver agent takes the scan of a project with a resolver tag. *)
Lemma orchestrate_scan_outcome_witness :
  count is_clone (demo_push (Some "linux") 0 "main").1.1 = 0.
Proof.
  destruct (orchestrate_scan_outcome demo_make_inspector demo_services (demo_orch "main") []
    PUSH _ None DELEGATED (demo_protected_only _ _)
    (exec_run (demo_orch_world (Some "linux")) 0 _))
    as [_ [(H & _)|[(_ & _ & H & _)|(H & _)]]]; [discriminate H|exact H|discriminate H].
Defined.

Definition demo_push_workflow : orch_prog (option inspector * ScanAction) :=
  execute_push_scan demo_make_inspector "1.0" demo_services (demo_orch "main") None.

Lemma execute_push_scan_feedback_witness :
  ∃ tr1 d, run_trace (demo_orch_world None) 1 demo_push_workflow =
    tr1 ++ [Obs (StartSarifFeedback (JStr "p") (JStr "s") d) (Ok tt)] ∧
    pd_commit_hash d = JStr "c0ffee".
Proof.
  destruct (execute_push_scan_feedback demo_make_inspector "1.0" demo_services
    (demo_orch "main") None _ (Some demo_inspector) EXECUTING (demo_protected_only _ _) (NoDup_nil_2)
    (exec_run (demo_orch_world None) 1 demo_push_workflow))
    as (b & h & tr1 & rest & sub & Hs & _ & _ & Htr & _ & d & Hd & _ & _ & Hrest).
  exists tr1, d. injection Hs as <- <-. subst rest. split; [exact Htr|exact Hd].
Defined.

Definition demo_pr_workflow : orch_prog ScanAction :=
  execute_pr_scan demo_make_inspector "1.0" demo_services (demo_orch "main") None.

Lemma execute_pr_scan_feedback_witness :
  ∃ tr1 d, run_trace (demo_orch_world (Some "linux")) 0 demo_pr_workflow =
    tr1 ++ [Obs (StartDelegatedPrScanWorkflow d) (Ok tt)] ∧ prd_pr_id d = JStr "1".
Proof.
  destruct (execute_pr_scan_feedback demo_make_inspector "1.0" demo_services
    (demo_orch "main") None _ DELEGATED (demo_protected_only _ _) (NoDup_nil_2)
    (exec_run (demo_orch_world (Some "linux")) 0 demo_pr_workflow))
    as (s & h & t & th & id & st & sta & tr1 & rest & i & sub & _ & _ & Hid & _ & _ & _ & _ &
        Htr & _ & Hrest).
  assert (Hd : ∃ d, prd_pr_id d = id ∧ rest = [Obs (StartDelegatedPrScanWorkflow d) (Ok tt)])
    by (destruct i; destruct Hrest as (d & (? & _) & ?); eauto).
  destruct Hd as (d & Hd & ->). injection Hid as <-. exists tr1, d. split; [exact Htr|exact Hd].
Defined.
