(* ===== verification/ScanAgent.v ===== *)
(** * The scan agent: [src/agent/resolver/runner_agent.py] and
    [src/config/resolver/__init__.py]

    [ResolverRunnerAgent] takes a delegated scan from the queue of its tag,
    checks its signature, clones and runs the resolver, submits the scan and
    publishes the result. *)
From S2P Require Import Prelude PyStr PyJson Url Auth Grouping Messaging Broker CxOne Cloner Config Workflows Polling Resolver Orchestration Runner.
Open Scope string_scope.
Open Scope nat_scope.
Open Scope list_scope.

(** ** Calls: those of the broker, of a local scan, of the operating system and
    of the agent itself. *)
Inductive sa_own : Type :=
| SaAck
| SaNack (requeue : bool)
| Unpickle (data : string)
| LoadProjectConfigById (project_id : json)
| SaClone (clone_url : json) (ctx : EventContext) (dest : string)
| SaWorkerLoc (worker : nat)
| SaWorkerExit (worker : nat)
| SaResetHead (code_path : string) (hash : json).

(** What [pickle.loads] returns, by its class. *)
Inductive unpickled : Type := AnSCMService | ACxOneService | AnotherObject.

Definition sa_own_resp (e : sa_own) : Type :=
  match e with
  | Unpickle _ => unpickled
  | LoadProjectConfigById _ => project_config
  | SaClone _ _ _ => nat
  | SaWorkerLoc _ => string
  | _ => unit
  end.
#[global] Arguments sa_own_resp : simpl never.

Abbreviation sa_ev := (mq_ev + (orch_ev + (os_ev + sa_own)))%type.
Abbreviation sa_resp := (sum_resp mq_resp (sum_resp orch_resp (sum_resp os_resp sa_own_resp))).
Abbreviation sa_prog := (prog sa_ev sa_resp).
Definition sa (e : sa_own) : sa_prog (sa_own_resp e) :=
  call (inr (inr (inr e)) : sa_ev).
Definition sa_mq {A} (p : mq_prog A) : sa_prog A := embed p.
Definition sa_orch {A} (p : orch_prog A) : sa_prog A := embed_r (embed p).
Definition sa_os {A} (p : os_prog A) : sa_prog A := embed_r (embed_r (embed p)).
Definition sa_nack : sa_prog unit := sa (SaNack false).

Section agent.
Context (verify_private verify_public : string → string → string → outcome unit).
Context (details_binary : DelegatedScanDetails → string).
Context (delegated_from_binary : string → outcome DelegatedScanMessage).
(** [load_pem_public_key]: whether the key of the agent can be loaded. *)
Context (load_public_key : string → outcome unit).
Context (scan_inspector : json → outcome inspector).
Context (str_json : json → string).

(** The agent of a tag. *)
Context (tag public_key : string) (r : runner).

Definition route_key : string := ROUTEKEY_RESOLVER_RESULT_STUB +:+ "." +:+ tag.

Definition agent_result (m : DelegatedScanMessage) (state : ScanStates) (code : option Z)
    (scan_id : option json) (logs : option string) : DelegatedScanResultMessage :=
  MkDelegatedScanResultMessage (ds_moniker m) state (ds_workflow m) (ds_details m)
    (ds_signature m) code scan_id logs.

(** [deliver_delegated_scan_outcome] with a fresh connection *)
Definition send_result (w : resolver_workflow) (result : DelegatedScanResultMessage) :
    sa_prog unit :=
  do! sa_mq (do! call (MqClient : mq_ev) in
             deliver_delegated_scan_outcome w route_key result EXCHANGE_RESOLVER_SCAN) in
  Ret tt.

(** [__send_failure_response] *)
Definition send_failure_response (w : resolver_workflow) (m : DelegatedScanMessage)
    (code : option Z) (logs : option string) : sa_prog unit :=
  send_result w (agent_result m FAILURE code None logs).

(** An object of the message must be of its class. *)
Definition unpickle_as (c : unpickled) (data : string) : sa_prog unit :=
  let! o := sa (Unpickle data) in
  match c, o with
  | AnSCMService, AnSCMService | ACxOneService, ACxOneService => Ret tt
  | _, _ => Raise ResolverAgentException
  end.

(** Copy a result of the resolver into the clone, when there is one. *)
Definition copy_result (src dst : string) : sa_prog unit :=
  sa_os (let! exists_ := os (OsExists src) in
         let! is_file := (if exists_ : bool then os (OsIsFile src) else Ret false) in
         if is_file : bool then os (OsCopyFile src dst) else Ret tt).

(** The body of the block that has a clone. *)
Definition scan_clone (w : resolver_workflow) (m : DelegatedScanMessage) (pc : project_config)
    (root : string) (worker : nat) : sa_prog unit :=
  let d := ds_details m in
  let! loc := sa (SaWorkerLoc worker) in
  do! sa (SaResetHead loc (df_commit_hash d)) in
  let! result := sa_os (execute_resolver str_json root r (pc_name pc) (df_file_filters d)) in
  do! copy_result (result_resolver_out_file_path root) (loc +:+ "/.cxsca-results.json") in
  do! copy_result (result_container_out_file_path root)
        (loc +:+ "/.cxsca-container-results.json") in
  let ok := (returncode result =? 0)%Z in
  let! ' (i, _) := sa_orch (exec_local_scan scan_inspector loc (df_scan_branch d) pc
                     (dunion (df_scan_tags d)
                        [("resolver", JStr (if ok then "success" else "failure"))])) in
  send_result w (agent_result m (if ok then DONE else FAILURE) (Some (returncode result))
                   (Some (i_scan_id i)) (stdout result)).

(** What is done under a valid signature. *)
Definition process_scan (w : resolver_workflow) (m : DelegatedScanMessage) (root : string) :
    sa_prog unit :=
  let d := ds_details m in
  let! can := sa_os (can_execute root r) in
  if negb can then send_failure_response w m None None
  else
    do! unpickle_as AnSCMService (df_pickled_scm_service d) in
    do! unpickle_as ACxOneService (df_pickled_cxone_service d) in
    let! pc := sa (LoadProjectConfigById (df_project_id d)) in
    let! worker := sa (SaClone (df_clone_url d) (df_event_context d)
                         (rstrip "/" (clone_path root) +:+ "/")) in
    finally (scan_clone w m pc root worker) (sa (SaWorkerExit worker)).

(** The body of the outer block, and its local variable [workflow]. *)
Definition agent_workflow (m : DelegatedScanMessage) : outcome resolver_workflow :=
  let? _ := load_public_key public_key in Ok (from_public_key (ds_capture_logs m) public_key).

Definition agent_block (m : DelegatedScanMessage) (root : string) : sa_prog unit :=
  let! w := lift (agent_workflow m) in
  let! valid := lift (validate_signature verify_private verify_public w (ds_signature m)
                        (details_binary (ds_details m))) in
  if valid : bool then process_scan w m root else Ret tt.

(** The block of [async with], in the context that was entered: its exception
    goes on unless the exit of the context suppresses it. *)
Definition in_context (root : string) (body : sa_prog unit) : sa_prog unit :=
  on_outcome (λ o, let! suppress := sa_os (exit_context r root) in
                   match o with
                   | Ok a => Ret a
                   | Err e => if suppress : bool then Ret tt else Raise e
                   end) body.

(** The failure response of the exception handlers: [workflow] is unbound when
    the exception came before its assignment. *)
Definition failure_handler (assigned : bool) (m : DelegatedScanMessage) (e : exn) : sa_prog unit :=
  if is_BaseException e then
    do! (if assigned then
           let! w := lift (agent_workflow m) in
           match e with
           | CalledProcessError code out _ => send_failure_response w m (Some code) (Some out)
           | _ => send_failure_response w m None None
           end
         else Raise unbound_local) in
    sa_nack
  else Raise e.

(** [__call__]; [workflow] is assigned once the context is entered and the key
    is loaded. *)
Definition scan_agent_call (msg : incoming) : sa_prog unit :=
  match delegated_from_binary (in_body msg) with
  | Err e => do! sa_nack in Raise e
  | Ok m =>
      on_outcome (λ entered, match entered with
        | Err e => failure_handler false m e
        | Ok root =>
            on_outcome (λ o, match o with
              | Ok _ => sa SaAck
              | Err e => failure_handler (is_ok (agent_workflow m)) m e
              end) (in_context root (agent_block m root))
        end) (sa_os (enter_context r))
  end.
End agent.

(** ** Theorems *)
Definition sa_ok (e : sa_ev) (a : sa_resp e) : obs sa_ev sa_resp := Obs e (Ok a).
Definition sa_own_ok (e : sa_own) (a : sa_own_resp e) : obs sa_ev sa_resp :=
  sa_ok (inr (inr (inr e))) a.
Definition sa_obs_mq : obs mq_ev mq_resp → obs sa_ev sa_resp := obs_inl.

(** The calls that a message without a valid signature can lead to: its own
    directories, the failure response, and its settlement. *)
Definition harmless (e : sa_ev) : Prop :=
  match e with
  | inl _ => True
  | inr (inl _) => False
  | inr (inr (inl e)) =>
      match e with
      | OsMakeTempDir _ | OsCleanup _ | OsChmod _ _ | OsMkdir _ => True
      | _ => False
      end
  | inr (inr (inr e)) => match e with SaAck | SaNack _ => True | _ => False end
  end.

Section agent_theorems.
Context (verify_private verify_public : string → string → string → outcome unit).
Context (details_binary : DelegatedScanDetails → string).
Context (delegated_from_binary : string → outcome DelegatedScanMessage).
Context (load_public_key : string → outcome unit).
Context (scan_inspector : json → outcome inspector).
Context (str_json : json → string).
Context (tag public_key : string) (r : runner).

Abbreviation the_call := (scan_agent_call verify_private verify_public details_binary
  delegated_from_binary load_public_key scan_inspector str_json tag public_key r).
Abbreviation the_block := (agent_block verify_private verify_public details_binary load_public_key
  scan_inspector str_json tag public_key r).

(** The signature of a message, checked with the key of the agent. *)
Definition authentic (m : DelegatedScanMessage) : Prop :=
  validate_signature verify_private verify_public (from_public_key (ds_capture_logs m) public_key)
    (ds_signature m) (details_binary (ds_details m)) = Ok true.

Lemma only_sa_own (e : sa_own) : harmless (inr (inr (inr e))) → only harmless (sa e).
Proof. exact (only_call (Ev:=sa_ev) (Resp:=sa_resp) harmless (inr (inr (inr e)))). Qed.

Lemma only_sa_os {A} (p : os_prog A) :
  only (λ e, harmless (inr (inr (inl e)))) p → only harmless (sa_os p).
Proof. intros H. unfold sa_os. by repeat (apply only_embed_r || apply only_embed). Qed.

Lemma only_sa_mq {A} (p : mq_prog A) : only harmless (sa_mq p).
Proof. unfold sa_mq. apply only_embed, only_trivial. done. Qed.

Ltac os_only :=
  repeat first [progress intros | apply only_ret | apply only_bind |
    lazymatch goal with |- only ?Q (os ?e) =>
      refine (only_call (Ev:=os_ev) (Resp:=os_resp) Q e _); exact I end].

Lemma send_failure_harmless w m code logs :
  only harmless (send_failure_response tag w m code logs).
Proof.
  unfold send_failure_response, send_result. apply only_bind; [apply only_sa_mq|].
  intros; apply only_ret.
Qed.

Lemma failure_handler_harmless assigned m e :
  only harmless (failure_handler load_public_key tag public_key assigned m e).
Proof.
  unfold failure_handler. destruct (is_BaseException e); [|apply only_raise].
  apply only_bind; [|intros; exact (only_sa_own (SaNack false) I)].
  destruct assigned; [|apply only_raise]. apply only_bind; [apply only_lift|].
  intros w. destruct e; apply send_failure_harmless.
Qed.

(** C9: an agent does nothing for a message whose details are not signed with the
    key of the server: it unpickles no object, clones no repository, runs no
    command and submits no scan, whatever fails on the way. *)
Theorem agent_signature_first msg tr o :
  (∀ m, delegated_from_binary (in_body msg) = Ok m → ¬ authentic m) →
  exec (the_call msg) tr o → Forall harmless (events tr).
Proof.
  intros Hsig. revert tr o. change (only harmless (the_call msg)). unfold scan_agent_call.
  destruct (delegated_from_binary (in_body msg)) as [m|e] eqn:Hm.
  2: { apply only_bind; [exact (only_sa_own (SaNack false) I)|intros; apply only_raise]. }
  apply only_on_outcome.
  { apply only_sa_os. unfold enter_context, enter_work_root, make_dir. os_only. }
  intros [root|e]; [|apply failure_handler_harmless].
  apply only_on_outcome; [|intros [[]|e]; [exact (only_sa_own SaAck I)|apply failure_handler_harmless]].
  unfold in_context. apply only_on_outcome.
  - unfold agent_block, agent_workflow.
    destruct (load_public_key public_key); simpl; [|apply only_raise].
    change (only harmless (let! valid := lift (validate_signature verify_private verify_public
      (from_public_key (ds_capture_logs m) public_key) (ds_signature m)
      (details_binary (ds_details m))) in
      if valid : bool then process_scan scan_inspector str_json tag r
        (from_public_key (ds_capture_logs m) public_key) m root else Ret tt)).
    intros tr o H. apply exec_lift_bind in H as [(valid & Hv & H)|(e & _ & -> & _)]; [|constructor].
    destruct valid; [by destruct (Hsig m eq_refl)|]. destruct H as [-> _]. constructor.
  - intros x. apply only_bind; [|intros; case_match; [apply only_ret|case_match;
      [apply only_ret|apply only_raise]]].
    apply only_sa_os. unfold exit_context, leave_work_root. os_only.
Qed.

(** *** Answers *)
Definition answer (m : DelegatedScanMessage) (result : DelegatedScanResultMessage) : Prop :=
  dr_moniker result = ds_moniker m ∧ dr_workflow result = ds_workflow m ∧
  dr_details result = ds_details m ∧ dr_signature result = ds_signature m ∧
  (dr_scan_id result = None → dr_state result = FAILURE) ∧
  (is_Some (dr_scan_id result) → (dr_state result = DONE ↔ dr_exit_code result = Some 0%Z)).

(** The result was handed to the broker, if the exchange was there. *)
Definition delivered_result (result : DelegatedScanResultMessage)
    (tr : list (obs sa_ev sa_resp)) : Prop :=
  ∃ pre found post, tr = pre ++ (sa_obs_mq <$> Obs MqClient (Ok tt) ::
    publish_trace EXCHANGE_RESOLVER_SCAN (route_key tag) (Outgoing (result_body result) None None)
      found) ++ post.

Lemma delivered_app result tr1 tr2 :
  delivered_result result tr1 ∨ delivered_result result tr2 → delivered_result result (tr1 ++ tr2).
Proof.
  intros [(pre & found & post & ->)|(pre & found & post & ->)].
  - exists pre, found, (post ++ tr2). by rewrite <- !(assoc_L (++)).
  - exists (tr1 ++ pre), found, post. by rewrite <- !(assoc_L (++)).
Qed.

Lemma send_result_ok c key result tr :
  exec (send_result tag (from_public_key c key) result) tr (Ok tt) → delivered_result result tr.
Proof.
  unfold send_result, sa_mq. intros H.
  apply exec_bind_ok in H as (b & tr1 & tr2 & -> & H & [-> _]). rewrite app_nil_r.
  apply exec_embed in H as (tr' & H & ->).
  call_step H as [([] & tr1 & -> & H)|(x & -> & ?)]; [|done].
  apply publish_ok in H as (found & -> & _). exists [], found, []. by rewrite app_nil_r.
Qed.

Lemma scan_clone_ok c key m pc root worker tr :
  exec (scan_clone scan_inspector str_json tag r (from_public_key c key) m pc root worker) tr (Ok tt) →
  ∃ result, answer m result ∧ is_Some (dr_scan_id result) ∧ delivered_result result tr.
Proof.
  unfold scan_clone. intros H.
  apply exec_bind_ok in H as (loc & tr1 & tr2 & -> & _ & H).
  apply exec_bind_ok in H as ([] & tr3 & tr4 & -> & _ & H).
  apply exec_bind_ok in H as (result & tr5 & tr6 & -> & _ & H).
  apply exec_bind_ok in H as ([] & tr7 & tr8 & -> & _ & H).
  apply exec_bind_ok in H as ([] & tr9 & tr10 & -> & _ & H).
  apply exec_bind_ok in H as ([i act] & tr11 & tr12 & -> & _ & H).
  apply send_result_ok in H. set (res := agent_result _ _ _ _ _) in H. exists res.
  split_and!; [|by eexists|do 6 (apply delivered_app; right); exact H].
  unfold answer; simpl. split_and!; try done. intros _.
  destruct (returncode result =? 0)%Z eqn:E; [apply Z.eqb_eq in E|apply Z.eqb_neq in E];
    split; try done; intros; congruence.
Qed.

Lemma process_scan_ok c key m root tr :
  exec (process_scan scan_inspector str_json tag r (from_public_key c key) m root) tr (Ok tt) →
  ∃ result, answer m result ∧ delivered_result result tr.
Proof.
  unfold process_scan. intros H.
  apply exec_bind_ok in H as (can & tr1 & tr2 & -> & _ & H). destruct can; simpl in H.
  - apply exec_bind_ok in H as ([] & tr3 & tr4 & -> & _ & H).
    apply exec_bind_ok in H as ([] & tr5 & tr6 & -> & _ & H).
    apply exec_bind_ok in H as (pc & tr7 & tr8 & -> & _ & H).
    apply exec_bind_ok in H as (worker & tr9 & tr10 & -> & _ & H).
    apply exec_on_outcome in H as (o1 & tr11 & tr12 & -> & H1 & H).
    apply exec_bind_ok in H as ([] & tr13 & tr14 & -> & _ & H).
    apply exec_lift in H as [-> <-].
    apply scan_clone_ok in H1 as (result & Ha & _ & Hd). exists result. split; [done|].
    do 5 (apply delivered_app; right). apply delivered_app; by left.
  - apply send_result_ok in H. set (res := agent_result _ _ _ _ _) in H. exists res.
    split; [|by apply delivered_app; right].
    unfold answer; simpl. by split_and!.
Qed.

Lemma failure_handler_ok assigned m e tr :
  exec (failure_handler load_public_key tag public_key assigned m e) tr (Ok tt) →
  ∃ pre result, tr = pre ++ [sa_own_ok (SaNack false) tt] ∧ answer m result ∧
    dr_state result = FAILURE ∧ dr_scan_id result = None ∧ delivered_result result pre.
Proof.
  unfold failure_handler. intros H. destruct (is_BaseException e); [|by destruct H].
  apply exec_bind_ok in H as ([] & tr1 & tr2 & -> & H1 & H).
  unfold sa_nack, sa in H. last_call H. subst. destruct assigned; [|by destruct H1].
  apply exec_lift_bind_ok in H1 as (w & Hw & H1). unfold agent_workflow in Hw.
  destruct (load_public_key public_key); [|done]. injection Hw as <-.
  assert (∃ code logs, delivered_result (agent_result m FAILURE code None logs) tr1)
    as (code & logs & Hd).
  { destruct e; apply send_result_ok in H1; eauto. }
  exists tr1, (agent_result m FAILURE code None logs). split_and!; try done.
  unfold answer; simpl. by split_and!.
Qed.

(** C27: a delegated scan that an agent without a second stage settles is answered:
    acknowledged after its result - the scan that was submitted, or a failure -
    was handed to the broker with the details and the signature of the request,
    or refused after a failure was; only a message with an invalid signature is
    settled without an answer.  (An agent with a second stage acknowledges without an
    answer when the scan fails, see [two_stage_suppresses_failures].) *)
Theorem agent_answers msg m tr :
  delegated_from_binary (in_body msg) = Ok m → is_two_stage r = false →
  exec (the_call msg) tr (Ok tt) →
  (∃ pre, tr = pre ++ [sa_own_ok SaAck tt] ∧
     (¬ authentic m ∨ ∃ result, answer m result ∧ delivered_result result pre)) ∨
  (∃ pre result, tr = pre ++ [sa_own_ok (SaNack false) tt] ∧ answer m result ∧
     dr_state result = FAILURE ∧ dr_scan_id result = None ∧ delivered_result result pre).
Proof.
  intros Hm Hr H. unfold scan_agent_call in H. rewrite Hm in H.
  assert (Hfail : ∀ pre assigned e tr, exec (failure_handler load_public_key tag public_key
      assigned m e) tr (Ok tt) → ∃ pre' result, pre ++ tr = pre' ++ [sa_own_ok (SaNack false) tt] ∧
      answer m result ∧ dr_state result = FAILURE ∧ dr_scan_id result = None ∧
      delivered_result result pre').
  { intros pre assigned e tr' Hf. apply failure_handler_ok in Hf as (p & res & -> & Ha & Hs & Hi & Hd).
    exists (pre ++ p), res. split_and!; [by rewrite (assoc_L (++))|done..|].
    apply delivered_app. by right. }
  apply exec_on_outcome in H as (o1 & tr1 & tr2 & -> & _ & H).
  destruct o1 as [root|e]; [|right; by eapply Hfail].
  apply exec_on_outcome in H as (o2 & tr3 & tr4 & -> & H1 & H).
  destruct o2 as [[]|e]; [|right; rewrite (assoc_L (++)); by eapply Hfail].
  left. unfold sa in H. last_call H. subst. exists (tr1 ++ tr3).
  split; [by rewrite (assoc_L (++))|]. unfold in_context in H1.
  apply exec_on_outcome in H1 as (o3 & tr5 & tr6 & -> & H1 & H2).
  apply exec_bind_ok in H2 as (suppress & tr7 & tr8 & -> & Hx & H2).
  unfold sa_os in Hx. apply exec_embed_r in Hx as (tx & Hx & ->).
  apply exec_embed_r in Hx as (tx2 & Hx & ->). apply exec_embed in Hx as (tx3 & Hx & ->).
  unfold exit_context in Hx. apply exec_bind_ok in Hx as ([] & tx4 & tx5 & -> & _ & [_ Hx]).
  injection Hx as ->. destruct o3 as [[]|e].
  2: { unfold is_two_stage in Hr. destruct r; try discriminate Hr; by destruct H2. }
  unfold agent_block, agent_workflow in H1.
  apply exec_lift_bind_ok in H1 as (w & Hw & H1).
  destruct (load_public_key public_key); [|done]. injection Hw as <-.
  apply exec_lift_bind_ok in H1 as (valid & Hv & H1). destruct valid.
  - right. apply process_scan_ok in H1 as (result & Ha & Hd). exists result. split; [done|].
    apply delivered_app; right. apply delivered_app; by left.
  - left. unfold authentic. rewrite Hv. done.
Qed.

(** With a second stage, the exit of the execution context suppresses every
    exception: a delegated scan whose clone, resolver or submission failed is
    acknowledged like a finished one, without the failure response that the
    server waits for. *)
Theorem two_stage_suppresses_failures msg m root entered work e :
  is_two_stage r = true → delegated_from_binary (in_body msg) = Ok m →
  exec (sa_os (enter_context r) : sa_prog string) entered (Ok root) →
  exec (the_block m root) work (Err e) →
  exec (the_call msg)
    (entered ++ work ++ [sa_ok (inr (inr (inl (OsCleanup root)))) tt; sa_own_ok SaAck tt]) (Ok tt).
Proof.
  intros Hr Hm He Hw. unfold scan_agent_call. rewrite Hm. apply exec_on_outcome.
  exists (Ok root), entered, (work ++ [sa_ok (inr (inr (inl (OsCleanup root)))) tt; sa_own_ok SaAck tt]).
  split_and!; [done..|]. apply exec_on_outcome.
  exists (Ok tt), (work ++ [sa_ok (inr (inr (inl (OsCleanup root)))) tt]), [sa_own_ok SaAck tt].
  split_and!; [by rewrite <- (assoc_L (++))| |by apply (exec_call (Ev:=sa_ev) (Resp:=sa_resp))].
  apply exec_on_outcome. exists (Err e), work, [sa_ok (inr (inr (inl (OsCleanup root)))) tt].
  split_and!; [done..|]. apply exec_bind_ok.
  exists true, [sa_ok (inr (inr (inl (OsCleanup root)))) tt], []. split_and!; [done| |done].
  apply exec_embed_r. exists [existT (inr (inl (OsCleanup root))) (Ok tt)]. split; [|done].
  apply exec_embed_r. exists [existT (inl (OsCleanup root)) (Ok tt)]. split; [|done].
  apply exec_embed. exists [Obs (OsCleanup root) (Ok tt)]. split; [|done].
  apply exec_bind_ok. exists tt, [Obs (OsCleanup root) (Ok tt)], []. split_and!; [done| |].
  - by apply (exec_call (Ev:=os_ev) (Resp:=os_resp)).
  - by destruct r.
Qed.
End agent_theorems.

(** ** Witnesses *)
Definition demo_body : incoming := Incoming "scan" [] "topic".
Definition demo_inspector (scan : json) : outcome inspector :=
  Ok (Inspector (JStr "P") (JStr "S") true false false "").

(** The clone fails when [clone_ok] is false. *)
Definition demo_sa_world (clone_ok : bool) (n : nat) (e : sa_ev) : outcome (sa_resp e) * nat :=
  match e return outcome (sa_resp e) * nat with
  | inl e => match e return outcome (mq_resp e) * nat with
             | GetExchange _ | Publish _ _ _ => (Ok true, n)
             | Now => (Ok 0%Z, n)
             | MqClient | OpenChannel | CloseChannel => (Ok tt, n)
             end
  | inr (inl e) => match e return outcome (orch_resp e) * nat with
             | ReadTree _ => (Ok [], n)
             | ExecuteScan _ _ _ _ => (Ok (JObj [("id", JStr "S")]), n)
             | _ => (Err NotImplementedError, n)
             end
  | inr (inr (inl e)) => demo_os_world n e
  | inr (inr (inr e)) => match e return outcome (sa_own_resp e) * nat with
             | Unpickle d => (Ok (if String.eqb d "scm" then AnSCMService else ACxOneService), n)
             | LoadProjectConfigById _ => (Ok (ProjectConfig (JStr "P") (JStr "p") [] JNull), n)
             | SaClone _ _ _ => (if clone_ok then Ok 0 else Err (CalledProcessError 1 "" "fatal"), n)
             | SaWorkerLoc _ => (Ok "/tmp/x/clone", n)
             | SaAck | SaNack _ | SaWorkerExit _ | SaResetHead _ _ => (Ok tt, n)
             end
  end.

Definition demo_agent (verify : string → string → string → outcome unit) (r : runner) : sa_prog unit :=
  scan_agent_call verify verify demo_details_binary (λ _, Ok demo_delegated) (λ _, Ok tt)
    demo_inspector (λ _, "") "linux" "public" r demo_body.
Definition demo_reject (key signature payload : string) : outcome unit :=
  Err (OtherException "InvalidSignature").

Lemma agent_signature_first_witness :
  length (events (run_trace (demo_sa_world true) 0 (demo_agent demo_reject NoResolverRunner))) = 10 ∧
  Forall harmless (events (run_trace (demo_sa_world true) 0 (demo_agent demo_reject NoResolverRunner))).
Proof.
  split; [reflexivity|].
  apply (agent_signature_first demo_reject demo_reject demo_details_binary (λ _, Ok demo_delegated)
           (λ _, Ok tt) demo_inspector (λ _, "") "linux" "public" NoResolverRunner demo_body _
           (run_outcome (demo_sa_world true) 0 (demo_agent demo_reject NoResolverRunner))).
  - intros m H Ha. injection H as <-. discriminate Ha.
  - exact (exec_run (demo_sa_world true) 0 (demo_agent demo_reject NoResolverRunner)).
Defined.

(** A clone that fails is answered by a failure. *)
Lemma agent_answers_witness :
  ∃ pre result, run_trace (demo_sa_world false) 0 (demo_agent demo_verify NoResolverRunner) =
      pre ++ [sa_own_ok (SaNack false) tt] ∧ dr_state result = FAILURE ∧
    delivered_result "linux" result pre.
Proof.
  destruct (agent_answers demo_verify demo_verify demo_details_binary (λ _, Ok demo_delegated)
    (λ _, Ok tt) demo_inspector (λ _, "") "linux" "public" NoResolverRunner demo_body demo_delegated
    _ eq_refl eq_refl (exec_run (demo_sa_world false) 0 (demo_agent demo_verify NoResolverRunner)))
    as [(pre & H & _)|(pre & result & H & _ & Hs & _ & Hd)].
  - exfalso. apply (f_equal events) in H. rewrite events_app in H.
    apply (f_equal last) in H. rewrite last_app in H. vm_compute in H. discriminate H.
  - exists pre, result. split; [exact H|]. split; [exact Hs|exact Hd].
Defined.

Definition demo_two_stage_block : sa_prog unit :=
  agent_block demo_verify demo_verify demo_details_binary (λ _, Ok tt) demo_inspector (λ _, "")
    "linux" "public" demo_two_stage demo_delegated "/tmp/x".

Lemma two_stage_suppresses_failures_witness :
  exec (demo_agent demo_verify demo_two_stage)
    (run_trace (demo_sa_world false) 0 (sa_os (enter_context demo_two_stage) : sa_prog string)
     ++ run_trace (demo_sa_world false) 0 demo_two_stage_block
     ++ [sa_ok (inr (inr (inl (OsCleanup "/tmp/x")))) tt; sa_own_ok SaAck tt]) (Ok tt) ∧
  count (λ e, match e with inl (Publish _ _ _) => true | _ => false end)
    (run_trace (demo_sa_world false) 0 demo_two_stage_block) = 0.
Proof.
  split; [|reflexivity].
  apply (two_stage_suppresses_failures demo_verify demo_verify demo_details_binary
    (λ _, Ok demo_delegated) (λ _, Ok tt) demo_inspector (λ _, "") "linux" "public" demo_two_stage
    demo_body demo_delegated "/tmp/x" _ _ (CalledProcessError 1 "" "fatal") eq_refl eq_refl).
  - exact (exec_run (demo_sa_world false) 0 (sa_os (enter_context demo_two_stage) : sa_prog string)).
  - exact (exec_run (demo_sa_world false) 0 demo_two_stage_block).
Defined.
