(* ===== verification/Dispatch.v ===== *)
(** * Dispatch of events: [src/orchestration/__init__.py]

    [OrchestrationDispatch] finds the services of an event by its route, checks
    the signature of the payload, and only then runs the workflow of the event.
    [webhook] is what it uses of an orchestrator. *)
From S2P Require Import Prelude PyStr PyJson Url Auth ApiSession Messaging Grouping CxOne Cloner Config ScmConfig Bootstrap Orchestration.
Open Scope string_scope.
Open Scope nat_scope.
Open Scope list_scope.

(** What a workflow returns. *)
Inductive wf_result : Type :=
| NoResult
| StatusCode (n : Z)
| PushResult (i : option inspector) (a : ScanAction)
| PrResult (a : ScanAction)
| TagResult (updated : list json).

(** What the dispatch calls on an orchestrator that was built for an event. *)
Record webhook : Type := Webhook {
  is_diagnostic : bool;
  config_key : scm_key;
  route_urls : outcome (list json);
  is_signature_valid : string → outcome bool;
  w_execute : services → orch_prog wf_result;
  w_handle_delegated_scan : services → json → orch_prog wf_result;
  w_handle_delegated_pr_scan_hard_fail : services → string → orch_prog unit }.

Definition is_RouteNotFound (e : exn) : bool :=
  match e with RouteNotFoundException => true | _ => false end.

Section dispatch.
(** The configured routes, and how a route matches a URL. *)
Context (r : routes).
Context (re_match : string → string → bool).
Context (repr : json → string).

(** What an orchestrator reads of the services of a route. *)
Definition orch_services (s : flow_services) : services :=
  {| cxone_moniker := py_str repr (cs_moniker (fs_cxone s));
     resolver_project_tag_key := rs_project_tag_key (fs_resolver s);
     resolver_default_tag := match rs_default_tag (fs_resolver s) with
                             | JNull => None
                             | v => Some (py_str repr v)
                             end;
     scm_shared_secret := scm_secret (fs_scm s);
     select_protocol := select_protocol_from_supported (scm_cloner (fs_scm s)) |}.

Definition lookup_services (w : webhook) : outcome (option services) :=
  let? urls := route_urls w in
  let? found := retrieve_services_by_route re_match r urls (config_key w) in
  Ok (orch_services <$> found).

(** The attributes of [None], which a lookup returns for an SCM that is not
    configured. *)
Definition some_services (s : option services) : outcome services :=
  of_option AttributeError s.

(** [OrchestrationDispatch.execute] *)
Definition dispatch_execute (w : webhook) : orch_prog wf_result :=
  if is_diagnostic w then Ret (StatusCode 204)
  else
    catch (λ e, is_RouteNotFound e || is_CxOneException e)
      (let! found := lift (lookup_services w) in
       match found with
       | None => Ret NoResult
       | Some svc =>
           let! valid := lift (is_signature_valid w (scm_shared_secret svc)) in
           if (valid : bool) then w_execute w svc else Ret NoResult
       end)
      (λ _, Ret NoResult).

(** [dispatch_delegated_scan_workflow] *)
Definition dispatch_delegated_scan (w : webhook) (scan_id : json) : orch_prog wf_result :=
  catch is_RouteNotFound
    (let! found := lift (lookup_services w) in
     let! svc := lift (some_services found) in
     w_handle_delegated_scan w svc scan_id)
    (λ _, Ret NoResult).

(** [dispatch_delegated_pr_scan_hard_failure_workflow] *)
Definition dispatch_hard_failure (w : webhook) : orch_prog unit :=
  catch is_RouteNotFound
    (let! found := lift (lookup_services w) in
     let! svc := lift (some_services found) in
     w_handle_delegated_pr_scan_hard_fail w svc
       "The prescan operation failed to execute properly.")
    (λ _, Ret tt).

(** ** Theorems *)

(** C1: an event does something only after the route of its repository named a
    configured service and the signature of its payload was valid for the
    secret of that service; an event of no route, an invalid signature or a
    Checkmarx One error gives no result, and a diagnostic event only a status. *)
Theorem dispatch_execute_authorized w tr o :
  exec (dispatch_execute w) tr o →
  (is_diagnostic w = true ∧ tr = [] ∧ o = Ok (StatusCode 204)) ∨
  (∃ urls s x, is_diagnostic w = false ∧ route_urls w = Ok urls ∧
     retrieve_services_by_route re_match r urls (config_key w) = Ok (Some s) ∧
     is_signature_valid w (scm_secret (fs_scm s)) = Ok true ∧
     exec (w_execute w (orch_services s)) tr x ∧
     o = match x with
         | Err e => if is_RouteNotFound e || is_CxOneException e then Ok NoResult else x
         | _ => x
         end) ∨
  (is_diagnostic w = false ∧ tr = [] ∧
     (o = Ok NoResult ∨ ∃ e, o = Err e ∧ is_RouteNotFound e = false ∧
                             is_CxOneException e = false)).
Proof.
  unfold dispatch_execute. destruct (is_diagnostic w); intros H.
  { destruct H as [-> ->]. by left. }
  right. apply exec_on_outcome in H as (x & tr1 & tr2 & -> & H1 & H2).
  assert (Hr : tr2 = [] ∧ o = match x with
         | Err e => if is_RouteNotFound e || is_CxOneException e then Ok NoResult else x
         | _ => x
         end).
  { destruct x as [v|e]; [by destruct H2|]. by destruct (_ || _); destruct H2. }
  destruct Hr as [-> Ho]. clear H2. rewrite app_nil_r.
  assert (Hquiet : ∀ e, x = Err e → o = Ok NoResult ∨
     ∃ e, o = Err e ∧ is_RouteNotFound e = false ∧ is_CxOneException e = false).
  { intros e ->. destruct (_ || _) eqn:He in Ho; [by left|]. right.
    apply orb_false_iff in He. subst o. eauto. }
  apply exec_lift_bind in H1 as [(found & Hf & H)|(e & _ & -> & ->)].
  2:{ right. split_and!; [done..|]. by eapply Hquiet. }
  destruct found as [svc|].
  2:{ right. destruct H as [-> ->]. subst o. split_and!; [done..|by left]. }
  apply exec_lift_bind in H as [(b & Hb & H)|(e & _ & -> & ->)].
  2:{ right. split_and!; [done..|]. by eapply Hquiet. }
  destruct b.
  - left. unfold lookup_services in Hf.
    destruct (route_urls w) as [urls|]; [|done]. simpl in Hf.
    destruct (retrieve_services_by_route re_match r urls (config_key w)) as [[s|]|] eqn:Hs;
      [|done..]. simpl in Hf. injection Hf as <-. exists urls, s, x. done.
  - right. destruct H as [-> ->]. subst o. split_and!; [done..|by left].
Qed.

(** Nothing happens for an event whose signature is not valid for the service of
    its route. *)
Lemma dispatch_execute_quiet w tr o :
  (∀ urls s, route_urls w = Ok urls →
     retrieve_services_by_route re_match r urls (config_key w) = Ok (Some s) →
     is_signature_valid w (scm_secret (fs_scm s)) ≠ Ok true) →
  exec (dispatch_execute w) tr o → tr = [].
Proof.
  intros Hsig H. unfold dispatch_execute in H.
  destruct (is_diagnostic w); [by destruct H|].
  apply exec_on_outcome in H as (x & tr1 & tr2 & -> & H1 & H2).
  assert (tr2 = []) as -> by (destruct x as [v|e]; [|destruct (_ || _)]; by destruct H2).
  rewrite app_nil_r.
  apply exec_lift_bind in H1 as [(found & Hf & H)|(e & _ & -> & _)]; [|done].
  destruct found as [svc|]; [|by destruct H].
  apply exec_lift_bind in H as [(b & Hb & H)|(e & _ & -> & _)]; [|done].
  destruct b; [exfalso|by destruct H]. unfold lookup_services in Hf.
  destruct (route_urls w) as [urls|]; [|done]. simpl in Hf.
  destruct (retrieve_services_by_route re_match r urls (config_key w)) as [[s|]|] eqn:Hs;
    [|done..]. simpl in Hf. injection Hf as <-. by apply (Hsig urls s).
Qed.
End dispatch.

(** ** Witness *)
Definition demo_webhook (valid : bool) : webhook :=
  {| is_diagnostic := false; config_key := GL;
     route_urls := Ok [JStr "https://gitlab/a/b.git"];
     is_signature_valid := λ _, Ok valid;
     w_execute := λ svc, let! ' (i, a) := execute_push_scan demo_make_inspector "1.0" svc
                                            (demo_orch "main") None in Ret (PushResult i a);
     w_handle_delegated_scan := λ _ _, Ret NoResult;
     w_handle_delegated_pr_scan_hard_fail := λ _ _, Ret tt |}.

Definition demo_routes : routes :=
  match run_outcome demo_git_world 0 demo_boot with Ok r => r | Err _ => no_routes end.

Lemma dispatch_execute_authorized_witness :
  run_trace (demo_orch_world None) 0
    (dispatch_execute demo_routes (λ p s, startswith p s) (λ _, "") (demo_webhook false)) = [].
Proof.
  destruct (dispatch_execute_authorized demo_routes (λ p s, startswith p s) (λ _, "")
    (demo_webhook false) _ _ (exec_run (demo_orch_world None) 0 _))
    as [(H & _)|[(urls & s & x & _ & _ & _ & H & _)|(_ & H & _)]];
    [discriminate H|discriminate H|exact H].
Defined.
