(* ===== verification/System.v ===== *)
(** * The linked server

    The other files model the parts of the server with the calls that they make on
    each other as events.  Here a call of a workflow ([src/orchestration/base.py])
    on the feedback services ([src/workflows/feedback_services/]) and on the
    resolver service ([src/workflows/resolver_scan_service.py]) is replaced by the
    program of that service, for the services of the route of the event
    ([src/services/__init__.py]).  A run of the linked server is a run of the
    workflow in which each of these calls is followed by what the service does, so
    what is proved of a part holds of the whole. *)
From S2P Require Import Prelude PyStr PyJson Url Auth ApiSession Messaging Broker Grouping CxOne Cloner Config Workflows ScmConfig Bootstrap Polling Resolver Orchestration Dispatch.
Open Scope string_scope.
Open Scope nat_scope.
Open Scope list_scope.

(** ** Linking *)
Section linking.
Context {E1 E2 : Type} {R1 : E1 → Type} {R2 : E2 → Type}.
(** The program that answers a call. *)
Context (h : ∀ e : E1, prog E2 R2 (R1 e)).

Fixpoint interp {A} (p : prog E1 R1 A) : prog E2 R2 A :=
  match p with
  | Ret a => Ret a
  | Raise e => Raise e
  | Call e k => on_outcome (λ r, interp (k r)) (h e)
  end.

(** [expands tr1 tr2]: [tr2] is [tr1] with each call replaced by a run of its
    program that ends with the answer of the call. *)
Fixpoint expands (tr1 : list (obs E1 R1)) (tr : list (obs E2 R2)) : Prop :=
  match tr1 with
  | [] => tr = []
  | existT e r :: tr1' =>
      ∃ mid tr2, tr = mid ++ tr2 ∧ exec (h e) mid r ∧ expands tr1' tr2
  end.

(** The linked program refines the program: its runs are the runs of the program
    with the calls expanded. *)
Lemma exec_interp {A} (p : prog E1 R1 A) tr o :
  exec (interp p) tr o ↔ ∃ tr1, exec p tr1 o ∧ expands tr1 tr.
Proof.
  revert tr. induction p as [a|e|e k IH]; intros tr; simpl.
  - split; [intros [-> ->]; by exists []|]. by intros (tr1 & [-> ->] & ->).
  - split; [intros [-> ->]; by exists []|]. by intros (tr1 & [-> ->] & ->).
  - rewrite exec_on_outcome. split.
    + intros (r & mid & tr2 & -> & Hh & H). apply IH in H as (tr1 & H & Hx).
      exists (Obs e r :: tr1). split; [by exists r, tr1|by exists mid, tr2].
    + intros (tr1 & (r & tr1' & -> & H) & mid & tr2 & -> & Hh & Hx).
      exists r, mid, tr2. split_and!; [done..|]. apply IH. by exists tr1'.
Qed.

Lemma expands_app tr1 tr1' tr :
  expands (tr1 ++ tr1') tr ↔ ∃ a b, tr = a ++ b ∧ expands tr1 a ∧ expands tr1' b.
Proof.
  revert tr. induction tr1 as [|[e r] tr1 IH]; intros tr; simpl.
  - split; [intros H; by exists [], tr|]. by intros (a & b & -> & -> & Hb).
  - split.
    + intros (mid & tr2 & -> & Hh & (a & b & -> & Ha & Hb)%IH).
      exists (mid ++ a), b. split_and!; [apply (assoc_L (++))|by exists mid, a|done].
    + intros (a & b & -> & (mid & tr2 & -> & Hh & Hx) & Hb).
      exists mid, (tr2 ++ b). rewrite <- (assoc_L (++)). split_and!; [done..|].
      apply IH. eauto.
Qed.

(** A call of the linked program was made by the program of some call of the
    original run. *)
Lemma expands_origin tr1 tr e :
  expands tr1 tr → e ∈ events tr →
  ∃ e1 r mid, Obs e1 r ∈ tr1 ∧ exec (h e1) mid r ∧ e ∈ events mid.
Proof.
  revert tr. induction tr1 as [|[e1 r] tr1 IH]; intros tr; simpl.
  - intros -> He. by apply elem_of_nil in He.
  - intros (mid & tr2 & -> & Hh & Hx). rewrite events_app, elem_of_app. intros [He|He].
    + exists e1, r, mid. split; [by left|done].
    + destruct (IH _ Hx He) as (e2 & r2 & mid2 & Hin & ?). exists e2, r2, mid2.
      split; [by right|done].
Qed.

(** A call that was answered was answered by a run of its program. *)
Lemma expands_in tr1 tr ob :
  expands tr1 tr → ob ∈ tr1 →
  ∃ pre mid post, tr = pre ++ mid ++ post ∧ exec (h (projT1 ob)) mid (projT2 ob).
Proof.
  revert tr. induction tr1 as [|[e1 r] tr1 IH]; intros tr; simpl.
  - intros _ Hin. by apply elem_of_nil in Hin.
  - intros (mid & tr2 & -> & Hh & Hx). rewrite elem_of_cons. intros [->|Hin].
    + by exists [], mid, tr2.
    + destruct (IH _ Hx Hin) as (pre & mid' & post & -> & H).
      exists (mid ++ pre), mid', post. by rewrite <- (assoc_L (++)).
Qed.
End linking.

(** ** The server with its services *)
Abbreviation sys_ev := (orch_ev + res_ev)%type.
Abbreviation sys_resp := (sum_resp orch_resp res_resp).
Abbreviation sys_prog := (prog sys_ev sys_resp).
Definition service_call {A} (p : res_prog A) : sys_prog A := embed_r p.

Section system.
Context (r : routes).
Context (re_match : string → string → bool).
Context (repr : json → string).
Context (isoformat : Z → string).
(** The cryptography library, [DelegatedScanDetails.to_binary] and [pickle]. *)
Context (sign : string → string → outcome string).
Context (details_binary : DelegatedScanDetails → string).
Context (pickled_scm pickled_cxone : flow_services → string).

(** The name of a service in its topics and messages. *)
Definition service_name (s : flow_services) : string := py_str repr (cs_moniker (fs_cxone s)).

Definition tag_text (v : json) : option string := match v with JStr t => Some t | _ => None end.

(** The resolver service of its settings; the tags are strings, which
    [__validate_tags] has made sure of. *)
Definition resolver_of (s : flow_services) : outcome resolver_service :=
  let rs := fs_resolver s in
  let tags := (λ l : list json, omap tag_text l) <$> rs_agent_tags rs in
  let name := py_str repr (rs_moniker rs) in
  match rs_workflow rs with
  | None => Ok (ResolverService name DummyResolverScanningWorkflow tags)
  | Some (capture, key, retries, timeout) =>
      let? retries := as_number retries in
      let? timeout := as_number timeout in
      Ok (ResolverService name (from_private_key (truthy capture) key retries timeout) tags)
  end.

(** What the call of a workflow on one of these services does; the other calls
    remain calls. *)
Definition linked (s : flow_services) (e : orch_ev) : sys_prog (orch_resp e) :=
  match e return sys_prog (orch_resp e) with
  | StartSarifFeedback projectid scanid details =>
      service_call (res_mq (start_sarif_feedback isoformat (fs_push s) (service_name s)
                              projectid scanid details))
  | StartPrScanWorkflow projectid scanid details =>
      service_call (res_mq (start_pr_scan_workflow isoformat (fs_pr s) (service_name s)
                              projectid scanid details))
  | StartDelegatedPrScanWorkflow details =>
      service_call (res_mq (start_delegated_pr_scan_workflow (service_name s) details))
  | RequestResolverScan tag pc clone_url hash branch tags workflow ctx orchestrator =>
      let! rs := lift (resolver_of s) in
      service_call (request_resolver_scan sign details_binary rs (pickled_scm s) (pickled_cxone s)
                      tag (pc_id pc) clone_url hash branch tags workflow ctx orchestrator)
  | e => call (inl e : sys_ev)
  end.

(** The services of the route of an event. *)
Definition service_of (w : webhook) : option flow_services :=
  match route_urls w with
  | Ok urls => match retrieve_services_by_route re_match r urls (config_key w) with
               | Ok (Some s) => Some s
               | _ => None
               end
  | Err _ => None
  end.

(** A program of the dispatch of an event, linked with the services of its route;
    without services there is nothing to link. *)
Definition with_services {A} (w : webhook) (p : orch_prog A) : sys_prog A :=
  match service_of w with Some s => interp (linked s) p | None => embed p end.

(** [OrchestrationDispatch.execute], linked with the services it finds. *)
Definition system_dispatch (w : webhook) : sys_prog wf_result :=
  with_services w (dispatch_execute r re_match repr w).

(** ** Messages on their way *)

(** A message that was published, with its exchange and its routing key. *)
Record posted : Type := Posted {
  p_exchange : string; p_routing_key : string; p_message : outgoing }.

(** [ScanAwaitMessage.from_binary] *)
Context (from_binary : string → outcome (ScanMessage * string)).
Context (fromisoformat : string → outcome Z).
(** The resolver tags of the deployment. *)
Context (tags : list string).
(** [json.loads], of the payload of an event *)
Context (json_loads : string → outcome json).

(** The handler of polls receives a message: it waited its expiration, which
    RabbitMQ notes in a header, and what the handler decodes is what was sent, with
    the context of the event made anew. *)
Definition polled (p : posted) (msg : incoming) : Prop :=
  H_poll ∈ delivered (setup tags) (p_exchange p) (p_routing_key p) (p_message p) ∧
  in_routing_key msg = p_routing_key p ∧
  ∃ m drop expiration,
    reread_body json_loads (out_message (p_message p)) = scan_body (ScanAwaitMessage m drop) ∧
    out_expiration (p_message p) = Some expiration ∧
    from_binary (in_body msg) = Ok (m, drop) ∧
    original_expiration (in_headers msg) = Ok expiration.

(** The messages an event leads to: those that its dispatch publishes, and those
    that a poll of one of them publishes. *)
Inductive leads_to (w : webhook) : posted → Prop :=
| leads_dispatch tr o exchange key out :
    exec (system_dispatch w) tr o → inr (inl (Publish exchange key out)) ∈ events tr →
    leads_to w (Posted exchange key out)
| leads_poll p msg tr o exchange key out :
    leads_to w p → polled p msg →
    exec (process_poll from_binary fromisoformat repr r msg) tr o →
    inl (Publish exchange key out) ∈ events tr →
    leads_to w (Posted exchange key out).

(** ** What the linked services publish *)

(** The details of a delegated scan are those that the workflow asked for. *)
Definition details_of (e : orch_ev) (d : DelegatedScanDetails) : Prop :=
  match e with
  | RequestResolverScan _ pc clone_url hash branch tags _ ctx orchestrator =>
      df_clone_url d = clone_url ∧ df_commit_hash d = hash ∧ df_scan_branch d = branch ∧
      df_scan_tags d = tags ∧ df_project_id d = pc_id pc ∧ df_event_context d = ctx ∧
      df_orchestrator d = orchestrator
  | _ => False
  end.

(** A request to the agents of a tag of the service, for the scan that the call of
    the workflow asks for, signed with the key of the service. *)
Definition requested (s : flow_services) (e : orch_ev) (m : mq_ev) : Prop :=
  match m with
  | Publish exchange key out =>
      ∃ rs tag workflow d signature,
        resolver_of s = Ok rs ∧ tag ∈ agent_tags rs ∧ details_of e d ∧
        exchange = EXCHANGE_RESOLVER_SCAN ∧ key = make_topic_for_tag (rsv_moniker rs) tag ∧
        get_signature sign details_binary (rsv_workflow rs) d = Ok signature ∧
        out_message out = delegated_body (MkDelegatedScanMessage (rsv_moniker rs) EXECUTE workflow
          d signature (wf_capture_logs (rsv_workflow rs)))
  | _ => True
  end.
(** What the feedback that a workflow starts is about. *)
Definition feedback_of (e : orch_ev) : option subject :=
  match e with
  | StartSarifFeedback projectid scanid d => Some (PUSH, Some (projectid, scanid), push_details d)
  | StartPrScanWorkflow projectid scanid d => Some (PR, Some (projectid, scanid), pr_details d)
  | StartDelegatedPrScanWorkflow d => Some (PR, None, pr_details d)
  | _ => None
  end.

(** What is published because of a call of a workflow. *)
Definition published_by (s : flow_services) (e : orch_ev) (m : mq_ev) : Prop :=
  match feedback_of e with
  | Some x => well_addressed tags (service_name s) x m
  | None => requested s e m
  end.

(** A predicate on the calls to the broker, for all calls of the linked server. *)
Definition on_mq (Q : mq_ev → Prop) (e : sys_ev) : Prop :=
  match e with inr (inl m) => Q m | _ => True end.

Lemma only_service (Q : mq_ev → Prop) (p : mq_prog unit) :
  only Q p → only (on_mq Q) (service_call (res_mq p)).
Proof. intros H. by apply only_embed_r, only_embed. Qed.

Lemma only_call_res (Q : mq_ev → Prop) e :
  only (λ x : res_ev, on_mq Q (inr x)) (res_call e).
Proof. exact (only_call (Ev:=res_ev) (Resp:=res_resp) (λ x, on_mq Q (inr x)) (inr e) I). Qed.

Lemma request_published s rs tag pc url hash branch stags workflow ctx orch :
  resolver_of s = Ok rs →
  only (λ e : res_ev, on_mq (requested s
      (RequestResolverScan tag pc url hash branch stags workflow ctx orch)) (inr e))
    (request_resolver_scan sign details_binary rs (pickled_scm s) (pickled_cxone s) tag (pc_id pc)
       url hash branch stags workflow ctx orch).
Proof.
  intros Hrs. unfold request_resolver_scan. case_bool_decide as Htag; [|apply only_raise].
  apply only_bind; [apply only_call_res|intros filters].
  apply only_bind; [apply only_lift|intros f].
  intros tr o H. apply exec_lift_bind in H as [(signature & Hsig & H)|(e & _ & -> & _)];
    [|by constructor].
  revert tr o H. apply only_embed.
  apply only_bind; [by only_call_step|intros _].
  unfold delegated_scan_kickoff, delegated_scan_resubmit.
  destruct (rsv_workflow rs) as [|capture key retries timeout|] eqn:Hwf;
    [apply only_raise| |apply only_raise].
  apply only_publish; [done..|]. simpl.
  match type of Hsig with get_signature _ _ _ ?d = _ => exists rs, tag, workflow, d, signature end.
  split_and!; try done; by rewrite Hwf.
Qed.

(** A call of a workflow publishes only what it is for. *)
Lemma linked_published s e :
  str_elem "."%char (service_name s) = false → only (on_mq (published_by s e)) (linked s e).
Proof.
  intros Hdot.
  destruct e; try exact (only_call (Ev:=sys_ev) (Resp:=sys_resp) (on_mq _) (inl _) I);
    unfold published_by; simpl feedback_of; cbv beta iota;
    try (apply only_service; apply (scan_operation_addressed tags isoformat); [done|constructor]).
  intros tr o H. simpl in H.
  apply exec_lift_bind in H as [(rs & Hrs & H)|(x & _ & -> & _)]; [|constructor].
  revert tr o H. apply only_embed_r. by apply request_published.
Qed.

(** What a linked program publishes is published by a call of the program. *)
Lemma services_published {A} w (p : orch_prog A) tr o m :
  (∀ s, service_of w = Some s → str_elem "."%char (service_name s) = false) →
  exec (with_services w p) tr o → inr (inl m) ∈ events tr →
  ∃ s tr1 e, service_of w = Some s ∧ exec p tr1 o ∧ e ∈ events tr1 ∧ published_by s e m.
Proof.
  intros Hdot H Hm. unfold with_services in H. destruct (service_of w) as [s|] eqn:Hs.
  - apply exec_interp in H as (tr1 & H & Hx).
    destruct (expands_origin _ _ _ _ Hx Hm) as (e & x & mid & He & Hmid & Hin).
    exists s, tr1, e. split_and!; [done..| |].
    + apply list_elem_of_fmap. by exists (Obs e x).
    + pose proof (linked_published s e (Hdot s eq_refl) _ _ Hmid) as Hall.
      rewrite Forall_forall in Hall. exact (Hall _ Hin).
  - apply exec_embed in H as (tr1 & _ & ->). rewrite events_embed in Hm.
    apply list_elem_of_fmap in Hm as (e & [=] & _).
Qed.

(** A call of the dispatch of an event was made by the service of its route, after
    the signature was checked. *)
Lemma dispatch_signed w tr o e s :
  service_of w = Some s → exec (dispatch_execute r re_match repr w) tr o → e ∈ events tr →
  is_signature_valid w (scm_secret (fs_scm s)) = Ok true.
Proof.
  intros Hs H He.
  destruct (is_signature_valid w (scm_secret (fs_scm s))) as [[]|] eqn:Hv; [done|exfalso..];
    (assert (tr = []) as ->; [|by apply elem_of_nil in He]);
    (eapply dispatch_execute_quiet; [|exact H]);
    intros urls s' Hurls Hs' Hv'; unfold service_of in Hs; rewrite Hurls, Hs' in Hs; congruence.
Qed.

(** What the dispatch of an event publishes is published by a call of the workflow
    that the service of its route runs, after the signature was checked. *)
Lemma dispatch_published w tr o m :
  (∀ s, service_of w = Some s → str_elem "."%char (service_name s) = false) →
  exec (system_dispatch w) tr o → inr (inl m) ∈ events tr →
  ∃ s tr1 o1 e, service_of w = Some s ∧
    is_signature_valid w (scm_secret (fs_scm s)) = Ok true ∧
    exec (dispatch_execute r re_match repr w) tr1 o1 ∧ e ∈ events tr1 ∧ published_by s e m.
Proof.
  intros Hdot H Hm.
  destruct (services_published w _ _ _ _ Hdot H Hm) as (s & tr1 & e & Hs & H1 & He & Hpub).
  exists s, tr1, o, e. split_and!; [done|by eapply dispatch_signed|done..].
Qed.

(** ** Polls *)
Lemma only_gather {Ev Resp} (Q : Ev → Prop) (ps : list (prog Ev Resp unit)) :
  Forall (only Q) ps → only Q (gather ps).
Proof.
  induction 1 as [|p ps Hp _ IH]; simpl; [apply only_ret|].
  apply only_on_outcome; [done|]. intros o1. apply only_on_outcome; [done|].
  intros o2. destruct o1; [apply only_lift|apply only_raise].
Qed.

Definition on_poll_mq (Q : mq_ev → Prop) (e : poll_ev) : Prop :=
  match e with inl m => Q m | inr _ => True end.

Lemma services_addressed (f : feedback_service → mq_prog unit) moniker x :
  str_elem "."%char moniker = false →
  scan_operation isoformat moniker x (f PRFeedbackService) →
  scan_operation isoformat moniker x (f PushFeedbackService) →
  only (on_poll_mq (well_addressed tags moniker x))
    (embed (gather (f <$> [PRFeedbackService; PushFeedbackService])) : poll_prog unit).
Proof.
  intros Hdot H1 H2. apply only_embed, only_gather.
  repeat constructor; by apply (scan_operation_addressed tags isoformat).
Qed.

(** A message that a reader decodes as a message on a scan. *)
Lemma reread_scan_body b am :
  reread_body json_loads b = scan_body am → ∃ am0, b = scan_body am0 ∧ am = reread_message json_loads am0.
Proof. destruct b; try done. intros [= <-]. by eexists. Qed.
Lemma reread_await b m drop :
  reread_body json_loads b = scan_body (ScanAwaitMessage m drop) →
  ∃ m0, b = scan_body (ScanAwaitMessage m0 drop) ∧ m = reread_scan json_loads m0.
Proof. intros (am0 & -> & Ham)%reread_scan_body. destruct am0; try discriminate Ham. injection Ham as -> ->. by eexists. Qed.

(** A poll of a message that is well addressed publishes a copy of it or the
    feedback on its scan. *)
Lemma poll_published moniker x p msg :
  str_elem "."%char moniker = false →
  well_addressed tags moniker x (Publish (p_exchange p) (p_routing_key p) (p_message p)) →
  polled p msg →
  only (on_poll_mq (well_addressed tags moniker (reread_subject json_loads x)))
    (process_poll from_binary fromisoformat repr r msg).
Proof.
  intros Hdot (Hex & am & Ham & Hmon & Hsub & Hdel) (_ & Hkey & m & drop & expiration & Hout & Hexp & Hbin & _).
  apply reread_await in Hout as (m0 & Hout & ->).
  rewrite Hout in Ham. injection Ham as <-. simpl in Hmon, Hsub, Hdel.
  assert (Hcopy : ∀ delay, well_addressed tags moniker (reread_subject json_loads x)
    (Publish EXCHANGE_SCAN_INPUT (in_routing_key msg)
       (Outgoing (scan_body (ScanAwaitMessage (reread_scan json_loads m0) drop)) None (Some delay)))).
  { intros delay. split; [done|]. exists (ScanAwaitMessage (reread_scan json_loads m0) drop).
    split_and!; [done|done|by rewrite <- Hsub|].
    unfold delivered in *. rewrite Hexp in Hdel. rewrite Hkey. rewrite Hex in Hdel. exact Hdel. }
  subst moniker x.
  change (reread_subject json_loads (scan_subject m0)) with (scan_subject (reread_scan json_loads m0)) in *.
  change (sm_moniker m0) with (sm_moniker (reread_scan json_loads m0)) in *.
  generalize dependent (reread_scan json_loads m0). intros m Hdot Hbin Hcopy.
  pose proof (λ f, services_addressed f _ (scan_subject m) Hdot) as Htold.
  pose proof (Htold (λ svc, handle_completed_scan svc m)
    (op_pr_completed isoformat _ m eq_refl) (op_push_completed isoformat _ m eq_refl)) as Hdone.
  pose proof (λ e, Htold (λ svc, handle_awaited_scan_error svc m e)
    (op_pr_error isoformat _ m e eq_refl) (op_push_error isoformat _ m e eq_refl)) as Herror.
  clear Htold. unfold process_poll, own.
  apply only_catch; [|intros; by only_call_step].
  rewrite Hbin. intros tr o H.
  apply exec_lift_bind in H as [([m' drop'] & [= <- <-] & H)|(? & [=] & _)].
  revert tr o H. apply only_bind; [apply only_lift|intros s].
  unfold execute_poll_scan_workflow, safe_deserialize_body. rewrite Hbin.
  intros tr o H. change (exec (let! now := mq Now in
    let! expired := lift (is_expired fromisoformat now drop) in
    if expired : bool then own Ack else poll_unexpired
      [PRFeedbackService; PushFeedbackService] (po_max_interval (fs_poll s))
      (po_backoff (fs_poll s)) msg m drop) tr o) in H.
  revert tr o H.
  match goal with |- ∀ tr o, exec ?q tr o → _ => change (only (on_poll_mq
    (well_addressed tags (sm_moniker m) (scan_subject m))) q) end.
  unfold poll_unexpired, poll_scan, requeue_message, tell_services, all_completed, all_error,
    attempt, mq, own.
  repeat first
    [ apply Hdone | apply Herror | lazymatch goal with |- ∀ _, _ => intros ? end | only_call_step; first [exact I|apply Hcopy]
    | apply only_ret | apply only_raise | apply only_lift | apply only_bind | apply only_catch
    | apply only_on_outcome | case_match ].
Qed.

(** ** Theorems *)

(** C6: whatever an event leads to - what its dispatch publishes, and what every
    later poll of one of its messages publishes - has an origin: a service whose
    route matched and for whose secret the event was signed, and a call of the
    workflow that this service ran.  A message on a scan carries the name of the
    service, the scan and the details that the workflow started the feedback of,
    with the context of the event made anew once it was decoded, and reaches the
    one handler of its class; any other message is a request to the resolver agents
    of a tag of the service, for the scan and with the event context that the
    workflow asked for, signed with the key of the service.  The name of the service
    must be a word of a topic: with a dot in it no queue is bound for its messages
    ([Broker.dotted_unaddressed]). *)
Theorem event_messages w p :
  (∀ s, service_of w = Some s → str_elem "."%char (service_name s) = false) →
  leads_to w p →
  ∃ s tr o e, service_of w = Some s ∧
    is_signature_valid w (scm_secret (fs_scm s)) = Ok true ∧
    exec (dispatch_execute r re_match repr w) tr o ∧ e ∈ events tr ∧
    let m := Publish (p_exchange p) (p_routing_key p) (p_message p) in
    match feedback_of e with
    | Some x => ∃ x', in_transit json_loads x x' ∧ well_addressed tags (service_name s) x' m
    | None => requested s e m
    end.
Proof.
  intros Hdot. induction 1 as [tr o exchange key out H Hin|p msg tr o exchange key out _ IH Hp H Hin].
  - destruct (dispatch_published w tr o _ Hdot H Hin) as (s & tr1 & o1 & e & ? & ? & ? & ? & Hpub).
    exists s, tr1, o1, e. split_and!; [done..|]. unfold published_by in Hpub. simpl.
    destruct (feedback_of e) as [x|]; [|done]. exists x. split; [by left|done].
  - destruct IH as (s & tr1 & o1 & e & Hs & Hv & He & Hine & Hpub).
    exists s, tr1, o1, e. split_and!; [done..|]. simpl.
    pose proof Hp as (_ & _ & m & drop & x & Hout & _).
    destruct (feedback_of e) as [y|].
    + destruct Hpub as (x' & Hx' & Hpub).
      pose proof (poll_published _ _ _ _ (Hdot s Hs) Hpub Hp _ _ H) as Hall.
      rewrite Forall_forall in Hall. exists (reread_subject json_loads y). split; [by right|].
      rewrite <- (reread_in_transit _ _ _ Hx'). exact (Hall _ Hin).
    + apply reread_await in Hout as (m0 & Hout & _). simpl in Hpub. destruct Hpub as (? & ? & ? & ? & ? & _ & _ & _ & _ & _ & _ & Hout').
      congruence.
Qed.

(** ** A scan that executes is polled *)

(** The message that makes the agent poll a scan has been published, with a key
    that brings it to the handler of polls; or the broker had no exchange. *)
Definition awaits (s : flow_services) (workflow : ScanWorkflow) (details : workflow_details)
    (i : inspector) (tr : list (obs sys_ev sys_resp)) : Prop :=
  ∃ key drop interval,
    let out := expiring (ScanAwaitMessage (MkScanMessage (service_name s) AWAIT workflow details
                 (i_scan_id i) (i_project_id i)) drop) interval in
    delivered (setup tags) EXCHANGE_SCAN_INPUT key out = [H_poll] ∧
    (inr (inl (Publish EXCHANGE_SCAN_INPUT key out)) ∈ events tr ∨
     obs_inr (obs_inl (Obs (GetExchange EXCHANGE_SCAN_INPUT) (Ok false))) ∈ tr).

Lemma awaits_app s workflow details i pre mid post :
  awaits s workflow details i mid → awaits s workflow details i (pre ++ mid ++ post).
Proof.
  intros (key & drop & interval & Hd & H). exists key, drop, interval. split; [done|].
  rewrite !events_app, !elem_of_app. destruct H; auto 6.
Qed.

Lemma publish_awaits s workflow details i key drop interval tr1 tr2 found :
  let out := expiring (ScanAwaitMessage (MkScanMessage (service_name s) AWAIT workflow details
               (i_scan_id i) (i_project_id i)) drop) interval in
  delivered (setup tags) EXCHANGE_SCAN_INPUT key out = [H_poll] →
  awaits s workflow details i
    (obs_inr <$> (obs_inl <$> tr1 ++ publish_trace EXCHANGE_SCAN_INPUT key out found ++ tr2)).
Proof.
  intros out Hd. exists key, drop, interval. split; [exact Hd|].
  rewrite events_embed_r, events_embed, !fmap_app, !events_app, !fmap_app.
  destruct found; [left|right]; rewrite !elem_of_app; right; left; simpl;
    repeat first [apply list_elem_of_here|apply list_elem_of_further].
Qed.

Lemma exec_service_call {A} (p : mq_prog A) tr o :
  exec (service_call (res_mq p)) tr o ↔ ∃ tr', exec p tr' o ∧ tr = obs_inr <$> (obs_inl <$> tr').
Proof.
  unfold service_call, res_mq. rewrite exec_embed_r. split.
  - intros (tr1 & (tr2 & H & ->)%exec_embed & ->). eauto.
  - intros (tr2 & H & ->). eexists. split; [|done]. apply exec_embed. eauto.
Qed.

Lemma linked_sarif_awaits s i d tr :
  str_elem "."%char (service_name s) = false → truthy (pu_enabled (fs_push s)) = true →
  exec (linked s (StartSarifFeedback (i_project_id i) (i_scan_id i) d)) tr (Ok tt) →
  awaits s PUSH (push_details d) i tr.
Proof.
  intros Hdot Hen H. apply exec_service_call in H as (tr' & H & ->).
  unfold start_sarif_feedback in H. rewrite Hen in H.
  call_step H as [([] & tr1 & -> & H)|(x & -> & ?)]; [|done].
  unfold push_workflow_start in H. apply exec_bind_ok in H as (drop & tr2 & tr3 & -> & _ & H).
  apply publish_scan_ok in H as [found ->].
  rewrite <- (app_nil_r (publish_trace _ _ _ _)), app_comm_cons.
  apply publish_awaits. by apply delivered_push_await.
Qed.

Lemma linked_pr_awaits s i d tr :
  str_elem "."%char (service_name s) = false →
  exec (linked s (StartPrScanWorkflow (i_project_id i) (i_scan_id i) d)) tr (Ok tt) →
  awaits s PR (pr_details d) i tr.
Proof.
  intros Hdot H. apply exec_service_call in H as (tr' & H & ->).
  unfold start_pr_scan_workflow in H.
  call_step H as [([] & tr1 & -> & H)|(x & -> & ?)]; [|done].
  apply exec_bind_ok in H as ([] & tr2 & tr3 & -> & H & _).
  unfold pr_workflow_start, await_msg_factory in H.
  apply exec_bind_ok in H as (drop & tr4 & tr5 & -> & _ & H).
  apply publish_scan_ok in H as [found ->].
  rewrite <- (assoc_L (++)), app_comm_cons. apply publish_awaits. by apply delivered_pr_await.
Qed.

Section scans.
Context (scan_inspector : json → outcome inspector) (version : string).

(** [submitted], in a run of the linked server. *)
Definition accepted (i : inspector) (tr : list (obs sys_ev sys_resp)) : Prop :=
  ∃ zip pc branch stags submit,
    obs_inl (Obs (ExecuteScan zip pc branch stags) (Ok submit)) ∈ tr ∧
    scan_inspector submit = Ok i.

Lemma submitted_accepted s i tr1 tr :
  expands (linked s) tr1 tr → submitted scan_inspector i tr1 → accepted i tr.
Proof.
  intros Hx (zip & pc & branch & stags & submit & Hin & Hi).
  destruct (expands_in _ _ _ _ Hx Hin) as (pre & mid & post & -> & H).
  apply (exec_call (Ev:=sys_ev) (Resp:=sys_resp) (inl (ExecuteScan zip pc branch stags)) mid
           (Ok submit)) in H as ->.
  exists zip, pc, branch, stags, submit. split; [|done].
  rewrite !elem_of_app. right. left. apply elem_of_cons. by left.
Qed.

(** C15: for a service whose name has no dot, a scan that a workflow reports as
    executing is polled, that of a push when its feedback is enabled, which it is not
    by default: Checkmarx One has accepted it, and the linked server has published,
    in the name of the service and with the event's context, the message for this
    scan and project that the broker brings to the handler of polls - unless the
    broker had no exchange.  The scan of a push without feedback is not polled; what a
    service with a dot in its name publishes is routed to no queue
    ([Broker.dotted_unaddressed]). *)
Theorem executing_scan_polled s o scan_tags tr :
  str_elem "."%char (service_name s) = false →
  (∀ i, exec (interp (linked s)
          (execute_push_scan scan_inspector version (orch_services repr s) o scan_tags))
          tr (Ok (i, EXECUTING)) →
     truthy (pu_enabled (fs_push s)) = true →
     ∃ i' d, i = Some i' ∧ accepted i' tr ∧ pd_event_context d = o_event_context o ∧
       awaits s PUSH (push_details d) i' tr) ∧
  (exec (interp (linked s)
          (execute_pr_scan scan_inspector version (orch_services repr s) o scan_tags))
          tr (Ok EXECUTING) →
     ∃ i' d, accepted i' tr ∧ prd_event_context d = o_event_context o ∧
       awaits s PR (pr_details d) i' tr).
Proof.
  intros Hdot. split.
  - intros i (tr1 & H & Hx)%exec_interp Hen.
    destruct (push_scan_started _ _ _ _ _ _ _ H) as (i' & d & -> & Hsub & Hctx & Hin).
    exists i', d. split_and!; [done|by eapply submitted_accepted|done|].
    destruct (expands_in _ _ _ _ Hx Hin) as (pre & mid & post & -> & Hmid).
    by apply awaits_app, linked_sarif_awaits.
  - intros (tr1 & H & Hx)%exec_interp.
    destruct (pr_scan_started _ _ _ _ _ _ H) as (i' & d & Hsub & Hctx & Hin).
    exists i', d. split_and!; [by eapply submitted_accepted|done|].
    destruct (expands_in _ _ _ _ Hx Hin) as (pre & mid & post & -> & Hmid).
    by apply awaits_app, linked_pr_awaits.
Qed.
End scans.
End system.

(** ** Witnesses: a pull request is opened, and its scan polled while it executes *)
Definition demo_event : webhook :=
  {| is_diagnostic := false; config_key := GL;
     route_urls := Ok [JStr "https://gitlab/a/b.git"];
     is_signature_valid := λ secret, Ok (String.eqb secret "AbcDefGhi123--longEnoughSecret");
     w_execute := λ svc, let! a := execute_pr_scan demo_make_inspector "1.0" svc (demo_orch "main") None in
                         Ret (PrResult a);
     w_handle_delegated_scan := λ _ _, Ret NoResult;
     w_handle_delegated_pr_scan_hard_fail := λ _ _, Ret tt |}.
Definition demo_sys_world (n : nat) (e : sys_ev) : outcome (sys_resp e) * nat :=
  match e return outcome (sys_resp e) * nat with
  | inl e => demo_orch_world None n e
  | inr e => demo_res_world n e
  end.
Definition demo_match (p s : string) : bool := startswith p s.
Definition demo_dispatch : sys_prog wf_result :=
  system_dispatch demo_routes demo_match (λ _, "") pretty demo_sign demo_details_binary
    (λ _, "scm") (λ _, "cxone") demo_event.
Definition demo_awaited : posted :=
  let posted_by (e : sys_ev) := match e with
    | inr (inl (Publish exchange key out)) => Some (Posted exchange key out)
    | _ => None
    end in
  default (Posted "" "" (Outgoing (delegated_body demo_delegated) None None))
    (head (omap posted_by (events (run_trace demo_sys_world 0 demo_dispatch)))).
Definition demo_decode (body : string) : outcome (ScanMessage * string) :=
  match out_message (p_message demo_awaited) with
  | scan_body (ScanAwaitMessage m drop) => Ok (m, drop)
  | _ => Err ValueError
  end.
(** What the broker delivers to the handler of polls after a minute. *)
Definition demo_delivery : incoming :=
  Incoming "scan" [("x-death", JArr [JObj [("original-expiration", JStr "60000")]])]
    (p_routing_key demo_awaited).
Definition demo_first_poll : poll_prog unit :=
  process_poll demo_decode (λ _, Ok 172800%Z) (λ _, "") demo_routes demo_delivery.
Definition demo_copy : posted :=
  Posted EXCHANGE_SCAN_INPUT (p_routing_key demo_awaited)
    (Outgoing (out_message (p_message demo_awaited)) None (Some 120000%Z)).

(** The payloads of the demonstrations are not parsed again. *)
Definition demo_no_loads (_ : string) : outcome json := Err ValueError.

Ltac in_computed := vm_compute; repeat first [apply list_elem_of_here | apply list_elem_of_further].

(** The copy that the first poll publishes is due to the event. *)
Lemma event_messages_witness :
  ∃ s, service_of demo_routes demo_match demo_event = Some s ∧ service_name (λ _, "") s = "first" ∧
    is_signature_valid demo_event (scm_secret (fs_scm s)) = Ok true.
Proof.
  destruct (event_messages demo_routes demo_match (λ _, "") pretty demo_sign demo_details_binary
    (λ _, "scm") (λ _, "cxone") demo_decode (λ _, Ok 172800%Z) ["linux"] demo_no_loads demo_event demo_copy)
    as (s & tr & o & e & Hs & Hv & _).
  - intros s Hs. vm_compute in Hs. injection Hs as <-. reflexivity.
  - apply (leads_poll _ _ _ _ _ _ _ _ _ _ _ _ _ demo_awaited demo_delivery
      (run_trace (demo_poll_world demo_busy) 0%Z demo_first_poll)
      (run_outcome (demo_poll_world demo_busy) 0%Z demo_first_poll)).
    + apply (leads_dispatch _ _ _ _ _ _ _ _ _ _ _ _ _ (run_trace demo_sys_world 0 demo_dispatch)
        (run_outcome demo_sys_world 0 demo_dispatch)); [apply exec_run|in_computed].
    + split; [in_computed|]. split; [reflexivity|]. repeat eexists; vm_compute; reflexivity.
    + apply exec_run.
    + in_computed.
  - exists s. split; [exact Hs|]. vm_compute in Hs. injection Hs as <-.
    split; [reflexivity|exact Hv].
Defined.

Definition demo_linked (s : flow_services) : sys_prog ScanAction :=
  interp (linked (λ _, "") pretty demo_sign demo_details_binary (λ _, "scm") (λ _, "cxone") s)
    (execute_pr_scan demo_make_inspector "1.0" (orch_services (λ _, "") s) (demo_orch "main") None).

Lemma executing_scan_polled_witness :
  ∃ s, service_of demo_routes demo_match demo_event = Some s ∧
  ∃ i d, i_scan_id i = JStr "s" ∧
    awaits (λ _, "") ["linux"] s PR (pr_details d) i (run_trace demo_sys_world 0 (demo_linked s)).
Proof.
  destruct (service_of demo_routes demo_match demo_event) as [s|] eqn:Hs;
    [|vm_compute in Hs; discriminate Hs].
  exists s. split; [reflexivity|]. vm_compute in Hs. injection Hs as <-.
  match goal with |- ∃ i d, _ ∧ awaits _ _ ?s _ _ _ _ =>
    destruct (proj2 (executing_scan_polled (λ _, "") pretty demo_sign demo_details_binary
      (λ _, "scm") (λ _, "cxone") ["linux"] demo_make_inspector "1.0" s (demo_orch "main") None
      (run_trace demo_sys_world 0 (demo_linked s)) eq_refl)
      (exec_run demo_sys_world 0 (demo_linked s))) as (i & d & Hacc & _ & Haw)
  end.
  exists i, d. split; [|exact Haw].
  destruct Hacc as (? & ? & ? & ? & ? & _ & Hi). injection Hi as <-. reflexivity.
Defined.
