(* ===== verification/Deployment.v ===== *)
(** * The deployment: [setup] of [src/rabbit_config.py] and [spawn_agents] of
    [src/workflow_agent.py], for all services of a configuration

    [Broker.setup] is the topology that one service needs.  Here the program that
    declares it runs over every service, on the brokers that their settings name,
    and the program that starts the consumers of its queues follows.  A broker is
    an instance of [AmqpBroker]: what it holds is seen as a [view], and it takes a
    declaration unless it contradicts an earlier one. *)
From S2P Require Import Prelude PyStr PyJson Url Auth ApiSession Messaging Broker Grouping CxOne Cloner Config Workflows ScmConfig Bootstrap Polling Resolver Orchestration Dispatch System.
Open Scope string_scope.
Open Scope nat_scope.
Open Scope list_scope.

(** ** Declarations *)

(** The arguments of a queue are those of a quorum queue, and when it has a
    dead-letter exchange those that go with it. *)
Inductive declaration : Type :=
| DeclareExchange (name : string) (type : exchange_type) (internal : bool)
| DeclareQueue (name : string) (dead_letter : option string)
| Bind (source : string) (dest : destination) (key : string).

#[export] Instance exchange_type_eq_dec : EqDecision exchange_type.
Proof. solve_decision. Defined.
#[export] Instance agent_handler_eq_dec : EqDecision agent_handler.
Proof. solve_decision. Defined.
#[export] Instance declaration_eq_dec : EqDecision declaration.
Proof. solve_decision. Defined.

(** The exchanges of scans, and their queues. *)
Definition exchange_declarations : list declaration :=
  [DeclareExchange EXCHANGE_SCAN_INPUT_LEGACY FANOUT false;
   DeclareExchange EXCHANGE_SCAN_INPUT FANOUT false;
   DeclareExchange EXCHANGE_SCAN_WAIT_LEGACY TOPIC true;
   DeclareExchange EXCHANGE_SCAN_WAIT TOPIC true;
   DeclareExchange EXCHANGE_PRESCAN_ANNOTATE TOPIC true;
   DeclareExchange EXCHANGE_SCAN_ANNOTATE TOPIC true;
   DeclareExchange EXCHANGE_SCAN_FEEDBACK TOPIC true;
   DeclareExchange EXCHANGE_SARIF_WORK TOPIC true;
   Bind EXCHANGE_SCAN_INPUT_LEGACY (ToExchange EXCHANGE_SCAN_WAIT_LEGACY) "";
   Bind EXCHANGE_SCAN_INPUT (ToExchange EXCHANGE_SCAN_WAIT) "";
   Bind EXCHANGE_SCAN_INPUT_LEGACY (ToExchange EXCHANGE_SCAN_FEEDBACK) "";
   Bind EXCHANGE_SCAN_INPUT (ToExchange EXCHANGE_SCAN_FEEDBACK) "";
   Bind EXCHANGE_SCAN_INPUT (ToExchange EXCHANGE_SARIF_WORK) "";
   Bind EXCHANGE_SCAN_INPUT_LEGACY (ToExchange EXCHANGE_SCAN_ANNOTATE) "";
   Bind EXCHANGE_SCAN_INPUT (ToExchange EXCHANGE_SCAN_ANNOTATE) "";
   Bind EXCHANGE_SCAN_INPUT_LEGACY (ToExchange EXCHANGE_PRESCAN_ANNOTATE) "";
   Bind EXCHANGE_SCAN_INPUT (ToExchange EXCHANGE_PRESCAN_ANNOTATE) "";
   DeclareExchange EXCHANGE_SCAN_POLLING_LEGACY TOPIC true;
   DeclareExchange EXCHANGE_SCAN_POLLING TOPIC true].
Definition queue_declarations : list declaration :=
  [DeclareQueue QUEUE_SCAN_WAIT_LEGACY (Some EXCHANGE_SCAN_POLLING_LEGACY);
   DeclareQueue QUEUE_SCAN_WAIT (Some EXCHANGE_SCAN_POLLING);
   Bind EXCHANGE_SCAN_WAIT_LEGACY (ToQueue QUEUE_SCAN_WAIT_LEGACY) ROUTEKEY_POLL_BINDING_LEGACY;
   Bind EXCHANGE_SCAN_WAIT (ToQueue QUEUE_SCAN_WAIT) ROUTEKEY_POLL_BINDING;
   DeclareQueue QUEUE_SCAN_POLLING_LEGACY None;
   DeclareQueue QUEUE_SCAN_POLLING None;
   Bind EXCHANGE_SCAN_POLLING_LEGACY (ToQueue QUEUE_SCAN_POLLING_LEGACY) ROUTEKEY_POLL_BINDING_LEGACY;
   Bind EXCHANGE_SCAN_POLLING (ToQueue QUEUE_SCAN_POLLING) ROUTEKEY_POLL_BINDING;
   DeclareQueue QUEUE_FEEDBACK_PR None;
   Bind EXCHANGE_SCAN_FEEDBACK (ToQueue QUEUE_FEEDBACK_PR) (pr_routekey FEEDBACK);
   DeclareQueue QUEUE_SARIF_GEN None;
   Bind EXCHANGE_SARIF_WORK (ToQueue QUEUE_SARIF_GEN) push_routekey;
   DeclareQueue QUEUE_PRESCAN_ANNOTATE_PR None;
   Bind EXCHANGE_PRESCAN_ANNOTATE (ToQueue QUEUE_PRESCAN_ANNOTATE_PR) (pr_routekey PRESCAN);
   DeclareQueue QUEUE_ANNOTATE_PR None;
   Bind EXCHANGE_SCAN_ANNOTATE (ToQueue QUEUE_ANNOTATE_PR) (pr_routekey ANNOTATE);
   DeclareQueue QUEUE_FAILURE_PR None;
   Bind EXCHANGE_SCAN_FEEDBACK (ToQueue QUEUE_FAILURE_PR) (pr_routekey FAILURE)].
Definition scan_declarations : list declaration := exchange_declarations ++ queue_declarations.

(** Those of delegated scans: before the queues of the tags, for a tag, after. *)
Definition timeout_declarations : list declaration :=
  [DeclareExchange EXCHANGE_RESOLVER_SCAN TOPIC false;
   DeclareExchange EXCHANGE_RESOLVER_SCAN_DLX TOPIC true;
   DeclareQueue QUEUE_RESOLVER_TIMEOUT None;
   Bind EXCHANGE_RESOLVER_SCAN_DLX (ToQueue QUEUE_RESOLVER_TIMEOUT) ROUTEKEY_DLX].
Definition tag_declarations (queue_topic : string * string) : list declaration :=
  [DeclareQueue queue_topic.1 (Some EXCHANGE_RESOLVER_SCAN_DLX);
   Bind EXCHANGE_RESOLVER_SCAN (ToQueue queue_topic.1) queue_topic.2].
Definition complete_declarations : list declaration :=
  [DeclareQueue QUEUE_RESOLVER_COMPLETE None;
   Bind EXCHANGE_RESOLVER_SCAN (ToQueue QUEUE_RESOLVER_COMPLETE) ROUTEKEY_EXEC_SCA_SCAN_COMPLETE].
Definition resolver_declarations (tags : list string) : list declaration :=
  timeout_declarations ++ concat (tag_declarations <$> queue_and_topic_tuples tags)
    ++ complete_declarations.

(** ** The programs *)

(** The consumer of a queue; the two agents of delegated scans have the services
    they are made with, the other handlers find theirs by the name in a message. *)
Record agent_task : Type := AgentTask {
  at_handler : agent_handler; at_broker : amqp_settings; at_moniker : json;
  at_queue : string; at_services : option flow_services }.

Inductive deploy_ev : Type :=
| Connect (amqp : amqp_settings)
| OpenChannelOn (amqp : amqp_settings)
| DeclareOn (amqp : amqp_settings) (d : declaration)
| CloseChannelOn (amqp : amqp_settings)
| CreateTask (t : agent_task).
Definition deploy_resp (e : deploy_ev) : Type := unit.
#[global] Arguments deploy_resp : simpl never.
Abbreviation deploy_prog := (prog deploy_ev deploy_resp).
Abbreviation deploy e := (call (e : deploy_ev) : deploy_prog unit) (only parsing).

Section deployment.
Context (repr : json → string).

(** The topics of [queue_and_topic_tuples] are quoted, which raises for a tag that
    is not a string. *)
Definition declared_tags (s : flow_services) : outcome (list string) :=
  mapO (λ v, match v with JStr t => Ok t | _ => Err TypeError end)
    (default [] (rs_agent_tags (fs_resolver s))).

Fixpoint declare_each (amqp : amqp_settings) (ds : list declaration) : deploy_prog unit :=
  match ds with
  | [] => Ret tt
  | d :: ds' => do! deploy (DeclareOn amqp d) in declare_each amqp ds'
  end.

(** [async with ....channel() as channel] *)
Definition on_channel (amqp : amqp_settings) (body : deploy_prog unit) : deploy_prog unit :=
  do! deploy (Connect amqp) in
  do! deploy (OpenChannelOn amqp) in
  finally body (deploy (CloseChannelOn amqp)).

(** The body of the loop of [setup]. *)
Definition setup_service (s : flow_services) : deploy_prog unit :=
  let amqp := pr_amqp (fs_pr s) in
  let resolver_amqp := rs_amqp (fs_resolver s) in
  do! on_channel amqp (declare_each amqp scan_declarations) in
  on_channel resolver_amqp
    (do! declare_each resolver_amqp timeout_declarations in
     let! tags := lift (declared_tags s) in
     do! declare_each resolver_amqp (concat (tag_declarations <$> queue_and_topic_tuples tags)) in
     declare_each resolver_amqp complete_declarations).

(** A loop over the services of the monikers. *)
Fixpoint for_monikers (r : routes) (monikers : list json)
    (body : json → flow_services → deploy_prog unit) : deploy_prog unit :=
  match monikers with
  | [] => Ret tt
  | m :: monikers' =>
      let! s := lift (retrieve_services_by_moniker repr r m) in
      do! body m s in for_monikers r monikers' body
  end.

(** [rabbit_config.setup] *)
Definition setup_all (r : routes) : deploy_prog unit :=
  for_monikers r (get_service_monikers r) (λ _, setup_service).

(** [workflow_agent.spawn_agents], until its tasks run. *)
Definition spawned (moniker : json) (s : flow_services) : list agent_task :=
  let pr := pr_amqp (fs_pr s) in
  let resolver := rs_amqp (fs_resolver s) in
  [AgentTask H_gen_sarif pr moniker QUEUE_SARIF_GEN None;
   AgentTask H_poll pr moniker QUEUE_SCAN_POLLING_LEGACY None;
   AgentTask H_poll pr moniker QUEUE_SCAN_POLLING None;
   AgentTask H_prescan_annotate pr moniker QUEUE_PRESCAN_ANNOTATE_PR None;
   AgentTask H_annotate pr moniker QUEUE_ANNOTATE_PR None;
   AgentTask H_feedback pr moniker QUEUE_FEEDBACK_PR None;
   AgentTask H_feedback_error pr moniker QUEUE_FAILURE_PR None;
   AgentTask H_resolver_results resolver moniker QUEUE_RESOLVER_COMPLETE (Some s);
   AgentTask H_resolver_timeout resolver moniker QUEUE_RESOLVER_TIMEOUT (Some s)].
Fixpoint create_tasks (ts : list agent_task) : deploy_prog unit :=
  match ts with
  | [] => Ret tt
  | t :: ts' => do! deploy (Connect (at_broker t)) in do! deploy (CreateTask t) in create_tasks ts'
  end.
Definition spawn_agents (r : routes) : deploy_prog unit :=
  for_monikers r (get_service_monikers r) (λ m s, create_tasks (spawned m s)).
End deployment.

(** ** Brokers *)

(** What a broker holds: an exchange has a type and may be internal, a queue may
    have a dead-letter exchange. *)
Record view : Type := View {
  exchange_at : string → option (exchange_type * bool);
  queue_at : string → option (option string);
  bound : list (string * destination * string) }.

#[export] Instance view_equiv : Equiv view := λ v1 v2,
  (∀ n, exchange_at v1 n = exchange_at v2 n) ∧ (∀ q, queue_at v1 q = queue_at v2 q) ∧
  bound v1 ≡ₚ bound v2.
#[export] Instance view_equivalence : Equivalence (≡@{view}).
Proof.
  split.
  - done.
  - intros v1 v2 (H1 & H2 & H3). split_and!; [done..|by symmetry].
  - intros v1 v2 v3 (H1 & H2 & H3) (H1' & H2' & H3'). split_and!; [congruence..|by etrans].
Qed.

Definition empty_view : view := View (λ _, None) (λ _, None) [].

(** A broker takes a declaration that repeats an earlier one and refuses one that
    differs from it, and a binding needs both its ends. *)
Definition acceptable (v : view) (d : declaration) : bool :=
  match d with
  | DeclareExchange n t i => match exchange_at v n with
                             | Some x => bool_decide (x = (t, i)) | None => true end
  | DeclareQueue q x => match queue_at v q with
                        | Some x' => bool_decide (x' = x) | None => true end
  | Bind source dest _ =>
      bool_decide (is_Some (exchange_at v source)) &&
      match dest with
      | ToExchange e => bool_decide (is_Some (exchange_at v e))
      | ToQueue q => bool_decide (is_Some (queue_at v q))
      end
  end.
Definition after (v : view) (d : declaration) : view :=
  match d with
  | DeclareExchange n t i =>
      View (λ n', if decide (n' = n) then Some (t, i) else exchange_at v n') (queue_at v) (bound v)
  | DeclareQueue q x =>
      View (exchange_at v) (λ q', if decide (q' = q) then Some x else queue_at v q') (bound v)
  | Bind source dest key =>
      View (exchange_at v) (queue_at v)
        (if decide ((source, dest, key) ∈ bound v) then bound v
         else bound v ++ [(source, dest, key)])
  end.

#[export] Instance acceptable_proper : Proper ((≡) ==> (=) ==> (=)) acceptable.
Proof.
  intros v1 v2 (H1 & H2 & _) d _ <-. destruct d as [| |source [e|q] key]; simpl;
    by rewrite ?H1, ?H2.
Qed.
#[export] Instance after_proper : Proper ((≡) ==> (=) ==> (≡)) after.
Proof.
  intros v1 v2 (H1 & H2 & H3) d _ <-. destruct d as [| |source dest key]; simpl;
    split_and!; simpl; try done.
  - intros n. by case_decide.
  - intros q. by case_decide.
  - assert (H : (source, dest, key) ∈ bound v1 ↔ (source, dest, key) ∈ bound v2) by by rewrite H3.
    repeat case_decide; [done|tauto|tauto|by rewrite H3].
Qed.

(** What the deployment relies on of a broker. *)
Class AmqpBroker (St : Type) : Type := {
  fresh : St;
  view_of : St → view;
  declare : declaration → St → option St;
  view_fresh : view_of fresh ≡ empty_view;
  declare_accepted d st : acceptable (view_of st) d = true →
    ∃ st', declare d st = Some st' ∧ view_of st' ≡ after (view_of st) d;
  declare_refused d st : acceptable (view_of st) d = false → declare d st = None }.
#[global] Hint Mode AmqpBroker ! : typeclass_instances.

(** The declarations that a broker gets, in order. *)
Fixpoint declare_all {St} `{AmqpBroker St} (ds : list declaration) (st : St) : option St :=
  match ds with
  | [] => Some st
  | d :: ds' => declare d st ≫= declare_all ds'
  end.

(** *** The topology of a broker *)
#[export] Instance topology_equiv : Equiv topology := λ t1 t2,
  (∀ n, dget n (exchanges t1) = dget n (exchanges t2)) ∧ bindings t1 ≡ₚ bindings t2 ∧
  (∀ q, dget q (dead_letters t1) = dget q (dead_letters t2)).
#[export] Instance topology_equivalence : Equivalence (≡@{topology}).
Proof.
  split.
  - done.
  - intros t1 t2 (H1 & H2 & H3). split_and!; [done|by symmetry|done].
  - intros t1 t2 t3 (H1 & H2 & H3) (H1' & H2' & H3'). split_and!; [congruence|by etrans|congruence].
Qed.

(** Equivalent topologies route alike, in some order of their queues. *)
Lemma concat_fmap_perm {A B} (f g : A → list B) l1 l2 :
  l1 ≡ₚ l2 → (∀ x, f x ≡ₚ g x) → concat (f <$> l1) ≡ₚ concat (g <$> l2).
Proof.
  intros Hl Hf. etrans; [|by apply (Permutation_flat_map g) in Hl; rewrite !flat_map_concat_map in Hl].
  clear Hl. induction l1 as [|x l1 IH]; [done|]. simpl. by rewrite (Hf x), IH.
Qed.

#[export] Instance hop_proper : Proper ((≡) ==> (=) ==> (=) ==> (≡ₚ)) hop.
Proof.
  intros t1 t2 (H1 & H2 & _) exchange _ <- key _ <-. unfold hop. rewrite H1. by rewrite H2.
Qed.
#[export] Instance route_proper : Proper ((=) ==> (≡) ==> (=) ==> (=) ==> (≡ₚ)) Broker.route.
Proof.
  intros fuel _ <- t1 t2 Ht exchange _ <- key _ <-. revert exchange.
  induction fuel as [|fuel IH]; intros exchange; [done|]. cbn [Broker.route].
  apply concat_fmap_perm; [by rewrite Ht|]. intros [e|q]; [apply IH|done].
Qed.
#[export] Instance expire_proper : Proper ((≡) ==> (=) ==> (=) ==> (≡ₚ)) expire.
Proof.
  intros t1 t2 Ht q _ <- key _ <-. unfold expire. destruct (Ht) as (_ & _ & ->).
  destruct (dget q (dead_letters t2)); [|done]. by rewrite Ht.
Qed.
#[export] Instance delivered_proper :
  Proper ((≡) ==> (=) ==> (=) ==> (=) ==> (≡ₚ)) delivered.
Proof.
  intros t1 t2 Ht exchange _ <- key _ <- m _ <-. unfold delivered.
  apply concat_fmap_perm; [|done]. destruct (out_expiration m); [|by rewrite Ht].
  apply concat_fmap_perm; [by rewrite Ht|]. intros q. by rewrite Ht.
Qed.

(** The topology that a broker has. *)
Definition represents (v : view) (t : topology) : Prop :=
  (∀ n, fst <$> exchange_at v n = dget n (exchanges t)) ∧ bound v ≡ₚ bindings t ∧
  (∀ q, mjoin (queue_at v q) = dget q (dead_letters t)).
#[export] Instance represents_proper : Proper ((≡) ==> (≡) ==> iff) represents.
Proof.
  intros v1 v2 (Hv1 & Hv2 & Hv3) t1 t2 (Ht1 & Ht2 & Ht3). unfold represents.
  rewrite Hv3, Ht2. setoid_rewrite Hv1. setoid_rewrite Hv2. setoid_rewrite Ht1.
  by setoid_rewrite Ht3.
Qed.

(** The topology that declarations ask for. *)
Definition topology_of (ds : list declaration) : topology :=
  {| exchanges := omap (λ d, match d with DeclareExchange n t _ => Some (n, t) | _ => None end) ds;
     bindings := omap (λ d, match d with Bind s e k => Some (s, e, k) | _ => None end) ds;
     dead_letters := omap (λ d, match d with DeclareQueue q (Some x) => Some (q, x)
                                | _ => None end) ds |}.

(** ** Theorems *)

(** *** Declarations that agree *)

(** The broker has exactly the objects of the declarations. *)
Record declared (ds : list declaration) (v : view) : Prop := Declared {
  declared_exchange n t i : exchange_at v n = Some (t, i) ↔ DeclareExchange n t i ∈ ds;
  declared_queue q x : queue_at v q = Some x ↔ DeclareQueue q x ∈ ds;
  declared_bound s d k : (s, d, k) ∈ bound v ↔ Bind s d k ∈ ds;
  declared_nodup : NoDup (bound v) }.

#[export] Instance declared_proper ds : Proper ((≡) ==> iff) (declared ds).
Proof.
  assert (∀ v1 v2, v1 ≡ v2 → declared ds v1 → declared ds v2) as H.
  { intros v1 v2 (H1 & H2 & H3) [D1 D2 D3 D4]. constructor.
    - intros n t i. by rewrite <- H1.
    - intros q x. by rewrite <- H2.
    - intros s d k. by rewrite <- H3.
    - by rewrite <- H3. }
  intros v1 v2 Hv. split; by apply H.
Qed.

(** The arguments that every service declares a name with. *)
Definition exchange_args (n : string) : exchange_type * bool :=
  if decide (n = EXCHANGE_SCAN_INPUT_LEGACY ∨ n = EXCHANGE_SCAN_INPUT) then (FANOUT, false)
  else (TOPIC, negb (bool_decide (n = EXCHANGE_RESOLVER_SCAN))).
Definition queue_args (q : string) : option string :=
  if decide (q = QUEUE_SCAN_WAIT_LEGACY) then Some EXCHANGE_SCAN_POLLING_LEGACY
  else if decide (q = QUEUE_SCAN_WAIT) then Some EXCHANGE_SCAN_POLLING
  else if startswith (res_name "Resolver Req:") q then Some EXCHANGE_RESOLVER_SCAN_DLX
  else None.
Definition agrees (d : declaration) : Prop :=
  match d with
  | DeclareExchange n t i => (t, i) = exchange_args n
  | DeclareQueue q x => x = queue_args q
  | Bind _ _ _ => True
  end.
#[export] Instance agrees_dec d : Decision (agrees d).
Proof. destruct d; simpl; apply _. Defined.

(** What a binding needs is declared before it. *)
Definition exchange_in (n : string) (ds : list declaration) : bool :=
  existsb (λ d, match d with DeclareExchange n' _ _ => bool_decide (n' = n) | _ => false end) ds.
Definition queue_in (q : string) (ds : list declaration) : bool :=
  existsb (λ d, match d with DeclareQueue q' _ => bool_decide (q' = q) | _ => false end) ds.
Definition ends_in (ds : list declaration) (d : declaration) : bool :=
  match d with
  | Bind source (ToExchange e) _ => exchange_in source ds && exchange_in e ds
  | Bind source (ToQueue q) _ => exchange_in source ds && queue_in q ds
  | _ => true
  end.
Fixpoint in_order (before ds : list declaration) : bool :=
  match ds with
  | [] => true
  | d :: ds' => ends_in before d && in_order (before ++ [d]) ds'
  end.

Lemma exchange_in_spec n ds : exchange_in n ds = true ↔ ∃ t i, DeclareExchange n t i ∈ ds.
Proof.
  unfold exchange_in. rewrite existsb_exists. setoid_rewrite <- list_elem_of_In. split.
  - intros ([n' t i| |] & Hd & H); try done. apply bool_decide_eq_true in H as ->. eauto.
  - intros (t & i & H). exists (DeclareExchange n t i). by rewrite bool_decide_true.
Qed.
Lemma queue_in_spec q ds : queue_in q ds = true ↔ ∃ x, DeclareQueue q x ∈ ds.
Proof.
  unfold queue_in. rewrite existsb_exists. setoid_rewrite <- list_elem_of_In. split.
  - intros ([|q' x|] & Hd & H); try done. apply bool_decide_eq_true in H as ->. eauto.
  - intros (x & H). exists (DeclareQueue q x). by rewrite bool_decide_true.
Qed.

Lemma ends_in_mono ds ds' d : (∀ x, x ∈ ds → x ∈ ds') → ends_in ds d = true → ends_in ds' d = true.
Proof.
  intros Hsub. destruct d as [| |source [e|q] key]; simpl; try done;
    rewrite !andb_true_iff, !exchange_in_spec, ?queue_in_spec;
    intros [(? & ? & ?) Hd]; destruct_and?; (split; [by eauto|]); destruct_or?;
    repeat destruct Hd as [? Hd]; eauto.
Qed.
Lemma in_order_mono ds1 ds2 ds :
  (∀ x, x ∈ ds1 → x ∈ ds2) → in_order ds1 ds = true → in_order ds2 ds = true.
Proof.
  revert ds1 ds2. induction ds as [|d ds IH]; intros ds1 ds2 Hsub; simpl; [done|].
  rewrite !andb_true_iff. intros [H1 H2]. split; [by eapply ends_in_mono|].
  eapply IH; [|exact H2]. set_solver.
Qed.
Lemma in_order_app before ds1 ds2 :
  in_order before (ds1 ++ ds2) = in_order before ds1 && in_order (before ++ ds1) ds2.
Proof.
  revert before. induction ds1 as [|d ds1 IH]; intros before; simpl; [by rewrite app_nil_r|].
  by rewrite IH, <- !(assoc_L (++)), andb_assoc.
Qed.

(** A declaration that agrees with the others, and whose ends are declared, is
    taken. *)
Lemma acceptable_declared ds v d :
  declared ds v → Forall agrees (d :: ds) → ends_in ds d = true → acceptable v d = true.
Proof.
  intros [H1 H2 _ _] [Hd Hall]%Forall_cons Hends. rewrite Forall_forall in Hall.
  assert (Hex : ∀ n, exchange_in n ds = true → is_Some (exchange_at v n)).
  { intros n (t & i & ?%H1)%exchange_in_spec. by eexists. }
  assert (Hqu : ∀ q, queue_in q ds = true → is_Some (queue_at v q)).
  { intros q (x & ?%H2)%queue_in_spec. by eexists. }
  destruct d as [n t i|q x|source [e|q] key]; simpl in Hd, Hends |- *.
  - destruct (exchange_at v n) as [[t' i']|] eqn:Hn; [|done].
    apply H1, Hall in Hn. simpl in Hn. apply bool_decide_eq_true. congruence.
  - destruct (queue_at v q) as [x'|] eqn:Hq; [|done].
    apply H2, Hall in Hq. simpl in Hq. apply bool_decide_eq_true. congruence.
  - apply andb_true_iff in Hends as [?%Hex ?%Hex]. by rewrite !bool_decide_true.
  - apply andb_true_iff in Hends as [?%Hex ?%Hqu]. by rewrite !bool_decide_true.
Qed.

Lemma declared_after ds v d :
  declared ds v → acceptable v d = true → declared (ds ++ [d]) (after v d).
Proof.
  intros [H1 H2 H3 H4] Hacc. constructor.
  - intros n t i. rewrite elem_of_app, list_elem_of_singleton, <- H1.
    destruct d as [n' t' i'| |]; simpl; [|naive_solver..].
    case_decide; subst; [|naive_solver]. simpl in Hacc. destruct (exchange_at v n') eqn:Hn;
      [apply bool_decide_eq_true in Hacc|]; naive_solver.
  - intros q x. rewrite elem_of_app, list_elem_of_singleton, <- H2.
    destruct d as [|q' x'|]; simpl; [naive_solver| |naive_solver].
    case_decide; subst; [|naive_solver]. simpl in Hacc. destruct (queue_at v q') eqn:Hq;
      [apply bool_decide_eq_true in Hacc|]; naive_solver.
  - intros s e k. rewrite elem_of_app, list_elem_of_singleton, <- H3.
    destruct d as [| |s' e' k']; simpl; [naive_solver..|].
    case_decide; rewrite ?elem_of_app, ?list_elem_of_singleton; naive_solver.
  - destruct d as [| |s' e' k']; simpl; [done..|]. case_decide; [done|].
    apply NoDup_app. split_and!; [done| |apply NoDup_singleton].
    intros b Hb ->%list_elem_of_singleton. done.
Qed.

Section brokers.
Context {St : Type} `{AmqpBroker St}.

Lemma fresh_declared : declared [] (view_of (fresh : St)).
Proof.
  rewrite view_fresh. constructor; simpl; intros; try apply NoDup_nil_2; try set_solver.
Qed.

(** Declarations that agree and are in order are all taken. *)
Lemma declare_all_agree ds before (st : St) :
  declared before (view_of st) → Forall agrees (before ++ ds) → in_order before ds = true →
  ∃ st', declare_all ds st = Some st' ∧ declared (before ++ ds) (view_of st').
Proof.
  revert before st. induction ds as [|d ds IH]; intros before st Hdecl Hall Hord; simpl.
  - exists st. by rewrite app_nil_r.
  - simpl in Hord. apply andb_true_iff in Hord as [Hends Hord].
    assert (Hacc : acceptable (view_of st) d = true).
    { apply (acceptable_declared before); [done| |done].
      rewrite Forall_app, Forall_cons in Hall. constructor; tauto. }
    destruct (declare_accepted d st Hacc) as (st1 & -> & Hv). simpl.
    rewrite cons_middle, (assoc_L (++)) in Hall |- *.
    apply IH; [|done..]. rewrite Hv. by apply declared_after.
Qed.
End brokers.

(** *** What the services declare *)

(** All that a service with these tags declares, when both its brokers are one. *)
Definition service_declarations (tags : list string) : list declaration :=
  scan_declarations ++ resolver_declarations tags.

Lemma service_agrees : Forall agrees scan_declarations ∧ ∀ tags, Forall agrees (resolver_declarations tags).
Proof.
  split; [by apply (bool_decide_unpack (Forall agrees _)); vm_compute|].
  intros tags. unfold resolver_declarations. rewrite !Forall_app.
  split; [by apply (bool_decide_unpack (Forall agrees _)); vm_compute|].
  split; [|by apply (bool_decide_unpack (Forall agrees _)); vm_compute].
  apply Forall_concat, Forall_fmap, Forall_fmap, Forall_forall. intros tag _.
  repeat constructor.
Qed.

Lemma service_in_order : in_order [] scan_declarations = true ∧
  ∀ tags, in_order [] (resolver_declarations tags) = true.
Proof.
  split; [by vm_compute|]. intros tags. unfold resolver_declarations.
  rewrite !in_order_app. apply andb_true_iff. split; [by vm_compute|].
  rewrite app_nil_l, !andb_true_iff. split.
  - assert (∀ before, in_order (timeout_declarations ++ before)
              (concat (tag_declarations <$> queue_and_topic_tuples tags)) = true) as Htags.
    { induction tags as [|tag tags IH]; intros before; [done|].
      cbn [queue_and_topic_tuples fmap list_fmap concat]. rewrite in_order_app.
      apply andb_true_iff. split; [|rewrite <- (assoc_L (++)); apply IH].
      simpl. rewrite !andb_true_iff. split_and!; try done.
      apply queue_in_spec. eexists. apply elem_of_app. right. by apply list_elem_of_singleton. }
    specialize (Htags []). by rewrite app_nil_r in Htags.
  - eapply in_order_mono; [|by instantiate (1 := timeout_declarations); vm_compute]. set_solver.
Qed.

Lemma topology_of_app ds1 ds2 : topology_of (ds1 ++ ds2) =
  {| exchanges := exchanges (topology_of ds1) ++ exchanges (topology_of ds2);
     bindings := bindings (topology_of ds1) ++ bindings (topology_of ds2);
     dead_letters := dead_letters (topology_of ds1) ++ dead_letters (topology_of ds2) |}.
Proof. unfold topology_of. cbn [exchanges bindings dead_letters]. by rewrite !omap_app. Qed.

(** [Broker.setup] is what a service declares. *)
Lemma service_topology tags : topology_of (service_declarations tags) = setup tags.
Proof.
  unfold service_declarations, resolver_declarations. rewrite !topology_of_app.
  unfold setup. cbn [exchanges bindings dead_letters].
  assert (topology_of (concat (tag_declarations <$> queue_and_topic_tuples tags)) =
    {| exchanges := [];
       bindings := (λ qt, (EXCHANGE_RESOLVER_SCAN, ToQueue qt.1, qt.2)) <$> queue_and_topic_tuples tags;
       dead_letters := (λ qt, (qt.1, EXCHANGE_RESOLVER_SCAN_DLX)) <$> queue_and_topic_tuples tags |})
    as ->.
  { induction (queue_and_topic_tuples tags) as [|qt l IH]; [done|].
    cbn [fmap list_fmap concat]. by rewrite topology_of_app, IH. }
  cbn [exchanges bindings dead_letters]. f_equal.
  change (dead_letters (topology_of complete_declarations)) with (@nil (string * string)).
  by rewrite app_nil_r.
Qed.

Lemma routekey_inj tag tag' : make_routekey_for_tag tag = make_routekey_for_tag tag' → tag = tag'.
Proof.
  unfold make_routekey_for_tag. intros H. apply (inj (String.app _)) in H.
  change (String "." (tag +:+ ".#") = String "." (tag' +:+ ".#")) in H.
  injection H as H. by apply app_str_inj_r in H.
Qed.

Lemma setup_bindings_nodup tags : NoDup tags → NoDup (bindings (setup tags)).
Proof.
  intros Hnd. unfold setup. cbn [bindings]. rewrite !NoDup_app. split_and!.
  - by apply (bool_decide_unpack (NoDup _)); vm_compute.
  - intros b Hb. rewrite elem_of_app.
    intros [(qt & -> & _)%list_elem_of_fmap| ->%list_elem_of_singleton]; revert Hb;
      repeat (rewrite elem_of_cons; intros [[=] |Hb]; revert Hb); by intros ?%elem_of_nil.
  - unfold queue_and_topic_tuples. apply NoDup_fmap_2_strong; [|apply NoDup_fmap_2_strong; [|done]].
    + intros [q k] [q' k'] _ _ [= -> ->]. done.
    + intros t t' _ _ H%(f_equal snd). by apply routekey_inj.
  - intros b (qt & -> & (tag & -> & _)%list_elem_of_fmap)%list_elem_of_fmap.
    by intros ?%list_elem_of_singleton.
  - apply NoDup_singleton.
Qed.

Lemma dget_functional {V} (d : dict V) k v :
  (∀ v1 v2, (k, v1) ∈ d → (k, v2) ∈ d → v1 = v2) → dget k d = Some v ↔ (k, v) ∈ d.
Proof.
  induction d as [|[k' v'] d IH]; intros Hf; simpl; [split; [done|by intros ?%elem_of_nil]|].
  destruct (String.eqb_spec k k') as [->|Hne].
  - split; [intros [= ->]; by left|]. intros Hin. f_equal. apply Hf; [by left|done].
  - rewrite IH, elem_of_cons; [naive_solver|]. intros v1 v2 H1 H2. apply Hf; by right.
Qed.

Lemma declared_ext ds ds' v : (∀ d, d ∈ ds ↔ d ∈ ds') → declared ds v → declared ds' v.
Proof. intros Heq [H1 H2 H3 H4]. constructor; intros; rewrite <- ?Heq; done. Qed.

Lemma option_eq_some {A} (o1 o2 : option A) : (∀ a, o1 = Some a ↔ o2 = Some a) → o1 = o2.
Proof. intros H. apply option_eq. exact H. Qed.

Lemma declared_represents ds v :
  declared ds v → Forall agrees ds → NoDup (bindings (topology_of ds)) →
  represents v (topology_of ds).
Proof.
  intros [H1 H2 H3 H4] Hall Hnd. rewrite Forall_forall in Hall. unfold represents.
  assert (Hex : ∀ n t, (n, t) ∈ exchanges (topology_of ds) ↔ ∃ i, DeclareExchange n t i ∈ ds).
  { intros n t. cbn [topology_of exchanges]. rewrite list_elem_of_omap. split.
    - intros ([] & Hd & [=]); subst. eauto.
    - intros (i & Hd). eauto. }
  assert (Hdl : ∀ q x, (q, x) ∈ dead_letters (topology_of ds) ↔ DeclareQueue q (Some x) ∈ ds).
  { intros q x. cbn [topology_of dead_letters]. rewrite list_elem_of_omap. split.
    - intros ([|? []|] & Hd & [=]); by subst.
    - intros Hd. by exists (DeclareQueue q (Some x)). }
  split_and!.
  - intros n. apply option_eq_some. intros t. rewrite dget_functional, Hex.
    2: { intros t1 t2 [i1 Hi1%Hall]%Hex [i2 Hi2%Hall]%Hex. simpl in Hi1, Hi2. congruence. }
    rewrite fmap_Some. setoid_rewrite <- H1. split.
    + intros ([t' i] & Hi & ->). by exists i.
    + intros [i Hi]. by exists (t, i).
  - apply NoDup_Permutation; [done..|]. intros [[s d] k]. rewrite H3.
    cbn [topology_of bindings]. rewrite list_elem_of_omap. split.
    + intros Hd. by exists (Bind s d k).
    + intros ([] & Hd & [=]). by subst.
  - intros q. apply option_eq_some. intros x. rewrite dget_functional, Hdl.
    2: { intros x1 x2 Hx1%Hdl%Hall Hx2%Hdl%Hall. simpl in Hx1, Hx2. congruence. }
    rewrite <- H2. destruct (queue_at v q) as [[]|]; simpl; naive_solver.
Qed.

Lemma represents_unique v t1 t2 : represents v t1 → represents v t2 → t1 ≡ t2.
Proof.
  intros (H1 & H2 & H3) (H1' & H2' & H3'). split_and!; [congruence|by rewrite <- H2|congruence].
Qed.

Lemma elem_of_concat_fmap {A C} (f : A → list C) l y :
  y ∈ concat (f <$> l) ↔ ∃ x, x ∈ l ∧ y ∈ f x.
Proof.
  rewrite list_elem_of_In, in_concat. setoid_rewrite <- list_elem_of_In.
  setoid_rewrite list_elem_of_fmap. naive_solver.
Qed.

(** *** Runs of the programs *)
Lemma declare_each_ok amqp ds tr :
  exec (declare_each amqp ds) tr (Ok tt) → events tr = DeclareOn amqp <$> ds.
Proof.
  revert tr. induction ds as [|d ds IH]; intros tr H; [by destruct H as [-> _]|].
  cbn [declare_each] in H. call_step H as [([] & tr1 & -> & H)|(x & -> & ?)]; [|done]. apply IH in H.
  change (DeclareOn amqp d :: events tr1 = DeclareOn amqp d :: (DeclareOn amqp <$> ds)). by rewrite H.
Qed.

Lemma on_channel_ok amqp body tr :
  exec (on_channel amqp body) tr (Ok tt) →
  ∃ tr1, exec body tr1 (Ok tt) ∧
    events tr = Connect amqp :: OpenChannelOn amqp :: events tr1 ++ [CloseChannelOn amqp].
Proof.
  unfold on_channel. intros H. call_step H as [([] & tr1 & -> & H)|(x & -> & ?)]; [|done].
  call_step H as [([] & tr2 & -> & H)|(x & -> & ?)]; [|done].
  apply exec_on_outcome in H as (o & tr3 & tr4 & -> & H1 & H).
  call_step H as [([] & tr5 & -> & H)|(x & -> & ?)]; [|done].
  apply exec_lift in H as [-> <-]. exists tr3. split; [done|].
  change (Connect amqp :: OpenChannelOn amqp :: events (tr3 ++ [Obs (CloseChannelOn amqp) (Ok tt)]) =
    Connect amqp :: OpenChannelOn amqp :: events tr3 ++ [CloseChannelOn amqp]).
  by rewrite events_app.
Qed.

(** What the setup of a service does when nothing raises. *)
Lemma setup_service_ok s tr :
  exec (setup_service s) tr (Ok tt) → ∃ tags, declared_tags s = Ok tags ∧
  let pr := pr_amqp (fs_pr s) in let rs := rs_amqp (fs_resolver s) in
  events tr = [Connect pr; OpenChannelOn pr] ++ (DeclareOn pr <$> scan_declarations) ++
    [CloseChannelOn pr; Connect rs; OpenChannelOn rs] ++
    (DeclareOn rs <$> resolver_declarations tags) ++ [CloseChannelOn rs].
Proof.
  intros H. unfold setup_service in H.
  apply exec_bind_ok in H as ([] & tr1 & tr2 & -> & H1 & H2).
  apply on_channel_ok in H1 as (tr3 & H1%declare_each_ok & Hev1).
  apply on_channel_ok in H2 as (tr4 & H2 & Hev2).
  apply exec_bind_ok in H2 as ([] & tr5 & tr6 & -> & H2%declare_each_ok & H3).
  apply exec_lift_bind_ok in H3 as (tags & Htags & H3).
  apply exec_bind_ok in H3 as ([] & tr7 & tr8 & -> & H3%declare_each_ok & H4%declare_each_ok).
  exists tags. split; [done|]. simpl.
  rewrite events_app, Hev1, Hev2, !events_app, H1, H2, H3, H4.
  unfold resolver_declarations. rewrite !fmap_app, <- !(assoc_L (++)). reflexivity.
Qed.

Section monikers.
Context (repr : json → string).

(** The body runs for every service, in the order of the configuration. *)
Lemma for_monikers_ok r body tr :
  routes_wf r → exec (for_monikers repr r (get_service_monikers r) body) tr (Ok tt) →
  ∃ trs, tr = concat trs ∧
    Forall2 (λ ms t, exec (body ms.1 ms.2) t (Ok tt)) (by_moniker r) trs.
Proof.
  intros [Hnd _ Hh]. unfold get_service_monikers.
  assert (∀ l, (∀ ms, ms ∈ l → ms ∈ by_moniker r) → ∀ tr,
    exec (for_monikers repr r l.*1 body) tr (Ok tt) →
    ∃ trs, tr = concat trs ∧ Forall2 (λ ms t, exec (body ms.1 ms.2) t (Ok tt)) l trs) as Hl;
    [|by apply Hl].
  induction l as [|[m s] l IH]; intros Hin tr' H.
  { destruct H as [-> _]. by exists []. }
  cbn [fmap list_fmap for_monikers fst] in H.
  apply exec_lift_bind_ok in H as (s' & Hs & H).
  unfold retrieve_services_by_moniker in Hs. assert (Hms : (m, s) ∈ by_moniker r) by (apply Hin; by left).
  rewrite (Hh _ _ Hms), (assoc_NoDup _ _ _ Hnd Hms) in Hs. injection Hs as <-.
  apply exec_bind_ok in H as ([] & tr1 & tr2 & -> & H1 & H).
  apply IH in H as (trs & -> & Htrs); [|intros; apply Hin; by right].
  exists (tr1 :: trs). split; [done|]. by constructor.
Qed.
End monikers.

(** *** The topology of a deployment *)
Section topology_of_deployment.
Context {B : Type} `{EqDecision B} (broker_at : amqp_settings → B).
Context {St : Type} {Hbroker : AmqpBroker St}.

(** The declarations that a broker gets of a run. *)
Definition declared_on (a : B) (evs : list deploy_ev) : list declaration :=
  omap (λ e, match e with
             | DeclareOn amqp d => if decide (broker_at amqp = a) then Some d else None
             | _ => None
             end) evs.

Definition scans_on (a : B) (s : flow_services) : Prop := broker_at (pr_amqp (fs_pr s)) = a.
Definition resolver_on (a : B) (s : flow_services) : Prop :=
  broker_at (rs_amqp (fs_resolver s)) = a.
#[export] Instance scans_on_dec a s : Decision (scans_on a s).
Proof. unfold scans_on. apply _. Defined.
#[export] Instance resolver_on_dec a s : Decision (resolver_on a s).
Proof. unfold resolver_on. apply _. Defined.

(** The tags of the services whose delegated scans go through a broker. *)
Definition tags_on (a : B) (r : routes) : list string :=
  remove_dups (concat ((λ ms : json * flow_services,
    if decide (resolver_on a ms.2)
    then match declared_tags ms.2 with Ok tags => tags | Err _ => [] end else [])
    <$> by_moniker r)).

Definition declared_by (a : B) (s : flow_services) : list declaration :=
  (if decide (scans_on a s) then scan_declarations else []) ++
  (if decide (resolver_on a s)
   then match declared_tags s with Ok tags => resolver_declarations tags | Err _ => [] end
   else []).

Lemma declared_on_app a l1 l2 : declared_on a (l1 ++ l2) = declared_on a l1 ++ declared_on a l2.
Proof. apply omap_app. Qed.
Lemma declared_on_declare a amqp ds :
  declared_on a (DeclareOn amqp <$> ds) = if decide (broker_at amqp = a) then ds else [].
Proof.
  unfold declared_on. induction ds as [|d ds IH]; [by case_decide|]. csimpl. rewrite IH.
  by case_decide.
Qed.

Lemma setup_service_declared a s tr :
  exec (setup_service s) tr (Ok tt) → declared_on a (events tr) = declared_by a s.
Proof.
  intros (tags & Htags & ->)%setup_service_ok. unfold declared_by, scans_on, resolver_on.
  rewrite !declared_on_app, !declared_on_declare, Htags. simpl. by rewrite app_nil_r.
Qed.

Lemma setup_all_declared repr r tr a :
  routes_wf r → exec (setup_all repr r) tr (Ok tt) →
  declared_on a (events tr) = concat (declared_by a <$> (by_moniker r).*2).
Proof.
  intros Hwf (trs & -> & Htrs)%for_monikers_ok; [|done].
  induction Htrs as [|[m s] t l trs H1 _ IH]; [done|]. cbn [concat fmap list_fmap snd].
  rewrite events_app, declared_on_app, (setup_service_declared a s) by done. by f_equal.
Qed.

Lemma declared_by_agrees a s : Forall agrees (declared_by a s).
Proof.
  unfold declared_by. apply Forall_app.
  split; (case_decide; [|constructor]); [apply service_agrees|].
  destruct (declared_tags s); [apply service_agrees|constructor].
Qed.
Lemma declared_by_in_order a s : in_order [] (declared_by a s) = true.
Proof.
  unfold declared_by. rewrite in_order_app. apply andb_true_iff.
  destruct service_in_order as [H1 H2]. split; [by case_decide|].
  eapply (in_order_mono []); [set_solver|]. case_decide; [|done]. by destruct (declared_tags s).
Qed.

Lemma blocks_agree a ss :
  Forall agrees (concat (declared_by a <$> ss)) ∧ in_order [] (concat (declared_by a <$> ss)) = true.
Proof.
  split.
  - apply Forall_concat, Forall_fmap, Forall_forall. intros s _. apply declared_by_agrees.
  - induction ss as [|s ss IH]; [done|]. cbn [fmap list_fmap concat]. rewrite in_order_app.
    rewrite declared_by_in_order, app_nil_l. eapply (in_order_mono []); [set_solver|exact IH].
Qed.

Lemma elem_resolver_declarations tags d :
  d ∈ resolver_declarations tags ↔
    d ∈ timeout_declarations ++ complete_declarations ∨
    ∃ tag, tag ∈ tags ∧ d ∈ tag_declarations (make_queuename_for_tag tag, make_routekey_for_tag tag).
Proof.
  unfold resolver_declarations, queue_and_topic_tuples.
  rewrite !elem_of_app, <- list_fmap_compose, elem_of_concat_fmap. unfold compose. tauto.
Qed.

Lemma elem_deployment a r d :
  (∃ s, s ∈ (by_moniker r).*2 ∧ scans_on a s) →
  (∃ s tags, s ∈ (by_moniker r).*2 ∧ resolver_on a s ∧ declared_tags s = Ok tags) →
  d ∈ concat (declared_by a <$> (by_moniker r).*2) ↔ d ∈ service_declarations (tags_on a r).
Proof.
  intros (s1 & Hs1 & Hscan) (s2 & tags2 & Hs2 & Hres & Htags2).
  assert (Htag : ∀ tag, tag ∈ tags_on a r ↔ ∃ s tags, s ∈ (by_moniker r).*2 ∧ resolver_on a s ∧
            declared_tags s = Ok tags ∧ tag ∈ tags).
  { intros tag. unfold tags_on. rewrite elem_of_remove_dups, elem_of_concat_fmap. split.
    - intros (ms & Hms & Hin). case_decide; [|by apply elem_of_nil in Hin].
      destruct (declared_tags ms.2) as [tags|] eqn:Ht; [|by apply elem_of_nil in Hin].
      exists ms.2, tags. split_and!; [by apply list_elem_of_fmap_2|done..].
    - intros (s & tags & (ms & -> & Hms)%list_elem_of_fmap & Hon & Ht & Hin).
      exists ms. by rewrite decide_True, Ht. }
  rewrite elem_of_concat_fmap.
  unfold service_declarations. rewrite elem_of_app, elem_resolver_declarations.
  setoid_rewrite Htag. split.
  - intros (s & Hs & Hin). unfold declared_by in Hin. apply elem_of_app in Hin as [Hin|Hin].
    + case_decide; [by left|by apply elem_of_nil in Hin].
    + case_decide; [|by apply elem_of_nil in Hin].
      destruct (declared_tags s) as [tags|] eqn:Ht; [|by apply elem_of_nil in Hin].
      apply elem_resolver_declarations in Hin as [Hin|(tag & ? & ?)]; [by right; left|].
      right. right. exists tag. split; [|done]. by exists s, tags.
  - unfold declared_by. intros [Hin|[Hin|(tag & (s & tags & ? & ? & Ht & ?) & Hin)]].
    + exists s1. split; [done|]. apply elem_of_app. left. by rewrite decide_True.
    + exists s2. split; [done|]. apply elem_of_app. right. rewrite decide_True, Htags2 by done.
      apply elem_resolver_declarations. by left.
    + exists s. split; [done|]. apply elem_of_app. right. rewrite decide_True, Ht by done.
      apply elem_resolver_declarations. right. by exists tag.
Qed.

Lemma service_tags_ok repr r tr s :
  routes_wf r → exec (setup_all repr r) tr (Ok tt) → s ∈ (by_moniker r).*2 →
  ∃ tags, declared_tags s = Ok tags.
Proof.
  intros Hwf (trs & -> & Htrs)%for_monikers_ok (ms & -> & Hms)%list_elem_of_fmap; [|done].
  apply list_elem_of_lookup in Hms as [i Hi].
  destruct (Forall2_lookup_l _ _ _ _ _ Htrs Hi) as (t & _ & (tags & Ht & _)%setup_service_ok).
  by exists tags.
Qed.

(** C21: A deployment that was set up has the topology that the messages rely on.
    Whatever services there are and however they share their brokers, the
    declarations of a run that returns never contradict one another: a broker
    that scans and delegated scans go through takes all of them, and all of them
    again when the setup is repeated, and has then the topology of one service
    with the tags of all of them; so it delivers every message as that does. *)
Theorem deployment_topology repr r tr a :
  routes_wf r → exec (setup_all repr r) tr (Ok tt) →
  (∃ s, s ∈ (by_moniker r).*2 ∧ scans_on a s) →
  (∃ s, s ∈ (by_moniker r).*2 ∧ resolver_on a s) →
  let ds := declared_on a (events tr) in
  ∃ st, declare_all ds (fresh : St) = Some st ∧
    represents (view_of st) (setup (tags_on a r)) ∧
    (∃ st', declare_all ds st = Some st' ∧ represents (view_of st') (setup (tags_on a r))) ∧
    ∀ t exchange key m, represents (view_of st) t →
      delivered t exchange key m ≡ₚ delivered (setup (tags_on a r)) exchange key m.
Proof.
  intros Hwf Hrun Hscan (s & Hs & Hon) ds.
  destruct (service_tags_ok _ _ _ s Hwf Hrun Hs) as [tags Htags].
  assert (Hds : ds = concat (declared_by a <$> (by_moniker r).*2)) by by eapply setup_all_declared.
  destruct (blocks_agree a (by_moniker r).*2) as [Hagree Hord]. rewrite <- Hds in Hagree, Hord.
  assert (Hrep : ∀ ds' st, declared ds' (view_of st) → (∀ d, d ∈ ds' ↔ d ∈ ds) →
            represents (view_of (St:=St) st) (setup (tags_on a r))).
  { intros ds' st Hd Heq. rewrite <- service_topology. apply declared_represents.
    - eapply declared_ext; [|exact Hd]. intros d. rewrite Heq, Hds.
      apply elem_deployment; [done|]. by exists s, tags.
    - apply Forall_app. destruct service_agrees. auto.
    - rewrite service_topology. apply setup_bindings_nodup, NoDup_remove_dups. }
  destruct (declare_all_agree ds [] (fresh : St) fresh_declared Hagree Hord) as (st & Hst & Hd).
  destruct (declare_all_agree ds ds st Hd) as (st' & Hst' & Hd'); [by apply Forall_app| |].
  { eapply in_order_mono; [|exact Hord]. set_solver. }
  exists st. split_and!; [done|by eapply Hrep| |].
  - exists st'. split; [done|]. eapply Hrep; [exact Hd'|]. set_solver.
  - intros t exchange key m Ht. rewrite (represents_unique _ _ _ Ht (Hrep _ _ Hd ltac:(done))). done.
Qed.

(** *** The agents of a deployment *)

(** The tasks that a run started. *)
Definition created (evs : list deploy_ev) : list agent_task :=
  omap (λ e, match e with CreateTask t => Some t | _ => None end) evs.

Lemma create_tasks_ok ts tr : exec (create_tasks ts) tr (Ok tt) → created (events tr) = ts.
Proof.
  revert tr. induction ts as [|t ts IH]; intros tr H; [by destruct H as [-> _]|].
  cbn [create_tasks] in H. call_step H as [([] & tr1 & -> & H)|(x & -> & ?)]; [|done].
  call_step H as [([] & tr2 & -> & H)|(x & -> & ?)]; [|done]. apply IH in H.
  change (t :: created (events tr2) = t :: ts). by rewrite H.
Qed.

Lemma spawn_agents_ok repr r tr :
  routes_wf r → exec (spawn_agents repr r) tr (Ok tt) →
  created (events tr) = concat ((λ ms : json * flow_services, spawned ms.1 ms.2) <$> by_moniker r).
Proof.
  intros Hwf (trs & -> & Htrs)%for_monikers_ok; [|done].
  induction Htrs as [|ms t l trs H1%create_tasks_ok _ IH]; [done|]. cbn [concat fmap list_fmap].
  rewrite events_app. unfold created in *. rewrite omap_app. by f_equal.
Qed.

Lemma service_agents m s tags a :
  declared_tags s = Ok tags →
  (∀ t, t ∈ spawned m s → broker_at (at_broker t) = a →
     DeclareQueue (at_queue t) None ∈ declared_by a s ∧ (at_queue t, at_handler t) ∈ consumers) ∧
  (∀ q, DeclareQueue q None ∈ declared_by a s →
     ∃ t, t ∈ spawned m s ∧ broker_at (at_broker t) = a ∧ at_queue t = q).
Proof.
  intros Htags. unfold declared_by. rewrite Htags. split.
  - assert (Hpr : ∀ q, bool_decide (DeclareQueue q None ∈ scan_declarations) = true →
              scans_on a s → DeclareQueue q None ∈
                (if decide (scans_on a s) then scan_declarations else []) ++
                (if decide (resolver_on a s) then resolver_declarations tags else [])).
    { intros q Hq%bool_decide_eq_true Hon. rewrite decide_True by done. apply elem_of_app. by left. }
    assert (Hrs : ∀ q, bool_decide (DeclareQueue q None ∈ timeout_declarations ++ complete_declarations) = true →
              resolver_on a s → DeclareQueue q None ∈
                (if decide (scans_on a s) then scan_declarations else []) ++
                (if decide (resolver_on a s) then resolver_declarations tags else [])).
    { intros q Hq%bool_decide_eq_true Hon. rewrite (decide_True (P:=resolver_on a s)) by done.
      apply elem_of_app. right. apply elem_resolver_declarations. by left. }
    intros t Ht Hon. unfold spawned in Ht.
    repeat (apply elem_of_cons in Ht as [->|Ht];
      [split; [first [apply Hpr; [reflexivity|exact Hon]|apply Hrs; [reflexivity|exact Hon]]
              |apply (bool_decide_unpack (_ ∈ consumers)); reflexivity]|]).
    by apply elem_of_nil in Ht.
  - assert (Htask : ∀ (ds : list declaration) ts, (∀ t, t ∈ ts → t ∈ spawned m s) →
      Forall (λ t, broker_at (at_broker t) = a) ts →
      forallb (λ d, match d with DeclareQueue q None => bool_decide (q ∈ at_queue <$> ts)
                           | _ => true end) ds = true →
      ∀ q, DeclareQueue q None ∈ ds →
      ∃ t, t ∈ spawned m s ∧ broker_at (at_broker t) = a ∧ at_queue t = q).
    { intros ds ts Hsub Hon Hall q Hin. rewrite Forall_forall in Hon.
      rewrite forallb_forall in Hall. apply list_elem_of_In, Hall, bool_decide_eq_true in Hin.
      apply list_elem_of_fmap in Hin as (t & -> & Ht). exists t. auto. }
    intros q [Hin|Hin]%elem_of_app; (case_decide as Hon; [|by apply elem_of_nil in Hin]).
    + eapply (Htask scan_declarations (take 7 (spawned m s))); [|by repeat constructor| |done].
      * intros t Ht. rewrite <- (take_drop 7). apply elem_of_app. by left.
      * reflexivity.
    + apply elem_resolver_declarations in Hin as [Hin|(tag & _ & Hin)].
      * eapply (Htask _ (drop 7 (spawned m s))); [|by repeat constructor| |exact Hin].
        -- intros t Ht. rewrite <- (take_drop 7). apply elem_of_app. by right.
        -- reflexivity.
      * by apply elem_of_cons in Hin as [[=]|[[=]|?%elem_of_nil]%elem_of_cons].
Qed.

(** The agents fit the topology: each consumes a queue that the setup declared on
    its broker, with the handler that the routes of the messages assume; and every
    queue whose messages do not expire has an agent on its broker. *)
Theorem agents_consume_queues repr r tr1 tr2 :
  routes_wf r → exec (setup_all repr r) tr1 (Ok tt) → exec (spawn_agents repr r) tr2 (Ok tt) →
  (∀ t, t ∈ created (events tr2) →
     DeclareQueue (at_queue t) None ∈ declared_on (broker_at (at_broker t)) (events tr1) ∧
     (at_queue t, at_handler t) ∈ consumers) ∧
  (∀ a q, DeclareQueue q None ∈ declared_on a (events tr1) →
     ∃ t, t ∈ created (events tr2) ∧ broker_at (at_broker t) = a ∧ at_queue t = q).
Proof.
  intros Hwf H1 H2. rewrite (spawn_agents_ok _ _ _ Hwf H2).
  assert (Hdecl : ∀ a d, d ∈ declared_on a (events tr1) ↔
            ∃ ms, ms ∈ by_moniker r ∧ d ∈ declared_by a ms.2).
  { intros a d. rewrite (setup_all_declared _ _ _ _ Hwf H1), <- list_fmap_compose.
    apply elem_of_concat_fmap. }
  assert (Htags : ∀ ms, ms ∈ by_moniker r → ∃ tags, declared_tags ms.2 = Ok tags).
  { intros ms Hms. eapply service_tags_ok; [done|exact H1|by apply list_elem_of_fmap_2]. }
  setoid_rewrite Hdecl. setoid_rewrite elem_of_concat_fmap. split.
  - intros t (ms & Hms & Ht). destruct (Htags _ Hms) as [tags Hok].
    destruct (service_agents ms.1 ms.2 tags (broker_at (at_broker t)) Hok) as [Hin _].
    destruct (Hin t Ht eq_refl). eauto.
  - intros a q (ms & Hms & Hq). destruct (Htags _ Hms) as [tags Hok].
    destruct (service_agents ms.1 ms.2 tags a Hok) as [_ Hout].
    destruct (Hout q Hq) as (t & Ht & Hon & Hqt). eauto 6.
Qed.

(** *** Services that share a broker *)
Section sharing.
Context (verify_private verify_public : string → string → string → outcome unit).
Context (details_binary : DelegatedScanDetails → string).
Context (delegated_from_binary : string → outcome DelegatedScanMessage).
Context (result_from_binary : string → outcome DelegatedScanResultMessage).

(** A message that the services of an agent do not vouch for: their key gives
    another signature, or they have no key. *)
Definition not_mine (rs : resolver_service) (signature : string) (d : DelegatedScanDetails) : Prop :=
  signature_valid verify_private verify_public rs signature (details_binary d) = Ok false ∨
  rsv_workflow rs = DummyResolverScanningWorkflow.

Lemma refused {A} (o : outcome A) k tr out :
  (∃ e, is_BaseException e = true ∧ ∀ tr1 o1, exec (bindP (lift o) k) tr1 o1 → tr1 = [] ∧ o1 = Err e) →
  exec (catch is_BaseException (bindP (lift o) k) (λ _, res_nack false)) tr out →
  events tr = [inr (ResNack false)].
Proof.
  intros (e & He & Hk) H. apply exec_on_outcome in H as (o1 & tr1 & tr2 & -> & H1 & H).
  apply Hk in H1 as [-> ->]. rewrite He in H. unfold res_nack, res_call in H. last_call H. by subst.
Qed.

Lemma not_mine_refused rs signature d (k : bool → res_prog unit) tr out :
  not_mine rs signature d → k false = Raise AttributeError →
  exec (catch is_BaseException
    (let! valid := lift (signature_valid verify_private verify_public rs signature (details_binary d)) in
     k valid) (λ _, res_nack false)) tr out →
  events tr = [inr (ResNack false)].
Proof.
  intros Hmine Hk. apply refused. destruct Hmine as [->|Hw].
  - exists AttributeError. split; [done|]. intros tr1 o1 H. change (exec (k false) tr1 o1) in H.
    by rewrite Hk in H.
  - exists NotImplementedError. split; [done|]. unfold signature_valid. rewrite Hw. by intros.
Qed.

(** Services that share a broker lose each other's delegated scans.  Each starts
    its own agents of results and of timeouts on the same two queues, so the
    broker gives a message to either; an agent checks it with the key of its own
    services, whatever the service that the message names.  With another key, or
    with none because its service has no scan agents, it refuses the message,
    which does not go back to the queue, and neither queue dead-letters it: the
    result of a scan that was made is dropped, and a request that timed out is
    neither repeated nor failed. *)
Theorem shared_broker_loses_results repr r tr a s1 s2 rs2 :
  routes_wf r → exec (spawn_agents repr r) tr (Ok tt) →
  s1 ∈ (by_moniker r).*2 → s2 ∈ (by_moniker r).*2 → resolver_on a s1 → resolver_on a s2 →
  resolver_of repr s2 = Ok rs2 →
  (∀ s, s = s1 ∨ s = s2 →
     (∃ t, t ∈ created (events tr) ∧ broker_at (at_broker t) = a ∧
        at_queue t = QUEUE_RESOLVER_COMPLETE ∧ at_services t = Some s) ∧
     (∃ t, t ∈ created (events tr) ∧ broker_at (at_broker t) = a ∧
        at_queue t = QUEUE_RESOLVER_TIMEOUT ∧ at_services t = Some s)) ∧
  (∀ msg m tr' o, result_from_binary (in_body msg) = Ok m →
     not_mine rs2 (dr_signature m) (dr_details m) →
     exec (results_agent verify_private verify_public details_binary result_from_binary rs2 msg) tr' o →
     events tr' = [inr (ResNack false)]) ∧
  (∀ msg m tr' o, delegated_from_binary (in_body msg) = Ok m →
     not_mine rs2 (ds_signature m) (ds_details m) →
     exec (timeout_agent verify_private verify_public details_binary delegated_from_binary rs2 msg) tr' o →
     events tr' = [inr (ResNack false)]) ∧
  dget QUEUE_RESOLVER_COMPLETE (dead_letters (setup (tags_on a r))) = None ∧
  dget QUEUE_RESOLVER_TIMEOUT (dead_letters (setup (tags_on a r))) = None.
Proof.
  intros Hwf Hrun Hs1 Hs2 Hon1 Hon2 _. split_and!.
  - intros s Hs. rewrite (spawn_agents_ok _ _ _ Hwf Hrun). setoid_rewrite elem_of_concat_fmap.
    assert (s ∈ (by_moniker r).*2 ∧ resolver_on a s) as [Hin Hon] by (destruct Hs as [->| ->]; done).
    apply list_elem_of_fmap in Hin as (ms & -> & Hms).
    split; [exists (AgentTask H_resolver_results (rs_amqp (fs_resolver ms.2)) ms.1
                      QUEUE_RESOLVER_COMPLETE (Some ms.2))
           |exists (AgentTask H_resolver_timeout (rs_amqp (fs_resolver ms.2)) ms.1
                      QUEUE_RESOLVER_TIMEOUT (Some ms.2))];
      (split_and!; [exists ms; split; [done|]|exact Hon|done..]);
      unfold spawned; repeat first [apply list_elem_of_here|apply list_elem_of_further].
  - intros msg m tr' o Hm Hmine H. unfold results_agent, safe_deserialize in H. rewrite Hm in H.
    revert H. by apply not_mine_refused.
  - intros msg m tr' o Hm Hmine H. unfold timeout_agent, safe_deserialize in H. rewrite Hm in H.
    revert H. by apply not_mine_refused.
  - unfold setup. cbn [dead_letters]. by induction (tags_on a r).
  - unfold setup. cbn [dead_letters]. by induction (tags_on a r).
Qed.
End sharing.
End topology_of_deployment.

(** ** Witnesses *)

(** A broker that is what is seen of it. *)
#[export] Instance view_broker : AmqpBroker view.
Proof.
  refine {| fresh := empty_view; view_of := id;
            declare := λ d v, if acceptable v d then Some (after v d) else None |}.
  - done.
  - intros d v Hd. exists (after v d). unfold id in Hd. by rewrite Hd.
  - intros d v Hd. unfold id in Hd. by rewrite Hd.
Defined.

(** Every call of a deployment succeeds. *)
Definition demo_deploy_world (n : nat) (e : deploy_ev) : outcome (deploy_resp e) * nat := (Ok tt, n).
Definition demo_setup_run : deploy_prog unit := setup_all (λ _, "") Dispatch.demo_routes.
Definition demo_spawn_run : deploy_prog unit := spawn_agents (λ _, "") Dispatch.demo_routes.
Lemma demo_routes_wf : routes_wf Dispatch.demo_routes.
Proof.
  unfold Dispatch.demo_routes. destruct (run_outcome demo_git_world 0 demo_boot) as [r|e] eqn:Hr.
  - pose proof (exec_run demo_git_world 0 demo_boot) as H. rewrite Hr in H. by apply boot_wf in H.
  - vm_compute in Hr. discriminate Hr.
Qed.
Lemma demo_service (f : flow_services → bool) :
  existsb f (by_moniker Dispatch.demo_routes).*2 = true →
  ∃ s, s ∈ (by_moniker Dispatch.demo_routes).*2 ∧ f s = true.
Proof.
  rewrite existsb_exists. intros (s & Hs & Hf). exists s. by rewrite list_elem_of_In.
Qed.

Lemma deployment_topology_witness :
  ∃ st : view, declare_all (declared_on amqp_url (JStr "amqp://localhost:5672")
                    (events (run_trace demo_deploy_world 0 demo_setup_run))) fresh = Some st ∧
    represents (view_of st) (setup (tags_on amqp_url (JStr "amqp://localhost:5672") Dispatch.demo_routes)).
Proof.
  destruct (deployment_topology (St:=view) amqp_url (λ _, "") Dispatch.demo_routes
    (run_trace demo_deploy_world 0 demo_setup_run) (JStr "amqp://localhost:5672") demo_routes_wf
    (exec_run demo_deploy_world 0 demo_setup_run)) as (st & Hst & Hrep & _).
  - destruct (demo_service (λ s, bool_decide (scans_on amqp_url (JStr "amqp://localhost:5672") s)))
      as (s & Hs & Hon%bool_decide_eq_true); [by vm_compute|by exists s].
  - destruct (demo_service (λ s, bool_decide (resolver_on amqp_url (JStr "amqp://localhost:5672") s)))
      as (s & Hs & Hon%bool_decide_eq_true); [by vm_compute|by exists s].
  - exists st. exact (conj Hst Hrep).
Defined.

Lemma agents_consume_queues_witness :
  ∃ t, t ∈ created (events (run_trace demo_deploy_world 0 demo_spawn_run)) ∧
    amqp_url (at_broker t) = JStr "amqp://localhost:5672" ∧ at_queue t = QUEUE_SCAN_POLLING.
Proof.
  apply (proj2 (agents_consume_queues amqp_url (λ _, "") Dispatch.demo_routes
    (run_trace demo_deploy_world 0 demo_setup_run) (run_trace demo_deploy_world 0 demo_spawn_run)
    demo_routes_wf (exec_run demo_deploy_world 0 demo_setup_run)
    (exec_run demo_deploy_world 0 demo_spawn_run)) (JStr "amqp://localhost:5672")).
  apply (bool_decide_unpack (_ ∈ _)). by vm_compute.
Defined.

(** Neither of the two services has scan agents; a result signed for another. *)
Lemma shared_broker_loses_results_witness :
  ∃ s1 s2 rs2, scm_moniker (fs_scm s1) = JStr "first" ∧ scm_moniker (fs_scm s2) = JStr "second" ∧
    resolver_of (λ _, "") s2 = Ok rs2 ∧
    events (run_trace demo_res_world 0 (results_agent demo_verify demo_verify demo_details_binary
      (λ _, Ok demo_result) rs2 (Incoming "result" [] ""))) = [inr (ResNack false)].
Proof.
  destruct (demo_service (λ s, bool_decide (scm_moniker (fs_scm s) = JStr "first" ∧
      resolver_on amqp_url (JStr "amqp://localhost:5672") s)))
    as (s1 & Hs1 & [Hm1 Hon1]%bool_decide_eq_true); [by vm_compute|].
  destruct (demo_service (λ s, bool_decide (scm_moniker (fs_scm s) = JStr "second" ∧
      resolver_on amqp_url (JStr "amqp://localhost:5672") s)
      && match resolver_of (λ _, "") s with
         | Ok (ResolverService _ DummyResolverScanningWorkflow _) => true | _ => false end))
    as (s2 & Hs2 & [[Hm2 Hon2]%bool_decide_eq_true Hrs]%andb_true_iff); [by vm_compute|].
  destruct (resolver_of (λ _, "") s2) as [rs2|] eqn:Hr; [|discriminate Hrs].
  exists s1, s2, rs2. split_and!; [exact Hm1|exact Hm2|exact Hr|].
  destruct (shared_broker_loses_results amqp_url demo_verify demo_verify demo_details_binary
    (λ _, Ok demo_delegated) (λ _, Ok demo_result) (λ _, "") Dispatch.demo_routes
    (run_trace demo_deploy_world 0 demo_spawn_run) (JStr "amqp://localhost:5672") s1 s2 rs2
    demo_routes_wf (exec_run demo_deploy_world 0 demo_spawn_run) Hs1 Hs2 Hon1 Hon2 Hr) as (_ & H & _).
  eapply (H (Incoming "result" [] "") demo_result); [reflexivity| |apply exec_run].
  right. destruct rs2 as [? [] ?]; [reflexivity|discriminate Hrs|discriminate Hrs].
Defined.
