(* ===== verification/Journey.v ===== *)
(** * From an event to its comments

    [System] traces the messages of an event from its dispatch through the polls.
    Here the other readers of messages are linked too: the agents of delegated
    scans ([src/agent/resolver/]), whose results make the server go on with the
    workflow that an event was built for, and the handlers of
    [src/workflow_agent.py] that comment on pull requests and deliver SARIF logs. *)
From S2P Require Import Prelude PyStr PyJson Url Auth ApiSession Messaging Broker Grouping CxOne Cloner Config Workflows ScmConfig Bootstrap Content Polling Feedback Resolver Runner Orchestration ScanAgent Dispatch System.
Open Scope string_scope.
Open Scope nat_scope.
Open Scope list_scope.

Section journey.
Context (r : routes).
Context (re_match : string → string → bool).
Context (repr : json → string).
Context (isoformat : Z → string).
Context (fromisoformat : string → outcome Z).
(** The cryptography library, [DelegatedScanDetails.to_binary] and [pickle]. *)
Context (sign : string → string → outcome string).
Context (verify_private verify_public : string → string → string → outcome unit).
Context (details_binary : DelegatedScanDetails → string).
Context (pickled_scm pickled_cxone : flow_services → string).
(** [from_binary] of the message classes. *)
Context (await_from_binary : string → outcome (ScanMessage * string)).
Context (feedback_from_binary : string → outcome (ScanMessage * bool * option string)).
Context (annotation_from_binary : string → outcome (ScanMessage * string)).
Context (prescan_from_binary : string → outcome (string * workflow_details * string)).
Context (delegated_from_binary : string → outcome DelegatedScanMessage).
Context (result_from_binary : string → outcome DelegatedScanResultMessage).
(** The resolver tags of the deployment. *)
Context (tags : list string).
(** [json.loads], of the payload of an event *)
Context (json_loads : string → outcome json).
(** [importlib]: the orchestrator of the class of this name, made of the context. *)
Context (orchestrator_class : string → EventContext → outcome webhook).

Abbreviation service_of := (service_of r re_match).
Abbreviation service_name := (service_name repr).
Abbreviation with_services := (with_services r re_match repr isoformat sign details_binary
  pickled_scm pickled_cxone).
Abbreviation system_dispatch := (system_dispatch r re_match repr isoformat sign details_binary
  pickled_scm pickled_cxone).
Abbreviation published_by := (published_by repr sign details_binary tags).

(** ** The results of delegated scans, linked *)

(** What the agent of results asks of the orchestration: the orchestrator is built
    again from the message and dispatched. *)
Definition continued (e : res_ev) : sys_prog (res_resp e) :=
  match e return sys_prog (res_resp e) with
  | inr (DispatchDelegatedScan class ctx scan_id) =>
      let! w := lift (orchestrator_class class ctx) in
      do! with_services w (dispatch_delegated_scan r re_match repr w scan_id) in Ret tt
  | inr (DispatchHardFailure class ctx) =>
      let! w := lift (orchestrator_class class ctx) in
      with_services w (dispatch_hard_failure r re_match repr w)
  | e => call (inr e : sys_ev)
  end.
Definition system_results (rs : resolver_service) (msg : incoming) : sys_prog unit :=
  interp continued
    (results_agent verify_private verify_public details_binary result_from_binary rs msg).

(** ** Messages on their way *)

(** A reader decodes what was sent, whichever reader the broker brings it to, and
    makes the context of the event anew. *)
Definition arrived {A} (from_binary : string → outcome A) (p : posted) (body : string)
    (sent : A → out_body) : Prop :=
  ∃ m, reread_body json_loads (out_message (p_message p)) = sent m ∧ from_binary body = Ok m.

Inductive comes_from (w : webhook) : posted → Prop :=
| by_dispatch tr o exchange key out :
    exec (system_dispatch w) tr o → inr (inl (Publish exchange key out)) ∈ events tr →
    comes_from w (Posted exchange key out)
| by_poll p msg tr o exchange key out :
    comes_from w p → polled await_from_binary tags json_loads p msg →
    exec (process_poll await_from_binary fromisoformat repr r msg) tr o →
    inl (Publish exchange key out) ∈ events tr →
    comes_from w (Posted exchange key out)
| by_timeout p rs msg tr o exchange key out :
    comes_from w p → arrived delegated_from_binary p (in_body msg) delegated_body →
    exec (timeout_agent verify_private verify_public details_binary delegated_from_binary rs msg) tr o →
    inl (Publish exchange key out) ∈ events tr →
    comes_from w (Posted exchange key out)
| by_agent p load_public_key scan_inspector str_json tag public_key runner msg tr o exchange key out :
    comes_from w p → arrived delegated_from_binary p (in_body msg) delegated_body →
    exec (scan_agent_call verify_private verify_public details_binary delegated_from_binary
            load_public_key scan_inspector str_json tag public_key runner msg) tr o →
    inl (Publish exchange key out) ∈ events tr →
    comes_from w (Posted exchange key out)
| by_result p rs msg tr o exchange key out :
    comes_from w p → arrived result_from_binary p (in_body msg) result_body →
    exec (system_results rs msg) tr o → inr (inl (Publish exchange key out)) ∈ events tr →
    comes_from w (Posted exchange key out).

(** The calls of the workflows that an event starts: those of its own dispatch,
    under a valid signature, and those of the orchestrators that are built again,
    from the class and the context that such a call handed to the agents, made anew
    when their result was decoded. *)
Inductive started (w : webhook) : flow_services → orch_ev → Prop :=
| by_event s tr o e :
    service_of w = Some s → is_signature_valid w (scm_secret (fs_scm s)) = Ok true →
    exec (dispatch_execute r re_match repr w) tr o → e ∈ events tr → started w s e
| by_delegation s0 e0 d w' s scan_id tr o e :
    started w s0 e0 → details_of e0 d →
    orchestrator_class (df_orchestrator d) (reread json_loads (df_event_context d)) = Ok w' →
    service_of w' = Some s →
    exec (dispatch_delegated_scan r re_match repr w' scan_id) tr o → e ∈ events tr →
    started w s e
| by_failure s0 e0 d w' s tr o e :
    started w s0 e0 → details_of e0 d →
    orchestrator_class (df_orchestrator d) (reread json_loads (df_event_context d)) = Ok w' →
    service_of w' = Some s →
    exec (dispatch_hard_failure r re_match repr w') tr o → e ∈ events tr → started w s e.

(** The details of a delegated scan that a call asked for, on their way. *)
Definition details_due (e : orch_ev) (d' : DelegatedScanDetails) : Prop :=
  ∃ d, details_of e d ∧ (d' = d ∨ d' = reread_delegated json_loads d).

(** A message that is due to a call of a workflow. *)
Definition due (s : flow_services) (e : orch_ev) (p : posted) : Prop :=
  match out_message (p_message p) with
  | scan_body _ => ∃ x x', feedback_of e = Some x ∧ in_transit json_loads x x' ∧
      well_addressed tags (service_name s) x' (Publish (p_exchange p) (p_routing_key p) (p_message p))
  | delegated_body m => details_due e (ds_details m)
  | result_body m => details_due e (dr_details m)
  end.

(** What a reader decodes of a request or a result is due to the same call. *)
Lemma due_delegated s e p m :
  due s e p → reread_body json_loads (out_message (p_message p)) = delegated_body m →
  details_due e (ds_details m).
Proof.
  unfold due. destruct (out_message (p_message p)) as [am|m0|m0]; [done| |done].
  intros (d & Hd & Hm0) [= <-]. exists d. split; [done|]. right. simpl.
  destruct Hm0 as [->| ->]; [done|apply reread_delegated_idemp].
Qed.
Lemma due_result s e p m :
  due s e p → reread_body json_loads (out_message (p_message p)) = result_body m →
  ∃ d, details_of e d ∧ dr_details m = reread_delegated json_loads d.
Proof.
  unfold due. destruct (out_message (p_message p)) as [am|m0|m0]; [done|done|].
  intros (d & Hd & Hm0) [= <-]. exists d. split; [done|]. simpl.
  destruct Hm0 as [->| ->]; [done|apply reread_delegated_idemp].
Qed.
Lemma due_scan s e p am :
  due s e p → reread_body json_loads (out_message (p_message p)) = scan_body am →
  ∃ x, feedback_of e = Some x ∧ message_subject am = reread_subject json_loads x.
Proof.
  unfold due. intros H (am0 & Ham & ->)%reread_scan_body. rewrite Ham in H.
  destruct H as (x & x' & Hx & Hx' & _ & am' & Ham' & _ & Hsub & _). rewrite Ham in Ham'.
  injection Ham' as <-. exists x. split; [done|].
  by rewrite reread_message_subject, Hsub, (reread_in_transit _ _ _ Hx').
Qed.

(** ** Theorems *)

Lemma published_due s e exchange key out :
  published_by s e (Publish exchange key out) → due s e (Posted exchange key out).
Proof.
  unfold System.published_by, due. cbn [p_message p_exchange p_routing_key].
  destruct (feedback_of e) as [x|].
  - intros H. destruct (out_message out) eqn:Hout;
      [exists x, x; split; [done|split; [by left|done]]|..];
      destruct H as (_ & am & Ham & _); congruence.
  - intros (rs & tag & workflow & d & signature & _ & _ & Hd & _ & _ & _ & ->).
    exists d. split; [done|by left].
Qed.

(** *** What the readers of delegated scans publish *)

(** The messages with these details. *)
Definition about (d : DelegatedScanDetails) (m : mq_ev) : Prop :=
  match m with
  | Publish _ _ out => match out_message out with
                       | scan_body _ => False
                       | delegated_body m => ds_details m = d
                       | result_body m => dr_details m = d
                       end
  | _ => True
  end.
Definition on_left {E} (Q : mq_ev → Prop) (e : mq_ev + E) : Prop :=
  match e with inl m => Q m | inr _ => True end.

Lemma only_right {E1 E2 R1 R2 A} (Q : E1 → Prop) (p : prog E2 R2 A) :
  only (λ e : E1 + E2, match e with inl m => Q m | inr _ => True end)
    (embed_r p : prog (E1 + E2) (sum_resp R1 R2) A).
Proof. by apply only_embed_r, only_trivial. Qed.

Lemma only_connect_publish d key out exchange :
  about d (Publish exchange key out) →
  only (about d) (do! call (MqClient : mq_ev) in publish key out exchange).
Proof. intros H. apply only_bind; [by only_call_step|intros _]. by apply only_publish. Qed.

Lemma only_res_call d e : only (on_left (about d)) (res_call e).
Proof. exact (only_call (Ev:=res_ev) (Resp:=res_resp) (on_left (about d)) (inr e) I). Qed.

(** A program that begins with a value. *)
Ltac step_ret :=
  lazymatch goal with |- only ?Q (bindP (Ret ?a) ?f) => change (only Q (f a)); cbv beta end.

Lemma timeout_agent_about rs msg m :
  delegated_from_binary (in_body msg) = Ok m →
  only (on_left (about (ds_details m)))
    (timeout_agent verify_private verify_public details_binary delegated_from_binary rs msg).
Proof.
  intros Hm. unfold timeout_agent, safe_deserialize. rewrite Hm.
  step_ret.
  apply only_catch; [|intros; exact (only_res_call _ (ResNack false))].
  apply only_bind; [apply only_lift|]. intros []; [|apply only_raise].
  apply only_bind; [|intros; exact (only_res_call _ ResAck)].
  unfold handle_resolver_scan_timeout, safe_deserialize. rewrite Hm.
  step_ret.
  apply only_bind; [apply only_lift|]. intros []; [|apply only_ret].
  apply only_bind; [apply only_embed; by only_call_step|intros _].
  apply only_bind; [apply only_lift|]. intros n.
  case_match; (apply only_bind; [apply only_embed|intros; apply only_ret]);
    unfold delegated_scan_resubmit, deliver_delegated_scan_outcome;
    (apply only_bind; [by only_call_step|intros _]);
    destruct (rsv_workflow rs); (apply only_raise || by apply only_publish).
Qed.

Lemma send_result_about tag w d result :
  dr_details result = d → only (on_left (about d)) (send_result tag w result).
Proof.
  intros H. unfold send_result, sa_mq.
  apply only_bind; [apply only_embed|intros; apply only_ret].
  apply only_bind; [by only_call_step|intros _]. unfold deliver_delegated_scan_outcome.
  destruct w; (apply only_raise || by apply only_publish).
Qed.

Lemma only_sa d e : only (on_left (about d)) (sa e).
Proof. exact (only_call (Ev:=sa_ev) (Resp:=sa_resp) (on_left (about d)) (inr (inr (inr e))) I). Qed.

(** Besides its results an agent publishes nothing. *)
Ltac agent_calls :=
  repeat first
    [ progress intros | apply only_ret | apply only_raise | apply only_lift
    | lazymatch goal with |- only _ (sa ?e) => exact (only_sa _ e) end | by apply send_result_about | apply only_right
    | apply only_bind | apply only_catch | apply only_on_outcome | apply only_finally
    | case_match ].

Lemma agent_about load_public_key scan_inspector str_json tag public_key runner msg m :
  delegated_from_binary (in_body msg) = Ok m →
  only (on_left (about (ds_details m)))
    (scan_agent_call verify_private verify_public details_binary delegated_from_binary
       load_public_key scan_inspector str_json tag public_key runner msg).
Proof.
  intros Hm. unfold scan_agent_call. rewrite Hm.
  assert (Hfail : ∀ assigned e, only (on_left (about (ds_details m)))
            (failure_handler load_public_key tag public_key assigned m e)).
  { unfold failure_handler, sa_nack, send_failure_response. agent_calls. }
  unfold in_context, agent_block, process_scan, scan_clone, copy_result, unpickle_as,
    send_failure_response, sa_os, sa_orch. agent_calls; apply Hfail.
Qed.

(** *** The origin of a message *)

(** What a reader of a delegated scan or of its result publishes is due to the same
    call of the workflow. *)
Lemma about_due s e d exchange key out :
  about d (Publish exchange key out) → details_due e d → due s e (Posted exchange key out).
Proof.
  unfold about, due. cbn [p_message]. destruct (out_message out); [done|by intros ->..].
Qed.

(** The agent of results asks for the orchestrator that the details name. *)
Definition asks_for (d : DelegatedScanDetails) (e : res_ev) : Prop :=
  match e with
  | inl _ => False
  | inr (DispatchDelegatedScan class ctx _) | inr (DispatchHardFailure class ctx) =>
      class = df_orchestrator d ∧ ctx = df_event_context d
  | inr _ => True
  end.
Lemma results_agent_asks rs msg m :
  result_from_binary (in_body msg) = Ok m →
  only (asks_for (dr_details m))
    (results_agent verify_private verify_public details_binary result_from_binary rs msg).
Proof.
  intros Hm. unfold results_agent, safe_deserialize. rewrite Hm.
  assert (Hcall : ∀ e : res_own, asks_for (dr_details m) (inr e) →
            only (asks_for (dr_details m)) (res_call e)).
  { intros e. exact (only_call (Ev:=res_ev) (Resp:=res_resp) (asks_for (dr_details m)) (inr e)). }
  step_ret. apply only_catch; [|intros; by apply (Hcall (ResNack false))].
  apply only_bind; [apply only_lift|]. intros valid.
  apply only_bind; [|intros; by apply (Hcall ResAck)].
  destruct valid; [|apply only_raise].
  apply only_bind; [|intros; apply only_bind; [apply only_lift|intros]].
  - case_bool_decide; [|apply only_ret].
    destruct (dr_scan_id m), (dr_workflow m); try apply only_ret.
    by apply (Hcall (DispatchHardFailure _ _)).
  - destruct (dr_scan_id m); [|apply only_ret]. by apply (Hcall (DispatchDelegatedScan _ _ _)).
Qed.

(** What it publishes is published by a call of a workflow of that orchestrator. *)
Definition continuation (d : DelegatedScanDetails) (s : flow_services) (e : orch_ev) : Prop :=
  ∃ w', orchestrator_class (df_orchestrator d) (df_event_context d) = Ok w' ∧
    service_of w' = Some s ∧
    ((∃ scan_id tr o, exec (dispatch_delegated_scan r re_match repr w' scan_id) tr o ∧ e ∈ events tr) ∨
     (∃ tr o, exec (dispatch_hard_failure r re_match repr w') tr o ∧ e ∈ events tr)).

(** The names of the services are words of a topic. *)
Hypothesis dotless : ∀ scm s, s ∈ services_of r scm → str_elem "."%char (service_name s) = false.

Lemma service_of_in w s : service_of w = Some s → s ∈ services_of r (config_key w).
Proof.
  unfold System.service_of. intros H. destruct (route_urls w) as [urls|]; [|done].
  apply (retrieve_in re_match r urls). by destruct (retrieve_services_by_route _ _ _ _) as [[]|]; simplify_eq.
Qed.
Lemma named w s : service_of w = Some s → str_elem "."%char (service_name s) = false.
Proof. intros Hs%service_of_in. by eapply dotless. Qed.

Lemma continued_published d e tr o m :
  asks_for d e → exec (continued e) tr o → inr (inl m) ∈ events tr →
  ∃ s e', continuation d s e' ∧ published_by s e' m.
Proof.
  intros Hask H Hm.
  destruct e as [e|[| | |class ctx|class ctx scan_id]]; [done|..];
    try (apply (exec_call (Ev:=sys_ev) (Resp:=sys_resp)) in H as ->;
         by apply list_elem_of_singleton in Hm).
  - destruct Hask as [-> ->]. simpl in H.
    apply exec_lift_bind in H as [(w' & Hw & H)|(x & _ & -> & _)]; [|by apply elem_of_nil in Hm].
    destruct (services_published _ _ _ _ _ _ _ _ tags w' _ _ _ m (named w') H Hm)
      as (s & tr1 & e & Hs & H1 & He & Hpub).
    exists s, e. split; [|done]. exists w'. split_and!; [done..|]. right. eauto.
  - destruct Hask as [-> ->]. simpl in H.
    apply exec_lift_bind in H as [(w' & Hw & H)|(x & _ & -> & _)]; [|by apply elem_of_nil in Hm].
    assert (Hd : ∃ o', exec (with_services w' (dispatch_delegated_scan r re_match repr w' scan_id)) tr o').
    { apply exec_bind in H as [(v & tr1 & tr2 & -> & H & [-> _])|(x & H & _)];
        [rewrite app_nil_r|]; eauto. }
    destruct Hd as [o' Hd].
    destruct (services_published _ _ _ _ _ _ _ _ tags w' _ _ _ m (named w') Hd Hm)
      as (s & tr1 & e & Hs & H1 & He & Hpub).
    exists s, e. split; [|done]. exists w'. split_and!; [done..|]. left. eauto.
Qed.

Lemma results_origin rs msg m tr o x :
  result_from_binary (in_body msg) = Ok m → exec (system_results rs msg) tr o → x ∈ events tr →
  ∃ e o' mid, asks_for (dr_details m) e ∧ exec (continued e) mid o' ∧ x ∈ events mid.
Proof.
  intros Hm H Hin. apply exec_interp in H as (tr1 & H & Hx).
  destruct (expands_origin _ _ _ _ Hx Hin) as (e & o' & mid & He & Hmid & Hmq).
  exists e, o', mid. split; [|done].
  pose proof (results_agent_asks rs msg m Hm _ _ H) as Hall. rewrite Forall_forall in Hall.
  apply Hall, list_elem_of_fmap. by exists (Obs e o').
Qed.

Lemma results_published rs msg m tr o mq :
  result_from_binary (in_body msg) = Ok m → exec (system_results rs msg) tr o →
  inr (inl mq) ∈ events tr → ∃ s e, continuation (dr_details m) s e ∧ published_by s e mq.
Proof.
  intros Hm H (e & o' & mid & Hask & Hmid & Hin)%(results_origin rs msg m tr o _ Hm H).
  by eapply continued_published.
Qed.

(** The calls on the other services are those of the workflow. *)
Lemma linked_called s e :
  only (λ x : sys_ev, match x with inl e' => e' = e | inr _ => True end)
    (linked repr isoformat sign details_binary pickled_scm pickled_cxone s e).
Proof.
  destruct e; try exact (only_call (Ev:=sys_ev) (Resp:=sys_resp) _ (inl _) eq_refl);
    try (unfold linked, service_call; by apply only_embed_r, only_trivial).
  unfold linked, service_call. apply only_bind; [apply only_lift|]. intros rs.
  by apply only_embed_r, only_trivial.
Qed.

Lemma services_called {A} w s (p : orch_prog A) tr o e :
  service_of w = Some s → exec (with_services w p) tr o → inl e ∈ events tr →
  ∃ tr1, exec p tr1 o ∧ e ∈ events tr1.
Proof.
  intros Hs H He. unfold System.with_services in H. rewrite Hs in H.
  apply exec_interp in H as (tr1 & H & Hx).
  destruct (expands_origin _ _ _ _ Hx He) as (e1 & x & mid & Hin & Hmid & Hmq).
  pose proof (linked_called s e1 _ _ Hmid) as Hall. rewrite Forall_forall in Hall.
  specialize (Hall _ Hmq). simpl in Hall. subst e1. exists tr1. split; [done|].
  apply list_elem_of_fmap. by exists (Obs e x).
Qed.

(** Without services the orchestrator that was built again does nothing. *)
Lemma unserved_quiet {A} w (f : services → orch_prog A) a tr o :
  service_of w = None →
  exec (with_services w (catch is_RouteNotFound
    (let! found := lift (lookup_services r re_match repr w) in
     let! svc := lift (some_services found) in f svc) (λ _, Ret a))) tr o → tr = [].
Proof.
  intros Hs H. unfold System.with_services in H. rewrite Hs in H.
  apply exec_embed in H as (tr' & H & ->).
  apply exec_on_outcome in H as (o1 & tr1 & tr2 & -> & H1 & H2).
  assert (tr2 = []) as -> by (destruct o1; [|destruct (is_RouteNotFound e)]; by destruct H2).
  apply exec_lift_bind in H1 as [(found & Hf & H)|(e & _ & -> & _)]; [|done].
  unfold lookup_services in Hf. unfold System.service_of in Hs.
  destruct (route_urls w) as [urls|]; [|done]. simpl in Hf.
  destruct (retrieve_services_by_route re_match r urls (config_key w)) as [[s|]|]; [done| |done].
  simpl in Hf. injection Hf as <-. by destruct H as [-> _].
Qed.

Lemma continued_called d e tr o e' :
  asks_for d e → exec (continued e) tr o → inl e' ∈ events tr → ∃ s, continuation d s e'.
Proof.
  intros Hask H Hm.
  destruct e as [e|[| | |class ctx|class ctx scan_id]]; [done|..];
    try (apply (exec_call (Ev:=sys_ev) (Resp:=sys_resp)) in H as ->;
         by apply list_elem_of_singleton in Hm);
    (destruct Hask as [-> ->]; simpl in H;
     apply exec_lift_bind in H as [(w' & Hw & H)|(x & _ & -> & _)]; [|by apply elem_of_nil in Hm]).
  - destruct (service_of w') as [s|] eqn:Hs;
      [|apply unserved_quiet in H as ->; [by apply elem_of_nil in Hm|done]].
    destruct (services_called _ _ _ _ _ _ Hs H Hm) as (tr1 & H1 & He).
    exists s, w'. split_and!; [done..|]. right. eauto.
  - assert (Hd : ∃ o', exec (with_services w' (dispatch_delegated_scan r re_match repr w' scan_id)) tr o').
    { apply exec_bind in H as [(v & tr1 & tr2 & -> & H & [-> _])|(x & H & _)];
        [rewrite app_nil_r|]; eauto. }
    destruct Hd as [o' Hd]. destruct (service_of w') as [s|] eqn:Hs;
      [|apply unserved_quiet in Hd as ->; [by apply elem_of_nil in Hm|done]].
    destruct (services_called _ _ _ _ _ _ Hs Hd Hm) as (tr1 & H1 & He).
    exists s, w'. split_and!; [done..|]. left. eauto.
Qed.

Lemma results_called rs msg m tr o e' :
  result_from_binary (in_body msg) = Ok m → exec (system_results rs msg) tr o →
  inl e' ∈ events tr → ∃ s, continuation (dr_details m) s e'.
Proof.
  intros Hm H (e & o' & mid & Hask & Hmid & Hin)%(results_origin rs msg m tr o _ Hm H).
  by eapply continued_called.
Qed.

Lemma continuation_started w s0 e0 d s e :
  started w s0 e0 → details_of e0 d → continuation (reread_delegated json_loads d) s e →
  started w s e.
Proof.
  intros H0 Hd (w' & Hw & Hs & [(id & tr & o & H & He)|(tr & o & H & He)]).
  - by eapply by_delegation.
  - by eapply by_failure.
Qed.

(** Whatever message an event leads to is due to a call of a workflow that the
    event started. *)
Lemma comes_from_started w p :
  comes_from w p → ∃ s e, started w s e ∧ due s e p ∧ str_elem "."%char (service_name s) = false.
Proof.
  induction 1 as [tr o exchange key out H Hin
    |p msg tr o exchange key out _ (s & e & Hst & Hdue & Hdot) Hp H Hin
    |p rs msg tr o exchange key out _ (s & e & Hst & Hdue & Hdot) (m & Hout & Hm) H Hin
    |p lk si sj tag pk run msg tr o exchange key out _ (s & e & Hst & Hdue & Hdot) (m & Hout & Hm) H Hin
    |p rs msg tr o exchange key out _ (s & e & Hst & Hdue & Hdot) (m & Hout & Hm) H Hin].
  - destruct (dispatch_published _ _ _ _ _ _ _ _ tags w tr o _ (named w) H Hin)
      as (s & tr1 & o1 & e & Hs & Hv & H1 & He & Hpub).
    exists s, e. split_and!; [by eapply by_event|by apply published_due|by eapply named].
  - exists s, e. split_and!; [done| |done]. pose proof Hp as (_ & _ & m & drop & x & Hout & _).
    apply reread_await in Hout as (m0 & Hout & _).
    unfold due in Hdue. rewrite Hout in Hdue. destruct Hdue as (y & y' & Hy & Hy' & Haddr).
    pose proof (poll_published _ _ isoformat _ _ _ _ _ _ p msg Hdot Haddr Hp _ _ H) as Hall.
    rewrite Forall_forall in Hall. specialize (Hall _ Hin). simpl in Hall.
    rewrite (reread_in_transit _ _ _ Hy') in Hall. unfold due. cbn [p_message p_exchange p_routing_key].
    pose proof Hall as (_ & am & Ham & _). rewrite Ham. exists y, (reread_subject json_loads y).
    split; [done|split; [by right|exact Hall]].
  - exists s, e. split_and!; [done| |done]. apply (due_delegated _ _ _ _ Hdue) in Hout.
    pose proof (timeout_agent_about rs msg m Hm _ _ H) as Hall. rewrite Forall_forall in Hall.
    by eapply about_due; [exact (Hall _ Hin)|].
  - exists s, e. split_and!; [done| |done]. apply (due_delegated _ _ _ _ Hdue) in Hout.
    pose proof (agent_about lk si sj tag pk run msg m Hm _ _ H) as Hall. rewrite Forall_forall in Hall.
    by eapply about_due; [exact (Hall _ Hin)|].
  - apply (due_result _ _ _ _ Hdue) in Hout as (d & Hd & Hmd).
    destruct (results_published rs msg m tr o _ Hm H Hin) as (s' & e' & Hc & Hpub).
    rewrite Hmd in Hc.
    exists s', e'. split_and!; [by eapply continuation_started|by apply published_due|].
    destruct Hc as (w' & _ & Hs & _). by eapply named.
Qed.

(** *** Comments and deliveries *)

(** What a handler does for a message on [x]: it reads the report and the log of
    that scan, and what it posts is for the pull request or the push of that event;
    a delivery carries the scan and the project. *)
Definition carries (x : subject) (headers : dict json) : Prop :=
  ∃ project_id scan_id d, x.1.2 = Some (project_id, scan_id) ∧ x.2 = push_details d ∧
    dget "x-cx-scanid" headers = Some scan_id ∧ dget "x-cx-projectid" headers = Some project_id ∧
    dget "x-cx-commit" headers = Some (pd_commit_hash d).
Definition concerns (x : subject) (e : fb_ev) : Prop :=
  match e with
  | RetrieveReport project_id scan_id | PolicyViolations project_id scan_id =>
      x.1.2 = Some (project_id, scan_id)
  | GetSarifLog scan_id clone_url branch => ∃ project_id d,
      x.1.2 = Some (project_id, scan_id) ∧ x.2 = push_details d ∧
      clone_url = pd_clone_url d ∧ branch = pd_source_branch d
  | ScanPendingDecorate d _ => x.1.2 = None ∧ x.2 = pr_details d
  | ScanUpdateDecorate d _ m | ScanSuccessDecorate d _ m | ScanFailureDecorate d _ m
  | UnrecoverableError d m _ => x = scan_subject m ∧ x.2 = pr_details d
  | HttpPost _ _ headers | AmqpPublish _ _ _ headers => carries x headers
  | FbAck | FbNack _ | MakeContent _ | HttpSleep _ | AmqpOpen | AmqpExchange _ | AmqpClose => True
  end.

Section handlers.
Context (str_exn : exn → string).
Context (available : string → bool) (hmac : string → string → string → string).
Context (gzip : string → string) (dumps_error : option string → string).

Ltac posts :=
  repeat first
    [ progress intros | apply only_ret | apply only_raise | apply only_lift
    | lazymatch goal with |- only ?Q (do_call ?e) => refine (only_do_call Q e _); done end
    | lazymatch goal with |- only ?Q (@call _ _ ?e) => refine (only_call Q e _); done end
    | apply only_bind | apply only_catch | apply only_on_outcome | apply only_finally
    | case_match | done ].

Lemma details_pr details d : PRDetails_from_dict details = Ok d → details = pr_details d.
Proof. destruct details; intros [=]; by subst. Qed.
Lemma details_push details d : PushDetails_from_dict details = Ok d → details = push_details d.
Proof. destruct details; intros [=]; by subst. Qed.

Lemma only_details {A} (o : outcome A) (f : A → fb_prog bool) Q :
  (∀ a, o = Ok a → only Q (f a)) → only Q (bindP (lift o) f).
Proof.
  intros Hf tr out H. apply exec_lift_bind in H as [(a & Ha & H)|(e & _ & -> & _)];
    [by eapply Hf|constructor].
Qed.

Lemma pr_feedback_concerns w m is_error error_msg :
  only (concerns (scan_subject m)) (process_pr_feedback repr str_exn w m is_error error_msg).
Proof.
  apply only_details. intros d Hd%details_pr. unfold or_false, pr_feedback. posts.
Qed.
Lemma pr_notice_concerns w m annotation :
  only (concerns (scan_subject m)) (process_pr_notice w m annotation).
Proof. apply only_details. intros d Hd%details_pr. unfold or_false. posts. Qed.
Lemma prescan_notice_concerns w workflow details annotation :
  only (concerns (workflow, None, details)) (process_prescan_pr_notice w details annotation).
Proof. apply only_details. intros d Hd%details_pr. unfold or_false. posts. Qed.

Lemma package_headers secret body h out :
  package_message available hmac gzip secret body h = Ok out → ∃ l, out.2 = dunion l h.
Proof.
  unfold package_message. destruct (gen_signature_headers available hmac secret _) as [l|]; [|done].
  intros [= <-]. by eexists.
Qed.

Lemma deliver_concerns x agent body h :
  (∀ l, carries x (dunion l h)) → only (concerns x) (deliver available hmac gzip agent body h).
Proof.
  intros Hc.
  assert (Hpost : ∀ url delay body l once n, only (concerns x)
            (post_loop url delay body (dunion l h) once n)).
  { intros url delay body' l once n. revert once.
    induction n as [|n IH]; intros once; cbn [post_loop];
      (apply only_on_outcome; [|intros [[]|]; posts; by apply IH]);
      (apply only_bind; [destruct once; posts
                        |intros _; exact (only_do_call _ (HttpPost url body' _) (Hc l))]). }
  destruct agent; simpl; intros tr o H;
    (apply exec_lift_bind in H as [([body' headers] & Hp & H)|(e & _ & -> & _)]; [|constructor]);
    (destruct (package_headers _ _ _ _ Hp) as [l Hl]; cbn [snd] in Hl; subst headers);
    revert tr o H; cbv beta iota.
  - change (only (concerns x)
      (amqp_publish exchange (sarif_topic moniker topic_prefix topic_suffix) body' (dunion l h))).
    unfold amqp_publish. posts. exact (only_do_call _ (AmqpPublish _ _ _ _) (Hc l)).
  - match goal with |- ∀ tr o, exec ?p tr o → _ => change (only (concerns x) p) end.
    unfold http_post. apply only_bind; [apply only_lift|intros n].
    apply only_bind; [apply Hpost|intros; apply only_ret].
Qed.

(** The log of a scan goes out in its name. *)
Lemma sarif_headers_carry m is_error d l :
  sm_details m = push_details d → carries (scan_subject m) (dunion l (sarif_headers m is_error d)).
Proof.
  intros Hd. exists (sm_projectid m), (sm_scanid m), d.
  rewrite !dget_dunion by (apply (bool_decide_unpack (NoDup _)); reflexivity). done.
Qed.

Lemma wait_concerns x agents body h :
  (∀ l, carries x (dunion l h)) → only (concerns x) (wait_deliveries available hmac gzip agents body h).
Proof.
  intros Hc. assert (only (concerns x) (deliver_all available hmac gzip agents body h)) as H.
  { induction agents as [|a agents IH]; [apply only_ret|].
    apply only_on_outcome; [by apply deliver_concerns|done]. }
  destruct agents; [apply only_raise|exact H].
Qed.

Lemma sarif_concerns w m is_error error_msg d :
  sm_details m = push_details d →
  only (concerns (scan_subject m))
    (sarif_generation available hmac gzip dumps_error w m is_error error_msg d).
Proof.
  intros Hd. pose proof (λ l, sarif_headers_carry m is_error d l Hd) as Hc.
  unfold sarif_generation, ack, nack. apply only_on_outcome; [|intros [[]|]; posts].
  destruct (truthy (pu_enabled w)); [|posts].
  apply only_bind; [|intros; posts].
  destruct is_error; [by apply wait_concerns|].
  apply only_bind; [|intros; by apply wait_concerns].
  refine (only_do_call _ _ _). by exists (sm_projectid m), d.
Qed.

(** A handler of the agent reads a message. *)
Inductive handled (p : posted) : list (obs fb_ev fb_resp) → Prop :=
| handled_feedback body tr o :
    arrived feedback_from_binary p body (λ ' (m, is_error, text), scan_body (ScanFeedbackMessage m is_error text)) →
    exec (process_pr_feedback_message repr str_exn feedback_from_binary r body) tr o → handled p tr
| handled_sarif body tr o :
    arrived feedback_from_binary p body (λ ' (m, is_error, text), scan_body (ScanFeedbackMessage m is_error text)) →
    exec (process_gen_sarif repr available hmac gzip dumps_error feedback_from_binary r body) tr o → handled p tr
| handled_annotation body tr o :
    arrived annotation_from_binary p body (λ ' (m, text), scan_body (ScanAnnotationMessage m text)) →
    exec (process_pr_annotate repr annotation_from_binary r body) tr o → handled p tr
| handled_prescan body workflow tr o :
    arrived prescan_from_binary p body
      (λ ' (moniker, details, text), scan_body (PreScanAnnotationMessage moniker PRESCAN workflow details text)) →
    exec (process_prescan_pr_annotate repr prescan_from_binary r body) tr o → handled p tr.

Lemma only_settle Q p : Q FbAck → Q (FbNack false) → only Q p → only Q (settle p).
Proof.
  intros Ha Hn Hp. pose proof (only_do_call Q FbAck Ha). pose proof (only_do_call Q (FbNack false) Hn).
  apply only_catch; [|done]. apply only_bind; [done|]. by intros [].
Qed.

Lemma handled_concerns p tr :
  handled p tr → ∃ am, reread_body json_loads (out_message (p_message p)) = scan_body am ∧
    Forall (concerns (message_subject am)) (events tr).
Proof.
  assert (Hservice : ∀ moniker (f : flow_services → fb_prog bool) Q, (∀ s, only Q (f s)) →
            only Q (let! s := services_for repr r moniker in f s)).
  { intros moniker f Q Hf. apply only_bind; [apply only_lift|done]. }
  intros [body tr' o ([[m is_error] text] & Hout & Hm) H|body tr' o ([[m is_error] text] & Hout & Hm) H
         |body tr' o ([m text] & Hout & Hm) H
         |body workflow tr' o ([[moniker details] text] & Hout & Hm) H];
    (eexists; split; [exact Hout|]); simpl in Hout |- *; revert H; revert tr' o;
    match goal with |- ∀ tr o, exec ?p tr o → Forall ?Q _ => change (only Q p) end.
  - unfold process_pr_feedback_message. rewrite Hm. apply only_settle; [done..|].
    apply Hservice. intros s. apply pr_feedback_concerns.
  - unfold process_gen_sarif. apply only_catch; [|intros; by apply (only_do_call _ (FbNack false))].
    rewrite Hm.
    change (only (concerns (scan_subject m))
      (let! s := services_for repr r (sm_moniker m) in
       execute_sarif_generation available hmac gzip dumps_error feedback_from_binary (fs_push s) body)).
    apply only_bind; [apply only_lift|intros s]. unfold execute_sarif_generation. rewrite Hm.
    intros tr' o H. apply exec_lift_bind in H as [(d & Hd%details_push & H)|(e & _ & -> & _)];
      [|constructor].
    by eapply sarif_concerns.
  - unfold process_pr_annotate. rewrite Hm. apply only_settle; [done..|].
    apply Hservice. intros s. apply pr_notice_concerns.
  - unfold process_prescan_pr_annotate. rewrite Hm. apply only_settle; [done..|].
    apply Hservice. intros s. apply prescan_notice_concerns.
Qed.

(** Whatever is said on a pull request, and every SARIF log that goes out,
    because of an event has its origin in a call of a workflow that the event
    started: the handler of a message that the event leads to - however often it
    was polled, and however many agents and retries a delegated scan went through -
    reads the report or the log of the scan that the workflow gave, and comments on
    the pull request, or delivers for the push, whose details it gave; and what the
    agent of results does on its way is done by a workflow that the event started. *)
Theorem comment_origin w p :
  comes_from w p →
  (∀ tr, handled p tr → ∃ s e x, started w s e ∧ feedback_of e = Some x ∧
     Forall (concerns (reread_subject json_loads x)) (events tr)) ∧
  (∀ rs msg tr o e, arrived result_from_binary p (in_body msg) result_body →
     exec (system_results rs msg) tr o → inl e ∈ events tr → ∃ s, started w s e).
Proof.
  intros Hp. destruct (comes_from_started w p Hp) as (s & e & Hst & Hdue & Hdot). split.
  - intros tr (am & Hout & Hall)%handled_concerns.
    destruct (due_scan _ _ _ _ Hdue Hout) as (x & Hx & Hsub). rewrite Hsub in Hall. by exists s, e, x.
  - intros rs msg tr o e' (m & Hout & Hm) H Hin. apply (due_result _ _ _ _ Hdue) in Hout as (d & Hd & Hmd).
    apply (results_called rs msg m tr o e' Hm H) in Hin as (s' & Hc). rewrite Hmd in Hc.
    exists s'. by eapply continuation_started.
Qed.
End handlers.
End journey.

(** ** Witness: a pull request whose scan is delegated *)
Definition with_agents (s : flow_services) : flow_services :=
  FlowServices (fs_matcher s) (fs_cxone s) (fs_scm s) demo_pr_settings (fs_poll s) (fs_push s)
    (ResolverSettings (JStr "first") default_amqp (Some (JBool false, "key", JInt 3, JInt 10800))
       JNull (JStr "resolver") (Some [JStr "linux"]))
    (fs_kickoff s) (fs_naming s).
Definition demo_agent_routes : routes :=
  Routes (List.map (λ kl, (kl.1, List.map with_agents kl.2)) (ordered_services Dispatch.demo_routes))
    (List.map (λ ms, (ms.1, with_agents ms.2)) (by_moniker Dispatch.demo_routes)).
(** The orchestrator goes on with the scan of the agent. *)
Definition demo_delegating : webhook :=
  {| is_diagnostic := false; config_key := GL;
     route_urls := Ok [JStr "https://gitlab/a/b.git"];
     is_signature_valid := λ secret, Ok (String.eqb secret "AbcDefGhi123--longEnoughSecret");
     w_execute := λ svc, let! a := execute_pr_scan demo_make_inspector "1.0" svc (demo_orch "main") None in
                         Ret (PrResult a);
     w_handle_delegated_scan := λ svc scan_id,
       let! a := execute_delegated_pr_scan svc (demo_orch "main") scan_id in Ret (PrResult a);
     w_handle_delegated_pr_scan_hard_fail := λ _ _, Ret tt |}.
Definition demo_tag_world (n : nat) (e : sys_ev) : outcome (sys_resp e) * nat :=
  match e return outcome (sys_resp e) * nat with
  | inl e => demo_orch_world (Some "linux") n e
  | inr e => demo_res_world n e
  end.

(** The messages that are published, in order. *)
Definition posts_of {E} (as_publish : E → option (string * string * outgoing)) (evs : list E) : list posted :=
  omap (λ e, match as_publish e with Some (x, k, m) => Some (Posted x k m) | None => None end) evs.
Definition mq_publish (e : mq_ev) : option (string * string * outgoing) :=
  match e with Publish x k m => Some (x, k, m) | _ => None end.
Definition no_post : posted := Posted "" "" (Outgoing (delegated_body demo_delegated) None None).

(** Its journey, for an event [w] and the orchestrators that are built again. *)
Section demo_journey.
Context (w : webhook) (factory : string → EventContext → outcome webhook).
Definition demo_delegating_run : sys_prog wf_result :=
  System.system_dispatch demo_agent_routes demo_match (λ _, "") pretty demo_sign demo_details_binary
    (λ _, "scm") (λ _, "cxone") w.
Definition demo_request_post : posted :=
  default no_post (head (posts_of (λ e : sys_ev, match e with inr (inl m) => mq_publish m | _ => None end)
    (events (run_trace demo_tag_world 0 demo_delegating_run)))).
Definition demo_request_decode (body : string) : outcome DelegatedScanMessage :=
  match out_message (p_message demo_request_post) with delegated_body m => Ok m | _ => Err ValueError end.

Definition demo_agent_run : sa_prog unit :=
  scan_agent_call demo_verify demo_verify demo_details_binary demo_request_decode (λ _, Ok tt)
    demo_inspector (λ _, "") "linux" "public" NoResolverRunner demo_body.
Definition demo_result_post : posted :=
  default no_post (head (posts_of (λ e : sa_ev, match e with inl m => mq_publish m | _ => None end)
    (events (run_trace (demo_sa_world true) 0 demo_agent_run)))).
Definition demo_result_decode (body : string) : outcome DelegatedScanResultMessage :=
  match out_message (p_message demo_result_post) with result_body m => Ok m | _ => Err ValueError end.

Definition demo_results_run : sys_prog unit :=
  system_results demo_agent_routes demo_match (λ _, "") pretty demo_sign demo_verify demo_verify
    demo_details_binary (λ _, "scm") (λ _, "cxone") demo_result_decode factory
    demo_resolver (Incoming "result" [] "").
(** The second message: the comment that the scan started. *)
Definition demo_comment_post : posted :=
  default no_post (last (posts_of (λ e : sys_ev, match e with inr (inl m) => mq_publish m | _ => None end)
    (events (run_trace demo_tag_world 0 demo_results_run)))).
Definition demo_comment_decode (body : string) : outcome (ScanMessage * string) :=
  match out_message (p_message demo_comment_post) with
  | scan_body (ScanAnnotationMessage m text) => Ok (m, text) | _ => Err ValueError end.
Definition demo_comment_run : fb_prog unit :=
  process_pr_annotate (λ _, "") demo_comment_decode demo_agent_routes "comment".
End demo_journey.

Lemma demo_dotless scm s :
  s ∈ services_of demo_agent_routes scm → str_elem "."%char (service_name (λ _, "") s) = false.
Proof.
  intros Hs.
  assert (H : forallb (λ s, negb (str_elem "."%char (service_name (λ _, "") s)))
                (services_of demo_agent_routes scm) = true) by (destruct scm; vm_compute; reflexivity).
  rewrite forallb_forall in H. by apply negb_true_iff, H, list_elem_of_In.
Qed.

(** The message of the comment comes from the event. *)
Ltac demo_journey w factory :=
  apply (by_result _ _ _ _ _ _ _ _ _ _ _ _ _ _ _ _ _ _ (demo_result_post w) demo_resolver (Incoming "result" [] "")
    (run_trace demo_tag_world 0 (demo_results_run w factory))
    (run_outcome demo_tag_world 0 (demo_results_run w factory)));
  [apply (by_agent _ _ _ _ _ _ _ _ _ _ _ _ _ _ _ _ _ _ (demo_request_post w) (λ _, Ok tt) demo_inspector
     (λ _, "") "linux" "public" NoResolverRunner demo_body
     (run_trace (demo_sa_world true) 0 (demo_agent_run w)) (run_outcome (demo_sa_world true) 0 (demo_agent_run w)));
   [apply (by_dispatch _ _ _ _ _ _ _ _ _ _ _ _ _ _ _ _ _ _
      (run_trace demo_tag_world 0 (demo_delegating_run w)) (run_outcome demo_tag_world 0 (demo_delegating_run w)));
    [apply exec_run|in_computed]
   |eexists; split; vm_compute; reflexivity|apply exec_run|in_computed]
  |eexists; split; vm_compute; reflexivity|apply exec_run|in_computed].

(** The scan of an agent is announced on the pull request of the event. *)
Lemma comment_origin_witness :
  let factory := λ _ _, Ok demo_delegating in
  ∃ s e x, started demo_agent_routes demo_match (λ _, "") demo_no_loads factory demo_delegating s e ∧
    feedback_of e = Some x ∧
    Forall (concerns (reread_subject demo_no_loads x)) (events (run_trace demo_fb_world [] (demo_comment_run demo_delegating factory))).
Proof.
  intros factory. pose (w := demo_delegating).
  apply (proj1 (comment_origin demo_agent_routes demo_match (λ _, "") pretty (λ _, Ok 0%Z) demo_sign
    demo_verify demo_verify demo_details_binary (λ _, "scm") (λ _, "cxone") (λ _, Err ValueError)
    (λ _, Err ValueError) (demo_comment_decode w factory) (λ _, Err ValueError) (demo_request_decode w)
    (demo_result_decode w) ["linux"] demo_no_loads factory demo_dotless demo_str_exn (λ _, true)
    (λ _ _ _, "") (λ s, s) (λ _, "") w (demo_comment_post w factory)
    ltac:(demo_journey w factory))).
  eapply handled_annotation with (body := "comment");
    [|exact (exec_run demo_fb_world [] (demo_comment_run w factory))].
  eexists (_, _). split; vm_compute; reflexivity.
Defined.
