(* ===== verification/Watching.v ===== *)
(** * From the start of a scan to its report

    A scan that executes waits in the broker and is polled; each poll that finds it
    executing publishes a copy of its message, with a longer wait, and the poll that
    finds it finished publishes its feedback ([src/workflows/scan_polling_service.py]
    and [process_poll] of [src/workflow_agent.py]).  Here the polls of one scan are
    put together, with a broker and a Checkmarx One server that answer. *)
From S2P Require Import Prelude PyStr PyJson Url Auth ApiSession Messaging Broker Grouping CxOne Cloner Config Workflows ScmConfig Bootstrap Polling Resolver Orchestration Dispatch System.
Open Scope string_scope.
Open Scope nat_scope.
Open Scope list_scope.

(** Every call is answered, the exchange is there, and the broker confirms what it
    is given. *)
Definition cooperates (ob : obs poll_ev poll_resp) : Prop :=
  match ob with
  | existT e r => match e return outcome (poll_resp e) → Prop with
                  | inl (GetExchange _) => λ r : outcome bool, r = Ok true
                  | inl (Publish _ _ _) => λ r : outcome bool, r = Ok true
                  | _ => λ r, is_ok r = true
                  end r
  end.

(** What a run publishes. *)
Definition posts (tr : list (obs poll_ev poll_resp)) : list posted :=
  omap (λ e, match e with inl (Publish x k out) => Some (Posted x k out) | _ => None end) (events tr).

Lemma posts_app tr1 tr2 : posts (tr1 ++ tr2) = posts tr1 ++ posts tr2.
Proof. unfold posts. by rewrite events_app, omap_app. Qed.

(** A program that raises nothing of its own. *)
Definition answers {Ev Resp A} (p : prog Ev Resp A) : Prop :=
  ∀ tr o, exec p tr o → Forall (λ ob, is_ok (projT2 ob) = true) tr → is_ok o = true.

Lemma answers_ret {Ev Resp A} (a : A) : answers (Ret a : prog Ev Resp A).
Proof. by intros tr o [-> ->]. Qed.
Lemma answers_call {Ev Resp} (e : Ev) : answers (call e : prog Ev Resp (Resp e)).
Proof. intros tr o ->%exec_call H. by inversion H. Qed.
Lemma answers_on_outcome {Ev Resp A B} (f : outcome A → prog Ev Resp B) p :
  answers p → (∀ a, answers (f (Ok a))) → answers (on_outcome f p).
Proof.
  intros Hp Hf tr o (o1 & tr1 & tr2 & -> & H1 & H2)%exec_on_outcome [Ho1 Ho2]%Forall_app.
  pose proof (Hp _ _ H1 Ho1) as Hok. destruct o1 as [a|]; [|done]. by eapply Hf.
Qed.
Lemma answers_bind {Ev Resp A B} (p : prog Ev Resp A) (f : A → prog Ev Resp B) :
  answers p → (∀ a, answers (f a)) → answers (bindP p f).
Proof.
  intros Hp Hf tr o [(a & tr1 & tr2 & -> & H1 & H2)|(e & H & ->)]%exec_bind Hok.
  - apply Forall_app in Hok as [_ Hok]. by eapply Hf.
  - by specialize (Hp _ _ H Hok).
Qed.
Lemma answers_embed {E1 E2 R1 R2 A} (p : prog E1 R1 A) :
  answers p → answers (embed p : prog (E1 + E2) (sum_resp R1 R2) A).
Proof.
  intros Hp tr o (tr' & H & ->)%exec_embed Hok. apply (Hp _ _ H).
  clear H. induction tr' as [|[e x] tr' IH]; [constructor|]. inversion Hok; subst.
  constructor; [done|by apply IH].
Qed.
Lemma answers_gather {Ev Resp} (ps : list (prog Ev Resp unit)) :
  Forall answers ps → answers (gather ps).
Proof.
  induction 1 as [|p ps Hp _ IH]; [apply answers_ret|].
  apply answers_on_outcome; [done|intros []]. apply answers_on_outcome; [done|intros []; apply answers_ret].
Qed.
Lemma answers_publish topic out exchange : answers (publish topic out exchange).
Proof.
  unfold publish. apply answers_on_outcome; [exact (answers_call (OpenChannel : mq_ev))|intros []].
  apply answers_on_outcome.
  - apply answers_bind; [exact (answers_call (GetExchange exchange : mq_ev))|].
    intros []; [exact (answers_call (Publish exchange topic out : mq_ev))|apply answers_ret].
  - intros b. apply answers_bind; [exact (answers_call (CloseChannel : mq_ev))|intros; apply answers_ret].
Qed.
Lemma answers_end svc m err :
  svc ∈ [PRFeedbackService; PushFeedbackService] → answers (svc_end svc m err).
Proof.
  assert (Hpub : ∀ topic out, answers (do! call (MqClient : mq_ev) in publish_scan topic out)).
  { intros topic out. apply answers_bind; [exact (answers_call (MqClient : mq_ev))|intros _].
    apply answers_bind; [apply answers_publish|intros; apply answers_ret]. }
  intros [->|[->|[]%elem_of_nil]%elem_of_cons]%elem_of_cons; unfold svc_end;
    destruct err; simpl;
    unfold pr_handle_awaited_scan_error, pr_handle_completed_scan,
      push_handle_awaited_scan_error, push_handle_completed_scan;
    destruct (sm_workflow m); first [apply answers_ret|apply Hpub].
Qed.

Lemma answers_tell m i : answers (tell_services [PRFeedbackService; PushFeedbackService] m i).
Proof.
  assert (Hend : ∀ err, answers (embed (gather ((λ svc, svc_end svc m err) <$>
            [PRFeedbackService; PushFeedbackService])) : poll_prog unit)).
  { intros err. apply answers_embed, answers_gather, Forall_fmap, Forall_forall.
    intros svc Hsvc. by apply answers_end. }
  assert (Hbb : answers (own (BreakBuild (i_project_id i) (i_scan_id i))))
    by exact (answers_call (inr (BreakBuild (i_project_id i) (i_scan_id i)) : poll_ev)).
  unfold tell_services, all_completed, all_error. apply answers_bind.
  - destruct (i_successful i); [|apply answers_ret].
    apply answers_bind; [exact Hbb|intros; apply answers_ret].
  - intros []; [exact (Hend None)|]. destruct (i_successful i); simpl; [|exact (Hend (Some _))].
    apply answers_bind; [exact Hbb|]. intros []; [exact (Hend (Some _))|exact (Hend (Some _))].
Qed.

Section watching.
Context (from_binary : string → outcome (ScanMessage * string)).
Context (fromisoformat : string → outcome Z).
Context (repr : json → string).
Context (r : routes) (tags : list string).
Context (json_loads : string → outcome json).

Abbreviation handler := (process_poll from_binary fromisoformat repr r).

(** A poll before the limit of the scan, which finds it in the state [i]. *)
Definition polls (m : ScanMessage) (drop : string) (i : inspector) (p : posted)
    (tr : list (obs poll_ev poll_resp)) : Prop :=
  ∃ msg now o, polled from_binary tags json_loads p msg ∧ exec (handler msg) tr o ∧ Forall cooperates tr ∧
    is_expired fromisoformat now drop = Ok false ∧
    Forall (λ ob, (∀ n, ob = answered (inl Now) n → n = now) ∧
                  (∀ i', ob = answered (inr (LoadInspector (sm_scanid m))) i' → i' = i)) tr.

(** The polls of a scan, from the message [p] on, with the states they find; and
    what they publish. *)
Inductive watched (m : ScanMessage) (drop : string) : posted → list inspector → list posted → Prop :=
| last_poll p i tr :
    polls m drop i p tr → i_executing i = false → watched m drop p [i] (posts tr)
| next_poll p i tr p' l outs :
    polls m drop i p tr → i_executing i = true → p' ∈ posts tr → watched m drop p' l outs →
    watched m drop p (i :: l) (posts tr ++ outs).

(** ** Theorems *)

Section poll.
Context (m : ScanMessage) (drop : string) (i : inspector) (now : Z) (s : flow_services).
Context (msg : incoming) (expiration scalar : Z).
Hypothesis Hbinary : from_binary (in_body msg) = Ok (m, drop).
Hypothesis Hservice : retrieve_services_by_moniker repr r (JStr (sm_moniker m)) = Ok s.
Hypothesis Hexpiration : original_expiration (in_headers msg) = Ok expiration.
Hypothesis Hscalar : as_number (po_backoff (fs_poll s)) = Ok scalar.
Hypothesis Hlimit : is_expired fromisoformat now drop = Ok false.

Definition fits (ob : obs poll_ev poll_resp) : Prop :=
  cooperates ob ∧ (∀ n, ob = answered (inl Now) n → n = now) ∧
  (∀ i', ob = answered (inr (LoadInspector (sm_scanid m))) i' → i' = i).

(** The copy of the message, for the next poll. *)
Definition copy_of : posted :=
  Posted EXCHANGE_SCAN_INPUT (in_routing_key msg)
    (Outgoing (scan_body (ScanAwaitMessage m drop)) None
       (Some (next_delay (po_max_interval (fs_poll s)) scalar expiration))).

Lemma fits_ok (e : poll_ev) x : ¬ fits (Obs e (Err x)).
Proof. intros [H _]. by destruct e as [[]|]. Qed.

Lemma poll_before_limit tr o :
  exec (handler msg) tr o → Forall fits tr →
  ∃ tr1 tr2 o1, exec (poll_unexpired [PRFeedbackService; PushFeedbackService]
      (po_max_interval (fs_poll s)) (po_backoff (fs_poll s)) msg m drop) tr1 o1 ∧
    tr = answered (inl Now) now :: tr1 ++ tr2 ∧ posts tr = posts tr1 ∧
    (o1 = Ok tt → tr2 = [] ∧ o = Ok tt).
Proof.
  intros H Hfits. unfold process_poll in H. rewrite Hbinary in H.
  apply exec_on_outcome in H as (o1 & tr1 & tr2 & -> & H & H2).
  apply exec_lift_bind in H as [([m' drop'] & [= <- <-] & H)|(? & [=] & _)].
  apply exec_lift_bind in H as [(s' & Hs & H)|(? & Hs & _)]; rewrite Hservice in Hs; [|done].
  injection Hs as <-. unfold execute_poll_scan_workflow, safe_deserialize_body in H.
  rewrite Hbinary in H.
  change (exec (let! now := mq Now in
    let! expired := lift (is_expired fromisoformat now drop) in
    if expired : bool then own Ack else poll_unexpired
      [PRFeedbackService; PushFeedbackService] (po_max_interval (fs_poll s))
      (po_backoff (fs_poll s)) msg m drop) tr1 o1) in H.
  unfold mq in H. call_step H as [(now' & tr3 & -> & H)|(x & -> & ?)].
  2: { apply Forall_app in Hfits as [[Hx _]%Forall_cons _]. by apply fits_ok in Hx. }
  apply Forall_app in Hfits as [[Hx Hfits]%Forall_cons _].
  assert (now' = now) as -> by (by apply Hx).
  apply exec_lift_bind in H as [(expired & He & H)|(? & He & _)]; rewrite Hlimit in He; [|done].
  injection He as <-. exists tr3, tr2, o1. split_and!; [done|done| |].
  - change (posts (answered (inl Now) now :: (tr3 ++ tr2)) = posts tr3).
    change (posts (tr3 ++ tr2) = posts tr3). rewrite posts_app.
    assert (posts tr2 = []) as ->; [|by rewrite app_nil_r].
    destruct o1 as [[]|e]; [by destruct H2 as [-> _]|].
    destruct (is_BaseException e); [|by destruct H2 as [-> _]].
    unfold own in H2. last_call H2. by subst.
  - intros ->. destruct H2 as [-> ->]. done.
Qed.

Abbreviation unexpired := (poll_unexpired [PRFeedbackService; PushFeedbackService]
  (po_max_interval (fs_poll s)) (po_backoff (fs_poll s)) msg m drop).

(** What a cooperative world answers to one call. *)
Lemma fits_call e tr o :
  exec (call e : poll_prog (poll_resp e)) tr o → Forall fits tr →
  ∃ a, o = Ok a ∧ tr = [answered e a] ∧ fits (answered e a).
Proof.
  intros ->%(exec_call (Ev:=poll_ev) (Resp:=poll_resp)) [Hx _]%Forall_cons.
  destruct o as [a|x]; [by exists a|by apply fits_ok in Hx].
Qed.

Lemma fits_call_bind {A} e (f : poll_resp e → poll_prog A) tr o :
  exec (bindP (call e) f) tr o → Forall fits tr →
  ∃ a tr', tr = answered e a :: tr' ∧ fits (answered e a) ∧ exec (f a) tr' o ∧ Forall fits tr'.
Proof.
  intros H Hf. call_step H as [(a & tr' & -> & H)|(x & -> & _)];
    apply Forall_cons in Hf as [Hx Hf]; [by exists a, tr'|by apply fits_ok in Hx].
Qed.
Lemma fits_attempt {A B} (p : poll_prog A) (f : outcome A → poll_prog B) tr o :
  exec (bindP (attempt p) f) tr o → Forall fits tr → (∀ tr e, exec p tr (Err e) → ¬ Forall fits tr) →
  ∃ a tr1 tr2, tr = tr1 ++ tr2 ∧ exec p tr1 (Ok a) ∧ Forall fits tr1 ∧ exec (f (Ok a)) tr2 o ∧ Forall fits tr2.
Proof.
  intros H Hf Hp. apply exec_bind in H as [(x & tr1 & tr2 & -> & H1 & H2)|(e & H & _)].
  - apply exec_on_outcome in H1 as (o1 & tr3 & tr4 & -> & H1 & [-> [= ->]]).
    rewrite app_nil_r in Hf |- *. apply Forall_app in Hf as [Hf1 Hf2].
    destruct o1 as [a|e]; [by exists a, tr3, tr2|]. by destruct (Hp _ _ H1).
  - apply exec_on_outcome in H as (o1 & tr3 & tr4 & _ & _ & [_ [=]]).
Qed.
Lemma fits_call_ok e tr x : exec (call e : poll_prog (poll_resp e)) tr (Err x) → ¬ Forall fits tr.
Proof. intros H Hf. by apply fits_call in H as (a & [=] & _). Qed.

(** The poll opens a channel and asks for the scan. *)
Lemma poll_opened tr o :
  exec unexpired tr o → Forall fits tr →
  ∃ tr2, tr = answered (inl MqClient) tt :: answered (inl OpenChannel) tt ::
      answered (inr (LoadInspector (sm_scanid m))) i :: tr2 ∧ Forall fits tr2 ∧
    exec (let! ' (o, requeue) :=
        (if i_executing i then Ret (Ok tt, true)
         else
           let! requeue := catch is_BaseException
             (do! tell_services [PRFeedbackService; PushFeedbackService] m i in Ret false)
             (λ _, Ret true) in
           if requeue : bool then Ret (Ok tt, true)
           else let! r := attempt (own Ack) in Ret (r, false)) in
      let! ' (o, requeue) :=
        match o with
        | Err ResponseException => let! r := attempt (own Ack) in Ret (r, false)
        | _ => Ret (o, requeue)
        end in
      do! (if requeue && true then requeue_message (po_max_interval (fs_poll s))
             (po_backoff (fs_poll s)) msg m drop else Ret tt) in
      do! mq CloseChannel in lift o) tr2 o.
Proof.
  intros H Hfits. unfold poll_unexpired in H.
  apply fits_attempt in H as ([] & tr1 & tr2 & -> & H1 & Hf1 & H & Hf2); [| |]; try done.
  2: { intros tr' e He Hf. unfold mq in He.
       apply fits_call_bind in He as ([] & tr1 & -> & _ & He & Hf1); [|done].
       exact (fits_call_ok (inl OpenChannel) _ _ He Hf1). }
  unfold mq in H1. apply fits_call_bind in H1 as ([] & tr3 & -> & _ & H1 & Hf3); [|done].
  apply (fits_call (inl OpenChannel)) in H1 as ([] & _ & -> & _); [|done].
  unfold poll_scan in H.
  apply exec_bind in H as [([o1 rq] & tr4 & tr5 & -> & H1 & H)|(e & H1 & ->)].
  - apply Forall_app in Hf2 as [Hf4 Hf5].
    apply fits_attempt in H1 as (i' & tr6 & tr7 & -> & H1 & Hf6 & H1' & Hf7);
      [|done|intros tr' e; apply (fits_call_ok (inr (LoadInspector (sm_scanid m))))].
    apply (fits_call (inr (LoadInspector (sm_scanid m)))) in H1 as (i2 & [= <-] & -> & (_ & _ & Hi)); [|done].
    rewrite (Hi _ eq_refl) in *. exists (tr7 ++ tr5). split; [done|].
    split; [by apply Forall_app|]. apply exec_bind. left. by exists (o1, rq), tr7, tr5.
  - apply fits_attempt in H1 as (i' & tr6 & tr7 & -> & H1 & Hf6 & H1' & Hf7);
      [|done|intros tr' e'; apply (fits_call_ok (inr (LoadInspector (sm_scanid m))))].
    apply (fits_call (inr (LoadInspector (sm_scanid m)))) in H1 as (i2 & [= <-] & -> & (_ & _ & Hi)); [|done].
    rewrite (Hi _ eq_refl) in *. exists tr7. split; [done|]. split; [done|].
    apply exec_bind. right. by exists e.
Qed.

Lemma executing_poll tr o :
  exec unexpired tr o → Forall fits tr → i_executing i = true → posts tr = [copy_of] ∧ o = Ok tt.
Proof.
  intros H Hfits Hex. apply poll_opened in H as (tr2 & -> & Hf & H); [|done]. rewrite Hex in H.
  change (exec (do! requeue_message (po_max_interval (fs_poll s)) (po_backoff (fs_poll s)) msg m drop in
    do! mq CloseChannel in lift (Ok tt)) tr2 o) in H.
  change (posts tr2 = [copy_of] ∧ o = Ok tt).
  assert (Hclose : ∀ tr3, exec (do! mq CloseChannel in lift (Ok tt)) tr3 o → Forall fits tr3 →
            posts tr3 = [] ∧ o = Ok tt).
  { intros tr3 H3 Hf3. unfold mq in H3.
    apply fits_call_bind in H3 as ([] & tr4 & -> & _ & H3 & _); [|done]. by destruct H3 as [-> ->]. }
  assert (Hreq : ∀ tr3 o3, exec (requeue_message (po_max_interval (fs_poll s)) (po_backoff (fs_poll s))
            msg m drop) tr3 o3 → Forall fits tr3 → posts tr3 = [copy_of] ∧ o3 = Ok tt).
  { intros tr3 o3 H3 Hf3. unfold requeue_message, mq, own in H3. rewrite Hexpiration, Hscalar in H3.
    apply fits_call_bind in H3 as (found & tr4 & -> & [Hfound _] & H3 & Hf4); [|done].
    simpl in Hfound. injection Hfound as ->. cbv iota in H3.
    apply exec_lift_bind in H3 as [(? & [= <-] & H3)|(? & [=] & _)].
    apply exec_lift_bind in H3 as [(? & [= <-] & H3)|(? & [=] & _)].
    apply fits_call_bind in H3 as (confirmed & tr5 & -> & [Hconf _] & H3 & Hf5); [|done].
    simpl in Hconf. injection Hconf as ->.
    apply (fits_call (inr Ack)) in H3 as ([] & -> & -> & _); [|done]. done. }
  apply exec_bind in H as [([] & tr3 & tr4 & -> & H1 & H)|(e & H1 & ->)].
  - apply Forall_app in Hf as [Hf3 Hf4]. rewrite posts_app.
    destruct (Hreq _ _ H1 Hf3) as [-> _]. destruct (Hclose _ H Hf4) as [-> ->]. done.
  - by destruct (Hreq _ _ H1 Hf) as [_ [=]].
Qed.

Lemma cooperates_ok ob : cooperates ob → is_ok (projT2 ob) = true.
Proof. destruct ob as [[[]|] x]; simpl; try done; by intros ->. Qed.

(** The feedback of a finished scan. *)
Definition feedback_post (err : option string) : posted :=
  Posted EXCHANGE_SCAN_INPUT (feedback_topic m err) (feedback_message m err).

Lemma told_posts tr :
  exec (tell_services [PRFeedbackService; PushFeedbackService] m i) tr (Ok tt) → Forall fits tr →
  ∃ asked err, verdict i asked err ∧ posts tr = [feedback_post err].
Proof.
  intros (asked & err & found & Hv & ->)%tell_services_ok [_ Hf]%Forall_app.
  exists asked, err. split; [done|]. rewrite posts_app.
  assert (posts asked = []) as -> by by destruct Hv.
  destruct found as [confirmed|]; [done|]. exfalso.
  apply Forall_cons in Hf as [_ [_ [[Hf _] _]%Forall_cons]%Forall_cons]. discriminate Hf.
Qed.

Lemma finished_poll tr o :
  exec unexpired tr o → Forall fits tr → i_executing i = false →
  (∃ asked err, verdict i asked err ∧ posts tr = [feedback_post err]) ∧ o = Ok tt.
Proof.
  intros H Hfits Hex. apply poll_opened in H as (tr2 & -> & Hf & H); [|done]. rewrite Hex in H.
  change ((∃ asked err, verdict i asked err ∧ posts tr2 = [feedback_post err]) ∧ o = Ok tt).
  assert (Htold : ∀ tr3 o3, exec (catch is_BaseException
            (do! tell_services [PRFeedbackService; PushFeedbackService] m i in Ret false)
            (λ _, Ret true) : poll_prog bool) tr3 o3 → Forall fits tr3 →
            (∃ asked err, verdict i asked err ∧ posts tr3 = [feedback_post err]) ∧ o3 = Ok false).
  { intros tr3 o3 H3 Hf3. apply exec_on_outcome in H3 as (o1 & tr4 & tr5 & -> & H3 & H4).
    apply Forall_app in Hf3 as [Hf4 _].
    assert (Hok : Forall (λ ob, is_ok (projT2 ob) = true) tr4).
    { eapply Forall_impl; [exact Hf4|]. intros ob [Hob _]. by apply cooperates_ok. }
    apply exec_bind in H3 as [([] & tr6 & tr7 & -> & H3 & [-> ->])|(e & H3 & ->)].
    - destruct H4 as [-> ->]. rewrite !app_nil_r in *. split; [|done]. by apply told_posts.
    - by specialize (answers_tell m i _ _ H3 Hok). }
  apply exec_bind in H as [([o1 rq] & tr3 & tr4 & -> & H1 & H)|(e & H1 & ->)].
  - apply Forall_app in Hf as [Hf3 Hf4].
    apply exec_bind in H1 as [(rq' & tr5 & tr6 & -> & H1 & H2)|(e & H1 & [=])].
    apply Forall_app in Hf3 as [Hf5 Hf6]. destruct (Htold _ _ H1 Hf5) as [Hposts [= ->]].
    apply fits_attempt in H2 as ([] & tr7 & tr8 & -> & H2 & Hf7 & [-> [= -> ->]] & _);
      [|done|intros tr' e; apply (fits_call_ok (inr Ack))].
    apply (fits_call (inr Ack)) in H2 as ([] & _ & -> & _); [|done].
    change (exec (do! (Ret tt : poll_prog unit) in do! mq CloseChannel in lift (Ok tt)) tr4 o) in H.
    change (exec (do! mq CloseChannel in lift (Ok tt)) tr4 o) in H. unfold mq in H.
    apply fits_call_bind in H as ([] & tr7 & -> & _ & [-> ->] & _); [|done].
    split; [|done]. rewrite !posts_app. destruct Hposts as (asked & err & Hv & ->).
    by exists asked, err.
  - exfalso. apply exec_bind in H1 as [(rq' & tr5 & tr6 & -> & H1 & H2)|(e' & H1 & _)].
    + apply Forall_app in Hf as [Hf5 Hf6]. destruct (Htold _ _ H1 Hf5) as [_ [= ->]].
      apply fits_attempt in H2 as ([] & tr7 & tr8 & -> & H2 & Hf7 & [_ [=]] & _);
        [done|intros tr' e'; apply (fits_call_ok (inr Ack))].
    + by destruct (Htold _ _ H1 Hf) as [_ [=]].
Qed.
End poll.

Section scan.
Context (m : ScanMessage) (drop : string) (s : flow_services) (scalar : Z).
Hypothesis Hservice : retrieve_services_by_moniker repr r (JStr (sm_moniker m)) = Ok s.
Hypothesis Hscalar : as_number (po_backoff (fs_poll s)) = Ok scalar.
(** The message as a reader decodes it. *)
Hypothesis Hread : reread_scan json_loads m = m.

(** The message of a scan that waits. *)
Definition waiting (key : string) (expiration : Z) : posted :=
  Posted EXCHANGE_SCAN_INPUT key
    (Outgoing (scan_body (ScanAwaitMessage m drop)) None (Some expiration)).

Lemma polls_spec i key expiration tr :
  polls m drop i (waiting key expiration) tr →
  if i_executing i
  then posts tr = [waiting key (next_delay (po_max_interval (fs_poll s)) scalar expiration)]
  else ∃ asked err, verdict i asked err ∧ posts tr = [feedback_post m err].
Proof.
  intros (msg & now & o & (_ & Hkey & m' & drop' & x & Hout & Hexp & Hbin & Horig) & H & Hco & Hlim & Hall).
  simpl in Hkey, Hout, Hexp. rewrite Hread in Hout. injection Hout as <- <-. injection Hexp as <-.
  assert (Hfits : Forall (fits m i now) tr).
  { apply Forall_forall. intros ob Hob. rewrite Forall_forall in Hco. rewrite Forall_forall in Hall.
    destruct (Hall _ Hob). split_and!; [by apply Hco|done..]. }
  destruct (poll_before_limit m drop i now s msg Hbin Hservice Hlim tr o H Hfits)
    as (tr1 & tr2 & o1 & H1 & -> & -> & _).
  apply Forall_cons in Hfits as [_ [Hf1 _]%Forall_app]. destruct (i_executing i) eqn:Hex.
  - apply (executing_poll m drop i now s msg expiration scalar) in H1 as [-> _]; [|done..].
    unfold copy_of, waiting. by rewrite Hkey.
  - by apply (finished_poll m drop i now s msg) in H1 as [H1 _].
Qed.

Lemma delay_shift max_interval first n :
  delay max_interval scalar (next_delay max_interval scalar first) n =
    delay max_interval scalar first (S n).
Proof. induction n as [|n IH]; [done|]. simpl in *. by rewrite IH. Qed.

Lemma watched_posts l i key first outs :
  watched m drop (waiting key first) (l ++ [i]) outs →
  Forall (λ i, i_executing i = true) l → i_executing i = false →
  ∃ asked err, verdict i asked err ∧
    outs = ((λ n, waiting key (delay (po_max_interval (fs_poll s)) scalar first (S n))) <$> seq 0 (length l))
           ++ [feedback_post m err].
Proof.
  revert first outs. induction l as [|j l IH]; intros first outs H Hl Hi.
  - inversion H as [? ? tr Hp Hex|? ? tr p' ? outs' Hp Hex Hin Hw]; subst; [|congruence].
    apply polls_spec in Hp. rewrite Hi in Hp. destruct Hp as (asked & err & Hv & ->).
    by exists asked, err.
  - apply Forall_cons in Hl as [Hj Hl].
    inversion H as [? ? tr Hp Hex|? ? tr p' ? outs' Hp Hex Hin Hw]; subst; [by destruct l|].
    apply polls_spec in Hp. rewrite Hj in Hp. rewrite Hp in Hin |- *.
    apply list_elem_of_singleton in Hin as ->.
    destruct (IH _ _ Hw Hl Hi) as (asked & err & Hv & ->). exists asked, err. split; [done|].
    simpl. f_equal. f_equal. rewrite <- fmap_S_seq, <- list_fmap_compose.
    apply list_fmap_ext. intros k n Hn. unfold compose. by rewrite delay_shift.
Qed.

Lemma feedback_delivered err :
  str_elem "."%char (sm_moniker m) = false →
  ∃ am, out_message (feedback_message m err) = scan_body am ∧ message_subject am = scan_subject m ∧
    message_moniker am = sm_moniker m ∧
    delivered (setup tags) EXCHANGE_SCAN_INPUT (feedback_topic m err) (feedback_message m err) =
      [handler_of am].
Proof.
  intros Hdot. eexists. split; [reflexivity|]. split; [reflexivity|]. split; [reflexivity|].
  unfold feedback_topic, feedback_message. destruct (sm_workflow m) eqn:Hw.
  - destruct err; by rewrite delivered_pr.
  - by rewrite delivered_push.
Qed.

(** A world that answers, in which the scan is in the state [i] at the time [now]. *)
Definition obliging (i : inspector) (now : Z) (u : unit) (e : poll_ev) : outcome (poll_resp e) * unit :=
  (match e return outcome (poll_resp e) with
   | inl (GetExchange _) | inl (Publish _ _ _) => Ok true
   | inl Now => Ok now
   | inl MqClient | inl OpenChannel | inl CloseChannel => Ok tt
   | inr (LoadInspector _) => Ok i
   | inr (BreakBuild _ _) => Ok false
   | inr Ack | inr (Nack _) => Ok tt
   end, u).

Lemma run_trace_forall {Ev Resp S A} (world : S → ∀ e : Ev, outcome (Resp e) * S)
    (P : obs Ev Resp → Prop) (p : prog Ev Resp A) u :
  (∀ u e, P (Obs e (world u e).1)) → Forall P (run_trace world u p).
Proof.
  intros HP. unfold run_trace. revert u. induction p as [a|x|e k IH]; intros u; simpl; [constructor..|].
  pose proof (HP u e) as He. destruct (world u e) as [x u']. specialize (IH x u').
  destruct (run world u' (k x)) as [[tr o] u2]. by constructor.
Qed.

Definition inspector_of (ob : obs poll_ev poll_resp) : option inspector :=
  match ob with
  | existT e x => match e return outcome (poll_resp e) → option inspector with
                  | inr (LoadInspector _) => λ x : outcome inspector,
                      match x with Ok i => Some i | Err _ => None end
                  | _ => λ _, None
                  end x
  end.

Lemma polls_exist i body now key expiration :
  from_binary body = Ok (m, drop) → is_expired fromisoformat now drop = Ok false →
  H_poll ∈ delivered (setup tags) EXCHANGE_SCAN_INPUT key (p_message (waiting key expiration)) →
  ∃ tr, polls m drop i (waiting key expiration) tr.
Proof.
  intros Hbody Hnow Hdel.
  set (msg := Incoming body [("x-death", JArr [JObj [("original-expiration", JInt expiration)]])] key).
  exists (run_trace (obliging i now) tt (handler msg)), msg, now, (run_outcome (obliging i now) tt (handler msg)).
  split_and!; [|apply exec_run|apply run_trace_forall; by intros u [[]|[]]|done|].
  - split; [done|]. split; [done|]. exists m, drop, expiration. simpl. by rewrite Hread.
  - apply run_trace_forall. intros u e. split.
    + intros n Hn. pose proof (f_equal now_of Hn) as Hnow'. destruct e as [[]|[]]; try discriminate Hnow'.
      by injection Hnow' as <-.
    + intros i' Hi'. pose proof (f_equal inspector_of Hi') as Hi2.
      destruct e as [[]|[]]; try discriminate Hi2. by injection Hi2 as <-.
Qed.

Lemma watched_exist l i body now key first :
  from_binary body = Ok (m, drop) → is_expired fromisoformat now drop = Ok false →
  H_poll ∈ delivered (setup tags) EXCHANGE_SCAN_INPUT key (p_message (waiting key first)) →
  Forall (λ i, i_executing i = true) l → i_executing i = false →
  ∃ outs, watched m drop (waiting key first) (l ++ [i]) outs.
Proof.
  intros Hbody Hnow Hdel Hl Hi. revert first Hdel. induction Hl as [|j l Hj Hl IH]; intros first Hdel.
  - destruct (polls_exist i body now key first Hbody Hnow Hdel) as [tr Hp].
    eexists. by apply (last_poll m drop _ i tr).
  - destruct (polls_exist j body now key first Hbody Hnow Hdel) as [tr Hp].
    pose proof (polls_spec _ _ _ _ Hp) as Hposts. rewrite Hj in Hposts.
    destruct (IH (next_delay (po_max_interval (fs_poll s)) scalar first) Hdel) as [outs Hw].
    eexists. eapply (next_poll m drop _ j tr); [done|done| |exact Hw].
    rewrite Hposts. by left.
Qed.

(** C16: A scan that ends within its time is reported, when every poll of it is
    answered by Checkmarx One and has its message taken by the broker, the name of the
    service has no dot, and the message is the one its polls decode.  From the message
    that a started scan leaves on, its polls can then follow one another until it ends; each poll that finds
    the scan executing publishes one copy of the message, which waits longer each
    time up to the maximum, and the first poll that finds it finished publishes one
    message with the verdict, which reaches the handler of its class and carries
    the scan, the details of the event and the name of the service; nothing else is
    published on the way.  Without an answer it need not be: a poll that finds no
    connection to the broker loses the scan ([Polling.poll_lost_without_broker]). *)
Theorem scan_reported l i body now key first :
  str_elem "."%char (sm_moniker m) = false →
  from_binary body = Ok (m, drop) → is_expired fromisoformat now drop = Ok false →
  H_poll ∈ delivered (setup tags) EXCHANGE_SCAN_INPUT key (p_message (waiting key first)) →
  Forall (λ i, i_executing i = true) l → i_executing i = false →
  (∃ outs, watched m drop (waiting key first) (l ++ [i]) outs) ∧
  ∀ outs, watched m drop (waiting key first) (l ++ [i]) outs →
    ∃ asked err am, verdict i asked err ∧
      outs = ((λ n, waiting key (delay (po_max_interval (fs_poll s)) scalar first (S n))) <$> seq 0 (length l))
             ++ [feedback_post m err] ∧
      out_message (p_message (feedback_post m err)) = scan_body am ∧
      message_subject am = scan_subject m ∧ message_moniker am = sm_moniker m ∧
      delivered (setup tags) (p_exchange (feedback_post m err)) (p_routing_key (feedback_post m err))
        (p_message (feedback_post m err)) = [handler_of am].
Proof.
  intros Hdot Hbody Hnow Hdel Hl Hi. split; [by eapply watched_exist|].
  intros outs H. destruct (watched_posts l i key first outs H Hl Hi) as (asked & err & Hv & ->).
  destruct (feedback_delivered err Hdot) as (am & Ham & Hsub & Hmon & Hd).
  exists asked, err, am. done.
Qed.
End scan.
End watching.

(** ** Witness: the scan of a push is found executing once, then passed *)
Lemma scan_reported_witness :
  ∃ outs, watched demo_from_binary demo_fromiso (λ _, "") Polling.demo_routes ["linux"] demo_no_loads
      demo_scan "late"
      (waiting demo_scan "late" (in_routing_key demo_incoming) 90000) ([demo_busy] ++ [demo_done]) outs ∧
    length outs = 2.
Proof.
  assert (∃ s, retrieve_services_by_moniker (λ _, "") Polling.demo_routes (JStr "n") = Ok s ∧
            as_number (po_backoff (fs_poll s)) = Ok 2%Z) as (s & Hs & Hsc).
  { destruct (retrieve_services_by_moniker (λ _, "") Polling.demo_routes (JStr "n")) as [s|] eqn:Hs;
      [|vm_compute in Hs; discriminate Hs].
    exists s. split; [reflexivity|]. vm_compute in Hs. injection Hs as <-. reflexivity. }
  destruct (scan_reported demo_from_binary demo_fromiso (λ _, "") Polling.demo_routes ["linux"]
    demo_no_loads demo_scan "late" s 2 Hs Hsc eq_refl [demo_busy] demo_done "scan" 1000 (in_routing_key demo_incoming) 90000
    eq_refl eq_refl eq_refl ltac:(vm_compute; left) ltac:(repeat constructor) eq_refl)
    as [[outs Hw] H].
  exists outs. split; [exact Hw|].
  destruct (H outs Hw) as (asked & err & am & _ & -> & _). reflexivity.
Defined.
