(* ===== verification/Kickoff.v ===== *)
(** * Kickoff of a first scan: [src/kickoff_services/__init__.py],
    [src/orchestration/kickoff/], [src/cxoneflow_kickoff_api/kickoff_msgs.py],
    the kickoff dispatcher of [src/orchestration/__init__.py] and the endpoint of
    [src/wsgi.py] *)
From S2P Require Import Prelude PyStr PyJson Url Auth ApiSession Messaging Grouping CxOne Cloner Config ScmConfig Bootstrap Orchestration Dispatch.
Open Scope string_scope.
Open Scope nat_scope.
Open Scope list_scope.

(** ** Messages *)

(** [ExecutingScan] and [KickoffResponseMsg] *)
Record ExecutingScan : Type := MkExecutingScan {
  es_project_name : json; es_project_id : json; es_scan_id : json; es_scan_branch : json }.
Record KickoffResponseMsg : Type := MkKickoffResponseMsg {
  running_scans : list ExecutingScan; started_scan : option ExecutingScan }.

(** [KickoffStatusCodes]; any other value is a server error. *)
Inductive KickoffStatusCodes : Type :=
| SCAN_STARTED | SCAN_EXISTS | BAD_REQUEST | NOT_AUTHORIZED | NO_ROUTE | TOO_MANY_SCANS
| SERVER_ERROR.
#[export] Instance KickoffStatusCodes_eq_dec : EqDecision KickoffStatusCodes.
Proof. solve_decision. Defined.

Definition kickoff_code (s : KickoffStatusCodes) : Z :=
  match s with
  | SCAN_STARTED => 201 | SCAN_EXISTS => 299 | BAD_REQUEST => 400 | NOT_AUTHORIZED => 401
  | NO_ROUTE => 403 | TOO_MANY_SCANS => 429 | SERVER_ERROR => 500
  end.
Definition kickoff_status (code : Z) : KickoffStatusCodes :=
  default SERVER_ERROR (find (λ s, (kickoff_code s =? code)%Z)
    [SCAN_STARTED; SCAN_EXISTS; BAD_REQUEST; NOT_AUTHORIZED; NO_ROUTE; TOO_MANY_SCANS]).

(** The fields of the message of each SCM: those without and with a default. *)
Definition msg_fields (scm : scm_key) : list string * list string :=
  let base := ["clone_urls"; "branch_name"; "sha"] in
  match scm with
  | GH => (base ++ ["repo_organization_name"; "repo_name"], ["install_id"; "app_id"])
  | ADOE => (base ++ ["collection_name"; "project_name"; "repo_name"], [])
  | GL => (base ++ ["repo_path_with_namespace"], [])
  | BBDC => (base ++ ["repo_name"; "project_key"; "project_name"], [])
  | BBC => (base ++ ["repo_name"; "project_key"; "project_name"; "workspace_name"], [])
  end.

(** [ko.GithubKickoffMsg( **message)] and the like. *)
Definition kickoff_msg_new (scm : scm_key) (message : json) : outcome (dict json) :=
  let? d := as_kwargs message in
  let '(required, optional) := msg_fields scm in
  if forallb (λ f, dhas f d) required &&
     forallb (λ k, bool_decide (k ∈ required ++ optional)) (dkeys d)
  then Ok d else Err TypeError.

(** ** Calls: those of the scan workflow, and the kickoff service's own *)
Record ko_query : Type := KoQuery {
  kq_project : option string; kq_branch : option json; kq_tag : option (string * json);
  kq_limit : option nat; kq_statuses : list string }.

Inductive ko_call : Type :=
| ListKoScans (q : ko_query)             (* one page *)
| NextKoScan (q : ko_query) (k : nat)    (* the [k]-th scan, or the end *)
| JwtDecode (token key : string)         (* with the one algorithm of the key *)
| KoTime.

Definition ko_call_resp (e : ko_call) : Type :=
  match e with
  | ListKoScans _ => response
  | NextKoScan _ _ => option json
  | JwtDecode _ _ => option json
  | KoTime => Z
  end.

Definition ko_ev : Type := (orch_ev + ko_call)%type.
Definition ko_resp : ko_ev → Type := sum_resp orch_resp ko_call_resp.
#[global] Arguments ko_resp : simpl never.
Abbreviation ko_prog := (prog ko_ev ko_resp).

Definition ko {A} (p : orch_prog A) : ko_prog A := embed p.
Definition ko_do (e : ko_call) : ko_prog (ko_call_resp e) := call (inr e : ko_ev).

(** ** [KickoffService] *)
Section service.
Context (json_on_ok : response → outcome json).

Definition TAG_KEY : string := "kickoff".
Definition scan_tag_dict (s : kickoff_settings) : dict json := [(TAG_KEY, ko_moniker s)].

(** [validate_jwt]; [None] is [DummyKickoffService].  Every [Exception] of the
    decoding and of the expiry check means that the token is not valid.  The time is
    in whole seconds, which compares with a whole [exp] as a fraction does; numbers
    with a fraction are not values of the model. *)
Definition validate_jwt (svc : option kickoff_settings) (token : option string) : ko_prog bool :=
  match svc, token return ko_prog bool with
  | None, _ | _, None => Ret false
  | Some s, Some token =>
      catch is_Exception
        (let! decoded := (ko_do (JwtDecode token (ko_public_key s)) : ko_prog (option json)) in
         match decoded return ko_prog bool with
         | None => Ret false
         | Some payload =>
             let! now := (ko_do KoTime : ko_prog Z) in
             let! exp := lift (let? e := jindex "exp" payload in as_int e) in
             Ret (negb (exp <=? now)%Z)
         end)
        (λ _, Ret false)
  end.

(** [one_scan_exists_on_branch] *)
Definition branch_query (project_name : string) (branch : json) : ko_query :=
  KoQuery (Some project_name) (Some branch) None (Some 1) ["Running"; "Queued"; "Completed"].
Definition one_scan_exists_on_branch (project_name : string) (branch : json) : ko_prog bool :=
  let! resp := (ko_do (ListKoScans (branch_query project_name branch)) : ko_prog response) in
  let! result := lift (json_on_ok resp) in
  let! has := lift (jhas "scans" result) in
  if (has : bool) then
    let! scans := lift (let? v := jindex "scans" result in as_arr v) in
    Ret (0 <? length scans)
  else Ret false.

(** The scans of a query, each with what [read] takes of it. *)
Fixpoint collect_scans (fuel k : nat) (q : ko_query) (read : json → outcome ExecutingScan) :
    ko_prog (list ExecutingScan) :=
  match fuel with
  | 0 => Raise OutOfFuel
  | S fuel' =>
      let! scan := (ko_do (NextKoScan q k) : ko_prog (option json)) in
      match scan return ko_prog (list ExecutingScan) with
      | None => Ret []
      | Some scan =>
          let! s := lift (read scan) in
          let! rest := collect_scans fuel' (S k) q read in
          Ret (s :: rest)
      end
  end.

Definition read_scan (project_name : json → outcome json) (scan : json) : outcome ExecutingScan :=
  let? name := project_name scan in
  let? project := jindex "projectId" scan in
  let? id := jindex "id" scan in
  let? branch := jindex "branch" scan in
  Ok (MkExecutingScan name project id branch).

(** [get_completed_ko_scans_by_project] and [get_running_ko_scans] *)
Definition completed_query (s : kickoff_settings) (project_name : string) : ko_query :=
  KoQuery (Some project_name) None (Some (TAG_KEY, ko_moniker s)) None
    ["Running"; "Queued"; "Completed"].
Definition get_completed_ko_scans_by_project (fuel : nat) (s : kickoff_settings)
    (project_name : string) : ko_prog (list ExecutingScan) :=
  collect_scans fuel 0 (completed_query s project_name)
    (read_scan (λ _, Ok (JStr project_name))).

Definition running_query (s : kickoff_settings) : ko_query :=
  KoQuery None None (Some (TAG_KEY, ko_moniker s)) None ["Running"; "Queued"].
Definition get_running_ko_scans (fuel : nat) (s : kickoff_settings) :
    ko_prog (list ExecutingScan) :=
  collect_scans fuel 0 (running_query s) (read_scan (jindex "projectName")).
End service.

(** ** [KickoffOrchestrator] *)

(** [__get_auth_bearer_token]; the second word is there only if it is. *)
Definition get_auth_bearer_token (hdrs : dict string) : outcome (option string) :=
  match dget "Authorization" hdrs with
  | None => Ok None
  | Some h => match split " "%char h with
              | w :: ws => if String.eqb (lower w) "bearer"
                           then let? t := first ws in Ok (Some t) else Ok None
              | [] => Err IndexError
              end
  end.

Section kickoff.
Context (json_on_ok : response → outcome json).
Context (scan_inspector : json → outcome inspector).
Context (remove_auth_from_url : string → outcome string).
Context (version : string).
Context (repr : json → string).
Context (routes_ : routes).
Context (re_match : string → string → bool).
(** The bound on the scans of a list. *)
Context (fuel : nat).

(** A kickoff request: the SCM of its endpoint, its message and its event. *)
Record kickoff_request : Type := KickoffRequest {
  kr_scm : scm_key; kr_msg : dict json; kr_ctx : EventContext; kr_clone_urls : dict json }.

Definition msg_field (r : kickoff_request) (f : string) : outcome json := dindex f (kr_msg r).

(** The constructor: the clone URLs by kind of protocol. *)
Fixpoint kickoff_clone_urls (scm : scm_key) (urls : list json) (acc : dict json) :
    outcome (dict json) :=
  match urls with
  | [] => Ok acc
  | JStr url :: urls' =>
      if startswith "http" url then
        let? url := match scm with BBC => remove_auth_from_url url | _ => Ok url end in
        kickoff_clone_urls scm urls' (dset "http" (JStr url) acc)
      else kickoff_clone_urls scm urls' (dset "ssh" (JStr url) acc)
  | _ :: _ => Err TypeError
  end.

Definition kickoff_request_new (scm : scm_key) (ctx : EventContext) : outcome kickoff_request :=
  let? msg := kickoff_msg_new scm (message ctx) in
  let? urls := dindex "clone_urls" msg in
  let? urls := py_iter urls in
  let? clone_urls := kickoff_clone_urls scm urls [] in
  Ok (KickoffRequest scm msg ctx clone_urls).

(** [_repo_project_key], [_repo_organization], [_repo_slug] and the default name
    of the project, by SCM *)
Definition namespace_parts (r : kickoff_request) : outcome (list string) :=
  let? v := msg_field r "repo_path_with_namespace" in let? s := as_str v in Ok (split "/"%char s).

Definition ko_project_key (r : kickoff_request) : outcome json :=
  match kr_scm r with
  | GH => msg_field r "repo_name"
  | ADOE => msg_field r "project_name"
  | GL => msg_field r "repo_path_with_namespace"
  | BBDC | BBC => msg_field r "project_key"
  end.
Definition ko_organization (r : kickoff_request) : outcome json :=
  match kr_scm r with
  | GH => msg_field r "repo_organization_name"
  | ADOE => msg_field r "collection_name"
  | GL => let? l := namespace_parts r in Ok (JStr (join "/" (take (length l - 1) l)))
  | BBDC => ko_project_key r
  | BBC => msg_field r "workspace_name"
  end.
Definition ko_slug (r : kickoff_request) : outcome json :=
  match kr_scm r with
  | GH | GL => ko_project_key r
  | ADOE | BBDC | BBC => msg_field r "repo_name"
  end.
Definition slash_join (l : list json) : string := join "/" (py_str repr <$> l).
Definition ko_default_name (r : kickoff_request) : outcome string :=
  match kr_scm r with
  | GH => let? o := msg_field r "repo_organization_name" in let? n := msg_field r "repo_name" in
          Ok (slash_join [o; n])
  | ADOE => let? c := msg_field r "collection_name" in let? p := msg_field r "project_name" in
            let? n := msg_field r "repo_name" in Ok (slash_join [c; p; n])
  | GL => let? p := msg_field r "repo_path_with_namespace" in as_str p
  | BBDC => let? k := msg_field r "project_key" in let? p := msg_field r "project_name" in
            let? n := msg_field r "repo_name" in Ok (slash_join [k; p; n])
  | BBC => let? o := msg_field r "workspace_name" in let? k := msg_field r "project_key" in
           let? p := msg_field r "project_name" in let? n := msg_field r "repo_name" in
           Ok (slash_join [o; k; p; n])
  end.

Definition ko_class (scm : scm_key) : string :=
  match scm with
  | GH => "orchestration.kickoff.gh.GithubKickoffOrchestrator"
  | ADOE => "orchestration.kickoff.adoe.AzureDevOpsKickoffOrchestrator"
  | GL => "orchestration.kickoff.gl.GitlabKickoffOrchestrator"
  | BBDC => "orchestration.kickoff.bitbucket.bbdc.BitBucketDataCenterKickoffOrchestrator"
  | BBC => "orchestration.kickoff.bitbucket.bbc.BitBucketCloudKickoffOrchestrator"
  end.

(** The overridable members of a kickoff: the target is the source, and the
    branch of the message is the protected one. *)
Definition ko_source (r : kickoff_request) : outcome (json * json) :=
  let? b := msg_field r "branch_name" in let? h := msg_field r "sha" in Ok (b, h).

Definition ko_orchestrator (r : kickoff_request) : orchestrator :=
  {| o_class := ko_class (kr_scm r);
     o_event_context := kr_ctx r;
     o_delegated_scan := false;
     o_target := ko_source r;
     o_source := ko_source r;
     o_protected := (let! b := lift (msg_field r "branch_name") in
                     let! b := lift (normalize_branch_name b) in Ret [b]);
     o_clone_url := repo_clone_url (kr_clone_urls r);
     o_default_name := ko_default_name r;
     o_project_key := ko_project_key r;
     o_slug := ko_slug r;
     o_organization := ko_organization r;
     o_pr_id := Err NotImplementedError;
     o_pr_state := Err NotImplementedError;
     o_pr_status := Err NotImplementedError |}.

(** [execute], once the running scans are known: the scan it started and
    whether it executes. *)
Definition ko_scan (r : kickoff_request) (svc : services) (ks : kickoff_settings)
    (project_name : string) (target_branch : json) : ko_prog (ExecutingScan * bool) :=
  let! ' (i, action) := ko (execute_push_scan scan_inspector version svc (ko_orchestrator r)
                              (Some (scan_tag_dict ks))) in
  match i return ko_prog (ExecutingScan * bool) with
  | Some i => Ret (MkExecutingScan (JStr project_name) (i_project_id i) (i_scan_id i)
                     target_branch, bool_decide (action = EXECUTING))
  | None => Raise AttributeError
  end.
Definition ko_submit (r : kickoff_request) (svc : services) (ks : kickoff_settings)
    (running : list ExecutingScan) : ko_prog (ExecutingScan * bool) :=
  let! ' (target_branch, _) := lift (ko_source r) in
  let! default_name := lift (ko_default_name r) in
  let! project_name := ko (call (GetProjectName default_name (kr_ctx r)) : orch_prog string) in
  let! exists_ := one_scan_exists_on_branch json_on_ok project_name target_branch in
  if (exists_ : bool) then Raise KickoffScanExistsException
  else if (ko_max_scans ks <=? Z.of_nat (length running))%Z then Raise TooManyRunningScansExeception
  else
    let! completed := get_completed_ko_scans_by_project fuel ks project_name in
    if 1 <=? length completed then Raise KickoffScanExistsException
    else ko_scan r svc ks project_name target_branch.

(** [running_scans] and [started_scan] of the orchestrator after [execute],
    which they outlive when it raises. *)
Definition ko_execute (r : kickoff_request) (svc : services) (ks : kickoff_settings) :
    ko_prog (outcome bool * KickoffResponseMsg) :=
  on_outcome
    (λ o, match o with
          | Err e => Ret (Err e, MkKickoffResponseMsg [] None)
          | Ok running =>
              on_outcome
                (λ o, match o with
                      | Ok (started, b) => Ret (Ok b, MkKickoffResponseMsg running (Some started))
                      | Err e => Ret (Err e, MkKickoffResponseMsg running None)
                      end)
                (ko_submit r svc ks running)
          end)
    (get_running_ko_scans fuel ks).

(** [OrchestrationDispatch.execute_kickoff] *)
Definition execute_kickoff (r : kickoff_request) :
    ko_prog (outcome bool * KickoffResponseMsg) :=
  let nothing := MkKickoffResponseMsg [] None in
  let fails e := Ret (Err e, nothing) in
  match (let? urls := msg_field r "clone_urls" in
         let? urls := py_iter urls in
         let? found := retrieve_services_by_route re_match routes_ urls (kr_scm r) in
         let? s := of_option AttributeError found in
         let? token := get_auth_bearer_token (headers (kr_ctx r)) in Ok (s, token)) with
  | Err e => fails e
  | Ok (s, token) =>
      on_outcome
        (λ o, match o with
              | Err e => fails e
              | Ok false => fails NotAuthorizedException
              | Ok true =>
                  match fs_kickoff s with
                  | Some ks => ko_execute r (orch_services repr s) ks
                  | None => fails TypeError
                  end
              end)
        (validate_jwt (fs_kickoff s) token)
  end.

(** [__kickoff_impl]: the status and the body of the response. *)
Definition kickoff_impl (r : kickoff_request) :
    ko_prog (KickoffStatusCodes * option KickoffResponseMsg) :=
  let! ' (o, state) := execute_kickoff r in
  match o with
  | Ok true => Ret (SCAN_STARTED, Some state)
  | Ok false => Ret (BAD_REQUEST, None)
  | Err KickoffScanExistsException =>
      Ret (SCAN_EXISTS, Some (MkKickoffResponseMsg (running_scans state) None))
  | Err TooManyRunningScansExeception =>
      Ret (TOO_MANY_SCANS, Some (MkKickoffResponseMsg (running_scans state) None))
  | Err RouteNotFoundException => Ret (NO_ROUTE, None)
  | Err NotAuthorizedException => Ret (NOT_AUTHORIZED, None)
  | Err e => Raise e
  end.
End kickoff.

(** ** Theorems *)
Section theorems.
Context (json_on_ok : response → outcome json).
Context (scan_inspector : json → outcome inspector).
Context (remove_auth_from_url : string → outcome string).
Context (version : string).
Context (repr : json → string).
Context (routes_ : routes).
Context (re_match : string → string → bool).
Context (fuel : nat).

(** The calls that decide whether a token is valid. *)
Definition is_token_check (e : ko_ev) : Prop :=
  match e with inr (JwtDecode _ _) | inr KoTime => True | _ => False end.

Local Ltac checks := unfold events; csimpl; repeat constructor.

Lemma validate_jwt_spec svc token tr o :
  exec (validate_jwt svc token) tr o →
  Forall is_token_check (events tr) ∧
  (o = Ok true → ∃ ks t payload exp now, svc = Some ks ∧ token = Some t ∧
     tr = [Obs (inr (JwtDecode t (ko_public_key ks)) : ko_ev) (Ok (Some payload));
           Obs (inr KoTime : ko_ev) (Ok now)] ∧
     jindex "exp" payload = Ok (JInt exp) ∧ (now < exp)%Z).
Proof.
  unfold validate_jwt. destruct svc as [ks|]; [|intros [-> ->]; by split; [constructor|]].
  destruct token as [t|]; [|intros [-> ->]; by split; [constructor|]].
  intros H. apply exec_on_outcome in H as (o1 & tr1 & tr2 & -> & H1 & H2).
  assert (H2' : tr2 = [] ∧ (o = Ok true → o1 = Ok true)).
  { destruct o1 as [b|e]; [destruct H2 as [-> ->]; by split; [|intros [= ->]]|].
    destruct (is_Exception e); destruct H2 as [-> ->]; by split. }
  destruct H2' as [-> Ho]. rewrite app_nil_r. clear H2. unfold ko_do in H1.
  call_step H1 as [(payload & tr3 & -> & H1)|(e & -> & ->)];
    [|split; [checks|intros Hn; apply Ho in Hn; discriminate Hn]].
  destruct payload as [payload|]; [|destruct H1 as [-> ->];
    split; [checks|intros Hn; apply Ho in Hn; discriminate Hn]].
  call_step H1 as [(now & tr4 & -> & H1)|(e & -> & ->)];
    [|split; [checks|intros Hn; apply Ho in Hn; discriminate Hn]].
  apply exec_lift_bind in H1 as [(exp & Hexp & H1)|(e & _ & -> & ->)];
    [|split; [checks|intros Hn; apply Ho in Hn; discriminate Hn]].
  destruct H1 as [-> ->]. split; [checks|]. intros Hn. apply Ho in Hn. injection Hn as Hlt.
  exists ks, t, payload, exp, now. split_and!; try done.
  - destruct (jindex "exp" payload) as [v|]; [|done]. by destruct v; simplify_eq/=.
  - apply negb_true_iff, Z.leb_gt in Hlt. done.
Qed.

(** C11: a kickoff request does nothing but check its token until its URLs have a
    route, the service of that route has a kickoff key, the bearer token of the
    request decodes under that key and has not expired; then it runs the kickoff
    of that service.  Any other request is refused and started nothing. *)
Theorem kickoff_authorized r tr o :
  exec (execute_kickoff json_on_ok scan_inspector version repr routes_ re_match fuel r) tr o →
  (Forall is_token_check (events tr) ∧ ∃ e, o = Ok (Err e, MkKickoffResponseMsg [] None)) ∨
  (∃ urls s ks token payload exp now tr',
     msg_field r "clone_urls" = Ok urls ∧
     (let? l := py_iter urls in retrieve_services_by_route re_match routes_ l (kr_scm r))
       = Ok (Some s) ∧
     fs_kickoff s = Some ks ∧
     get_auth_bearer_token (headers (kr_ctx r)) = Ok (Some token) ∧
     tr = Obs (inr (JwtDecode token (ko_public_key ks)) : ko_ev) (Ok (Some payload)) ::
          Obs (inr KoTime : ko_ev) (Ok now) :: tr' ∧
     jindex "exp" payload = Ok (JInt exp) ∧ (now < exp)%Z ∧
     exec (ko_execute json_on_ok scan_inspector version repr fuel r (orch_services repr s) ks)
       tr' o).
Proof.
  unfold execute_kickoff. intros H.
  match type of H with exec (match ?x with _ => _ end) _ _ => destruct x as [[s token]|e] eqn:Hx end;
    [|destruct H as [-> ->]; left; by split; [constructor|eauto]].
  apply exec_on_outcome in H as (o1 & tr1 & tr2 & -> & Hv & H).
  apply validate_jwt_spec in Hv as [Hcheck Hv].
  destruct o1 as [[|]|e]; [|destruct H as [-> ->]; left; rewrite app_nil_r; by split; [|eauto]..].
  destruct (Hv eq_refl) as (ks & t & payload & exp & now & Hks & -> & -> & Hexp & Hlt).
  right. rewrite Hks in H.
  destruct (msg_field r "clone_urls") as [urls|]; [|done]. simpl in Hx.
  destruct (py_iter urls) as [l|] eqn:Hl; [|done]. simpl in Hx.
  destruct (retrieve_services_by_route re_match routes_ l (kr_scm r)) as [[s'|]|] eqn:Hs;
    [|done..]. simpl in Hx.
  destruct (get_auth_bearer_token (headers (kr_ctx r))) as [t'|]; [|done].
  simpl in Hx. injection Hx as -> ->.
  exists urls, s, ks, t, payload, exp, now, tr2. rewrite Hl. simpl. done.
Qed.

(** The calls that only look: the lists of scans and the name of the project. *)
Definition is_look (e : ko_ev) : Prop :=
  match e with
  | inr (ListKoScans _) | inr (NextKoScan _ _) | inl (GetProjectName _ _) => True
  | _ => False
  end.

Lemma only_look_do e : is_look (inr e) → only is_look (ko_do e).
Proof. intros He tr o H. apply (exec_call (Resp:=ko_resp)) in H as ->. by repeat constructor. Qed.

Lemma collect_scans_look q read n : ∀ k, only is_look (collect_scans n k q read).
Proof.
  induction n as [|n IH]; intros k; [apply only_raise|]. cbn [collect_scans].
  apply only_bind; [by apply (only_look_do (NextKoScan q k))|]. intros [scan|]; [|apply only_ret].
  apply only_bind; [apply only_lift|]. intros s. apply only_bind; [apply IH|].
  intros rest. apply only_ret.
Qed.

(** No scan is found exactly when the list is empty at once. *)
Lemma collect_scans_nil q read n tr :
  exec (collect_scans n 0 q read) tr (Ok []) →
  tr = [Obs (inr (NextKoScan q 0) : ko_ev) (Ok None)].
Proof.
  destruct n as [|n]; [by intros [_ ?]|]. cbn [collect_scans]. unfold ko_do. intros H.
  call_step H as [(scan & tr' & -> & H)|(? & _ & ?)]; [|done].
  destruct scan as [scan|]; [|by destruct H as [-> _]].
  apply exec_lift_bind_ok in H as (s & _ & H).
  by apply exec_bind_ok in H as (rest & tr1 & tr2 & _ & _ & [_ ?]).
Qed.

Lemma look_app (tr1 tr2 : list (obs ko_ev ko_resp)) :
  Forall is_look (events tr1) → Forall is_look (events tr2) →
  Forall is_look (events (tr1 ++ tr2)).
Proof. rewrite events_app. intros ? ?. by apply Forall_app. Qed.

Lemma one_scan_spec name branch tr o :
  exec (one_scan_exists_on_branch json_on_ok name branch) tr o →
  Forall is_look (events tr) ∧
  (o = Ok false → ∃ resp result, tr = [Obs (inr (ListKoScans (branch_query name branch)) : ko_ev)
                                       (Ok resp)] ∧
     json_on_ok resp = Ok result ∧
     (jhas "scans" result = Ok false ∨ jindex "scans" result = Ok (JArr []))).
Proof.
  intros H. split.
  { unfold one_scan_exists_on_branch, ko_do in H.
    assert (Hon : only is_look (one_scan_exists_on_branch json_on_ok name branch)).
    { unfold one_scan_exists_on_branch, ko_do.
      apply only_bind; [by apply (only_look_do (ListKoScans _))|]. intros resp.
      apply only_bind; [apply only_lift|]. intros result. apply only_bind; [apply only_lift|].
      intros []; [|apply only_ret]. apply only_bind; [apply only_lift|]. intros ?. apply only_ret. }
    by eapply Hon. }
  intros ->. unfold one_scan_exists_on_branch, ko_do in H.
  call_step H as [(resp & tr' & -> & H)|(? & _ & ?)]; [|done].
  apply exec_lift_bind_ok in H as (result & Hr & H).
  apply exec_lift_bind_ok in H as (has & Hhas & H).
  destruct has.
  - apply exec_lift_bind_ok in H as (scans & Hs & [-> [= Hl]]). exists resp, result.
    split; [done|]. split; [done|]. right.
    destruct (jindex "scans" result) as [v|]; [|done]. destruct v; simplify_eq/=.
    by destruct scans.
  - destruct H as [-> _]. exists resp, result. split; [done|]. split; [done|]. by left.
Qed.

(** What a kickoff ends with when it submits nothing. *)
Definition ko_result (running : list ExecutingScan) (o : outcome (ExecutingScan * bool)) :
    outcome bool * KickoffResponseMsg :=
  match o with
  | Ok (started, b) => (Ok b, MkKickoffResponseMsg running (Some started))
  | Err e => (Err e, MkKickoffResponseMsg running None)
  end.

(** The scan that a push scan with the tag of the service starts. *)
Definition ko_started (name : string) (branch : json)
    (res : outcome (option inspector * ScanAction)) : outcome (ExecutingScan * bool) :=
  match res with
  | Ok (Some i, a) => Ok (MkExecutingScan (JStr name) (i_project_id i) (i_scan_id i) branch,
                          bool_decide (a = EXECUTING))
  | Ok (None, _) => Err AttributeError
  | Err e => Err e
  end.

Lemma ko_scan_spec r svc ks name branch tr o :
  exec (ko_scan scan_inspector version repr r svc ks name branch) tr o →
  ∃ trs res, tr = obs_inl <$> trs ∧
    exec (execute_push_scan scan_inspector version svc
            (ko_orchestrator repr r) (Some (scan_tag_dict ks))) trs res ∧
    o = ko_started name branch res.
Proof.
  unfold ko_scan. intros H.
  apply exec_bind in H as [([i a] & tr7 & tr8 & -> & H7 & H)|(e & H7 & ->)];
    apply exec_embed in H7 as (trs & H7 & ->); [|by exists trs, (Err e)].
  assert (tr8 = [] ∧ o = ko_started name branch (Ok (i, a))) as [-> ->] by by destruct i; destruct H.
  exists trs, (Ok (i, a)). by rewrite app_nil_r.
Qed.

Lemma project_name_looks name ctx tr o :
  exec (ko (call (GetProjectName name ctx) : orch_prog string)) tr o → Forall is_look (events tr).
Proof.
  intros (tr' & H & ->)%exec_embed.
  apply (exec_call (Resp:=orch_resp) (GetProjectName _ _)) in H as ->. by repeat constructor.
Qed.

(** The project of a scan is the one that the naming gives for this default name
    and this event. *)
Definition named_by (default_name : string) (ctx : EventContext) (e : orch_ev) : Prop :=
  match e with
  | GetProjectName d c => d = default_name ∧ c = ctx
  | LoadProjectConfig d _ _ => d = default_name
  | _ => True
  end.

Lemma exec_clone_scan_named d ctx url hash branch pc tags ctx' :
  only (named_by d ctx) (exec_clone_scan scan_inspector url hash branch pc tags ctx').
Proof.
  unfold exec_clone_scan. cbn [clone_loop Nat.leb].
  unfold clone_and_scan, exec_local_scan. only_calls.
Qed.

Lemma push_scan_named svc o d tags :
  o_default_name o = Ok d → only (named_by d (o_event_context o)) (o_protected o) →
  only (named_by d (o_event_context o)) (execute_push_scan scan_inspector version svc o tags).
Proof.
  intros Hd Hp. unfold execute_push_scan, orchestrate_scan, try_delegate, start_sarif,
    make_push_details.
  repeat first
    [ exact Hp | apply exec_clone_scan_named
    | apply only_lift_bind; let H := fresh in intros ? H; rewrite ?Hd in H; simplify_eq
    | lazymatch goal with
      | |- only _ (bindP (lift _) _) => fail
      | |- only ?Q (bindP _ _) => apply only_bind
      | |- only ?Q (@call ?Ev ?Resp ?e) => by apply (only_call (Ev:=Ev) (Resp:=Resp) Q e)
      | |- only ?Q (if ?b then _ else _) => destruct b
      end
    | progress intros | apply only_ret | apply only_raise | apply only_catch | case_match ].
Qed.

Lemma ko_push_named r svc d tags :
  ko_default_name repr r = Ok d →
  only (named_by d (kr_ctx r))
    (execute_push_scan scan_inspector version svc (ko_orchestrator repr r) tags).
Proof. intros Hd. apply (push_scan_named svc (ko_orchestrator repr r) d tags Hd). simpl. only_calls. Qed.

(** What a kickoff asks before it submits: the name of the project, for the
    scans of the branch and for the kickoff scans of the project, and there are
    none. *)
Definition nothing_scanned (r : kickoff_request) (ks : kickoff_settings) (d name : string)
    (branch : json) (tr : list (obs ko_ev ko_resp)) : Prop :=
  ∃ resp result,
    tr = [Obs (inl (GetProjectName d (kr_ctx r)) : ko_ev) (Ok name);
          Obs (inr (ListKoScans (branch_query name branch)) : ko_ev) (Ok resp);
          Obs (inr (NextKoScan (completed_query ks name) 0) : ko_ev) (Ok None)] ∧
    json_on_ok resp = Ok result ∧
    (jhas "scans" result = Ok false ∨ jindex "scans" result = Ok (JArr [])).

Lemma nothing_scanned_looks r ks d name branch tr :
  nothing_scanned r ks d name branch tr → Forall is_look (events tr).
Proof. intros (resp & result & -> & _). by repeat constructor. Qed.

Lemma ko_submit_spec r svc ks running tr o :
  exec (ko_submit json_on_ok scan_inspector version repr fuel r svc ks running) tr o →
  (Forall is_look (events tr) ∧ ∃ e, o = Err e) ∨
  (∃ branch hash d name trl trs res,
     ko_source r = Ok (branch, hash) ∧ ko_default_name repr r = Ok d ∧
     tr = trl ++ (obs_inl <$> trs) ∧
     (Z.of_nat (length running) < ko_max_scans ks)%Z ∧
     nothing_scanned r ks d name branch trl ∧
     exec (execute_push_scan scan_inspector version svc
             (ko_orchestrator repr r) (Some (scan_tag_dict ks))) trs res ∧
     o = ko_started name branch res).
Proof.
  unfold ko_submit. intros H.
  apply exec_lift_bind in H as [([branch hash] & Hsrc & H)|(e & _ & -> & ->)];
    [|left; by split; [constructor|eauto]].
  apply exec_lift_bind in H as [(dname & Hd & H)|(e & _ & -> & ->)];
    [|left; by split; [constructor|eauto]].
  apply exec_bind in H as [(name & tr1 & tr2 & -> & H1 & H)|(e & H1 & ->)];
    pose proof (project_name_looks _ _ _ _ H1) as Hl1; [|left; by eauto].
  apply exec_bind in H as [(b & tr3 & tr4 & -> & H3 & H)|(e & H3 & ->)];
    apply one_scan_spec in H3 as [Hl3 H3]; [|left; split; [by apply look_app|eauto]].
  destruct b; [destruct H as [-> ->]; left; rewrite app_nil_r; split; [by apply look_app|eauto]|].
  destruct (Z.leb_spec (ko_max_scans ks) (Z.of_nat (length running)));
    [destruct H as [-> ->]; left; rewrite app_nil_r; split; [by apply look_app|eauto]|].
  apply exec_bind in H as [(completed & tr5 & tr6 & -> & H5 & H)|(e & H5 & ->)];
    unfold get_completed_ko_scans_by_project in H5;
    pose proof (collect_scans_look _ _ _ _ _ _ H5) as Hl5;
    [|left; split; [by repeat apply look_app|eauto]].
  destruct completed as [|c completed]; simpl in H;
    [|destruct H as [-> ->]; left; rewrite app_nil_r; split; [by repeat apply look_app|eauto]].
  right. apply collect_scans_nil in H5.
  destruct (H3 eq_refl) as (resp & result & Htr3 & Hj & Hscans).
  apply ko_scan_spec in H as (trs & res & -> & Hpush & ->).
  exists branch, hash, dname, name, (tr1 ++ tr3 ++ tr5), trs, res.
  split; [done|]. split; [done|]. split; [by rewrite <- !app_assoc|].
  split; [done|]. split; [|by split]. exists resp, result. split; [|done].
  apply exec_embed in H1 as (tr' & H1 & ->).
  apply (exec_call (Resp:=orch_resp) (GetProjectName _ _)) in H1 as ->. by rewrite Htr3, H5.
Qed.

(** A kickoff fails to list the running scans, or is decided by [ko_submit]. *)
Lemma ko_execute_runs r svc ks tr o :
  exec (ko_execute json_on_ok scan_inspector version repr fuel r svc ks) tr o →
  (Forall is_look (events tr) ∧ ∃ e, o = Ok (Err e, MkKickoffResponseMsg [] None)) ∨
  (∃ running trr trs o', tr = trr ++ trs ∧ Forall is_look (events trr) ∧
     exec (get_running_ko_scans fuel ks) trr (Ok running) ∧
     exec (ko_submit json_on_ok scan_inspector version repr fuel r svc ks running) trs o' ∧
     o = Ok (ko_result running o')).
Proof.
  unfold ko_execute. intros H.
  apply exec_on_outcome in H as (o1 & trr & tr2 & -> & Hr & H).
  pose proof (collect_scans_look _ _ _ _ _ _ Hr) as Hlook.
  destruct o1 as [running|e];
    [|destruct H as [-> ->]; left; rewrite app_nil_r; by split; [|eauto]].
  apply exec_on_outcome in H as (o2 & tr3 & tr4 & -> & Hs & H). right.
  exists running, trr, tr3, o2.
  assert (tr4 = [] ∧ o = Ok (ko_result running o2)) as [-> ->].
  { destruct o2 as [[st b]|e]; by destruct H. }
  by rewrite app_nil_r.
Qed.

(** C22: a kickoff submits a scan only when the list of the running and queued
    kickoff scans of the service is shorter than the configured number, and, for the
    project that the naming gives for the repository and the event, no scan of the
    branch and no kickoff scan of the service on any branch is listed that is running,
    queued or completed; a failed or cancelled scan, and a scan of another branch that
    is not a kickoff, do not count.  Until then it only looks, and the submission asks
    the naming for the same project.  It reports the running scans it saw, and the
    started scan when there is one. *)
Theorem kickoff_limits r svc ks tr o :
  exec (ko_execute json_on_ok scan_inspector version repr fuel r svc ks) tr o →
  (Forall is_look (events tr) ∧ ∃ e running, o = Ok (Err e, MkKickoffResponseMsg running None)) ∨
  (∃ branch hash d name running trr trl trs res,
     ko_source r = Ok (branch, hash) ∧ ko_default_name repr r = Ok d ∧
     tr = trr ++ trl ++ (obs_inl <$> trs) ∧ Forall is_look (events trr) ∧
     exec (get_running_ko_scans fuel ks) trr (Ok running) ∧
     (Z.of_nat (length running) < ko_max_scans ks)%Z ∧
     nothing_scanned r ks d name branch trl ∧
     exec (execute_push_scan scan_inspector version svc
             (ko_orchestrator repr r) (Some (scan_tag_dict ks))) trs res ∧
     Forall (named_by d (kr_ctx r)) (events trs) ∧
     o = Ok (match res with
             | Ok (Some i, a) =>
                 (Ok (bool_decide (a = EXECUTING)), MkKickoffResponseMsg running
                    (Some (MkExecutingScan (JStr name) (i_project_id i) (i_scan_id i) branch)))
             | Ok (None, _) => (Err AttributeError, MkKickoffResponseMsg running None)
             | Err e => (Err e, MkKickoffResponseMsg running None)
             end)).
Proof.
  intros H. apply ko_execute_runs in H as
    [[Hl [e ->]]|(running & trr & tr3 & o2 & -> & Hlook & Hr & Hs & ->)]; [left; eauto|].
  apply ko_submit_spec in Hs as [[Hl [e ->]]|Hs].
  - left. split; [by apply look_app|]. simpl. eauto.
  - right. destruct Hs as (branch & hash & d & name & trl & trs & res & Hsrc & Hd & -> & Hlt &
      Hnone & Hpush & ->).
    exists branch, hash, d, name, running, trr, trl, trs, res.
    split_and!; try done; [by eapply ko_push_named|]. by destruct res as [[[i|] a]|e].
Qed.

(** The branch of a kickoff is compared as it is with its normalized name,
    so a kickoff for a branch given as a reference, like [refs/heads/main],
    never starts a scan: it always ends with an exception. *)
Theorem kickoff_of_a_ref_fails r svc ks b tr o st :
  msg_field r "branch_name" = Ok (JStr b) → normalize_branch_str b ≠ b →
  exec (ko_execute json_on_ok scan_inspector version repr fuel r svc ks) tr (Ok (o, st)) →
  (∃ e, o = Err e) ∧ started_scan st = None.
Proof.
  intros Hb Hne H.
  apply ko_execute_runs in H as [(_ & e & [= -> ->])|(running & trr & tr3 & o2 & _ & _ & _ & Hs & Ho)];
    [eauto|].
  apply ko_submit_spec in Hs as [[_ [e ->]]|(branch & hash & d & name & trl & trs & res & Hsrc & _ & _ & _ &
    _ & Hpush & Ho2)]; [injection Ho as -> ->; eauto|].
  assert (branch = JStr b) as ->.
  { unfold ko_source in Hsrc. rewrite Hb in Hsrc. simpl in Hsrc.
    destruct (msg_field r "sha"); simplify_eq/=; done. }
  assert (Hnone : match res with Ok (i, _) => i = None | Err _ => True end).
  { destruct res as [[i a]|e]; [|done].
    unfold execute_push_scan, ko_orchestrator in Hpush. cbn [o_source] in Hpush.
    rewrite Hsrc in Hpush. apply exec_lift_bind_ok in Hpush as ([b' h'] & [= <- <-] & Hpush).
    apply exec_bind_ok in Hpush as ([i' a'] & tr1 & tr2 & _ & Ho1 & Hpush).
    assert (i' = None) as ->.
    { unfold orchestrate_scan in Ho1. cbn [o_protected o_target o_source] in Ho1.
      rewrite Hb in Ho1.
      apply exec_bind_ok in Ho1 as (bs & ? & ? & _ & [_ [= ->]] & Ho1).
      apply exec_lift_bind_ok in Ho1 as (prot & Hprot & Ho1).
      apply exec_lift_bind_ok in Ho1 as ([? ?] & [= <- <-] & Ho1).
      apply exec_lift_bind_ok in Ho1 as ([? ?] & [= <- <-] & Ho1).
      apply exec_lift_bind_ok in Ho1 as (url & _ & Ho1).
      destruct (negb (not_none url)); [by destruct Ho1|].
      destruct (negb (hashable (JStr b))); [by destruct Ho1|].
      rewrite bool_decide_eq_false_2 in Ho1; [by destruct Ho1 as [_ [= -> _]]|].
      rewrite (elem_of_py_set _ _ _ Hprot). intros [= Heq]%list_elem_of_singleton. congruence. }
    destruct a'; destruct Hpush as [_ [= -> _]]; done. }
  destruct res as [[i a]|e]; [subst i|]; subst o2; injection Ho as -> ->; by eauto.
Qed.
End theorems.

(** ** Witnesses *)
Definition demo_ko_world (n : nat) (e : ko_ev) : outcome (ko_resp e) * nat :=
  match e return outcome (ko_resp e) * nat with
  | inl e => demo_orch_world None n e
  | inr (ListKoScans _) => (Ok (demo_response (JObj [("scans", JArr [])])), n)
  | inr (NextKoScan _ _) => (Ok None, n)
  | inr (JwtDecode _ _) => (Ok (Some (JObj [("exp", JInt 100)])), n)
  | inr KoTime => (Ok 50%Z, n)
  end.

Definition demo_ko_settings : kickoff_settings := KickoffSettings "key" (JStr "first") 3.
Definition with_kickoff (s : flow_services) : flow_services :=
  FlowServices (fs_matcher s) (fs_cxone s) (fs_scm s) (fs_pr s) (fs_poll s) (fs_push s)
    (fs_resolver s) (Some demo_ko_settings) (fs_naming s).
Definition demo_ko_routes : routes :=
  Routes (List.map (λ kl, (kl.1, List.map with_kickoff kl.2)) (ordered_services demo_routes))
    (List.map (λ ms, (ms.1, with_kickoff ms.2)) (by_moniker demo_routes)).

Definition demo_kickoff (branch : string) : kickoff_request :=
  KickoffRequest GL
    [("clone_urls", JArr [JStr "https://gitlab/a/b.git"]); ("branch_name", JStr branch);
     ("sha", JStr "c0ffee"); ("repo_path_with_namespace", JStr "a/b")]
    (MkEventContext "" [("Authorization", "Bearer token")] JNull)
    [("http", JStr "https://gitlab/a/b.git")].

Definition demo_ko_run : ko_prog (outcome bool * KickoffResponseMsg) :=
  execute_kickoff r_json demo_make_inspector "1.0" (λ _, "") demo_ko_routes
    (λ p s, startswith p s) 5 (demo_kickoff "main").

Lemma kickoff_authorized_witness :
  ∃ tr', run_trace demo_ko_world 1 demo_ko_run =
    Obs (inr (JwtDecode "token" "key") : ko_ev) (Ok (Some (JObj [("exp", JInt 100)]))) ::
    Obs (inr KoTime : ko_ev) (Ok 50%Z) :: tr'.
Proof.
  destruct (kickoff_authorized r_json demo_make_inspector "1.0" (λ _, "") demo_ko_routes
    (λ p s, startswith p s) 5 (demo_kickoff "main") _ _ (exec_run demo_ko_world 1 demo_ko_run))
    as [(_ & e & H)|(urls & s & ks & token & payload & exp & now & tr' & _ & _ & _ & _ & Htr & _)].
  - vm_compute in H. discriminate H.
  - exists (drop 2 (run_trace demo_ko_world 1 demo_ko_run)). vm_compute. reflexivity.
Defined.

Definition demo_ko_exec (branch : string) : ko_prog (outcome bool * KickoffResponseMsg) :=
  ko_execute r_json demo_make_inspector "1.0" (λ _, "") 5 (demo_kickoff branch) demo_services
    demo_ko_settings.

Lemma kickoff_limits_witness :
  run_outcome demo_ko_world 1 (demo_ko_exec "main") =
    Ok (Ok true, MkKickoffResponseMsg []
          (Some (MkExecutingScan (JStr "a/b") (JStr "p") (JStr "s") (JStr "main")))).
Proof.
  destruct (kickoff_limits r_json demo_make_inspector "1.0" (λ _, "") 5 (demo_kickoff "main")
    demo_services demo_ko_settings _ _ (exec_run demo_ko_world 1 (demo_ko_exec "main")))
    as [(_ & e & running & H)|_]; [vm_compute in H; discriminate H|vm_compute; reflexivity].
Defined.

Lemma kickoff_of_a_ref_fails_witness :
  ∃ e st, run_outcome demo_ko_world 1 (demo_ko_exec "refs/heads/main") = Ok (Err e, st) ∧
    started_scan st = None.
Proof.
  destruct (run_outcome demo_ko_world 1 (demo_ko_exec "refs/heads/main")) as [[o st]|e] eqn:Hr;
    [|vm_compute in Hr; discriminate Hr].
  pose proof (exec_run demo_ko_world 1 (demo_ko_exec "refs/heads/main")) as H. rewrite Hr in H.
  destruct (kickoff_of_a_ref_fails r_json demo_make_inspector "1.0" (λ _, "") 5
    (demo_kickoff "refs/heads/main") demo_services demo_ko_settings "refs/heads/main" _ o st
    eq_refl ltac:(discriminate) H) as [[e ->] Hst].
  exists e, st. split; [reflexivity|exact Hst].
Defined.
