(* ===== verification/KickoffClient.v ===== *)
(** * The kickoff client: [src/cxoneflow_kickoff_api/kickoff_client.py]

    The token the client keeps is explicit state.  A request is what
    [requests.post] is given that varies: the authorization header and the
    message. *)
From S2P Require Import Prelude PyStr PyJson Url Auth ApiSession Messaging ScmConfig Orchestration Dispatch Kickoff.
Open Scope string_scope.
Open Scope nat_scope.
Open Scope list_scope.

(** ** Calls *)
Inductive kc_ev : Type :=
| ClientTime                                      (* [int(time.time())] *)
| Post (authorization : string) (msg : json)
| WaitingCallback (s : KickoffStatusCodes) (msg : json) (delay : Z)
| ClientSleep (seconds : Z).

Definition kc_resp (e : kc_ev) : Type :=
  match e with
  | ClientTime => Z
  | Post _ _ => response
  | WaitingCallback _ _ _ => bool
  | ClientSleep _ => unit
  end.
#[global] Arguments kc_resp : simpl never.
Abbreviation kc_prog := (prog kc_ev kc_resp).

Section client.
(** [jwt.encode({"exp": exp, "alg": alg}, pkey, algorithm=alg)], for the key of
    the client and its algorithm. *)
Context (jwt_encode : Z → outcome string).
(** [KickoffResponseMsg.from_dict] *)
Context (msg_from_dict : json → outcome json).

Definition JWT_TIMEOUT : Z := 600.
Definition JWT_JITTER : Z := 60.
Definition SLEEP_SECONDS : Z := 15.
Definition SLEEP_MAX_SECONDS : Z := 180.

(** [__jwt] and [__jwt_exp] *)
Record client_state : Type := ClientState { c_jwt : option string; c_exp : option Z }.
Definition client_initial : client_state := ClientState None None.

(** [__get_jwt]; the clock is only read when there is a token to check. *)
Definition renew_jwt : kc_prog (string * client_state) :=
  let! now := call ClientTime in
  let exp := (now + JWT_TIMEOUT)%Z in
  let! token := lift (jwt_encode exp) in
  Ret (token, ClientState (Some token) (Some exp)).

Definition get_jwt (force : bool) (s : client_state) : kc_prog (string * client_state) :=
  if force then renew_jwt
  else match c_jwt s, c_exp s return kc_prog (string * client_state) with
       | Some token, Some exp =>
           let! now := call ClientTime in
           if (exp - JWT_JITTER <=? now)%Z then renew_jwt else Ret (token, s)
       | _, _ => renew_jwt
       end.

(** [__execute_request]: [while auth_retry], two iterations at most. *)
Fixpoint request_loop (n : nat) (auth_retried : bool) (msg : json) (s : client_state) :
    kc_prog (response * client_state) :=
  match n with
  | 0 => Raise OutOfFuel
  | S n' =>
      let! ' (token, s) := get_jwt auth_retried s in
      let! resp := call (Post ("Bearer " +:+ token) msg) in
      if (r_status_code resp =? 401)%Z && negb auth_retried
      then request_loop n' true msg s
      else Ret (resp, s)
  end.
Definition execute_request (msg : json) (s : client_state) : kc_prog (response * client_state) :=
  request_loop 2 false msg s.

(** [kickoff_scan]: one submission, and again after a pause while the server says
    that too many scans run and the callback does not refuse. *)
Fixpoint kickoff_loop (fuel : nat) (callback : bool) (msg : json) (delay : Z) (s : client_state) :
    kc_prog (KickoffStatusCodes * json) :=
  match fuel with
  | 0 => Raise OutOfFuel
  | S fuel' =>
      let! ' (resp, s) := execute_request msg s in
      let status := kickoff_status (r_status_code resp) in
      let! resp_msg :=
        lift (if r_ok resp || bool_decide (status ∈ [SCAN_EXISTS; TOO_MANY_SCANS])
              then let? j := r_json resp in msg_from_dict j
              else Ok JNull) in
      match status return kc_prog (KickoffStatusCodes * json) with
      | SCAN_STARTED | SCAN_EXISTS => Ret (status, resp_msg)
      | TOO_MANY_SCANS =>
          let! goes_on := (if callback then call (WaitingCallback status resp_msg delay)
                           else Ret true : kc_prog bool) in
          if (goes_on : bool) then
            do! call (ClientSleep delay) in
            kickoff_loop fuel' callback msg (Z.min SLEEP_MAX_SECONDS (delay + SLEEP_SECONDS)) s
          else Ret (status, resp_msg)
      | _ => Raise KickoffClientException
      end
  end.

Definition kickoff_scan (fuel : nat) (callback : bool) (msg : json) (s : client_state) :
    kc_prog (KickoffStatusCodes * json) :=
  kickoff_loop fuel callback msg SLEEP_SECONDS s.
End client.

(** ** Theorems *)
Section theorems.
Context (jwt_encode : Z → outcome string).
Context (msg_from_dict : json → outcome json).

Definition is_submit (e : kc_ev) : bool := match e with Post _ _ => true | _ => false end.

(** The delays of the pauses of a trace, in order. *)
Definition pauses (tr : list (obs kc_ev kc_resp)) : list Z :=
  omap (λ e, match e with ClientSleep d => Some d | _ => None end) (events tr).

(** The delays from [delay] on: fifteen seconds more each time, up to the limit. *)
Fixpoint delays (n : nat) (delay : Z) : list Z :=
  match n with
  | 0 => []
  | S n' => delay :: delays n' (Z.min SLEEP_MAX_SECONDS (delay + SLEEP_SECONDS))
  end.

Lemma pauses_app tr1 tr2 : pauses (tr1 ++ tr2) = pauses tr1 ++ pauses tr2.
Proof. unfold pauses. by rewrite events_app, omap_app. Qed.

Lemma renew_jwt_spec tr o :
  exec (renew_jwt jwt_encode) tr o →
  pauses tr = [] ∧ count is_submit tr = 0 ∧
  ∀ token s, o = Ok (token, s) → ∃ now, tr = [Obs ClientTime (Ok now)] ∧
    jwt_encode (now + JWT_TIMEOUT) = Ok token ∧
    s = ClientState (Some token) (Some (now + JWT_TIMEOUT)%Z).
Proof.
  unfold renew_jwt. intros H.
  call_step H as [(now & tr' & -> & H)|(e & -> & ->)]; [|done].
  apply exec_lift_bind in H as [(token & Ht & [-> ->])|(e & _ & -> & ->)]; [|done].
  split; [done|]. split; [done|]. intros ? ? [= <- <-]. eauto.
Qed.

(** A token that is used is fresh: it was made under the clock, or it is the one
    kept and more than a minute from its end. *)
Lemma get_jwt_spec force s tr o :
  exec (get_jwt jwt_encode force s) tr o →
  pauses tr = [] ∧ count is_submit tr = 0 ∧
  ∀ token s', o = Ok (token, s') → ∃ now exp, Obs ClientTime (Ok now) ∈ tr ∧
    c_jwt s' = Some token ∧ c_exp s' = Some exp ∧ (now < exp - JWT_JITTER)%Z ∧
    (force = true → jwt_encode exp = Ok token ∧ exp = (now + JWT_TIMEOUT)%Z) ∧
    (jwt_encode exp = Ok token ∨ s' = s).
Proof.
  assert (Hrenew : ∀ tr o, exec (renew_jwt jwt_encode) tr o →
    pauses tr = [] ∧ count is_submit tr = 0 ∧
    ∀ token s', o = Ok (token, s') → ∃ now exp, Obs ClientTime (Ok now) ∈ tr ∧
      c_jwt s' = Some token ∧ c_exp s' = Some exp ∧ (now < exp - JWT_JITTER)%Z ∧
      (force = true → jwt_encode exp = Ok token ∧ exp = (now + JWT_TIMEOUT)%Z) ∧
      (jwt_encode exp = Ok token ∨ s' = s)).
  { intros tr' o' H. apply renew_jwt_spec in H as (? & ? & H). split; [done|]. split; [done|].
    intros token s' Ho. destruct (H _ _ Ho) as (now & -> & Ht & ->).
    exists now, (now + JWT_TIMEOUT)%Z. unfold JWT_TIMEOUT, JWT_JITTER in *.
    split_and!; try done; [apply elem_of_cons; by left|lia|by left]. }
  unfold get_jwt. destruct force; [apply Hrenew|].
  destruct (c_jwt s) as [token|] eqn:Hj; [|apply Hrenew].
  destruct (c_exp s) as [exp|] eqn:He; [|apply Hrenew]. intros H.
  call_step H as [(now & tr' & -> & H)|(e & -> & ->)]; [|done].
  destruct (Z.leb_spec (exp - JWT_JITTER) now).
  - apply Hrenew in H as (? & ? & H). split; [done|]. split; [done|].
    intros t' s' Ho. destruct (H t' s' Ho) as (now' & exp' & Hin & Hrest). exists now', exp'.
    split; [apply elem_of_cons; by right|done].
  - destruct H as [-> ->]. split; [done|]. split; [done|]. intros ? ? [= <- <-].
    exists now, exp. split; [apply elem_of_cons; by left|].
    split; [done|]. split; [done|]. split; [done|]. split; [done|]. by right.
Qed.

Lemma request_loop_spec n retried msg s tr o :
  exec (request_loop jwt_encode n retried msg s) tr o →
  pauses tr = [] ∧ count is_submit tr ≤ n ∧
  ∀ resp s', o = Ok (resp, s') → ∃ tr0 token now exp,
    tr = tr0 ++ [Obs (Post ("Bearer " +:+ token) msg) (Ok resp)] ∧
    Obs ClientTime (Ok now) ∈ tr0 ∧ c_jwt s' = Some token ∧ c_exp s' = Some exp ∧
    (now < exp - JWT_JITTER)%Z ∧
    (r_status_code resp = 401%Z → jwt_encode exp = Ok token ∧ exp = (now + JWT_TIMEOUT)%Z).
Proof.
  revert retried s tr o. induction n as [|n IH]; intros retried s tr o H.
  { destruct H as [-> ->]. done. }
  cbn [request_loop] in H.
  apply exec_bind in H as [([token s1] & tr1 & tr2 & -> & Hj & H)|(e & Hj & ->)].
  2:{ apply get_jwt_spec in Hj as (-> & -> & _). by split_and!; [|lia|]. }
  apply get_jwt_spec in Hj as (Hp1 & Hc1 & Hj).
  destruct (Hj _ _ eq_refl) as (now & exp & Hnow & Hjwt & Hexp & Hlt & Hforce & _). clear Hj.
  rewrite pauses_app, count_app, Hp1, Hc1.
  call_step H as [(resp & tr3 & -> & H)|(e & -> & ->)].
  2:{ split; [done|]. split; [|done]. rewrite count_cons, count_nil. simpl. lia. }
  rewrite count_cons. simpl.
  assert (Hpost : ∀ t : list (obs kc_ev kc_resp),
    pauses (Obs (Post ("Bearer " +:+ token) msg) (Ok resp) :: t) = pauses t) by done.
  rewrite Hpost.
  destruct ((r_status_code resp =? 401)%Z && negb retried) eqn:Hretry.
  - apply IH in H as (Hp & Hc & H). split; [done|]. split; [lia|].
    intros resp' s' Ho. destruct (H _ _ Ho) as (tr0 & token' & now' & exp' & -> & Hin & Hrest).
    exists (tr1 ++ Obs (Post ("Bearer " +:+ token) msg) (Ok resp) :: tr0), token', now', exp'.
    split; [by rewrite <- app_assoc|]. split; [|done].
    rewrite elem_of_app, elem_of_cons. by auto.
  - destruct H as [-> ->]. split; [done|]. split; [rewrite count_nil; lia|].
    intros resp' s' [= <- <-]. exists tr1, token, now, exp.
    split_and!; try done. intros H401. rewrite H401 in Hretry. simpl in Hretry.
    by apply Hforce, negb_false_iff.
Qed.

Lemma delays_lookup n k delay :
  (0 ≤ delay ≤ SLEEP_MAX_SECONDS)%Z → k < n →
  delays n delay !! k = Some (Z.min SLEEP_MAX_SECONDS (delay + SLEEP_SECONDS * Z.of_nat k)).
Proof.
  unfold SLEEP_MAX_SECONDS, SLEEP_SECONDS.
  revert k delay. induction n as [|n IH]; intros k delay Hd Hk; [lia|]. cbn [delays].
  destruct k as [|k]; simpl; [f_equal; lia|].
  rewrite IH by (unfold SLEEP_MAX_SECONDS, SLEEP_SECONDS; lia).
  unfold SLEEP_MAX_SECONDS, SLEEP_SECONDS. f_equal. lia.
Qed.

Lemma length_delays n delay : length (delays n delay) = n.
Proof. revert delay. induction n as [|n IH]; intros delay; simpl; [done|by rewrite IH]. Qed.

Lemma kickoff_loop_spec fuel callback msg : ∀ delay s tr o,
  exec (kickoff_loop jwt_encode msg_from_dict fuel callback msg delay s) tr o →
  ∃ n, pauses tr = delays n delay ∧ count is_submit tr ≤ 2 * S n ∧
    ∀ status m, o = Ok (status, m) →
      status = SCAN_STARTED ∨ status = SCAN_EXISTS ∨
      (status = TOO_MANY_SCANS ∧ callback = true ∧
       ∃ d, Obs (WaitingCallback TOO_MANY_SCANS m d) (Ok false) ∈ tr).
Proof.
  induction fuel as [|fuel IH]; intros delay s tr o H.
  { destruct H as [-> ->]. exists 0. by split_and!; [|rewrite count_nil; lia|]. }
  cbn [kickoff_loop] in H.
  apply exec_bind in H as [([resp s1] & tr1 & tr2 & -> & Hr & H)|(e & Hr & ->)];
    apply request_loop_spec in Hr as (Hp & Hc & _); [|exists 0; by split_and!; [|lia|]].
  apply exec_lift_bind in H as [(m & _ & H)|(e & _ & -> & ->)].
  2:{ exists 0. rewrite app_nil_r. by split_and!; [|lia|]. }
  assert (Hend : ∀ tr', pauses tr' = [] → count is_submit tr' = 0 →
    pauses (tr1 ++ tr') = delays 0 delay ∧ count is_submit (tr1 ++ tr') ≤ 2 * 1).
  { intros tr' H1 H2. rewrite pauses_app, count_app, Hp, H1, H2. split; [done|lia]. }
  destruct (kickoff_status (r_status_code resp)); simpl in H;
    try (exists 0; destruct H as [-> ->]; split; [by apply Hend|];
         split; [by apply Hend|]; by intros st m' [= <- <-]; auto).
  apply exec_bind in H as [(goes_on & tr3 & tr4 & -> & Hg & H)|(e & Hg & ->)].
  2:{ exists 0. assert (pauses tr2 = [] ∧ count is_submit tr2 = 0) as [H1 H2].
      { destruct callback; [|by destruct Hg].
        apply (exec_call (Resp:=kc_resp) (WaitingCallback _ _ _)) in Hg as ->. done. }
      destruct (Hend _ H1 H2). by split_and!. }
  assert (pauses tr3 = [] ∧ count is_submit tr3 = 0 ∧ (goes_on = false → callback = true ∧
    tr3 = [Obs (WaitingCallback TOO_MANY_SCANS m delay) (Ok false)])) as (H1 & H2 & H3).
  { destruct callback; [|by destruct Hg as [-> [= ->]]].
    apply (exec_call (Resp:=kc_resp) (WaitingCallback _ _ _)) in Hg as ->.
    split; [done|]. split; [done|]. by intros ->. }
  destruct goes_on.
  - call_step H as [([] & tr5 & -> & H)|(e & -> & ->)].
    + apply IH in H as (n & Hp' & Hc' & H). exists (S n).
      rewrite !pauses_app, !count_app, count_cons, Hp, H1, H2. simpl.
      change (pauses (Obs (ClientSleep delay) (Ok ()) :: tr5)) with (delay :: pauses tr5).
      rewrite Hp'. split; [done|]. split; [lia|]. intros status m' Ho.
      destruct (H _ _ Ho) as [?|[?|(? & ? & d & Hin)]]; [by left|by right; left|].
      right. right. split; [done|]. split; [done|]. exists d.
      rewrite !elem_of_app, elem_of_cons. by auto.
    + exists 1. rewrite !pauses_app, !count_app, count_cons, Hp, H1, H2, count_nil. simpl.
      split_and!; [done|lia|done].
  - destruct (H3 eq_refl) as [-> ->]. destruct H as [-> ->]. exists 0. rewrite app_nil_r.
    destruct (Hend _ H1 H2). split; [done|]. split; [done|]. intros st m' [= <- <-].
    right. right. split; [done|]. split; [done|]. exists delay. rewrite elem_of_app.
    right. apply elem_of_cons. by left.
Qed.

(** The pauses of a kickoff grow by fifteen seconds from fifteen seconds to
    three minutes; between two pauses at most two posts are made; the client
    returns only what the server said: the scan was started, it exists, or, when
    the callback refuses to wait, too many scans run. *)
Theorem kickoff_client_backoff fuel callback msg s tr o :
  exec (kickoff_scan jwt_encode msg_from_dict fuel callback msg s) tr o →
  (∀ k d, pauses tr !! k = Some d → d = Z.min 180 (15 * (Z.of_nat k + 1))) ∧
  count is_submit tr ≤ 2 * S (length (pauses tr)) ∧
  ∀ status m, o = Ok (status, m) →
    status = SCAN_STARTED ∨ status = SCAN_EXISTS ∨
    (status = TOO_MANY_SCANS ∧ callback = true ∧
     ∃ d, Obs (WaitingCallback TOO_MANY_SCANS m d) (Ok false) ∈ tr).
Proof.
  intros H. apply kickoff_loop_spec in H as (n & -> & Hc & H). rewrite length_delays.
  split; [|by split]. intros k d Hk. pose proof (lookup_lt_Some _ _ _ Hk) as Hlt.
  rewrite length_delays in Hlt.
  rewrite delays_lookup in Hk by (unfold SLEEP_SECONDS, SLEEP_MAX_SECONDS; lia).
  injection Hk as <-. unfold SLEEP_SECONDS, SLEEP_MAX_SECONDS. lia.
Qed.

(** The token of a request: whatever token the client kept, the one it sends
    last has more than a minute left, it is the one it then keeps, and after a
    refusal (401) it is a new one. *)
Theorem kickoff_client_token msg s tr resp s' :
  exec (execute_request jwt_encode msg s) tr (Ok (resp, s')) →
  count is_submit tr ≤ 2 ∧ ∃ tr0 token now exp,
    tr = tr0 ++ [Obs (Post ("Bearer " +:+ token) msg) (Ok resp)] ∧
    Obs ClientTime (Ok now) ∈ tr0 ∧ c_jwt s' = Some token ∧ c_exp s' = Some exp ∧
    (now < exp - 60)%Z ∧
    (r_status_code resp = 401%Z → jwt_encode exp = Ok token ∧ exp = (now + 600)%Z).
Proof.
  intros H. apply request_loop_spec in H as (_ & Hc & H). split; [done|].
  by apply H.
Qed.
End theorems.

(** ** Witnesses *)
Definition demo_server (n : nat) (e : kc_ev) : outcome (kc_resp e) * nat :=
  match e return outcome (kc_resp e) * nat with
  | ClientTime => (Ok 1000%Z, n)
  | Post _ _ => (Ok (Response (3 <=? n) (if n =? 0 then 401 else if n <? 3 then 429 else 201)
                       (Ok (JObj [])) [] ""), S n)
  | WaitingCallback _ _ _ => (Ok true, n)
  | ClientSleep _ => (Ok tt, n)
  end.

Definition demo_kickoff_client : kc_prog (KickoffStatusCodes * json) :=
  kickoff_scan (λ _, Ok "jwt") Ok 5 true (JObj []) client_initial.

Lemma kickoff_client_backoff_witness :
  pauses (run_trace demo_server 0 demo_kickoff_client) = [15; 30]%Z ∧
  count is_submit (run_trace demo_server 0 demo_kickoff_client) ≤ 6.
Proof.
  destruct (kickoff_client_backoff (λ _, Ok "jwt") Ok 5 true (JObj []) client_initial _ _
    (exec_run demo_server 0 demo_kickoff_client)) as (_ & H & _).
  split; [vm_compute; reflexivity|exact H].
Defined.

Lemma kickoff_client_token_witness :
  ∃ resp s', run_outcome demo_server 0 (execute_request (λ _, Ok "jwt") (JObj []) client_initial)
    = Ok (resp, s') ∧
  count is_submit (run_trace demo_server 0
    (execute_request (λ _, Ok "jwt") (JObj []) client_initial)) ≤ 2.
Proof.
  eexists _, _. split; [vm_compute; reflexivity|].
  exact (proj1 (kickoff_client_token (λ _, Ok "jwt") (JObj []) client_initial _ _ _
    (exec_run demo_server 0 (execute_request (λ _, Ok "jwt") (JObj []) client_initial)))).
Defined.
