(* ===== verification/Github.v ===== *)
(** * GitHub events: [src/orchestration/gh.py]

    What [GithubOrchestrator] reads of an event, its tables of workflows, and the
    protected branches it asks GitHub for, page by page.  Also the signature
    check that it shares with the Bitbucket orchestrators. *)
From S2P Require Import Prelude PyStr PyJson Url Auth ApiSession Messaging ScmConfig Orchestration Dispatch.
Open Scope string_scope.
Open Scope nat_scope.
Open Scope list_scope.

(** The JSONPath queries of [src/orchestration/gh.py], by the names of their attributes. *)
Definition gh_event_action_query : string := "$.action".
Definition gh_install_sender_query : string := "$.sender.login".
Definition gh_install_target_query : string := "$.installation.account.login".
Definition gh_install_target_type_query : string := "$.installation.account.type".
Definition gh_install_repo_selection_query : string := "$.installation.repository_selection".
Definition gh_install_events_query : string := "$.installation.events".
Definition gh_install_permissions_query : string := "$.installation.permissions".
Definition gh_install_route_url_query : string := "$.installation.account.html_url".
Definition gh_push_target_branch_query : string := "$.ref".
Definition gh_push_target_hash_query : string := "$.after".
Definition gh_push_project_key_query : string := "$.repository.name".
Definition gh_push_org_key_query : string := "$.repository.owner.name".
Definition gh_pull_target_branch_query : string := "$.pull_request.base.ref".
Definition gh_check_run_pull_target_branch_query : string :=
  "$.check_run.check_suite.pull_requests[0].base.ref".
Definition gh_pull_target_hash_query : string := "$.pull_request.base.sha".
Definition gh_check_run_pull_target_hash_query : string :=
  "$.check_run.check_suite.pull_requests[0].base.sha".
Definition gh_pull_source_branch_query : string := "$.pull_request.head.ref".
Definition gh_check_run_pull_source_branch_query : string :=
  "$.check_run.check_suite.pull_requests[0].head.ref".
Definition gh_pull_source_hash_query : string := "$.pull_request.head.sha".
Definition gh_check_run_pull_source_hash_query : string :=
  "$.check_run.check_suite.pull_requests[0].head.sha".
Definition gh_pull_id_query : string := "$.number".
Definition gh_check_run_pull_id_query : string :=
  "$.check_run.check_suite.pull_requests[0].number".
Definition gh_pull_state_query : string := "$.pull_request.state".
Definition gh_pull_draft_query : string := "$.pull_request.draft".
Definition gh_pull_html_url : string := "$.pull_request.html_url".
Definition gh_check_run_pull_html_url : string := "$.check_run.check_suite.pull_requests[0].url".
Definition gh_pull_project_key_query : string := "$.repository.name".
Definition gh_pull_org_key_query : string := "$.repository.owner.login".
Definition gh_pull_assignee_query : string := "$.pull_request.assignee".
Definition gh_pull_assignees_query : string := "$.pull_request.assignees".
Definition gh_pull_requested_reviewers_query : string :=
  "$.pull_request[requested_teams,requested_reviewers][*]".
Definition gh_check_run_external_id_query : string := "$.check_run.external_id".
Definition gh_check_run_id_query : string := "$.check_run.id".
Definition gh_code_event_route_url_query : string := "$.repository[clone_url,ssh_url]".
Definition gh_code_event_ssh_clone_url_query : string := "$.repository.ssh_url".
Definition gh_code_event_http_clone_url_query : string := "$.repository.clone_url".
Definition gh_code_event_default_branch_name_extract : string := "$.repository.default_branch".
Definition gh_branch_names_extract : string := "$.[*].name".
Definition gh_requested_action_extract : string := "$.requested_action.identifier".

(** [get_header_key_safe] *)
Definition get_header_key_safe (ctx : EventContext) (key : string) : option string :=
  dget key (headers ctx).

Section hub.
(** [signature.hmac]: raises for an algorithm that does not exist. *)
Context (hmac_digest : string → string → string → outcome string).

(** [is_signature_valid] of the GitHub and Bitbucket orchestrators, for the
    header [h]. *)
Definition hub_signature_valid (h : string) (ctx : EventContext) (shared_secret : string) :
    outcome bool :=
  match get_header_key_safe ctx h with
  | None => Ok false
  | Some sig =>
      match split "="%char sig with
      | [hashalg; hash] =>
          let? payload_hash := hmac_digest hashalg shared_secret (raw_event_payload ctx) in
          Ok (bool_decide (hash = payload_hash))
      | _ => Err ValueError
      end
  end.

(** A payload is accepted exactly when its signature header is there and
    is an algorithm, an equals sign and the digest of the raw payload under the
    service's secret. *)
Theorem hub_signature_valid_spec h ctx secret :
  hub_signature_valid h ctx secret = Ok true ↔
  ∃ alg digest, dget h (headers ctx) = Some (alg +:+ "=" +:+ digest) ∧
    str_elem "="%char alg = false ∧ str_elem "="%char digest = false ∧
    hmac_digest alg secret (raw_event_payload ctx) = Ok digest.
Proof.
  unfold hub_signature_valid, get_header_key_safe. split.
  - intros H. destruct (dget h (headers ctx)) as [sig|] eqn:Hsig; [|done].
    destruct (split "="%char sig) as [|alg [|hash [|? ?]]] eqn:Hs; try done.
    apply split_two in Hs as (-> & Ha & Hh).
    destruct (hmac_digest alg secret _) as [p|] eqn:Hd; simpl in H; [|done].
    case_bool_decide as Heq; [|done]. subst p. eauto 6.
  - intros (alg & digest & -> & Ha & Hd & Hh).
    assert (split "="%char (alg +:+ "=" +:+ digest) = [alg; digest]) as ->
      by by apply split_two.
    rewrite Hh. simpl. by rewrite bool_decide_true.
Qed.
End hub.

Section gh.
Context (jp : string → json → list json).
Context (repr : json → string).
Context (hmac_digest : string → string → string → outcome string).
Context (scan_inspector : json → outcome inspector).
Context (version : string).
(** The most elements a paged answer is read to. *)
Context (page_fuel : nat).

Definition api_page_max : nat := 100.

(** [query.find(message)[0].value] and [query.find(message).pop().value] *)
Definition find0 (q : string) (ctx : EventContext) : outcome json := first (jp q (message ctx)).
Definition find_pop (q : string) (ctx : EventContext) : outcome json := pop (jp q (message ctx)).

Definition pstr (v : json) : string := py_str repr v.

(** ** The event, as [__init__] reads it *)
Record gh_event : Type := GhEvent {
  gh_ctx : EventContext;
  gh_diagnostic : bool;
  gh_name : option string;            (* the X-Github-Event header *)
  gh_action : option json;
  gh_dispatch_event : option string;
  gh_route_urls : list json;
  gh_clone_urls : dict json }.

Definition gh_installation_events : list string := ["installation"; "installation_repositories"].
Definition gh_code_events : list string := ["push"; "pull_request"; "check_run"].

(** [__installation_route_urls], [__code_event_route_urls] and the dispatch map *)
Definition gh_route_urls_of (ctx : EventContext) (event : option string) : outcome (list json) :=
  match event with
  | None => Ok []
  | Some e =>
      if bool_decide (e ∈ gh_installation_events) then
        let? u := find0 gh_install_route_url_query ctx in Ok [u]
      else if bool_decide (e ∈ gh_code_events) then
        Ok (jp gh_code_event_route_url_query (message ctx))
      else Ok []
  end.

(** [__code_event_clone_urls] *)
Definition gh_clone_urls_of (ctx : EventContext) (event : option string) : outcome (dict json) :=
  match event with
  | Some e =>
      if bool_decide (e ∈ gh_code_events) then
        let? ssh := find0 gh_code_event_ssh_clone_url_query ctx in
        let? http := find0 gh_code_event_http_clone_url_query ctx in
        Ok [("ssh", ssh); ("http", http)]
      else Ok []
  | None => Ok []
  end.

Definition str_of_option (o : option string) : string := default "None" o.

Definition gh_init (ctx : EventContext) : outcome gh_event :=
  let event := get_header_key_safe ctx "X-Github-Event" in
  if bool_decide (event = Some "ping") then Ok (GhEvent ctx true event None None [] [])
  else
    let '(action, dispatch_event) :=
      match jp gh_event_action_query (message ctx) with
      | a :: _ => (Some a, Some (str_of_option event +:+ ":" +:+
                                   if not_none a then pstr a else ""))
      | [] => (None, event)
      end in
    let? routes := gh_route_urls_of ctx event in
    let? clones := gh_clone_urls_of ctx event in
    Ok (GhEvent ctx false event action dispatch_event routes clones).

(** ** What the workflows read of an event *)
Record gh_state : Type := GhState {
  gs_target_branch : json; gs_target_hash : json;
  gs_source_branch : json; gs_source_hash : json;
  gs_project_key : json; gs_org : json;
  gs_pr : option (json * json * json);        (* id, state, status *)
  gs_is_draft : bool }.

(** [__init_state_on_push] *)
Definition gh_init_state_on_push (ctx : EventContext) : outcome gh_state :=
  let? ref := find0 gh_push_target_branch_query ctx in
  let? branch := normalize_branch_name ref in
  let? hash := find0 gh_push_target_hash_query ctx in
  let? key := find0 gh_push_project_key_query ctx in
  let? org := find0 gh_push_org_key_query ctx in
  Ok (GhState branch hash branch hash key org None false).

(** [__populate_common_pr_data_from_any_event] *)
Definition gh_any_event_data (ctx : EventContext) : outcome (json * json) :=
  let? key := find0 gh_pull_project_key_query ctx in
  let? org := find0 gh_pull_org_key_query ctx in
  Ok (key, org).

(** [__populate_common_pr_data_from_check_run_event] *)
Definition gh_check_run_state (ctx : EventContext) : outcome gh_state :=
  let? ' (key, org) := gh_any_event_data ctx in
  let? _ := find0 gh_check_run_pull_html_url ctx in
  let? id := find0 gh_check_run_pull_id_query ctx in
  let? tb := find0 gh_check_run_pull_target_branch_query ctx in
  let? sb := find0 gh_check_run_pull_source_branch_query ctx in
  let? th := find0 gh_check_run_pull_target_hash_query ctx in
  let? sh := find0 gh_check_run_pull_source_hash_query ctx in
  Ok (GhState tb th sb sh key org (Some (id, JStr "open", JStr "REREQUESTED")) false).

(** [len(v)] of a list, a string or a dictionary *)
Definition py_len (v : json) : outcome nat :=
  match v with
  | JArr l => Ok (length l)
  | JStr s => Ok (String.length s)
  | JObj d => Ok (length d)
  | _ => Err TypeError
  end.

(** [assignees.append(a)], where the list is the one of the event's message that the
    query [$.pull_request.assignees] found. *)
Definition gh_append_assignee (a m : json) : json :=
  match m with
  | JObj d =>
      match dget "pull_request" d with
      | Some (JObj p) =>
          match dget "assignees" p with
          | Some (JArr l) =>
              JObj (dset "pull_request" (JObj (dset "assignees" (JArr (l ++ [a])) p)) d)
          | _ => m
          end
      | _ => m
      end
  | _ => m
  end.
Definition gh_with_message (f : json → json) (ctx : EventContext) : EventContext :=
  MkEventContext (raw_event_payload ctx) (headers ctx) (f (message ctx)).

(** [__get_pr_assignees]: how many there are, and the context of the event after it:
    the single assignee is appended to the list of the message itself, unless that
    is empty. *)
Definition gh_pr_assignees (ctx : EventContext) : outcome (nat * EventContext) :=
  let? ret := match jp gh_pull_assignees_query (message ctx) with
              | v :: _ => if not_none v then
                            let? n := py_len v in
                            if 0 <? n then Ok (Some v, n) else Ok (None, 0)
                          else Ok (None, 0)
              | [] => Ok (None, 0)
              end in
  match jp gh_pull_assignee_query (message ctx) with
  | a :: _ => if not_none a then
                match ret.1 with
                | None => Ok (1, ctx)
                | Some (JArr _) => Ok (S ret.2, gh_with_message (gh_append_assignee a) ctx)
                | Some _ => Err AttributeError
                end
              else Ok (ret.2, ctx)
  | [] => Ok (ret.2, ctx)
  end.

(** [__get_pr_reviewers]: the length of the first one found. *)
Definition gh_pr_reviewers (ctx : EventContext) : outcome nat :=
  match jp gh_pull_requested_reviewers_query (message ctx) with
  | v :: _ => if not_none v then py_len v else Ok 0
  | [] => Ok 0
  end.

(** [__populate_common_pr_data_from_pr_event], with the context that it leaves *)
Definition gh_pr_state (ctx : EventContext) : outcome (EventContext * gh_state) :=
  let? ' (key, org) := gh_any_event_data ctx in
  let? _ := find0 gh_pull_html_url ctx in
  let? id := find0 gh_pull_id_query ctx in
  let? tb := find0 gh_pull_target_branch_query ctx in
  let? sb := find0 gh_pull_source_branch_query ctx in
  let? th := find0 gh_pull_target_hash_query ctx in
  let? sh := find0 gh_pull_source_hash_query ctx in
  let? draft := find0 gh_pull_draft_query ctx in
  let? state := find0 gh_pull_state_query ctx in
  let? ' (assignees, ctx) := gh_pr_assignees ctx in
  let? status := if 0 <? assignees then Ok "REVIEWERS_ASSIGNED"
                 else let? reviewers := gh_pr_reviewers ctx in
                      Ok (if 0 <? reviewers then "REVIEWERS_REQUESTED" else "NO_REVIEWERS") in
  Ok (ctx, GhState tb th sb sh key org
        (Some (id, JStr (pstr state +:+ if truthy draft then "-draft" else ""), JStr status))
        (truthy draft)).
Definition gh_in_context (ev : gh_event) (ctx : EventContext) : gh_event :=
  GhEvent ctx (gh_diagnostic ev) (gh_name ev) (gh_action ev) (gh_dispatch_event ev)
    (gh_route_urls ev) (gh_clone_urls ev).

(** What is read of a pull request leaves a context of the same event. *)
Lemma gh_pr_assignees_same ctx n ctx' : gh_pr_assignees ctx = Ok (n, ctx') → same_event ctx' ctx.
Proof.
  unfold gh_pr_assignees. intros (ret & _ & H)%bindO_ok.
  repeat case_match; try done; by injection H as <- <-.
Qed.
Lemma gh_pr_state_assignees ctx ctx' s :
  gh_pr_state ctx = Ok (ctx', s) → ∃ n, gh_pr_assignees ctx = Ok (n, ctx').
Proof. unfold gh_pr_state, gh_any_event_data. intros H. inv_ok. eauto. Qed.
Lemma gh_pr_state_same ctx ctx' s : gh_pr_state ctx = Ok (ctx', s) → same_event ctx' ctx.
Proof. intros [n H]%gh_pr_state_assignees. by eapply gh_pr_assignees_same. Qed.

(** A pull request that lists its assignees and names one of them. *)
Record gh_assigned (m : json) : Prop := GhAssigned {
  ga_assignees : ∃ d p l, m = JObj d ∧ dget "pull_request" d = Some (JObj p) ∧
    dget "assignees" p = Some (JArr l) ∧ l ≠ [] ∧ ∃ ms, jp gh_pull_assignees_query m = JArr l :: ms;
  ga_assignee : ∃ a ms, jp gh_pull_assignee_query m = a :: ms ∧ not_none a = true }.

(** Its message is altered when it is read. *)
Lemma gh_assigned_altered ctx ctx' s :
  gh_assigned (message ctx) → gh_pr_state ctx = Ok (ctx', s) → message ctx' ≠ message ctx.
Proof.
  intros [(d & p & l & Hm & Hd & Hp & Hl & ms & Hq) (a & ms' & Ha & Hn)] [n H]%gh_pr_state_assignees.
  unfold gh_pr_assignees in H. rewrite Hq, Ha, Hn in H. simpl in H.
  destruct l as [|x l]; [done|]. simpl in H. injection H as <- <-. simpl. rewrite Hm. simpl.
  rewrite Hd, Hp. intros [= Heq]. apply (f_equal (dget "pull_request")) in Heq.
  rewrite dget_dset_eq, Hd in Heq. injection Heq as Heq. apply (f_equal (dget "assignees")) in Heq.
  rewrite dget_dset_eq, Hp in Heq. injection Heq as Heq. apply (f_equal length) in Heq.
  rewrite length_app in Heq. simpl in Heq. lia.
Qed.

(** ** Protected branches *)
Definition gh_branches_request (ctx : EventContext) (s : gh_state) (offset : nat) :
    orch_prog response :=
  call (ScmExec (Some ctx) "GET"
          ("/repos/" +:+ pstr (gs_org s) +:+ "/" +:+ pstr (gs_project_key s) +:+ "/branches")
          [("protected", JBool true); ("per_page", JInt (Z.of_nat api_page_max));
           ("page", JInt (Z.of_nat offset + 1))]).

Definition gh_branches_extractor (resp : response) : outcome (option (list json) * bool) :=
  if r_ok resp then
    let? j := r_json resp in
    let v := jp gh_branch_names_extract j in Ok (Some v, length v <? api_page_max)
  else Err TypeError.

(** [_get_protected_branches] *)
Definition gh_protected_branches (ctx : EventContext) (s : gh_state) : orch_prog (list json) :=
  let! branches := gen_all (gh_branches_request ctx s) gh_branches_extractor page_fuel gen_init in
  match branches with
  | [] => let! d := lift (find0 gh_code_event_default_branch_name_extract ctx) in Ret [d]
  | _ => Ret branches
  end.

(** The orchestrator once the event's data is read. *)
Definition gh_orchestrator (ev : gh_event) (delegated : bool) (s : gh_state) : orchestrator :=
  let pr f := match gs_pr s with Some p => Ok (f p) | None => Err AttributeError end in
  {| o_class := "orchestration.gh.GithubOrchestrator";
     o_event_context := gh_ctx ev;
     o_delegated_scan := delegated;
     o_target := Ok (gs_target_branch s, gs_target_hash s);
     o_source := Ok (gs_source_branch s, gs_source_hash s);
     o_protected := gh_protected_branches (gh_ctx ev) s;
     o_clone_url := repo_clone_url (gh_clone_urls ev);
     o_default_name := Ok (pstr (gs_org s) +:+ "/" +:+ pstr (gs_project_key s));
     o_project_key := Ok (gs_project_key s);
     o_slug := Ok (gs_project_key s);
     o_organization := Ok (gs_org s);
     o_pr_id := pr (λ p, JStr (pstr p.1.1));
     o_pr_state := pr (λ p, p.1.2);
     o_pr_status := pr (λ p, p.2) |}.

(** ** Workflows *)

(** [__log_app_install]: whether it warns about the installation and whether it
    finds it misconfigured; [None] for an event it says nothing about. *)
Definition gh_expected_events : list string := ["pull_request"; "pull_request_review"; "push"].
Definition gh_expected_permissions : dict string :=
  [("contents", "read"); ("metadata", "read"); ("pull_requests", "write")].

Definition gh_permission_weight (p : json) : outcome nat :=
  match p with
  | JStr "read" => Ok 1
  | JStr "write" => Ok 2
  | JArr _ | JObj _ => Err TypeError
  | _ => Err (KeyError (pstr p))
  end.

(** Remove the expected permissions that the payload grants. *)
Fixpoint gh_permissions_missing (granted : list (string * json)) (missing : dict string) :
    outcome (dict string) :=
  match granted with
  | [] => Ok missing
  | (p, level) :: rest =>
      match dget p missing with
      | None => gh_permissions_missing rest missing
      | Some expected =>
          let? we := gh_permission_weight (JStr expected) in
          let? wl := gh_permission_weight level in
          gh_permissions_missing rest (if we <=? wl then ddel p missing else missing)
      end
  end.

Definition gh_log_app_install (ev : gh_event) : outcome (option (bool * bool)) :=
  let ctx := gh_ctx ev in
  let? _ := find0 gh_install_sender_query ctx in
  let? _ := find0 gh_install_target_query ctx in
  let? target_type := find0 gh_install_target_type_query ctx in
  if bool_decide (gh_action ev ∈ [Some (JStr "created"); Some (JStr "new_permissions_accepted");
                                  Some (JStr "added")]) then
    let? selection := find0 gh_install_repo_selection_query ctx in
    let warned := negb (bool_decide (target_type = JStr "Organization")) ||
                  negb (bool_decide (selection = JStr "all")) in
    let? unhandled :=
      match jp gh_install_events_query (message ctx) with
      | [] => Ok gh_expected_events
      | v :: _ => let? l := as_arr v in
                  Ok (filter (λ x, JStr x ∉ l) gh_expected_events)
      end in
    let? missing :=
      match jp gh_install_permissions_query (message ctx) with
      | [] => Ok gh_expected_permissions
      | v :: _ => let? d := as_obj v in gh_permissions_missing d gh_expected_permissions
      end in
    Ok (Some (warned, (0 <? length unhandled) || (0 <? length missing)))
  else Ok None.

Definition push_result (r : option inspector * ScanAction) : wf_result :=
  PushResult r.1 r.2.

Section handlers.
Context (svc : services).

(** [_execute_push_scan_workflow] *)
Definition gh_push (ev : gh_event) : orch_prog wf_result :=
  let! s := lift (gh_init_state_on_push (gh_ctx ev)) in
  let! r := execute_push_scan scan_inspector version svc (gh_orchestrator ev false s) None in
  Ret (push_result r).

(** [_execute_pr_scan_workflow]: a draft is skipped. *)
Definition gh_pr_scan (ev : gh_event) : orch_prog wf_result :=
  let! ' (ctx, s) := lift (gh_pr_state (gh_ctx ev)) in
  let ev := gh_in_context ev ctx in
  if gs_is_draft s then Ret NoResult
  else let! a := execute_pr_scan scan_inspector version svc (gh_orchestrator ev false s) None in
       Ret (PrResult a).

(** [_execute_pr_tag_update_workflow] *)
Definition gh_pr_tag_update (ev : gh_event) : orch_prog wf_result :=
  let! ' (ctx, s) := lift (gh_pr_state (gh_ctx ev)) in
  let ev := gh_in_context ev ctx in
  let! l := execute_pr_tag_update (gh_orchestrator ev false s) in Ret (TagResult l).

(** [_execute_check_rescan] *)
Definition gh_check_rescan (ev : gh_event) : orch_prog wf_result :=
  let! s := lift (gh_check_run_state (gh_ctx ev)) in
  let! a := execute_pr_scan scan_inspector version svc (gh_orchestrator ev false s) None in
  Ret (PrResult a).

(** [_execute_check_cancel_scan] *)
Definition gh_check_cancel_scan (ev : gh_event) : orch_prog wf_result :=
  let! _ := lift (find_pop gh_check_run_id_query (gh_ctx ev)) in
  let! _ := lift (find_pop gh_check_run_pull_id_query (gh_ctx ev)) in
  match jp gh_check_run_external_id_query (message (gh_ctx ev)) with
  | [] => Ret NoResult
  | _ => let! scan_id := lift (find_pop gh_check_run_external_id_query (gh_ctx ev)) in
         do! call (CancelScan scan_id) in Ret NoResult
  end.

(** [_execute_check_rerequest_workflow] *)
Definition gh_check_rerequest (ev : gh_event) : orch_prog wf_result := gh_check_rescan ev.

(** [__check_action_dispatch_map] *)
Definition gh_check_action_map : dict (gh_event → orch_prog wf_result) :=
  [("CANCELSCAN", gh_check_cancel_scan); ("RERUNSCAN", gh_check_rescan)].

(** [_execute_check_requested_action_workflow] *)
Definition gh_check_requested_action (ev : gh_event) : orch_prog wf_result :=
  let! action := lift (find0 gh_requested_action_extract (gh_ctx ev)) in
  let! handler := lift (handler_for gh_check_action_map action) in
  match handler with Some h => h ev | None => Ret NoResult end.

Definition gh_install_log (ev : gh_event) : orch_prog wf_result :=
  let! _ := lift (gh_log_app_install ev) in Ret NoResult.

(** [__workflow_map] *)
Definition gh_workflow_map : list (list string * (gh_event → orch_prog wf_result)) :=
  [(["installation:deleted"; "installation:unsuspend"; "installation:suspend";
     "installation:created"; "installation_repositories:deleted";
     "installation_repositories:unsuspend"; "installation_repositories:suspend";
     "installation_repositories:created"], gh_install_log);
   (["push"], gh_push);
   (["pull_request:opened"; "pull_request:synchronize"; "pull_request:ready_for_review";
     "pull_request:reopened"], gh_pr_scan);
   (["pull_request:assigned"; "pull_request:unassigned"; "pull_request:review_request_removed";
     "pull_request:review_requested"; "pull_request:closed";
     "pull_request:converted_to_draft"], gh_pr_tag_update);
   (["check_run:requested_action"], gh_check_requested_action);
   (["check_run:rerequested"], gh_check_rerequest)].

(** The workflow a table has for an event. *)
Definition gh_lookup {A} (table : list (list string * A)) (event : option string) : option A :=
  match event with
  | None => None
  | Some e => snd <$> head (filter (λ row : list string * A, e ∈ row.1) table)
  end.

(** [execute] *)
Definition gh_execute (ev : gh_event) : orch_prog wf_result :=
  match gh_lookup gh_workflow_map (gh_dispatch_event ev) with
  | Some handler => handler ev
  | None => Ret NoResult
  end.

(** [_execute_delegated_push_scan_workflow] *)
Definition gh_delegated_push (ev : gh_event) (scan_id : json) : orch_prog wf_result :=
  let! s := lift (gh_init_state_on_push (gh_ctx ev)) in
  let! r := execute_delegated_push_scan svc (gh_orchestrator ev true s) scan_id in
  Ret (PushResult (Some r.1) r.2).

(** [_execute_delegated_pr_scan_workflow] *)
Definition gh_delegated_pr (ev : gh_event) (scan_id : json) : orch_prog wf_result :=
  let! ' (ctx, s) := lift (gh_pr_state (gh_ctx ev)) in
  let ev := gh_in_context ev ctx in
  let! a := execute_delegated_pr_scan svc (gh_orchestrator ev true s) scan_id in
  Ret (PrResult a).

(** [_execute_delegated_action_request_workflow] *)
Definition gh_delegated_action (ev : gh_event) (scan_id : json) : orch_prog wf_result :=
  let! s := lift (gh_check_run_state (gh_ctx ev)) in
  let! a := execute_delegated_pr_scan svc (gh_orchestrator ev true s) scan_id in
  Ret (PrResult a).

(** [__delegate_scan_handler_map] *)
Definition gh_delegate_map : list (list string * (gh_event → json → orch_prog wf_result)) :=
  [(["push"], gh_delegated_push);
   (["pull_request:opened"; "pull_request:synchronize"; "pull_request:ready_for_review";
     "pull_request:reopened"], gh_delegated_pr);
   (["check_run:requested_action"; "check_run:rerequested"], gh_delegated_action)].

(** [handle_delegated_scan] *)
Definition gh_handle_delegated_scan (ev : gh_event) (scan_id : json) : orch_prog wf_result :=
  match gh_lookup gh_delegate_map (gh_dispatch_event ev) with
  | Some handler => handler ev scan_id
  | None => Ret NoResult
  end.

(** [handle_delegated_pr_scan_hard_fail]: whatever the event is, its data is
    read as that of a pull request event. *)
Definition gh_hard_fail (ev : gh_event) (fail_msg : string) : orch_prog unit :=
  let! ' (ctx, s) := lift (gh_pr_state (gh_ctx ev)) in
  let ev := gh_in_context ev ctx in
  let! details := make_prdetails svc (gh_orchestrator ev true s) in
  call (ExecPrescanFailure details fail_msg).
End handlers.

Definition gh_webhook (ev : gh_event) : webhook :=
  {| is_diagnostic := gh_diagnostic ev;
     config_key := GH;
     route_urls := Ok (gh_route_urls ev);
     is_signature_valid :=
       hub_signature_valid hmac_digest "X-Hub-Signature-256" (gh_ctx ev);
     w_execute := λ svc, gh_execute svc ev;
     w_handle_delegated_scan := λ svc, gh_handle_delegated_scan svc ev;
     w_handle_delegated_pr_scan_hard_fail := λ svc, gh_hard_fail svc ev |}.

(** ** Theorems *)

(** The protected branches of a GitHub repository are the names of all the
    branches of all the pages GitHub serves, and the default branch of the event
    only when there are none; the pages are asked for one after the other,
    starting with the first. *)
Theorem gh_protected_branches_complete ctx s trs pages :
  served (gh_branches_request ctx s) gh_branches_extractor 0 trs pages →
  length (concat pages) < page_fuel →
  ∃ o, exec (gh_protected_branches ctx s) trs o ∧
    (∀ b, pages ≠ [] →
       o = Ok (concat (reverse <$> pages)) ∧
       (b ∈ concat (reverse <$> pages) ↔ ∃ p, p ∈ pages ∧ b ∈ p)) ∧
    (pages = [] →
       o = let? d := find0 gh_code_event_default_branch_name_extract ctx in Ok [d]).
Proof.
  intros Hs Hfuel.
  pose proof (gen_all_served _ _ _ _ _ Hs _ Hfuel) as Hg.
  destruct (concat (reverse <$> pages)) as [|b bs] eqn:Hb.
  - assert (pages = []) as ->.
    { destruct Hs as [k tr resp p _ Hp _|k tr resp p last _ _ _|k tr resp p tr' ps _ Hp _ _];
        [|done|]; destruct p as [|x p _] using rev_ind; try done; simpl in Hb;
        by rewrite reverse_snoc in Hb. }
    exists (let? d := find0 gh_code_event_default_branch_name_extract ctx in Ok [d]).
    split; [|done]. unfold gh_protected_branches. apply exec_bind. left.
    exists [], trs, []. rewrite app_nil_r. split; [done|]. split; [exact Hg|].
    by destruct (find0 _ ctx).
  - exists (Ok (b :: bs)). split; [|split].
    + unfold gh_protected_branches. apply exec_bind_ok. exists (b :: bs), trs, [].
      rewrite app_nil_r. by split_and!.
    + intros b' _. split; [done|]. rewrite <- Hb.
      rewrite list_elem_of_In, in_concat. setoid_rewrite <- list_elem_of_In. split.
      * intros (x & Hx & Hin). apply list_elem_of_fmap in Hx as (p & -> & Hp).
        exists p. split; [done|]. by apply elem_of_reverse.
      * intros (p & Hp & Hin). exists (reverse p). split; [by apply list_elem_of_fmap_2|].
        by apply elem_of_reverse.
    + intros ->. done.
Qed.

(** The events whose workflow can scan. *)
Definition gh_scan_events : list string :=
  ["push"; "pull_request:opened"; "pull_request:synchronize"; "pull_request:ready_for_review";
   "pull_request:reopened"; "check_run:requested_action"; "check_run:rerequested"].

Lemma gh_tag_update_quiet ev : only (λ e, acts e = false) (gh_pr_tag_update ev).
Proof. unfold gh_pr_tag_update, execute_pr_tag_update. only_calls. Qed.

Lemma gh_install_quiet ev : only (λ e, acts e = false) (gh_install_log ev).
Proof. unfold gh_install_log. only_calls. Qed.

Lemma gh_lookup_in {A} (table : list (list string * A)) event h :
  gh_lookup table event = Some h → ∃ e row, event = Some e ∧ (row, h) ∈ table ∧ e ∈ row.
Proof using Type.
  destruct event as [e|]; [|done]. simpl.
  destruct (filter (λ row : list string * A, e ∈ row.1) table) as [|[row h'] l] eqn:Hf; [done|].
  intros [= <-]. assert ((row, h') ∈ filter (λ row : list string * A, e ∈ row.1) table) as Hin
    by (rewrite Hf; apply elem_of_cons; by left).
  apply list_elem_of_filter in Hin as [? ?]. by exists e, row.
Qed.

(** The only events that can make a GitHub repository be cloned, scanned or
    handed to a resolver agent are a push, a pull request that is opened,
    updated, reopened or made ready for review, and the request of a check; and
    a draft pull request does nothing at all. *)
Theorem gh_events_that_scan svc ev tr o :
  exec (gh_execute svc ev) tr o →
  ((∀ e, gh_dispatch_event ev = Some e → e ∉ gh_scan_events) → count acts tr = 0) ∧
  (gh_lookup (gh_workflow_map svc) (gh_dispatch_event ev) = Some (gh_pr_scan svc) →
   (∃ ctx s, gh_pr_state (gh_ctx ev) = Ok (ctx, s) ∧ gs_is_draft s = true) → tr = [] ∧ o = Ok NoResult).
Proof using jp repr scan_inspector version page_fuel.
  unfold gh_execute. intros H. split.
  - intros Hev. destruct (gh_lookup _ _) as [h|] eqn:Hl; [|by destruct H as [-> _]].
    apply gh_lookup_in in Hl as (e & row & He & Hin & Hrow). specialize (Hev e He).
    unfold gh_workflow_map in Hin. rewrite !elem_of_cons in Hin.
    destruct Hin as [Hin|[Hin|[Hin|[Hin|[Hin|[Hin|Hin]]]]]]; try (by apply elem_of_nil in Hin);
      injection Hin as -> ->;
      try (exfalso; apply Hev; unfold gh_scan_events; clear -Hrow; set_solver).
    + by eapply only_count; [apply gh_install_quiet|].
    + by eapply only_count; [apply gh_tag_update_quiet|].
  - intros Hl (ctx & s & Hs & Hd). rewrite Hl in H. unfold gh_pr_scan in H. rewrite Hs in H.
    simpl in H. change (bindP (Ret (ctx, s)) ?f) with (f (ctx, s)) in H. cbv beta in H.
    cbn iota beta zeta in H. rewrite Hd in H. destruct H as [-> ->]. done.
Qed.
End gh.

(** ** Witnesses *)
Lemma hub_signature_valid_spec_witness :
  hub_signature_valid (λ _ s b, Ok (s +:+ b)) "X-Hub-Signature"
    (MkEventContext "body" [("X-Hub-Signature", "sha256=keybody")] JNull) "key" = Ok true.
Proof.
  apply (proj2 (hub_signature_valid_spec (λ _ s b, Ok (s +:+ b)) "X-Hub-Signature"
    (MkEventContext "body" [("X-Hub-Signature", "sha256=keybody")] JNull) "key")).
  exists "sha256", "keybody". split_and!; reflexivity.
Defined.

(** A repository with two pages of protected branches. *)
Definition demo_branches (l : list string) (_ : string) (m : json) : list json :=
  match m with JArr [JInt 0] => replicate 100 (JStr "main") | _ => JStr <$> l end.
Definition demo_branch_page (k : Z) : response := Response true 200 (Ok (JArr [JInt k])) [] "".
Definition demo_gh_state : gh_state :=
  GhState (JStr "main") JNull (JStr "main") JNull (JStr "r") (JStr "o") None false.
Definition demo_branches_obs (k : nat) : obs orch_ev orch_resp :=
  Obs (ScmExec (Some demo_context) "GET" "/repos/o/r/branches"
         [("protected", JBool true); ("per_page", JInt 100); ("page", JInt (Z.of_nat k + 1))])
      (Ok (demo_branch_page (Z.of_nat k))).

Lemma gh_protected_branches_complete_witness :
  ∃ o, exec (gh_protected_branches (demo_branches ["dev"]) (λ _, "") 200 demo_context
               demo_gh_state) [demo_branches_obs 0; demo_branches_obs 1] o ∧
    o = Ok (replicate 100 (JStr "main") ++ [JStr "dev"]).
Proof.
  destruct (gh_protected_branches_complete (demo_branches ["dev"]) (λ _, "") 200 demo_context
    demo_gh_state [demo_branches_obs 0; demo_branches_obs 1]
    [replicate 100 (JStr "main"); [JStr "dev"]]) as (o & Ho & Hpages & _).
  - apply (served_more _ _ 0 [demo_branches_obs 0] (demo_branch_page 0)
             (replicate 100 (JStr "main")) [demo_branches_obs 1] [[JStr "dev"]]).
    + exists (Ok (demo_branch_page 0)), []. by split_and!.
    + discriminate.
    + reflexivity.
    + apply (served_last _ _ 1 [demo_branches_obs 1] (demo_branch_page 1)).
      * exists (Ok (demo_branch_page 1)), []. by split_and!.
      * discriminate.
      * reflexivity.
  - vm_compute. lia.
  - exists o. split; [exact Ho|].
    destruct (Hpages JNull) as [-> _]; [discriminate|]. reflexivity.
Defined.

Definition demo_gh_event (dispatch : string) : gh_event :=
  GhEvent demo_context false (Some "pull_request") None (Some dispatch) [] [].

Lemma gh_events_that_scan_witness :
  count acts (run_trace (demo_orch_world None) 0
    (gh_execute (λ _ _, [JStr "x"]) (λ _, "") demo_make_inspector "1" 9 demo_services
       (demo_gh_event "pull_request:closed"))) = 0.
Proof.
  apply (proj1 (gh_events_that_scan (λ _ _, [JStr "x"]) (λ _, "") demo_make_inspector "1" 9
    demo_services (demo_gh_event "pull_request:closed") _ _ (exec_run _ _ _))).
  intros e [= <-]. vm_compute. intros H.
  repeat (apply elem_of_cons in H as [H|H]; [discriminate H|]). by apply elem_of_nil in H.
Defined.
