(* ===== verification/Gitlab.v ===== *)
(** * GitLab events: [src/orchestration/gl.py] *)
From S2P Require Import Prelude PyStr PyJson Url Auth ApiSession Messaging ScmConfig Orchestration Dispatch Github.
Open Scope string_scope.
Open Scope nat_scope.
Open Scope list_scope.

(** The JSONPath queries of [src/orchestration/gl.py], by the names of their attributes. *)
Definition gl_event_git_ssh_url_query : string := "$.project.git_ssh_url".
Definition gl_event_git_http_url_query : string := "$.project.git_http_url".
Definition gl_event_type_query : string := "$.object_kind".
Definition gl_event_project_path_query : string := "$.project.path_with_namespace".
Definition gl_event_project_id_query : string := "$.project.id".
Definition gl_push_after_hash_query : string := "$.after".
Definition gl_push_before_hash_query : string := "$.before".
Definition gl_push_ref_query : string := "$.ref".
Definition gl_push_ref_protected_query : string := "$.ref_protected".
Definition gl_push_default_branch_query : string := "$.project.default_branch".
Definition gl_pr_draft_query : string := "$.object_attributes.draft".
Definition gl_pr_link_query : string := "$.object_attributes.url".
Definition gl_pr_id_query : string := "$.object_attributes.iid".
Definition gl_pr_state_query : string := "$.object_attributes.state".
Definition gl_pr_status_query : string := "$.object_attributes.action".
Definition gl_pr_source_branch_query : string := "$.object_attributes.source_branch".
Definition gl_pr_target_branch_query : string := "$.object_attributes.target_branch".
Definition gl_pr_commit_hash_query : string := "$.object_attributes.last_commit.id".
Definition gl_api_default_branch_query : string := "$.default_branch".
Definition gl_api_protected_branch_query : string := "$[*].name".

Section gl.
Context (jp : string → json → list json).
Context (json_on_ok : response → outcome json).
Context (repr : json → string).
Context (scan_inspector : json → outcome inspector).
Context (version : string).

Definition no_hash : json := JStr "0000000000000000000000000000000000000000".
Definition push_actual_label : string := "actual".
Definition push_delete_label : string := "branch_delete".
Definition push_create_label : string := "branch_create".
Definition push_event_name : string := "push".
Definition pr_closed_states : list json := [JStr "closed"].

(** ** The event, as [__init__] reads it *)
Record gl_event : Type := GlEvent {
  gl_ctx : EventContext;
  gl_diagnostic : bool;
  gl_name : json;
  gl_clone_urls : dict json }.

(** The last value a query finds is the no-hash value. *)
Definition last_is_no_hash (l : list json) : bool :=
  match last l with Some v => bool_decide (v = no_hash) | None => false end.

(** [push:actual], [push:branch_create] or [push:branch_delete] *)
Definition gl_push_sub_event (m : json) : string :=
  if last_is_no_hash (jp gl_push_after_hash_query m) then push_delete_label
  else if last_is_no_hash (jp gl_push_before_hash_query m) then push_create_label
  else push_actual_label.

Definition gl_event_name (m : json) : outcome json :=
  match last (jp gl_event_type_query m) with
  | Some v => Ok v
  | None => let? has := jhas "event_name" m in
            if (has : bool) then jindex "event_name" m else Ok (JStr "Unknown")
  end.

(** [urlparse(v).scheme]: what is false is parsed as no bytes, and its scheme is
    an empty [bytes], a key that is none of the protocols; what else is not text has no
    [decode]. *)
Definition url_scheme (v : json) : outcome string :=
  match v with
  | JStr s => Ok (u_scheme (urlsplit s))
  | v => if truthy v then Err AttributeError else Ok "b''"
  end.

Definition gl_init (ctx : EventContext) : outcome gl_event :=
  let m := message ctx in
  let? d := as_obj m in
  if bool_decide (dget "message" d = Some (JStr "Hello World"))
  then Ok (GlEvent ctx true JNull [])
  else
    let? name := gl_event_name m in
    let event := if bool_decide (name = JStr push_event_name)
                 then JStr (push_event_name +:+ ":" +:+ gl_push_sub_event m) else name in
    let ssh := match last (jp gl_event_git_ssh_url_query m) with
               | Some v => [("ssh", v)] | None => [] end in
    let? urls := match last (jp gl_event_git_http_url_query m) with
                 | Some v => let? scheme := url_scheme v in Ok (dset scheme v ssh)
                 | None => Ok ssh
                 end in
    Ok (GlEvent ctx false event urls).

(** ** What the workflows read *)
Record gl_state : Type := GlState {
  ls_source_branch : json; ls_source_hash : json;
  ls_target_branch : json; ls_target_hash : json;
  ls_project_key : string;
  ls_protected : outcome (list json);
  ls_pr : option (json * json * json) }.

(** ["/".join(key.split("/")[:-1])] and [key.split("/")[-1]] *)
Definition gl_organization (project_key : string) : string :=
  join "/" (removelast (split "/"%char project_key)).
Definition gl_repo_name (project_key : string) : string :=
  List.last (split "/"%char project_key) "".

(** [__populate_common_event_data] *)
Definition gl_project_key (ctx : EventContext) : outcome string :=
  let? v := find_pop jp gl_event_project_path_query ctx in as_str v.

(** [__populate_common_push_event_data] *)
Definition gl_push_state (ctx : EventContext) : outcome gl_state :=
  let? ref := find_pop jp gl_push_ref_query ctx in
  let? branch := normalize_branch_name ref in
  let? hash := find_pop jp gl_push_after_hash_query ctx in
  let? key := gl_project_key ctx in
  let? ref_protected := find_pop jp gl_push_ref_protected_query ctx in
  let? own := if truthy ref_protected
              then let? b := normalize_branch_name branch in Ok [b] else Ok [] in
  let? dflt := match last (jp gl_push_default_branch_query (message ctx)) with
               | Some v => let? b := normalize_branch_name v in Ok [b]
               | None => Ok []
               end in
  Ok (GlState branch hash branch hash key (Ok (own ++ dflt)) None).

(** [__populate_common_pr_data] *)
Definition gl_pr_state (ctx : EventContext) : outcome gl_state :=
  let? key := gl_project_key ctx in
  let? source := find_pop jp gl_pr_source_branch_query ctx in
  let? sb := normalize_branch_name source in
  let? target := find_pop jp gl_pr_target_branch_query ctx in
  let? tb := normalize_branch_name target in
  let? hash := find_pop jp gl_pr_commit_hash_query ctx in
  let? id := find_pop jp gl_pr_id_query ctx in
  let? state := find_pop jp gl_pr_state_query ctx in
  let? status := find_pop jp gl_pr_status_query ctx in
  Ok (GlState sb hash tb JNull key (Err AttributeError)
        (Some (JStr (pstr repr id), state, status))).

Definition gl_orchestrator (ev : gl_event) (delegated : bool) (s : gl_state) : orchestrator :=
  let pr f := match ls_pr s with Some p => Ok (f p) | None => Err AttributeError end in
  {| o_class := "orchestration.gl.GitlabOrchestrator";
     o_event_context := gl_ctx ev;
     o_delegated_scan := delegated;
     o_target := Ok (ls_target_branch s, ls_target_hash s);
     o_source := Ok (ls_source_branch s, ls_source_hash s);
     o_protected := lift (ls_protected s);
     o_clone_url := repo_clone_url (gl_clone_urls ev);
     o_default_name := Ok (ls_project_key s);
     o_project_key := Ok (JStr (ls_project_key s));
     o_slug := Ok (JStr (ls_project_key s));
     o_organization := Ok (JStr (gl_organization (ls_project_key s)));
     o_pr_id := pr (λ p, p.1.1);
     o_pr_state := pr (λ p, p.1.2);
     o_pr_status := pr (λ p, p.2) |}.

Definition with_protected (s : gl_state) (branches : list json) : gl_state :=
  GlState (ls_source_branch s) (ls_source_hash s) (ls_target_branch s) (ls_target_hash s)
    (ls_project_key s) (Ok branches) (ls_pr s).

(** The branches a protected pattern adds: itself, for it may have wildcards,
    and the target and the source branch when they match it. *)
Definition gl_pattern_branches (target source pattern : json) : outcome (list json) :=
  let? p := normalize_branch_name pattern in
  let? pat := as_str p in
  let? t := as_str target in
  let? s := as_str source in
  let? nt := if fnmatch t pat then let? b := normalize_branch_name target in Ok [b] else Ok [] in
  let? ns := if fnmatch s pat then let? b := normalize_branch_name source in Ok [b] else Ok [] in
  Ok ([p] ++ nt ++ ns).

(** [asyncio.gather] of two calls: both are made, then the first exception is
    raised. *)
Definition gather2 {A B} (p : orch_prog A) (q : orch_prog B) : orch_prog (A * B) :=
  on_outcome (λ a, on_outcome (λ b, let! a := lift a in let! b := lift b in Ret (a, b)) q) p.

(** The protected branches of a merge request, from two API calls. *)
Definition gl_merge_protected (s : gl_state) (project_id : json) : orch_prog (list json) :=
  let path := "/projects/" +:+ pstr repr project_id in
  let! ' (default_resp, protected_resp) :=
    gather2 (call (ScmExec None "GET" path []) : orch_prog response)
            (call (ScmExec None "GET" (path +:+ "/protected_branches") []) : orch_prog response) in
  let! default_json := lift (json_on_ok default_resp) in
  let! dflt := lift (match last (jp gl_api_default_branch_query default_json) with
                     | Some v => let? b := normalize_branch_name v in Ok [b]
                     | None => Ok []
                     end) in
  let! protected_json := lift (json_on_ok protected_resp) in
  let! pats := lift (mapO (gl_pattern_branches (ls_target_branch s) (ls_source_branch s))
                       (jp gl_api_protected_branch_query protected_json)) in
  lift (py_set (dflt ++ concat pats)).

Section handlers.
Context (svc : services).

(** [_execute_push_scan_workflow] *)
Definition gl_push (ev : gl_event) : orch_prog wf_result :=
  let! s := lift (gl_push_state (gl_ctx ev)) in
  let! r := execute_push_scan scan_inspector version svc (gl_orchestrator ev false s) None in
  Ret (push_result r).

Definition gl_is_pr_draft (ev : gl_event) : outcome bool :=
  let? draft := find_pop jp gl_pr_draft_query (gl_ctx ev) in Ok (truthy draft).

(** [_execute_pr_scan_workflow] *)
Definition gl_pr_scan (ev : gl_event) : orch_prog wf_result :=
  let! draft := lift (gl_is_pr_draft ev) in
  if draft : bool then
    let! _ := lift (find_pop jp gl_pr_link_query (gl_ctx ev)) in Ret NoResult
  else
    let! s := lift (gl_pr_state (gl_ctx ev)) in
    let! project_id := lift (find_pop jp gl_event_project_id_query (gl_ctx ev)) in
    let! name := call (GetProjectName (ls_project_key s) (gl_ctx ev)) in
    let! pr := lift (of_option AttributeError (ls_pr s)) in
    let! existing := call (FindPrScans name pr.1.1 (ls_source_hash s)) in
    match existing with
    | _ :: _ =>
        let! l := execute_pr_tag_update (gl_orchestrator ev false s) in Ret (TagResult l)
    | [] =>
        if bool_decide (pr.1.2 ∈ pr_closed_states) then Ret NoResult
        else
          let! branches := gl_merge_protected s project_id in
          let! a := execute_pr_scan scan_inspector version svc
                      (gl_orchestrator ev false (with_protected s branches)) None in
          Ret (PrResult a)
    end.

(** [__workflow_map] *)
Definition gl_workflow_map : dict (gl_event → orch_prog wf_result) :=
  [("push:" +:+ push_actual_label, gl_push); ("push:" +:+ push_create_label, gl_push);
   ("merge_request", gl_pr_scan)].

(** [execute] *)
Definition gl_execute (ev : gl_event) : orch_prog wf_result :=
  let! handler := lift (handler_for gl_workflow_map (gl_name ev)) in
  match handler with Some h => h ev | None => Ret NoResult end.

(** [_execute_delegated_push_scan_workflow] *)
Definition gl_delegated_push (ev : gl_event) (scan_id : json) : orch_prog wf_result :=
  let! s := lift (gl_push_state (gl_ctx ev)) in
  let! r := execute_delegated_push_scan svc (gl_orchestrator ev true s) scan_id in
  Ret (PushResult (Some r.1) r.2).

(** [_execute_delegated_pr_scan_workflow] *)
Definition gl_delegated_pr (ev : gl_event) (scan_id : json) : orch_prog wf_result :=
  let! s := lift (gl_pr_state (gl_ctx ev)) in
  let! a := execute_delegated_pr_scan svc (gl_orchestrator ev true s) scan_id in
  Ret (PrResult a).

(** [__delegate_scan_handler_map] *)
Definition gl_delegate_map : dict (gl_event → json → orch_prog wf_result) :=
  [("push:" +:+ push_actual_label, gl_delegated_push);
   ("push:" +:+ push_create_label, gl_delegated_push); ("merge_request", gl_delegated_pr)].

(** [handle_delegated_scan] *)
Definition gl_handle_delegated_scan (ev : gl_event) (scan_id : json) : orch_prog wf_result :=
  let! handler := lift (handler_for gl_delegate_map (gl_name ev)) in
  match handler with Some h => h ev scan_id | None => Ret NoResult end.

(** [handle_delegated_pr_scan_hard_fail] *)
Definition gl_hard_fail (ev : gl_event) (fail_msg : string) : orch_prog unit :=
  let! s := lift (gl_pr_state (gl_ctx ev)) in
  let! details := make_prdetails svc (gl_orchestrator ev true s) in
  call (ExecPrescanFailure details fail_msg).
End handlers.

Definition gl_webhook (ev : gl_event) : webhook :=
  {| is_diagnostic := gl_diagnostic ev;
     config_key := GL;
     route_urls := Ok (dvalues (gl_clone_urls ev));
     is_signature_valid := λ secret,
       Ok (bool_decide (Some secret = get_header_key_safe (gl_ctx ev) "X-Gitlab-Token"));
     w_execute := λ svc, gl_execute svc ev;
     w_handle_delegated_scan := λ svc, gl_handle_delegated_scan svc ev;
     w_handle_delegated_pr_scan_hard_fail := λ svc, gl_hard_fail svc ev |}.

(** ** Theorems *)

(** A merge request is scanned only when it is neither a draft nor closed
    and no scan of its commit is known for it; when one is known, its tags are
    updated instead, and nothing is cloned or delegated. *)
Theorem gl_merge_request_scans svc ev tr o :
  gl_name ev = JStr "merge_request" →
  exec (gl_execute svc ev) tr o → 0 < count acts tr →
  ∃ draft s pr name tr1 tr2,
    find_pop jp gl_pr_draft_query (gl_ctx ev) = Ok draft ∧ truthy draft = false ∧
    gl_pr_state (gl_ctx ev) = Ok s ∧ ls_pr s = Some pr ∧ pr.1.2 ≠ JStr "closed" ∧
    tr = tr1 ++ Obs (FindPrScans name pr.1.1 (ls_source_hash s)) (Ok []) :: tr2.
Proof.
  intros Hname H Hacts. unfold gl_execute in H. rewrite Hname in H. cbn in H.
  unfold gl_pr_scan, gl_is_pr_draft in H.
  assert (Hnil : ∀ tr' : list (obs orch_ev orch_resp), tr' = [] → 0 < count acts tr' → False)
    by (intros ? ->; unfold count; simpl; lia).
  apply exec_lift_bind in H as [(d & Hd & H)|(? & _ & ? & _)]; [|by edestruct Hnil].
  apply bindO_ok in Hd as (draft & Hd & [= <-]). destruct (truthy draft) eqn:Ht.
  { inv_exec; by edestruct Hnil. }
  apply exec_lift_bind in H as [(s & Hs & H)|(? & _ & ? & _)]; [|by edestruct Hnil].
  apply exec_lift_bind in H as [(pid & _ & H)|(? & _ & ? & _)]; [|by edestruct Hnil].
  call_step H as [(name & tr1 & -> & H)|(? & -> & _)]; [|unfold count in Hacts; simpl in *; lia].
  apply exec_lift_bind in H as [(pr & Hpr & H)|(? & _ & -> & _)];
    [|unfold count in Hacts; simpl in *; lia].
  destruct (ls_pr s) as [pr'|] eqn:Hls; simplify_eq/=.
  call_step H as [(existing & tr2 & -> & H)|(? & -> & _)];
    [|unfold count in Hacts; simpl in *; lia].
  destruct existing as [|x l].
  - case_bool_decide as Hclosed; unfold pr_closed_states in Hclosed; rewrite list_elem_of_singleton in Hclosed.
    { destruct H as [-> _]. unfold count in Hacts; simpl in *; lia. }
    exists draft, s, pr, name, [Obs (GetProjectName (ls_project_key s) (gl_ctx ev)) (Ok name)], tr2.
    done.
  - exfalso. autorewrite with effects_rw in Hacts. simpl in Hacts.
    assert (count acts tr2 = 0); [|lia].
    apply (only_count acts) with (2 := H). unfold execute_pr_tag_update. only_calls.
Qed.

End gl.

Lemma gl_pattern_branches_str t s p :
  gl_pattern_branches (JStr t) (JStr s) (JStr p) =
    Ok ([JStr (normalize_branch_str p)]
        ++ (if fnmatch t (normalize_branch_str p) then [JStr (normalize_branch_str t)] else [])
        ++ (if fnmatch s (normalize_branch_str p) then [JStr (normalize_branch_str s)] else [])).
Proof.
  unfold gl_pattern_branches. cbn [normalize_branch_name bindO as_str].
  by destruct (fnmatch t _), (fnmatch s _).
Qed.

(** The target branch of a merge request is among the branches that are
    computed for it exactly when it is the default branch, one of the protected
    names, or matches a protected wildcard. *)
Theorem gl_protected_target t s pats l :
  mapO (gl_pattern_branches (JStr t) (JStr s)) (JStr <$> pats) = Ok l →
  normalize_branch_str t = t → normalize_branch_str s = s → s ≠ t →
  JStr t ∈ concat l ↔
  ∃ p, p ∈ pats ∧ (normalize_branch_str p = t ∨ fnmatch t (normalize_branch_str p) = true).
Proof.
  intros H Ht Hs Hne. revert l H. induction pats as [|p pats IH]; intros l H.
  { injection H as <-. simpl. set_solver. }
  rewrite fmap_cons in H. cbn [mapO] in H.
  rewrite gl_pattern_branches_str, Ht, Hs in H. cbn [bindO] in H.
  destruct (mapO _ (JStr <$> pats)) as [l'|] eqn:Hl'; [|done]. cbn [bindO] in H.
  injection H as <-.
  cbn [concat]. rewrite !elem_of_app, ?elem_of_cons, !elem_of_app, (IH l' eq_refl). split.
  - intros [[[= Hp]|[Hin|Hin]]|(q & Hq & Hin)].
    + exists p. split; [set_solver|]. by left.
    + exists p. split; [set_solver|]. right. destruct (fnmatch t _); [done|set_solver].
    + destruct (fnmatch s _); set_solver.
    + exists q. split; [set_solver|done].
  - intros (q & [->|Hq]%elem_of_cons & Hin); [|right; eauto].
    left. destruct Hin as [<-|Hin]; [by left|]. rewrite Hin. set_solver.
Qed.
(** ** Witnesses *)
Definition demo_gl_jp (q : string) (m : json) : list json :=
  if decide (q = "$.object_attributes.draft") then [JBool false] else [JStr "main"].
Definition demo_gl_event : gl_event :=
  GlEvent demo_context false (JStr "merge_request") [("https", JStr "https://gl/g/r.git")].

Lemma gl_merge_request_scans_witness :
  ∃ s pr name tr1 tr2, gl_pr_state demo_gl_jp (λ _, "") demo_context = Ok s ∧
    ls_pr s = Some pr ∧
    run_trace (demo_orch_world None) 0
      (gl_execute demo_gl_jp r_json (λ _, "") demo_make_inspector "1" demo_services demo_gl_event) =
      tr1 ++ Obs (FindPrScans name pr.1.1 (ls_source_hash s)) (Ok []) :: tr2.
Proof.
  destruct (gl_merge_request_scans demo_gl_jp r_json (λ _, "") demo_make_inspector "1"
    demo_services demo_gl_event _ _ eq_refl (exec_run (demo_orch_world None) 0 _))
    as (d & s & pr & name & tr1 & tr2 & _ & _ & Hs & Hpr & _ & Htr).
  - vm_compute. lia.
  - exists s, pr, name, tr1, tr2. split; [exact Hs|]. split; [exact Hpr|exact Htr].
Defined.

Lemma gl_protected_target_witness :
  JStr "release/1" ∈ [JStr "release/*"; JStr "release/1"; JStr "main"].
Proof.
  apply (proj2 (gl_protected_target "release/1" "dev" ["release/*"; "main"]
    [[JStr "release/*"; JStr "release/1"]; [JStr "main"]] eq_refl eq_refl eq_refl
    ltac:(discriminate))).
  exists "release/*". split; [apply elem_of_cons; left; reflexivity|right; reflexivity].
Defined.
