(* ===== verification/Adoe.v ===== *)
(** * Azure DevOps events: [src/orchestration/adoe.py] *)
From S2P Require Import Prelude PyStr PyJson Url Auth ApiSession Messaging ScmConfig Orchestration Dispatch Github.
Open Scope string_scope.
Open Scope nat_scope.
Open Scope list_scope.

(** The JSONPath queries of [src/orchestration/adoe.py], by the names of their attributes. *)
Definition ado_diagid_query : string := "$.resourceContainers.account.id".
Definition ado_remoteurl_query : string := "$.resource.repository.remoteUrl".
Definition ado_repo_project_key_query : string := "$.resource.repository.project.name".
Definition ado_repo_slug_query : string := "$.resource.repository.name".
Definition ado_repo_id_query : string := "$.resource.repository.id".
Definition ado_payload_type_query : string := "$.eventType".
Definition ado_repository_id_query : string := "$.resource.repository.id".
Definition ado_collection_url_query : string := "$.resourceContainers.collection.baseUrl".
Definition ado_policy_scope_query : string := "$.value[*].settings.scope[*]".
Definition ado_branch_names_query : string := "$.value[*].name".
Definition ado_push_default_branch_query : string := "$.resource.repository.defaultBranch".
Definition ado_push_target_branch_query : string := "$.resource.refUpdates..name".
Definition ado_push_target_hash_query : string := "$.resource.refUpdates..newObjectId".
Definition ado_pr_draft_query : string := "$.resource.isDraft".
Definition ado_pr_self_link_query : string := "$.resource._links.web.href".
Definition ado_pr_tohash_query : string := "$.resource.lastMergeTargetCommit[commitId]".
Definition ado_pr_tobranch_query : string := "$.resource.targetRefName".
Definition ado_pr_fromhash_query : string := "$.resource.lastMergeSourceCommit[commitId]".
Definition ado_pr_frombranch_query : string := "$.resource.sourceRefName".
Definition ado_pr_id_query : string := "$.resource.pullRequestId".
Definition ado_pr_reviewer_status_query : string := "$.resource.reviewers[*].vote".
Definition ado_pr_state_query : string := "$.resource.status".

Section adoe.
Context (jp : string → json → list json).
Context (json_on_ok : response → outcome json).
Context (repr : json → string).
Context (scan_inspector : json → outcome inspector).
Context (version : string).
(** [base64.b64decode(s).decode("utf-8")] *)
Context (b64decode : string → outcome string).
(** [CloneUrlParser("azure", url).org] of the Checkmarx One library. *)
Context (clone_url_org : json → outcome string).
(** The order in which Python iterates a set of strings. *)
Context (set_order : list string → list string).
(** The most pages of an answer that are followed. *)
Context (page_fuel : nat).

Definition diag_id : json := JStr "f844ec47-a9db-4511-8281-8b63f4eaf94e".

(** ** The event, as [__init__] reads it *)
Record ado_event : Type := AdoEvent {
  ado_ctx : EventContext;
  ado_diagnostic : bool;
  ado_name : json;
  ado_route_urls : list json;
  ado_remote_url : json;
  ado_default_branches : list json;
  ado_repo_key : json;
  ado_repo_slug : json;
  ado_collection : string;
  ado_repo_id : json }.

Definition ado_init (ctx : EventContext) : outcome ado_event :=
  let m := message ctx in
  if bool_decide (diag_id ∈ jp ado_diagid_query m)
  then Ok (AdoEvent ctx true JNull [] JNull [] JNull JNull "" JNull)
  else
    let? event := first (jp ado_payload_type_query m) in
    let routes := jp ado_remoteurl_query m in
    let? remote := first routes in
    let? defaults := mapO normalize_branch_name (jp ado_push_default_branch_query m) in
    let? key := first (jp ado_repo_project_key_query m) in
    let? slug := first (jp ado_repo_slug_query m) in
    let? curl := first (jp ado_collection_url_query m) in
    let? curl := as_str curl in
    let? repo_id := first (jp ado_repo_id_query m) in
    Ok (AdoEvent ctx false event routes remote defaults key slug
          (path_name (u_path (urlsplit curl))) repo_id).

(** ** API calls *)
Definition ado_api (ev : ado_event) (suffix : string) : string :=
  "/" +:+ ado_collection ev +:+ "/" +:+ pstr repr (ado_repo_key ev) +:+ "/_apis/" +:+ suffix.

(** [__common_execution_steps]: the clone URLs. *)
Definition ado_common_execution_steps (ev : ado_event) : orch_prog (dict json) :=
  let! resp := call (ScmExec None "GET"
                       (ado_api ev ("git/repositories/" +:+ pstr repr (ado_repo_slug ev))) []) in
  let! repo_details := lift (json_on_ok resp) in
  let! remote := lift (as_str (ado_remote_url ev)) in
  let! ssh := lift (jindex "sshUrl" repo_details) in
  Ret (dset "ssh" ssh [(u_scheme (urlsplit remote), ado_remote_url ev)]).

(** One policy scope: the branch it names for the repository, and whether it
    names a prefix. *)
Definition ado_policy_branch (repo_id p : json) : outcome (option (json * bool)) :=
  let? has := jhas "refName" p in
  if (has : bool) then
    let? id := jindex "repositoryId" p in
    if bool_decide (id = repo_id) then
      let? ref := jindex "refName" p in
      let? branch := normalize_branch_name ref in
      let? kind := jindex "matchKind" p in
      Ok (Some (branch, bool_decide (kind = JStr "Prefix")))
    else Ok None
  else Ok None.

Definition continuation (resp : response) : option (dict json) :=
  (λ t, [("continuationToken", JStr t)]) <$> dget "x-ms-continuationtoken" (r_headers resp).

(** The pages of an answer, each read by [extract], as long as a page has a
    continuation token. *)
Fixpoint ado_pages {A} (fuel : nat) (path : string) (query : dict json)
    (extract : json → outcome (list A)) : orch_prog (list A) :=
  match fuel with
  | 0 => Raise OutOfFuel
  | S fuel' =>
      let! resp := call (ScmExec None "GET" path query) in
      let! j := lift (json_on_ok resp) in
      let! l := lift (extract j) in
      match continuation resp with
      | Some query' => let! rest := ado_pages fuel' path query' extract in Ret (l ++ rest)
      | None => Ret l
      end
  end.

Definition ado_extract_policies (repo_id j : json) : outcome (list (json * bool)) :=
  let? l := mapO (ado_policy_branch repo_id) (jp ado_policy_scope_query j) in
  Ok (omap id l).

Definition ado_extract_refs (j : json) : outcome (list json) :=
  let? l := mapO normalize_branch_name (jp ado_branch_names_query j) in py_set l.

(** [match_check.match(branch)], for the alternatives of the escaped prefixes. *)
Definition ado_prefix_match (prefixes : list json) (branch : json) : bool :=
  existsb (λ p, match p, branch with
                | JStr p, JStr b => startswith p b
                | _, _ => false
                end) prefixes.

(** [__get_protected_branches_from_policies] *)
Definition ado_policy_branches (ev : ado_event) : orch_prog (list json) :=
  let! policies := ado_pages page_fuel (ado_api ev "policy/configurations") []
                     (ado_extract_policies (ado_repo_id ev)) in
  let prefixes := (filter (λ p, p.2 = true) policies).*1 in
  let! refs := match prefixes return orch_prog (list json) with
               | [] => Ret []
               | _ => ado_pages page_fuel
                        (ado_api ev ("git/repositories/" +:+ pstr repr (ado_repo_id ev) +:+ "/refs"))
                        [] ado_extract_refs
               end in
  lift (py_set (policies.*1 ++ filter (λ b, ado_prefix_match prefixes b = true) refs)).

(** [_get_protected_branches] *)
Definition ado_protected_branches (ev : ado_event) (defaults : list json) :
    orch_prog (list json) :=
  let! l := ado_policy_branches ev in Ret (defaults ++ l).

(** ** What the workflows read *)
Record ado_data : Type := AdoData {
  as_source_branch : json; as_source_hash : json;
  as_target_branch : json; as_target_hash : json;
  as_defaults : list json;
  as_pr : option (json * json * json) }.

(** [__populate_common_push_data] *)
Definition ado_push_data (ev : ado_event) : outcome ado_data :=
  let? ref := find0 jp ado_push_target_branch_query (ado_ctx ev) in
  let? branch := normalize_branch_name ref in
  let? hash := find0 jp ado_push_target_hash_query (ado_ctx ev) in
  Ok (AdoData branch hash branch hash (ado_default_branches ev) None).

(** [__pr_status_map] *)
Definition ado_vote_status (vote : json) : outcome string :=
  match vote with
  | JInt (-10) => Ok "REJECTED"
  | JInt (-5) => Ok "WAIT_AUTHOR"
  | JInt 0 | JBool false => Ok "NO_REVIEW"
  | JInt 5 => Ok "APPROVED_COMMENTS"
  | JInt 10 => Ok "APPROVED"
  | JArr _ | JObj _ => Err TypeError
  | _ => Err (KeyError (pstr repr vote))
  end.

(** [__populate_common_pr_data] *)
Definition ado_pr_data (ev : ado_event) : outcome ado_data :=
  let ctx := ado_ctx ev in
  let? sref := find0 jp ado_pr_frombranch_query ctx in
  let? sb := normalize_branch_name sref in
  let? tref := find0 jp ado_pr_tobranch_query ctx in
  let? tb := normalize_branch_name tref in
  let? sh := find0 jp ado_pr_fromhash_query ctx in
  let? th := find0 jp ado_pr_tohash_query ctx in
  let? id := find0 jp ado_pr_id_query ctx in
  let? votes := mapO ado_vote_status (jp ado_pr_reviewer_status_query (message ctx)) in
  let status := match set_order (remove_dups votes) with
                | [] => "NO_REVIEWERS"
                | l => join "/" l
                end in
  let? state := find0 jp ado_pr_state_query ctx in
  Ok (AdoData sb sh tb th (ado_default_branches ev)
        (Some (JStr (pstr repr id), state, JStr status))).

Definition ado_orchestrator (ev : ado_event) (clone_urls : dict json) (delegated : bool)
    (s : ado_data) : orchestrator :=
  let pr f := match as_pr s with Some p => Ok (f p) | None => Err AttributeError end in
  {| o_class := "orchestration.adoe.AzureDevOpsEnterpriseOrchestrator";
     o_event_context := ado_ctx ev;
     o_delegated_scan := delegated;
     o_target := Ok (as_target_branch s, as_target_hash s);
     o_source := Ok (as_source_branch s, as_source_hash s);
     o_protected := ado_protected_branches ev (as_defaults s);
     o_clone_url := repo_clone_url clone_urls;
     o_default_name := let? org := clone_url_org (ado_remote_url ev) in
       Ok (org +:+ "/" +:+ pstr repr (ado_repo_key ev) +:+ "/" +:+ pstr repr (ado_repo_slug ev));
     o_project_key := Ok (ado_repo_key ev);
     o_slug := Ok (ado_repo_slug ev);
     o_organization := Ok (JStr (ado_collection ev));
     o_pr_id := pr (λ p, p.1.1);
     o_pr_state := pr (λ p, p.1.2);
     o_pr_status := pr (λ p, p.2) |}.

(** [is_signature_valid] *)
Definition ado_signature_valid (ctx : EventContext) (shared_secret : string) : outcome bool :=
  match get_header_key_safe ctx "Authorization" with
  | None => Ok false
  | Some auth =>
      let? creds := b64decode (List.last (split " "%char auth) "") in
      Ok (bool_decide (List.last (split ":"%char creds) "" = shared_secret))
  end.

Section handlers.
Context (svc : services).

(** [_execute_push_scan_workflow] *)
Definition ado_push (ev : ado_event) (urls : dict json) : orch_prog wf_result :=
  let! s := lift (ado_push_data ev) in
  let! r := execute_push_scan scan_inspector version svc (ado_orchestrator ev urls false s) None in
  Ret (push_result r).

Definition ado_is_pr_draft (ev : ado_event) : outcome bool :=
  let? draft := find0 jp ado_pr_draft_query (ado_ctx ev) in Ok (truthy draft).
(** [__repository_id] *)
Definition ado_repository_id (ev : ado_event) : outcome json :=
  find0 jp ado_repository_id_query (ado_ctx ev).

(** [_execute_pr_scan_workflow] *)
Definition ado_pr_scan (ev : ado_event) (urls : dict json) : orch_prog wf_result :=
  let! draft := lift (ado_is_pr_draft ev) in
  if draft : bool then
    let! _ := lift (find0 jp ado_pr_self_link_query (ado_ctx ev)) in Ret NoResult
  else
    let! s := lift (ado_pr_data ev) in
    let o := ado_orchestrator ev urls false s in
    let! default_name := lift (o_default_name o) in
    let! name := call (GetProjectName default_name (ado_ctx ev)) in
    let! pr := lift (of_option AttributeError (as_pr s)) in
    let! existing := call (FindPrScans name pr.1.1 (as_source_hash s)) in
    match existing with
    | _ :: _ => let! l := execute_pr_tag_update o in Ret (TagResult l)
    | [] =>
        let! id := lift (ado_repository_id ev) in
        let! repo_details := call (ScmExec None "GET"
          (ado_collection ev +:+ "/" +:+ pstr repr (ado_repo_key ev) +:+
           "/_apis/git/repositories/" +:+ pstr repr id) []) in
        if negb (r_ok repo_details) then Ret NoResult
        else
          let! j := lift (r_json repo_details) in
          let! d := lift (jindex "defaultBranch" j) in
          let! branch := lift (normalize_branch_name d) in
          let! a := execute_pr_scan scan_inspector version svc
            (ado_orchestrator ev urls false
               (AdoData (as_source_branch s) (as_source_hash s) (as_target_branch s)
                  (as_target_hash s) [branch] (as_pr s))) None in
          Ret (PrResult a)
    end.

(** [__workflow_map] *)
Definition ado_workflow_map : dict (ado_event → dict json → orch_prog wf_result) :=
  [("git.push", ado_push); ("git.pullrequest.created", ado_pr_scan);
   ("git.pullrequest.updated", ado_pr_scan)].

(** [execute] *)
Definition ado_execute (ev : ado_event) : orch_prog wf_result :=
  let! handler := lift (handler_for ado_workflow_map (ado_name ev)) in
  match handler with
  | Some h => let! urls := ado_common_execution_steps ev in h ev urls
  | None => Ret NoResult
  end.

(** [_execute_delegated_push_scan_workflow] *)
Definition ado_delegated_push (ev : ado_event) (scan_id : json) (urls : dict json) :
    orch_prog wf_result :=
  let! s := lift (ado_push_data ev) in
  let! r := execute_delegated_push_scan svc (ado_orchestrator ev urls true s) scan_id in
  Ret (PushResult (Some r.1) r.2).

(** [_execute_delegated_pr_scan_workflow] *)
Definition ado_delegated_pr (ev : ado_event) (scan_id : json) (urls : dict json) :
    orch_prog wf_result :=
  let! s := lift (ado_pr_data ev) in
  let! a := execute_delegated_pr_scan svc (ado_orchestrator ev urls true s) scan_id in
  Ret (PrResult a).

(** [__delegate_scan_handler_map] *)
Definition ado_delegate_map : dict (ado_event → json → dict json → orch_prog wf_result) :=
  [("git.push", ado_delegated_push); ("git.pullrequest.created", ado_delegated_pr);
   ("git.pullrequest.updated", ado_delegated_pr)].

(** [handle_delegated_scan] *)
Definition ado_handle_delegated_scan (ev : ado_event) (scan_id : json) : orch_prog wf_result :=
  let! handler := lift (handler_for ado_delegate_map (ado_name ev)) in
  match handler with
  | Some h => let! urls := ado_common_execution_steps ev in h ev scan_id urls
  | None => Ret NoResult
  end.

(** [handle_delegated_pr_scan_hard_fail]: the clone URLs were never read, so
    the details of the pull request cannot be made. *)
Definition ado_hard_fail (ev : ado_event) (fail_msg : string) : orch_prog unit :=
  let! s := lift (ado_pr_data ev) in
  let o := ado_orchestrator ev [] true s in
  let! details := make_prdetails svc
    {| o_class := o_class o; o_event_context := o_event_context o;
       o_delegated_scan := o_delegated_scan o; o_target := o_target o;
       o_source := o_source o; o_protected := o_protected o;
       o_clone_url := λ _, Err AttributeError;
       o_default_name := o_default_name o; o_project_key := o_project_key o;
       o_slug := o_slug o; o_organization := o_organization o; o_pr_id := o_pr_id o;
       o_pr_state := o_pr_state o; o_pr_status := o_pr_status o |} in
  call (ExecPrescanFailure details fail_msg).
End handlers.

Definition ado_webhook (ev : ado_event) : webhook :=
  {| is_diagnostic := ado_diagnostic ev;
     config_key := ADOE;
     route_urls := Ok (ado_route_urls ev);
     is_signature_valid := ado_signature_valid (ado_ctx ev);
     w_execute := λ svc, ado_execute svc ev;
     w_handle_delegated_scan := λ svc, ado_handle_delegated_scan svc ev;
     w_handle_delegated_pr_scan_hard_fail := λ svc, ado_hard_fail svc ev |}.
End adoe.

(** ** Theorems *)
Section pages.
Context (json_on_ok : response → outcome json).
Context {A : Type} (path : string) (extract : json → outcome (list A)).

(** [paged query tr ls]: the calls [tr] ask for all pages, the first with
    [query] and each other with the continuation token of the one before, up to
    a page without one; [ls] are the elements of the pages. *)
Inductive paged : dict json → list (obs orch_ev orch_resp) → list (list A) → Prop :=
| paged_last query resp j l :
    json_on_ok resp = Ok j → extract j = Ok l → continuation resp = None →
    paged query [Obs (ScmExec None "GET" path query) (Ok resp)] [l]
| paged_more query resp j l query' tr ls :
    json_on_ok resp = Ok j → extract j = Ok l → continuation resp = Some query' →
    paged query' tr ls →
    paged query (Obs (ScmExec None "GET" path query) (Ok resp) :: tr) (l :: ls).

Lemma ado_pages_sound fuel : ∀ query tr l,
  exec (ado_pages json_on_ok fuel path query extract) tr (Ok l) →
  ∃ ls, paged query tr ls ∧ l = concat ls.
Proof.
  induction fuel as [|fuel IH]; intros query tr l H; [by destruct H|].
  cbn [ado_pages] in H. call_step H as [(resp & tr1 & -> & H)|(? & _ & ?)]; [|done].
  apply exec_lift_bind_ok in H as (j & Hj & H).
  apply exec_lift_bind_ok in H as (l1 & Hl1 & H).
  destruct (continuation resp) as [query'|] eqn:Hc.
  - apply exec_bind_ok in H as (rest & tr2 & tr3 & -> & H & [-> [= ->]]).
    apply IH in H as (ls & Hls & ->). rewrite app_nil_r. exists (l1 :: ls).
    split; [by eapply paged_more|done].
  - destruct H as [-> [= ->]]. exists [l1]. split; [by eapply paged_last|].
    simpl. by rewrite app_nil_r.
Qed.

Lemma ado_pages_complete query tr ls fuel :
  paged query tr ls → length ls ≤ fuel →
  exec (ado_pages json_on_ok fuel path query extract) tr (Ok (concat ls)).
Proof.
  intros H. revert fuel. induction H as [query resp j l Hj Hl Hc|query resp j l query' tr ls
    Hj Hl Hc Hp IH]; intros [|fuel] Hf; simpl in Hf; try lia; cbn [ado_pages];
    (apply exec_call_bind_ok; eexists _, _; split; [done|]);
    (apply exec_lift_bind_ok; eexists; split; [done|]);
    (apply exec_lift_bind_ok; eexists; split; [done|]); rewrite Hc.
  - simpl. by rewrite app_nil_r.
  - apply exec_bind_ok. exists (concat ls), tr, []. rewrite app_nil_r.
    split; [done|]. split; [apply IH; lia|done].
Qed.
End pages.

Section theorems.
Context (jp : string → json → list json).
Context (json_on_ok : response → outcome json).
Context (repr : json → string).

(** The branches that a policy names as prefixes. *)
Definition policy_prefixes (policies : list (json * bool)) : list json :=
  (filter (λ p : json * bool, p.2 = true) policies).*1.

Lemma elem_of_prefixes pols p : p ∈ policy_prefixes pols ↔ (p, true) ∈ pols.
Proof.
  unfold policy_prefixes. rewrite list_elem_of_fmap. split.
  - intros ([p' k] & -> & [Hk ?]%list_elem_of_filter). simpl in *. by subst k.
  - intros Hin. exists (p, true). split; [done|]. by apply list_elem_of_filter.
Qed.

Lemma prefix_match_any prefixes b :
  ado_prefix_match prefixes b = true ↔ ∃ p, p ∈ prefixes ∧ ado_prefix_match [p] b = true.
Proof.
  unfold ado_prefix_match. rewrite existsb_exists. setoid_rewrite <- list_elem_of_In.
  simpl. by setoid_rewrite orb_false_r.
Qed.

(** What the set of the branches has. *)
Lemma policy_branches_set pols refs l b :
  py_set (pols.*1 ++ filter (λ b, ado_prefix_match (policy_prefixes pols) b = true) refs) = Ok l →
  b ∈ l ↔ (∃ k, (b, k) ∈ pols) ∨
    (b ∈ refs ∧ ∃ p, (p, true) ∈ pols ∧ ado_prefix_match [p] b = true).
Proof.
  intros Hset. rewrite (elem_of_py_set _ _ _ Hset), elem_of_app, list_elem_of_filter,
    list_elem_of_fmap, prefix_match_any. setoid_rewrite elem_of_prefixes.
  split; (intros [H|H]; [left|by right; destruct H; split]).
  - destruct H as ([p k] & -> & ?). by exists k.
  - destruct H as [k ?]. by exists (b, k).
Qed.

Lemma no_prefixes pols : (∀ p, (p, true) ∉ pols) → policy_prefixes pols = [].
Proof.
  intros H. destruct (policy_prefixes pols) as [|p ps] eqn:He; [done|].
  destruct (H p). apply elem_of_prefixes. rewrite He. left.
Qed.

Lemma py_set_hashable l : (∀ v, v ∈ l → hashable v = true) → ∃ set, py_set l = Ok set.
Proof.
  intros H. unfold py_set. assert (forallb hashable l = true) as ->; [|by eexists].
  apply forallb_forall. intros v ?%list_elem_of_In. by apply H.
Qed.

Notation refs_path ev := (ado_api repr ev ("git/repositories/" +:+ pstr repr (ado_repo_id ev) +:+ "/refs")).

(** The branches of the repository are read only for a prefix. *)
Lemma policy_refs page_fuel ev pols tr refs :
  exec (match policy_prefixes pols return orch_prog (list json) with
        | [] => Ret []
        | _ => ado_pages json_on_ok page_fuel (refs_path ev) [] (ado_extract_refs jp)
        end) tr (Ok refs) →
  ∃ rls, refs = concat rls ∧
    ((∀ p, (p, true) ∉ pols) ∧ tr = [] ∧ rls = [] ∨
     paged json_on_ok (refs_path ev) (ado_extract_refs jp) [] tr rls).
Proof.
  intros H. destruct (policy_prefixes pols) as [|p ps] eqn:Hp.
  - destruct H as [-> [= ->]]. exists []. split; [done|]. left. split; [|done].
    intros p Hin%elem_of_prefixes. rewrite Hp in Hin. by apply elem_of_nil in Hin.
  - apply ado_pages_sound in H as (rls & Hrls & ->). exists rls. eauto.
Qed.

(** The protected branches of an Azure DevOps repository are its default
    branches, the branches that a policy of the repository names, and every
    branch of the repository that begins with a prefix a policy names; every
    page of policies is read, and every page of branches when there is a
    prefix.  There is such a run for as many pages as the fuel allows. *)
Theorem ado_protected_branches_spec page_fuel ev defaults :
  (∀ tr l, exec (ado_protected_branches jp json_on_ok repr page_fuel ev defaults) tr (Ok l) →
   ∃ pols refs trp trr, tr = trp ++ trr ∧
     paged json_on_ok (ado_api repr ev "policy/configurations")
       (ado_extract_policies jp (ado_repo_id ev)) [] trp pols ∧
     ((∀ p, (p, true) ∉ concat pols) ∧ trr = [] ∧ refs = [] ∨
      paged json_on_ok
        (ado_api repr ev ("git/repositories/" +:+ pstr repr (ado_repo_id ev) +:+ "/refs"))
        (ado_extract_refs jp) [] trr refs) ∧
     ∀ b, b ∈ l ↔ b ∈ defaults ∨ (∃ k, (b, k) ∈ concat pols) ∨
       (b ∈ concat refs ∧ ∃ p, (p, true) ∈ concat pols ∧ ado_prefix_match [p] b = true)) ∧
  (∀ trp pols, paged json_on_ok (ado_api repr ev "policy/configurations")
       (ado_extract_policies jp (ado_repo_id ev)) [] trp pols →
     length pols ≤ page_fuel → (∀ p, (p, true) ∉ concat pols) →
     (∀ p k, (p, k) ∈ concat pols → hashable p = true) →
     ∃ l, exec (ado_protected_branches jp json_on_ok repr page_fuel ev defaults) trp (Ok l)).
Proof.
  split.
  - intros tr l H. unfold ado_protected_branches, ado_policy_branches in H.
    apply exec_bind_ok in H as (l1 & tr1 & tr2 & -> & H & [-> [= ->]]). rewrite app_nil_r.
    apply exec_bind_ok in H as (pols & trp & tr3 & -> & Hp & H).
    apply exec_bind_ok in H as (refs & trr & tr4 & -> & Hr & H).
    apply exec_lift in H as [-> Hset]. rewrite app_nil_r. symmetry in Hset.
    apply ado_pages_sound in Hp as (pls & Hpls & ->).
    apply policy_refs in Hr as (rls & -> & Hrefs). exists pls, rls, trp, trr.
    split; [done|]. split; [done|]. split; [exact Hrefs|]. intros b.
    by rewrite elem_of_app, (policy_branches_set _ _ _ _ Hset).
  - intros trp pols Hp Hf Hnone Hh. unfold ado_protected_branches, ado_policy_branches.
    destruct (py_set_hashable (concat pols).*1) as [set Hset].
    { intros p ([p' k] & -> & Hin)%list_elem_of_fmap. by eapply Hh. }
    exists (defaults ++ set). apply exec_bind_ok. exists set, trp, []. rewrite app_nil_r.
    split; [done|]. split; [|done]. apply exec_bind_ok. exists (concat pols), trp, [].
    rewrite app_nil_r. split; [done|]. split; [by apply ado_pages_complete|].
    change ((filter (λ p : json * bool, p.2 = true) (concat pols)).*1)
      with (policy_prefixes (concat pols)). rewrite no_prefixes by done.
    apply exec_bind_ok. exists [], [], []. split; [done|]. split; [done|].
    simpl. rewrite app_nil_r, Hset. done.
Qed.

(** The failure of a scan that a resolver agent could not even start is
    never reported on an Azure DevOps pull request: the handler always ends
    with an exception, before it calls the service, because it needs clone URLs
    that only the other handlers read. *)
Theorem ado_hard_fail_unreported set_order clone_url_org page_fuel svc ev msg tr o :
  exec (ado_hard_fail jp json_on_ok repr clone_url_org set_order page_fuel svc ev msg) tr o →
  tr = [] ∧ ∃ e, o = Err e.
Proof.
  unfold ado_hard_fail, make_prdetails. intros H.
  apply exec_lift_bind in H as [(s & _ & H)|(e & _ & -> & ->)]; [|eauto].
  apply exec_bind in H as [(d & tr1 & tr2 & -> & H & _)|(e & H & ->)].
  { exfalso. inv_exec; simplify_eq/=. inv_exec. }
  split; [|by eexists]. inv_exec; simplify_eq/=; inv_exec; done.
Qed.
End theorems.

(** ** Witnesses *)
Definition demo_ado_event : ado_event :=
  AdoEvent demo_context false (JStr "git.pullrequest.created") [JStr "u"] (JStr "u")
    [JStr "main"] (JStr "P") (JStr "R") "C" (JStr "id").
(** One page of policies, with one policy on the branch "rel". *)
Definition demo_ado_jp (q : string) (_ : json) : list json :=
  if decide (q = "$.value[*].settings.scope[*]")
  then [JObj [("refName", JStr "refs/heads/rel"); ("repositoryId", JStr "id");
              ("matchKind", JStr "Exact")]]
  else [].

Lemma ado_protected_branches_spec_witness : ∃ l,
  exec (ado_protected_branches demo_ado_jp r_json (λ _, "") 1 demo_ado_event [JStr "main"])
    [Obs (ScmExec None "GET" "/C/P/_apis/policy/configurations" []) (Ok (demo_response JNull))]
    (Ok l).
Proof.
  apply (proj2 (ado_protected_branches_spec demo_ado_jp r_json (λ _, "") 1 demo_ado_event
    [JStr "main"]) _ [[(JStr "rel", false)]]).
  - apply (paged_last r_json (ado_api (λ _, "") demo_ado_event "policy/configurations")
      (ado_extract_policies demo_ado_jp (JStr "id")) [] (demo_response JNull) JNull
      [(JStr "rel", false)]); reflexivity.
  - vm_compute. lia.
  - intros p [H|H]%elem_of_cons; [discriminate H|by apply elem_of_nil in H].
  - intros p k [[= -> ->]|H]%elem_of_cons; [reflexivity|by apply elem_of_nil in H].
Defined.

Lemma ado_hard_fail_unreported_witness :
  run_trace (demo_orch_world None) 0
    (ado_hard_fail (λ _ _, [JStr "x"]) r_json (λ _, "") (λ _, Ok "org") (λ l, l) 1
       demo_services demo_ado_event "failed") = [].
Proof.
  exact (proj1 (ado_hard_fail_unreported (λ _ _, [JStr "x"]) r_json (λ _, "") (λ l, l)
    (λ _, Ok "org") 1 demo_services demo_ado_event "failed" _ _
    (exec_run (demo_orch_world None) 0 _))).
Defined.
