(* ===== verification/Bitbucket.v ===== *)
(** * Bitbucket events: [src/orchestration/bitbucket/]

    The orchestrators of Bitbucket Data Center and of Bitbucket Cloud. *)
From S2P Require Import Prelude PyStr PyJson Url Auth ApiSession Messaging ScmConfig Orchestration Dispatch Github.
Open Scope string_scope.
Open Scope nat_scope.
Open Scope list_scope.

(** The JSONPath queries of [src/orchestration/bitbucket/bbdc.py], by the names of their attributes. *)
Definition dc_push_route_urls_query : string := "$.repository.links.clone[*]".
Definition dc_push_repo_project_key_query : string := "$.repository.project.key".
Definition dc_push_repo_project_name_query : string := "$.repository.project.name".
Definition dc_push_repo_slug_query : string := "$.repository.slug".
Definition dc_push_repo_name_query : string := "$.repository.name".
Definition dc_push_changes_extract_query : string := "$.changes[*]".
Definition dc_push_change_types_query : string := "$.changes[*].type".
Definition dc_pr_route_urls_query : string := "$.pullRequest.fromRef.repository.links.clone[*]".
Definition dc_pr_draft_query : string := "$.pullRequest.draft".
Definition dc_pr_self_link_query : string := "$.pullRequest.links['self'][*]['href']".
Definition dc_pr_toref_extract_query : string := "$.pullRequest.toRef".
Definition dc_pr_fromref_extract_query : string := "$.pullRequest.fromRef".
Definition dc_pr_repo_project_key_query : string := "$.pullRequest.toRef.repository.project.key".
Definition dc_pr_repo_project_name_query : string :=
  "$.pullRequest.toRef.repository.project.name".
Definition dc_pr_repo_slug_query : string := "$.pullRequest.toRef.repository.slug".
Definition dc_pr_repo_name_query : string := "$.pullRequest.toRef.repository.name".
Definition dc_pr_id_query : string := "$.pullRequest.id".
Definition dc_pr_reviewer_status_query : string := "$.pullRequest.reviewers[*].status".
Definition dc_pr_state_query : string := "$.pullRequest.state".

(** The JSONPath queries of [src/orchestration/bitbucket/bbc.py], by the names of their attributes. *)
Definition bc_route_urls_query : string := "$.repository.links.html.href".
Definition bc_repo_full_name_query : string := "$.repository.full_name".
Definition bc_repo_project_name_query : string := "$.repository.project.name".
Definition bc_repo_project_key_query : string := "$.repository.project.key".
Definition bc_clone_urls_query : string := "$.links.clone[*]".
Definition bc_repo_workspace_slug_query : string := "$.repository.workspace.slug".
Definition bc_first_push_commit_query : string :=
  "$.push.changes[?(@.new.target.type=='commit')]".
Definition bc_branchmodel_name_query : string := "$..['development','production'].branch.name".
Definition bc_pr_draft_query : string := "$.pullrequest.draft".
Definition bc_pr_self_link_query : string := "$.pullrequest.links.html.href".
Definition bc_pr_id_query : string := "$.pullrequest.id".
Definition bc_pr_state_query : string := "$.pullrequest.state".
Definition bc_pr_source_branch_query : string := "$.pullrequest.source.branch.name".
Definition bc_pr_dest_branch_query : string := "$.pullrequest.destination.branch.name".
Definition bc_pr_event_short_dest_hash_query : string := "$.pullrequest.destination.commit.hash".
Definition bc_pr_event_short_source_hash_query : string := "$.pullrequest.source.commit.hash".
Definition bc_pr_participants_query : string :=
  "$.pullrequest.participants[?(@.role == 'REVIEWER')]".

Section bb.
Context (jp : string → json → list json).
Context (json_on_ok : response → outcome json).
Context (repr : json → string).
Context (hmac_digest : string → string → string → outcome string).
Context (scan_inspector : json → outcome inspector).
Context (version : string).
(** The order in which Python iterates a set. *)
Context (set_order : list json → list json).
(** [remove_auth_from_url], which is the URL library's. *)
Context (remove_auth_from_url : json → outcome json).

(** ** What the workflows of both read *)
Record bb_state : Type := BbState {
  bs_source_branch : json; bs_source_hash : json;
  bs_target_branch : json; bs_target_hash : json;
  bs_project_key : json; bs_project_name : json; bs_slug : json; bs_name : json;
  bs_organization : json;
  bs_clone_urls : dict json;
  bs_pr : option (json * json * json) }.

(** [is_signature_valid] of both *)
Definition bb_signature_valid (ctx : EventContext) (shared_secret : string) : outcome bool :=
  hub_signature_valid hmac_digest "X-Hub-Signature" ctx shared_secret.

Definition bb_orchestrator (class : string) (ctx : EventContext) (delegated : bool)
    (protected : orch_prog (list json)) (name : string) (s : bb_state) : orchestrator :=
  let pr f := match bs_pr s with Some p => Ok (f p) | None => Err AttributeError end in
  {| o_class := class;
     o_event_context := ctx;
     o_delegated_scan := delegated;
     o_target := Ok (bs_target_branch s, bs_target_hash s);
     o_source := Ok (bs_source_branch s, bs_source_hash s);
     o_protected := protected;
     o_clone_url := repo_clone_url (bs_clone_urls s);
     o_default_name := Ok name;
     o_project_key := Ok (bs_project_key s);
     o_slug := Ok (bs_slug s);
     o_organization := Ok (bs_organization s);
     o_pr_id := pr (λ p, p.1.1);
     o_pr_state := pr (λ p, p.1.2);
     o_pr_status := pr (λ p, p.2) |}.

(** ** Data Center *)
Record dc_event : Type := DcEvent {
  dc_ctx : EventContext;
  dc_name : option string;
  dc_diagnostic : bool;
  dc_clone_urls : dict json }.

(** [{x.value["name"]: x.value["href"] for x in ...}] *)
Fixpoint dc_links (links : list json) (acc : dict json) : outcome (dict json) :=
  match links with
  | [] => Ok acc
  | l :: rest =>
      let? n := jindex "name" l in
      let? h := jindex "href" l in
      let? n := as_str n in dc_links rest (dset n h acc)
  end.

Definition dc_init (ctx : EventContext) : outcome dc_event :=
  let name := get_header_key_safe ctx "X-Event-Key" in
  if bool_decide (name = Some "diagnostics:ping") then Ok (DcEvent ctx name true [])
  else
    let? push := dc_links (jp dc_push_route_urls_query (message ctx)) [] in
    let? pr := dc_links (jp dc_pr_route_urls_query (message ctx)) [] in
    Ok (DcEvent ctx name false (dunion push pr)).

(** [__populate_common_push_data]: the branch and the hash of the first change,
    when some change adds or updates a reference. *)
Definition dc_push_change (m : json) : outcome (json * json) :=
  if existsb (λ t, bool_decide (t ∈ [JStr "ADD"; JStr "UPDATE"])) (jp dc_push_change_types_query m) then
    let? c := first (jp dc_push_changes_extract_query m) in
    let? ref := jindex "ref" c in
    let? branch := jindex "displayId" ref in
    let? hash := jindex "toHash" c in Ok (branch, hash)
  else Ok (JNull, JNull).

Definition dc_push_state (ev : dc_event) : outcome bb_state :=
  let ctx := dc_ctx ev in
  let? ' (branch, hash) := dc_push_change (message ctx) in
  let? key := find0 jp dc_push_repo_project_key_query ctx in
  let? pname := find0 jp dc_push_repo_project_name_query ctx in
  let? slug := find0 jp dc_push_repo_slug_query ctx in
  let? name := find0 jp dc_push_repo_name_query ctx in
  Ok (BbState branch hash branch hash key pname slug name (JStr "") (dc_clone_urls ev) None).

(** [__populate_common_pr_data] *)
Definition dc_pr_state (ev : dc_event) : outcome bb_state :=
  let ctx := dc_ctx ev in
  let? toref := find0 jp dc_pr_toref_extract_query ctx in
  let? tb := jindex "displayId" toref in
  let? th := jindex "latestCommit" toref in
  let? fromref := find0 jp dc_pr_fromref_extract_query ctx in
  let? sb := jindex "displayId" fromref in
  let? sh := jindex "latestCommit" fromref in
  let? key := find0 jp dc_pr_repo_project_key_query ctx in
  let? pname := find0 jp dc_pr_repo_project_name_query ctx in
  let? slug := find0 jp dc_pr_repo_slug_query ctx in
  let? name := find0 jp dc_pr_repo_name_query ctx in
  let? id := find0 jp dc_pr_id_query ctx in
  let? state := find0 jp dc_pr_state_query ctx in
  let? statuses := py_set (jp dc_pr_reviewer_status_query (message ctx)) in
  let? status := match set_order statuses with
                 | [] => Ok "NO_REVIEWERS"
                 | l => let? ss := mapO as_str l in Ok (join "/" ss)
                 end in
  Ok (BbState sb sh tb th key pname slug name (JStr "") (dc_clone_urls ev)
        (Some (JStr (pstr repr id), state, JStr status))).

(** [_get_protected_branches]: the branches of the branching model. *)
Definition dc_model_branch (j : json) (k : string) : outcome (list json) :=
  let? has := jhas k j in
  if (has : bool) then
    let? b := jindex k j in
    let? has_id := jhas "displayId" b in
    if (has_id : bool) then let? id := jindex "displayId" b in Ok [id] else Ok []
  else Ok [].

Definition dc_protected_branches (s : bb_state) : orch_prog (list json) :=
  let! resp := call (ScmExec None "GET"
    ("/rest/branch-utils/latest/projects/" +:+ pstr repr (bs_project_key s) +:+ "/repos/" +:+
     pstr repr (bs_slug s) +:+ "/branchmodel") []) in
  if negb (r_ok resp) then Raise (OrchestrationException (r_text resp))
  else
    let! j := lift (r_json resp) in
    let! dev := lift (dc_model_branch j "development") in
    let! prod := lift (dc_model_branch j "production") in
    lift (py_set (dev ++ prod)).

Definition dc_orchestrator (ev : dc_event) (delegated : bool) (s : bb_state) : orchestrator :=
  bb_orchestrator "orchestration.bitbucket.bbdc.BitBucketDataCenterOrchestrator" (dc_ctx ev)
    delegated (dc_protected_branches s)
    (pstr repr (bs_project_key s) +:+ "/" +:+ pstr repr (bs_project_name s) +:+ "/" +:+
     pstr repr (bs_name s)) s.

Section dc_handlers.
Context (svc : services).

Definition dc_push (ev : dc_event) : orch_prog wf_result :=
  let! s := lift (dc_push_state ev) in
  let! r := execute_push_scan scan_inspector version svc (dc_orchestrator ev false s) None in
  Ret (push_result r).

(** Run [p] unless the pull request is a draft. *)
Definition dc_unless_draft (ev : dc_event) (p : orch_prog wf_result) : orch_prog wf_result :=
  let! draft := lift (find_pop jp dc_pr_draft_query (dc_ctx ev)) in
  if truthy draft then
    let! _ := lift (find_pop jp dc_pr_self_link_query (dc_ctx ev)) in
    Ret NoResult
  else p.

Definition dc_pr_scan (ev : dc_event) : orch_prog wf_result :=
  dc_unless_draft ev
    (let! s := lift (dc_pr_state ev) in
     let! a := execute_pr_scan scan_inspector version svc (dc_orchestrator ev false s) None in
     Ret (PrResult a)).

Definition dc_pr_tag_update (ev : dc_event) : orch_prog wf_result :=
  dc_unless_draft ev
    (let! s := lift (dc_pr_state ev) in
     let! l := execute_pr_tag_update (dc_orchestrator ev false s) in Ret (TagResult l)).

(** [__workflow_map] *)
Definition dc_workflow_map : list (list string * (dc_event → orch_prog wf_result)) :=
  [(["repo:refs_changed"], dc_push);
   (["pr:opened"; "pr:modified"; "pr:from_ref_updated"], dc_pr_scan);
   (["pr:merged"; "pr:declined"; "pr:deleted"; "pr:reviewer:unapproved";
     "pr:reviewer:updated"; "pr:reviewer:approved"; "pr:reviewer:needs_work"],
    dc_pr_tag_update)].

Definition dc_execute (ev : dc_event) : orch_prog wf_result :=
  match gh_lookup dc_workflow_map (dc_name ev) with
  | Some handler => handler ev
  | None => Ret NoResult
  end.

Definition dc_delegated_push (ev : dc_event) (scan_id : json) : orch_prog wf_result :=
  let! s := lift (dc_push_state ev) in
  let! r := execute_delegated_push_scan svc (dc_orchestrator ev true s) scan_id in
  Ret (PushResult (Some r.1) r.2).

Definition dc_delegated_pr (ev : dc_event) (scan_id : json) : orch_prog wf_result :=
  let! s := lift (dc_pr_state ev) in
  let! a := execute_delegated_pr_scan svc (dc_orchestrator ev true s) scan_id in
  Ret (PrResult a).

(** [handle_delegated_scan], [__delegated_dispatcher] and their table *)
Definition dc_delegate_map : list (list string * (dc_event → json → orch_prog wf_result)) :=
  [(["repo:refs_changed"], dc_delegated_push);
   (["pr:opened"; "pr:modified"; "pr:from_ref_updated"], dc_delegated_pr)].

Definition dc_handle_delegated_scan (ev : dc_event) (scan_id : json) : orch_prog wf_result :=
  match gh_lookup dc_delegate_map (dc_name ev) with
  | Some handler => handler ev scan_id
  | None => Ret NoResult
  end.

Definition dc_hard_fail (ev : dc_event) (fail_msg : string) : orch_prog unit :=
  let! s := lift (dc_pr_state ev) in
  let! details := make_prdetails svc (dc_orchestrator ev true s) in
  call (ExecPrescanFailure details fail_msg).
End dc_handlers.

Definition dc_webhook (ev : dc_event) : webhook :=
  {| is_diagnostic := dc_diagnostic ev;
     config_key := BBDC;
     route_urls := Ok (dvalues (dc_clone_urls ev));
     is_signature_valid := bb_signature_valid (dc_ctx ev);
     w_execute := λ svc, dc_execute svc ev;
     w_handle_delegated_scan := λ svc, dc_handle_delegated_scan svc ev;
     w_handle_delegated_pr_scan_hard_fail := λ svc, dc_hard_fail svc ev |}.

(** ** Cloud *)
Record bc_event : Type := BcEvent {
  bc_ctx : EventContext; bc_name : option string; bc_route_urls : list json }.

Definition bc_init (ctx : EventContext) : outcome bc_event :=
  match jp bc_route_urls_query (message ctx) with
  | [] => Err (OrchestrationException "Route URLs could not be found in the payload.")
  | urls => Ok (BcEvent ctx (get_header_key_safe ctx "X-Event-Key") urls)
  end.

(** [__init_clone_urls]: the credentials of an HTTP URL are removed. *)
Fixpoint bc_clone_links (links : list json) (acc : dict json) : outcome (dict json) :=
  match links with
  | [] => Ok acc
  | l :: rest =>
      let? name := jget "name" l in
      if negb (not_none name) then bc_clone_links rest acc
      else
        let? n := match name with JStr n => Ok n | _ => Err AttributeError end in
        let? href := jget "href" l in
        let? url := if startswith "http" (lower n) then remove_auth_from_url href else Ok href in
        bc_clone_links rest (dset n url acc)
  end.

Record bc_repo : Type := BcRepo {
  br_project_key : json; br_project_name : json; br_name : json; br_organization : json;
  br_slug : json; br_clone_urls : dict json }.

(** [__populate_common_event_data] *)
Definition bc_event_data (ev : bc_event) : orch_prog bc_repo :=
  let ctx := bc_ctx ev in
  let! key := lift (find_pop jp dc_push_repo_project_key_query ctx) in
  let! pname := lift (find_pop jp dc_push_repo_project_name_query ctx) in
  let! name := lift (find_pop jp bc_repo_full_name_query ctx) in
  let! org := lift (find_pop jp bc_repo_workspace_slug_query ctx) in
  let! resp := call (ScmExec None "GET" ("repositories/" +:+ pstr repr name) []) in
  let! repo_data := lift (json_on_ok resp) in
  let! slug := lift (jget "slug" repo_data) in
  let! urls := lift (bc_clone_links (jp bc_clone_urls_query repo_data) []) in
  Ret (BcRepo key pname name org slug urls).

Definition bc_with_repo (r : bc_repo) (sb sh tb th : json) (pr : option (json * json * json)) :
    bb_state :=
  BbState sb sh tb th (br_project_key r) (br_project_name r) (br_slug r) (br_name r)
    (br_organization r) (br_clone_urls r) pr.

(** [__populate_common_push_data] *)
Definition bc_push_state (ev : bc_event) (commit : json) : orch_prog bb_state :=
  let! r := bc_event_data ev in
  let! new := lift (jget "new" commit) in
  let! name := lift (jget "name" new) in
  let! target := lift (jget "target" new) in
  let! hash := lift (jget "hash" target) in
  Ret (bc_with_repo r name hash name hash None).

(** [__get_pr_status] *)
Definition bc_pr_status (ctx : EventContext) : outcome string :=
  let participants := jp bc_pr_participants_query (message ctx) in
  match participants with
  | [] => Ok "NO_REVIEWERS"
  | _ =>
      let? states := mapO (jget "state") participants in
      let? approvals := mapO (jget "approved") participants in
      let changes := existsb (λ s, bool_decide (s = JStr "changes_requested")) states in
      let approved := existsb (λ a, bool_decide (a = JBool true)) approvals in
      Ok (match approved, changes with
          | true, false => "APPROVED"
          | true, true => "PARTIAL_APPROVAL"
          | false, true => "CHANGES_REQUESTED"
          | false, false => "AWAITING_REVIEW"
          end)
  end.

(** [__populate_common_pr_data] *)
Definition bc_pr_state (ev : bc_event) : orch_prog bb_state :=
  let ctx := bc_ctx ev in
  let! r := bc_event_data ev in
  let! id := lift (find_pop jp bc_pr_id_query ctx) in
  let! state := lift (find_pop jp bc_pr_state_query ctx) in
  let! sb := lift (find_pop jp bc_pr_source_branch_query ctx) in
  let! tb := lift (find_pop jp bc_pr_dest_branch_query ctx) in
  let! th := lift (find_pop jp bc_pr_event_short_dest_hash_query ctx) in
  let! sh := lift (find_pop jp bc_pr_event_short_source_hash_query ctx) in
  let! status := lift (bc_pr_status ctx) in
  Ret (bc_with_repo r sb sh tb th (Some (JStr (pstr repr id), state, JStr status))).

(** [_get_protected_branches] *)
Definition bc_protected_branches (s : bb_state) : orch_prog (list json) :=
  let! resp := call (ScmExec None "GET"
    ("/repositories/" +:+ pstr repr (bs_organization s) +:+ "/" +:+ pstr repr (bs_slug s) +:+
     "/effective-branching-model") []) in
  let! j := lift (json_on_ok resp) in
  lift (py_set (jp bc_branchmodel_name_query j)).

Definition bc_orchestrator (ev : bc_event) (delegated : bool) (s : bb_state) : orchestrator :=
  bb_orchestrator "orchestration.bitbucket.bbc.BitBucketCloudOrchestrator" (bc_ctx ev)
    delegated (bc_protected_branches s)
    (pstr repr (bs_organization s) +:+ "/" +:+ pstr repr (bs_project_key s) +:+ "/" +:+
     pstr repr (bs_project_name s) +:+ "/" +:+ pstr repr (bs_slug s)) s.

Section bc_handlers.
Context (svc : services).

(** The commit of the last change that is a commit, if there is one. *)
Definition bc_commit (ev : bc_event) : option json :=
  last (jp bc_first_push_commit_query (message (bc_ctx ev))).

Definition bc_push (ev : bc_event) : orch_prog wf_result :=
  match bc_commit ev with
  | Some c =>
      let! s := bc_push_state ev c in
      let! r := execute_push_scan scan_inspector version svc (bc_orchestrator ev false s) None in
      Ret (push_result r)
  | None => Ret NoResult
  end.

(** Run [p] unless the pull request is a draft. *)
Definition bc_unless_draft (ev : bc_event) (p : orch_prog wf_result) : orch_prog wf_result :=
  let! draft := lift (find_pop jp bc_pr_draft_query (bc_ctx ev)) in
  if truthy draft then
    let! _ := lift (find_pop jp bc_pr_self_link_query (bc_ctx ev)) in Ret NoResult
  else p.

(** [_execute_pr_tag_update_workflow] *)
Definition bc_pr_tag_update (ev : bc_event) : orch_prog wf_result :=
  bc_unless_draft ev
    (let! s := bc_pr_state ev in
     let! l := execute_pr_tag_update (bc_orchestrator ev false s) in Ret (TagResult l)).

(** [_execute_pr_scan_workflow] *)
Definition bc_pr_scan (ev : bc_event) : orch_prog wf_result :=
  bc_unless_draft ev
    (let! s := bc_pr_state ev in
     let o := bc_orchestrator ev false s in
     let! default_name := lift (o_default_name o) in
     let! name := call (GetProjectName default_name (bc_ctx ev)) in
     let! pr := lift (of_option AttributeError (bs_pr s)) in
     let! existing := call (FindPrScans name pr.1.1 (bs_source_hash s)) in
     match existing with
     | _ :: _ => bc_pr_tag_update ev
     | [] => let! a := execute_pr_scan scan_inspector version svc o None in Ret (PrResult a)
     end).

(** [__workflow_map] *)
Definition bc_workflow_map : list (list string * (bc_event → orch_prog wf_result)) :=
  [(["repo:push"], bc_push);
   (["pullrequest:created"; "pullrequest:updated"], bc_pr_scan);
   (["pullrequest:fulfilled"; "pullrequest:rejected"; "pullrequest:approved";
     "pullrequest:unapproved"; "pullrequest:changes_request_created";
     "pullrequest:changes_request_removed"], bc_pr_tag_update)].

Definition bc_execute (ev : bc_event) : orch_prog wf_result :=
  match gh_lookup bc_workflow_map (bc_name ev) with
  | Some handler => handler ev
  | None => Ret NoResult
  end.

Definition bc_delegated_push (ev : bc_event) (scan_id : json) : orch_prog wf_result :=
  match bc_commit ev with
  | Some c =>
      let! s := bc_push_state ev c in
      let! r := execute_delegated_push_scan svc (bc_orchestrator ev false s) scan_id in
      Ret (PushResult (Some r.1) r.2)
  | None => Ret NoResult
  end.

Definition bc_delegated_pr (ev : bc_event) (scan_id : json) : orch_prog wf_result :=
  let! s := bc_pr_state ev in
  let! a := execute_delegated_pr_scan svc (bc_orchestrator ev false s) scan_id in
  Ret (PrResult a).

(** [handle_delegated_scan] and [__delegate_scan_handler_map] *)
Definition bc_delegate_map : list (list string * (bc_event → json → orch_prog wf_result)) :=
  [(["repo:push"], bc_delegated_push);
   (["pullrequest:created"; "pullrequest:updated"], bc_delegated_pr)].

Definition bc_handle_delegated_scan (ev : bc_event) (scan_id : json) : orch_prog wf_result :=
  match gh_lookup bc_delegate_map (bc_name ev) with
  | Some handler => handler ev scan_id
  | None => Ret NoResult
  end.

Definition bc_hard_fail (ev : bc_event) (fail_msg : string) : orch_prog unit :=
  let! s := bc_pr_state ev in
  let! details := make_prdetails svc (bc_orchestrator ev false s) in
  call (ExecPrescanFailure details fail_msg).
End bc_handlers.

Definition bc_webhook (ev : bc_event) : webhook :=
  {| is_diagnostic := false;
     config_key := BBC;
     route_urls := Ok (bc_route_urls ev);
     is_signature_valid := bb_signature_valid (bc_ctx ev);
     w_execute := λ svc, bc_execute svc ev;
     w_handle_delegated_scan := λ svc, bc_handle_delegated_scan svc ev;
     w_handle_delegated_pr_scan_hard_fail := λ svc, bc_hard_fail svc ev |}.
End bb.

(** ** Theorems *)

(** A Bitbucket Data Center push is attributed to its first change as soon
    as any of its changes adds or updates a reference: a push that deletes one
    branch and then updates another is handled as a push of the deleted branch,
    with the hash the deletion leaves; without such a change no branch is
    scanned. *)
Theorem dc_push_first_change jp m changes types :
  jp dc_push_changes_extract_query m = changes → jp dc_push_change_types_query m = types →
  (JStr "ADD" ∈ types ∨ JStr "UPDATE" ∈ types →
   dc_push_change jp m =
     let? c := first changes in let? ref := jindex "ref" c in
     let? branch := jindex "displayId" ref in let? hash := jindex "toHash" c in
     Ok (branch, hash)) ∧
  (JStr "ADD" ∉ types → JStr "UPDATE" ∉ types → dc_push_change jp m = Ok (JNull, JNull)).
Proof.
  intros Hc Ht. unfold dc_push_change. rewrite Hc, Ht.
  assert (Hex : existsb (λ t, bool_decide (t ∈ [JStr "ADD"; JStr "UPDATE"])) types = true ↔
                JStr "ADD" ∈ types ∨ JStr "UPDATE" ∈ types).
  { rewrite existsb_exists. setoid_rewrite <- list_elem_of_In.
    setoid_rewrite bool_decide_eq_true. clear. set_solver. }
  split.
  - intros H. apply Hex in H as ->. done.
  - intros Ha Hu. destruct (existsb _ types); [|done]. exfalso.
    destruct (proj1 Hex eq_refl); done.
Qed.

(** ** Witness *)
Definition demo_change (type branch hash : string) : json :=
  JObj [("ref", JObj [("displayId", JStr branch)]); ("type", JStr type); ("toHash", JStr hash)].
Definition demo_dc_jp (q : string) (_ : json) : list json :=
  if decide (q = dc_push_change_types_query) then [JStr "DELETE"; JStr "UPDATE"]
  else [demo_change "DELETE" "old" "0000"; demo_change "UPDATE" "main" "c0ffee"].

Lemma dc_push_first_change_witness :
  dc_push_change demo_dc_jp JNull = Ok (JStr "old", JStr "0000").
Proof.
  rewrite (proj1 (dc_push_first_change demo_dc_jp JNull _ _ eq_refl eq_refl)).
  - reflexivity.
  - right. apply elem_of_cons. right. apply elem_of_cons. left. reflexivity.
Defined.
