(* ===== verification/TaskManager.v ===== *)
(** * Background tasks: [src/task_management/__init__.py]

    [TaskManager] hands coroutines to one event loop in a thread of its own and
    keeps the list of those of [in_background] that run, under a lock: the threads
    of the requests add to it, the loop thread removes from it in the callback of a
    finished future, and the thread that shuts the server down waits until it is
    empty.  A coroutine of [in_foreground] runs on the same loop, while the thread
    of its request waits for it; it is not in that list.
    The threads interleave, so the operations are small steps of a transition
    system; a step is what one thread does between two points where another
    thread can see the difference. *)
From stdpp Require Import functions relations.
From S2P Require Import Prelude.
Open Scope nat_scope.
Open Scope list_scope.

(** ** The state *)

(** How a coroutine ended. *)
Inductive coro_result : Type :=
| Returned
| Raised (e : exn)
| Cancelled.
#[export] Instance coro_result_eq_dec : EqDecision coro_result.
Proof. solve_decision. Defined.

(** A future of [run_coroutine_threadsafe]: whether [__callback] is registered
    with it while its coroutine runs, and then its result. *)
Inductive future : Type :=
| Pending (callback : bool)
| Finished (r : coro_result).

Inductive thread : Type := Request (t : nat) | LoopThread | Shutdown.
#[export] Instance thread_eq_dec : EqDecision thread.
Proof. solve_decision. Defined.

(** Where a request thread is in [in_background]; all but [Outside] hold the
    lock. *)
Inductive request_pc : Type :=
| Outside
| AtSubmit
| AtAddCallback (f : nat)
| InCallback (f : nat)     (* [__callback], run by the request thread itself *)
| AtAppend (f : nat)
| AtRelease.

(** Where the loop thread is in [__callback]. *)
Inductive loop_pc : Type :=
| Running
| AtAcquire (f : nat)
| AtRemove (f : nat)
| AtLeave.

(** Where a request thread is in [in_foreground]: outside of it, waiting for its
    coroutine, or about to return the result of that, or raise it. *)
Inductive foreground : Type := NotWaiting | Waiting | Ended (r : coro_result).

(** Where the last thread is in [wait_for_exit]. *)
Inductive shutdown_pc : Type := AtStart | AtCheck | Asleep | Exited.

Record tm : Type := Tm {
  tm_lock : option thread;           (* [__monitor_lock] *)
  tm_monitored : list nat;           (* [__monitored] *)
  tm_futures : list future;          (* every future so far *)
  tm_request : nat → request_pc;
  tm_loop : loop_pc;
  tm_shutdown : shutdown_pc;
  tm_foreground : nat → foreground }.

(** [bootstrap]: the loop runs, and nothing was submitted. *)
Definition tm_bootstrap : tm := Tm None [] [] (λ _, Outside) Running AtStart (λ _, NotWaiting).

(** [list.remove]: the first occurrence; without one it raises. *)
Fixpoint list_remove (x : nat) (l : list nat) : outcome (list nat) :=
  match l with
  | [] => Err ValueError
  | y :: l' => if decide (y = x) then Ok l' else let? r := list_remove x l' in Ok (y :: r)
  end.

(** What [__callback] does under the lock: [__log_future_result] asks for the
    exception, which raises for a cancelled coroutine, and the future is removed
    after it. *)
Definition log_future_result (r : coro_result) : outcome unit :=
  match r with Cancelled => Err CancelledError | _ => Ok tt end.
Definition callback (r : coro_result) (f : nat) (monitored : list nat) : outcome (list nat) :=
  let? _ := log_future_result r in list_remove f monitored.
(** An exception of a callback is logged by the future and goes no further. *)
Definition callback_monitored (r : coro_result) (f : nat) (monitored : list nat) : list nat :=
  match callback r f monitored with Ok l => l | Err _ => monitored end.

(** ** The steps *)
Inductive tm_step : tm → tm → Prop :=
(** [in_background]: take the lock, *)
| bg_acquire t mon fs rq lp sd fg :
    rq t = Outside → fg t = NotWaiting →
    tm_step (Tm None mon fs rq lp sd fg)
            (Tm (Some (Request t)) mon fs (<[t := AtSubmit]> rq) lp sd fg)
(** hand the coroutine to the loop, *)
| bg_submit t lk mon fs rq lp sd fg :
    rq t = AtSubmit →
    tm_step (Tm lk mon fs rq lp sd fg)
            (Tm lk mon (fs ++ [Pending false]) (<[t := AtAddCallback (length fs)]> rq) lp sd fg)
(** register the callback: with a finished future it is called at once, *)
| bg_register t f lk mon fs rq lp sd fg :
    rq t = AtAddCallback f → fs !! f = Some (Pending false) →
    tm_step (Tm lk mon fs rq lp sd fg)
            (Tm lk mon (<[f := Pending true]> fs) (<[t := AtAppend f]> rq) lp sd fg)
| bg_register_late t f r lk mon fs rq lp sd fg :
    rq t = AtAddCallback f → fs !! f = Some (Finished r) →
    tm_step (Tm lk mon fs rq lp sd fg) (Tm lk mon fs (<[t := InCallback f]> rq) lp sd fg)
(** where it takes the lock, which is not reentrant, *)
| bg_callback t f r mon fs rq lp sd fg :
    rq t = InCallback f → fs !! f = Some (Finished r) →
    tm_step (Tm None mon fs rq lp sd fg)
            (Tm None (callback_monitored r f mon) fs (<[t := AtAppend f]> rq) lp sd fg)
(** remember the future, and leave. *)
| bg_append t f lk mon fs rq lp sd fg :
    rq t = AtAppend f →
    tm_step (Tm lk mon fs rq lp sd fg) (Tm lk (mon ++ [f]) fs (<[t := AtRelease]> rq) lp sd fg)
| bg_release t lk mon fs rq lp sd fg :
    rq t = AtRelease →
    tm_step (Tm lk mon fs rq lp sd fg) (Tm None mon fs (<[t := Outside]> rq) lp sd fg)
(** The loop thread: a coroutine ends, and its callback runs if there is one. *)
| loop_finish f cb r lk mon fs rq sd fg :
    fs !! f = Some (Pending cb) →
    tm_step (Tm lk mon fs rq Running sd fg)
            (Tm lk mon (<[f := Finished r]> fs) rq (if cb : bool then AtAcquire f else Running) sd fg)
| loop_acquire f mon fs rq sd fg :
    tm_step (Tm None mon fs rq (AtAcquire f) sd fg)
            (Tm (Some LoopThread) mon fs rq (AtRemove f) sd fg)
| loop_remove f r lk mon fs rq sd fg :
    fs !! f = Some (Finished r) →
    tm_step (Tm lk mon fs rq (AtRemove f) sd fg)
            (Tm lk (callback_monitored r f mon) fs rq AtLeave sd fg)
| loop_release lk mon fs rq sd fg :
    tm_step (Tm lk mon fs rq AtLeave sd fg) (Tm None mon fs rq Running sd fg)
(** [in_foreground]: a request hands its coroutine to the loop and waits, the
    coroutine ends, with no callback, and the request goes on. *)
| fg_submit t lk mon fs rq lp sd fg :
    rq t = Outside → fg t = NotWaiting →
    tm_step (Tm lk mon fs rq lp sd fg) (Tm lk mon fs rq lp sd (<[t := Waiting]> fg))
| fg_finish t r lk mon fs rq sd fg :
    fg t = Waiting →
    tm_step (Tm lk mon fs rq Running sd fg) (Tm lk mon fs rq Running sd (<[t := Ended r]> fg))
| fg_result t r lk mon fs rq lp sd fg :
    fg t = Ended r →
    tm_step (Tm lk mon fs rq lp sd fg) (Tm lk mon fs rq lp sd (<[t := NotWaiting]> fg))
(** [wait_for_exit]: look under the lock, and sleep or leave. *)
| sd_acquire mon fs rq lp fg :
    tm_step (Tm None mon fs rq lp AtStart fg) (Tm (Some Shutdown) mon fs rq lp AtCheck fg)
| sd_check lk mon fs rq lp fg :
    tm_step (Tm lk mon fs rq lp AtCheck fg)
            (Tm None mon fs rq lp (if decide (mon = []) then Exited else Asleep) fg)
| sd_wake lk mon fs rq lp fg :
    tm_step (Tm lk mon fs rq lp Asleep fg) (Tm lk mon fs rq lp AtStart fg).

Definition tm_reachable (s : tm) : Prop := rtc tm_step tm_bootstrap s.

(** ** The invariant *)

(** Where the request that holds the lock is, if one does. *)
Definition holder_pc (lk : option thread) (rq : nat → request_pc) : request_pc :=
  match lk with Some (Request t) => rq t | _ => Outside end.

(** The future a request, or the loop thread, works on. *)
Definition pc_future (pc : request_pc) : option nat :=
  match pc with AtAddCallback f | InCallback f | AtAppend f => Some f | _ => None end.
Definition loop_future (lp : loop_pc) : option nat :=
  match lp with AtAcquire f | AtRemove f => Some f | _ => None end.

(** The futures that must be in the list: those that run, those whose callback
    has not run, and those that were cancelled - except the one that a request
    is about to add. *)
Definition tracked (pc : request_pc) (lp : loop_pc) (fs : list future) (f : nat) : Prop :=
  pc_future pc ≠ Some f ∧
  match fs !! f with
  | Some (Pending _) => True
  | Some (Finished r) => loop_future lp = Some f ∨ r = Cancelled
  | None => False
  end.

(** What is known of the future a request works on. *)
Definition request_ok (pc : request_pc) (lp : loop_pc) (fs : list future) : Prop :=
  match pc with
  | AtAddCallback f =>
      fs !! f = Some (Pending false) ∨
      (∃ r, fs !! f = Some (Finished r)) ∧ loop_future lp ≠ Some f
  | InCallback f => (∃ r, fs !! f = Some (Finished r)) ∧ loop_future lp ≠ Some f
  | AtAppend f =>
      fs !! f = Some (Pending true) ∨
      (∃ r, fs !! f = Some (Finished r)) ∧ loop_future lp = Some f
  | _ => True
  end.

Definition loop_holds (lp : loop_pc) : bool :=
  match lp with AtRemove _ | AtLeave => true | _ => false end.

Record tm_inv (s : tm) : Prop := TmInv {
  inv_requests t : tm_request s t ≠ Outside ↔ tm_lock s = Some (Request t);
  inv_loop : loop_holds (tm_loop s) = true ↔ tm_lock s = Some LoopThread;
  inv_shutdown : tm_shutdown s = AtCheck ↔ tm_lock s = Some Shutdown;
  inv_request_ok : request_ok (holder_pc (tm_lock s) (tm_request s)) (tm_loop s) (tm_futures s);
  inv_unregistered f : tm_futures s !! f = Some (Pending false) →
    holder_pc (tm_lock s) (tm_request s) = AtAddCallback f;
  inv_loop_future f : loop_future (tm_loop s) = Some f →
    ∃ r, tm_futures s !! f = Some (Finished r);
  inv_nodup : NoDup (tm_monitored s);
  inv_monitored f : f ∈ tm_monitored s ↔
    tracked (holder_pc (tm_lock s) (tm_request s)) (tm_loop s) (tm_futures s) f }.

Lemma list_remove_spec x l :
  NoDup l → x ∈ l → ∃ l', list_remove x l = Ok l' ∧ NoDup l' ∧
    ∀ y, y ∈ l' ↔ y ∈ l ∧ y ≠ x.
Proof.
  induction l as [|z l IH]; intros Hnd Hx; [by apply elem_of_nil in Hx|].
  apply NoDup_cons in Hnd as [Hz Hnd]. simpl. case_decide as Heq.
  - subst z. exists l. split_and!; [done..|]. set_solver.
  - destruct (IH Hnd) as (l' & -> & Hnd' & Hin); [set_solver|].
    exists (z :: l'). split; [done|]. split; [apply NoDup_cons; set_solver|set_solver].
Qed.

(** The callback of the loop thread never fails to find its future. *)
Lemma callback_spec r f l :
  NoDup l → f ∈ l → NoDup (callback_monitored r f l) ∧
    ∀ y, y ∈ callback_monitored r f l ↔ y ∈ l ∧ (y ≠ f ∨ r = Cancelled).
Proof.
  intros Hnd Hf. unfold callback_monitored, callback.
  destruct (list_remove_spec f l Hnd Hf) as (l' & Hl & Hnd' & Hin).
  destruct r; simpl; rewrite ?Hl; (split; [done|]); intros y; rewrite ?Hin; naive_solver.
Qed.

Lemma tm_inv_bootstrap : tm_inv tm_bootstrap.
Proof.
  split; simpl; try done.
  - constructor.
  - intros f. unfold tracked. simpl. set_solver.
Qed.
Lemma request_holder s t : tm_inv s → tm_request s t ≠ Outside →
  tm_lock s = Some (Request t) ∧ loop_holds (tm_loop s) = false ∧ tm_shutdown s ≠ AtCheck.
Proof.
  intros H Ht. apply (inv_requests _ H) in Ht as Hl. split; [done|]. split.
  - destruct (loop_holds (tm_loop s)) eqn:E; [|done]. apply (inv_loop _ H) in E. congruence.
  - intros E. apply (inv_shutdown _ H) in E. congruence.
Qed.

(** A request that holds the lock moves on. *)
Lemma inv_request_moves t pc mon fs fs' mon' rq lp sd fg :
  tm_inv (Tm (Some (Request t)) mon fs rq lp sd fg) → pc ≠ Outside →
  request_ok pc lp fs' →
  (∀ f, fs' !! f = Some (Pending false) → pc = AtAddCallback f) →
  (∀ f, loop_future lp = Some f → ∃ r, fs' !! f = Some (Finished r)) →
  NoDup mon' →
  (∀ f, f ∈ mon' ↔ tracked pc lp fs' f) →
  tm_inv (Tm (Some (Request t)) mon' fs' (<[t := pc]> rq) lp sd fg).
Proof.
  intros [Hrq Hlp Hsd Hok Hun Hlf Hnd Hmon] Hpc Hok' Hun' Hlf' Hnd' Hmon'.
  split; simpl in *; rewrite ?fn_lookup_insert; try done.
  intros t'. destruct (decide (t = t')) as [<-|Hne].
  - by rewrite fn_lookup_insert.
  - rewrite fn_lookup_insert_ne by done. apply Hrq.
Qed.

(** A look-up in a list that one future was added to. *)
Lemma lookup_snoc_fut (fs : list future) x f y :
  (fs ++ [x]) !! f = Some y ↔ fs !! f = Some y ∨ (f = length fs ∧ y = x).
Proof.
  rewrite lookup_app_Some, list_lookup_singleton_Some. split.
  - intros [?|(? & ? & ->)]; [by left|right; split; [lia|done]].
  - intros [?|[-> ->]]; [by left|right]. split_and!; [lia..|done].
Qed.

Lemma inv_bg_acquire t mon fs rq lp sd fg :
  rq t = Outside → tm_inv (Tm None mon fs rq lp sd fg) →
  tm_inv (Tm (Some (Request t)) mon fs (<[t := AtSubmit]> rq) lp sd fg).
Proof.
  intros Ht [Hrq Hlp Hsd Hok Hun Hlf Hnd Hmon]. simpl in *.
  split; simpl; rewrite ?fn_lookup_insert; try done.
  - intros t'. destruct (decide (t = t')) as [<-|Hne]; [by rewrite fn_lookup_insert|].
    rewrite fn_lookup_insert_ne by done. rewrite Hrq. naive_solver.
  - rewrite Hlp. done.
  - rewrite Hsd. done.
  - intros f Hf. by apply Hun in Hf.
Qed.

Lemma inv_bg_submit t lk mon fs rq lp sd fg :
  rq t = AtSubmit → tm_inv (Tm lk mon fs rq lp sd fg) →
  tm_inv (Tm lk mon (fs ++ [Pending false]) (<[t := AtAddCallback (length fs)]> rq) lp sd fg).
Proof.
  intros Ht H. destruct (request_holder _ t H) as [? _]; simpl in *; [congruence|subst lk].
  pose proof H as [Hrq Hlp Hsd Hok Hun Hlf Hnd Hmon]. simpl in *. rewrite Ht in *.
  apply (inv_request_moves _ _ _ _ _ _ _ _ _ _ H); simpl; try done.
  - left. apply lookup_snoc_fut. by right.
  - intros f [Hf|[-> _]]%lookup_snoc_fut; [by apply Hun in Hf|done].
  - intros f [r Hr]%Hlf. exists r. apply lookup_snoc_fut. by left.
  - intros f. rewrite Hmon. unfold tracked. simpl.
    destruct (decide (f = length fs)) as [->|Hne].
    + rewrite lookup_ge_None_2 by lia. naive_solver.
    + rewrite lookup_app. destruct (fs !! f) eqn:E; [naive_solver|].
      rewrite (lookup_ge_None_2 [_]); [naive_solver|].
      apply lookup_ge_None in E. simpl. lia.
Qed.

Lemma inv_bg_register t f lk mon fs rq lp sd fg :
  rq t = AtAddCallback f → fs !! f = Some (Pending false) → tm_inv (Tm lk mon fs rq lp sd fg) →
  tm_inv (Tm lk mon (<[f := Pending true]> fs) (<[t := AtAppend f]> rq) lp sd fg).
Proof.
  intros Ht Hf H. destruct (request_holder _ t H) as [? _]; simpl in *; [congruence|subst lk].
  pose proof H as [Hrq Hlp Hsd Hok Hun Hlf Hnd Hmon]. simpl in *. rewrite Ht in *.
  assert (Hlen : f < length fs) by (by apply lookup_lt_Some in Hf).
  apply (inv_request_moves _ _ _ _ _ _ _ _ _ _ H); simpl; try done.
  - left. by rewrite list_lookup_insert_eq.
  - intros g. destruct (decide (f = g)) as [<-|Hne]; [by rewrite list_lookup_insert_eq|].
    rewrite list_lookup_insert_ne by done. intros Hg%Hun. congruence.
  - intros g Hg. destruct (Hlf g Hg) as [r Hr]. exists r.
    rewrite list_lookup_insert_ne; [done|]. congruence.
  - intros g. rewrite Hmon. unfold tracked. simpl. destruct (decide (f = g)) as [<-|Hne].
    + naive_solver.
    + by rewrite list_lookup_insert_ne.
Qed.

Lemma inv_bg_register_late t f r lk mon fs rq lp sd fg :
  rq t = AtAddCallback f → fs !! f = Some (Finished r) → tm_inv (Tm lk mon fs rq lp sd fg) →
  tm_inv (Tm lk mon fs (<[t := InCallback f]> rq) lp sd fg).
Proof.
  intros Ht Hf H. destruct (request_holder _ t H) as [? _]; simpl in *; [congruence|subst lk].
  pose proof H as [Hrq Hlp Hsd Hok Hun Hlf Hnd Hmon]. simpl in *. rewrite Ht in *.
  apply (inv_request_moves _ _ _ _ _ _ _ _ _ _ H); simpl in *; try done.
  - destruct Hok as [?|[_ ?]]; [congruence|eauto].
  - intros g Hg. apply Hun in Hg as Hg'. congruence.
Qed.

Lemma inv_bg_append t f lk mon fs rq lp sd fg :
  rq t = AtAppend f → tm_inv (Tm lk mon fs rq lp sd fg) →
  tm_inv (Tm lk (mon ++ [f]) fs (<[t := AtRelease]> rq) lp sd fg).
Proof.
  intros Ht H. destruct (request_holder _ t H) as [? _]; simpl in *; [congruence|subst lk].
  pose proof H as [Hrq Hlp Hsd Hok Hun Hlf Hnd Hmon]. simpl in *. rewrite Ht in *.
  assert (Hf : f ∉ mon) by (rewrite Hmon; by intros [? _]).
  apply (inv_request_moves _ _ _ _ _ _ _ _ _ _ H); simpl in *; try done.
  - intros g Hg. apply Hun in Hg as Hg'. congruence.
  - apply NoDup_app. split_and!; [done| |apply NoDup_singleton]. set_solver.
  - intros g. rewrite elem_of_app, list_elem_of_singleton, Hmon. unfold tracked. simpl.
    destruct (decide (g = f)) as [->|Hne]; [|naive_solver].
    split; [|by right]. intros _. split; [done|].
    destruct Hok as [->|[[r ->] ?]]; [done|by left].
Qed.

Lemma inv_bg_release t lk mon fs rq lp sd fg :
  rq t = AtRelease → tm_inv (Tm lk mon fs rq lp sd fg) →
  tm_inv (Tm None mon fs (<[t := Outside]> rq) lp sd fg).
Proof.
  intros Ht H. destruct (request_holder _ t H) as [? [Hl Hs]]; simpl in *; [congruence|subst lk].
  pose proof H as [Hrq Hlp Hsd Hok Hun Hlf Hnd Hmon]. simpl in *. rewrite Ht in *.
  split; simpl; try done.
  - intros t'. destruct (decide (t = t')) as [<-|Hne]; [by rewrite fn_lookup_insert|].
    rewrite fn_lookup_insert_ne by done. rewrite Hrq. naive_solver.
  - rewrite Hl. done.
  - intros g Hg. by apply Hun in Hg.
Qed.

Lemma request_ok_finish pc f cb r fs :
  fs !! f = Some (Pending cb) → request_ok pc Running fs →
  request_ok pc (if cb then AtAcquire f else Running) (<[f := Finished r]> fs).
Proof.
  intros Hf Hok. assert (f < length fs) by (by apply lookup_lt_Some in Hf).
  destruct pc as [| |g|g|g|]; simpl in *; try done;
    (destruct (decide (f = g)) as [<-|Hne];
      [rewrite list_lookup_insert_eq by done|rewrite list_lookup_insert_ne by done]).
  - destruct Hok as [Hok|[[? Hok] _]]; simplify_eq. right. eauto.
  - destruct Hok as [Hok|Hok]; [by left|]. right. split; [apply Hok|]. destruct cb; simpl; congruence.
  - destruct Hok as [[? Hok] _]; simplify_eq.
  - destruct Hok as [[? Hok] _]. split; [eauto|]. destruct cb; simpl; congruence.
  - destruct Hok as [Hok|[[? Hok] _]]; simplify_eq. right. eauto.
  - destruct Hok as [Hok|[_ [=]]]. by left.
Qed.

Lemma inv_loop_finish f cb r lk mon fs rq sd fg :
  fs !! f = Some (Pending cb) → tm_inv (Tm lk mon fs rq Running sd fg) →
  tm_inv (Tm lk mon (<[f := Finished r]> fs) rq (if cb then AtAcquire f else Running) sd fg).
Proof.
  intros Hf [Hrq Hlp Hsd Hok Hun Hlf Hnd Hmon]. simpl in *.
  assert (f < length fs) by (by apply lookup_lt_Some in Hf).
  split; simpl; try done.
  - rewrite <- Hlp. by destruct cb.
  - by apply request_ok_finish.
  - intros g. destruct (decide (f = g)) as [<-|Hne]; [by rewrite list_lookup_insert_eq|].
    rewrite list_lookup_insert_ne by done. apply Hun.
  - intros g Hg. destruct cb; simplify_eq/=. exists r. by apply list_lookup_insert_eq.
  - intros g. rewrite Hmon. unfold tracked. destruct (decide (f = g)) as [<-|Hne].
    + rewrite list_lookup_insert_eq, Hf by done. destruct cb; simpl; [naive_solver|].
      rewrite (Hun f Hf). simpl. naive_solver.
    + rewrite list_lookup_insert_ne by done. destruct (fs !! g) as [[]|]; try done.
      destruct cb; simpl; naive_solver.
Qed.

Lemma inv_loop_acquire f mon fs rq sd fg :
  tm_inv (Tm None mon fs rq (AtAcquire f) sd fg) →
  tm_inv (Tm (Some LoopThread) mon fs rq (AtRemove f) sd fg).
Proof.
  intros [Hrq Hlp Hsd Hok Hun Hlf Hnd Hmon]. simpl in *.
  split; simpl; try done.
  - intros t. rewrite Hrq. naive_solver.
  - rewrite Hsd. naive_solver.
Qed.

Lemma loop_holder mon fs rq lp sd fg lk :
  tm_inv (Tm lk mon fs rq lp sd fg) → loop_holds lp = true →
  lk = Some LoopThread ∧ (∀ t, rq t = Outside) ∧ sd ≠ AtCheck.
Proof.
  intros [Hrq Hlp Hsd _ _ _ _ _] Hl. simpl in *. apply Hlp in Hl as ->.
  split; [done|]. split; [|rewrite Hsd; done]. intros t.
  destruct (rq t) eqn:E; try done; assert (rq t ≠ Outside) as Hn%Hrq by congruence; done.
Qed.

Lemma inv_loop_remove f r lk mon fs rq sd fg :
  fs !! f = Some (Finished r) → tm_inv (Tm lk mon fs rq (AtRemove f) sd fg) →
  tm_inv (Tm lk (callback_monitored r f mon) fs rq AtLeave sd fg).
Proof.
  intros Hf H. destruct (loop_holder _ _ _ _ _ _ _ H eq_refl) as (-> & Hout & Hsdc).
  destruct H as [Hrq Hlp Hsd Hok Hun Hlf Hnd Hmon]. simpl in *.
  destruct (callback_spec r f mon Hnd) as [Hnd' Hmon'].
  { apply Hmon. unfold tracked. rewrite Hf. simpl. split; [done|by left]. }
  split; simpl; try done.
  intros g. rewrite Hmon', Hmon. unfold tracked. simpl.
  destruct (decide (g = f)) as [->|Hne].
  - rewrite Hf. split.
    + intros [[Hp _] [Hn|Hc]]; [by destruct (Hn eq_refl)|]. split; [done|by right].
    + intros [? [[=]|?]]. split; [split; [done|by left]|by right].
  - destruct (fs !! g) as [[b|r']|]; [| |split; [intros [[_ []] _]|intros [_ []]]].
    + split; [by intros [[? _] _]|]. intros [? _]. split; [done|by left].
    + split.
      * intros [[Hp [[= Hc]|Hc]] _]; [by destruct (Hne (eq_sym Hc))|]. split; [done|by right].
      * intros [? [[=]|?]]. split; [|by left]. split; [done|by right].
Qed.

Lemma inv_loop_release lk mon fs rq sd fg :
  tm_inv (Tm lk mon fs rq AtLeave sd fg) → tm_inv (Tm None mon fs rq Running sd fg).
Proof.
  intros H. destruct (loop_holder _ _ _ _ _ _ _ H eq_refl) as (-> & Hout & Hsdc).
  destruct H as [Hrq Hlp Hsd Hok Hun Hlf Hnd Hmon]. simpl in *.
  split; simpl; try done. intros t. rewrite Hout. done.
Qed.

Lemma inv_sd_acquire mon fs rq lp fg :
  tm_inv (Tm None mon fs rq lp AtStart fg) → tm_inv (Tm (Some Shutdown) mon fs rq lp AtCheck fg).
Proof.
  intros [Hrq Hlp Hsd Hok Hun Hlf Hnd Hmon]. simpl in *.
  split; simpl; try done.
  - intros t. rewrite Hrq. naive_solver.
  - rewrite Hlp. naive_solver.
Qed.

(** The invariant is about the background. *)
Lemma inv_foreground lk mon fs rq lp sd fg fg' :
  tm_inv (Tm lk mon fs rq lp sd fg) → tm_inv (Tm lk mon fs rq lp sd fg').
Proof. by intros [Hrq Hlp Hsd Hok Hun Hlf Hnd Hmon]. Qed.

Lemma inv_sd_check lk mon fs rq lp sd fg :
  tm_inv (Tm lk mon fs rq lp AtCheck fg) → sd ≠ AtCheck → tm_inv (Tm None mon fs rq lp sd fg).
Proof.
  intros [Hrq Hlp Hsd Hok Hun Hlf Hnd Hmon] Hne. simpl in *.
  assert (lk = Some Shutdown) as -> by by apply Hsd. split; simpl; try done.
  - intros t. rewrite Hrq. naive_solver.
  - rewrite Hlp. naive_solver.
Qed.

(** A reachable state is well formed. *)
Lemma tm_inv_step s s' : tm_step s s' → tm_inv s → tm_inv s'.
Proof.
  intros Hs H. destruct Hs.
  - by apply inv_bg_acquire.
  - by apply inv_bg_submit.
  - by apply inv_bg_register.
  - by eapply inv_bg_register_late.
  - exfalso. assert (rq t ≠ Outside) as Hl by congruence.
    by apply (inv_requests _ H) in Hl.
  - by apply inv_bg_append.
  - by eapply inv_bg_release.
  - by apply inv_loop_finish.
  - by apply inv_loop_acquire.
  - by apply inv_loop_remove.
  - by eapply inv_loop_release.
  - by eapply inv_foreground.
  - by eapply inv_foreground.
  - by eapply inv_foreground.
  - by apply inv_sd_acquire.
  - eapply inv_sd_check; [done|]. by case_decide.
  - destruct H as [Hrq Hlp Hsd Hok Hun Hlf Hnd Hmon]. split; simpl in *; try done.
    rewrite <- Hsd. done.
Qed.

Lemma tm_inv_steps s s' : rtc tm_step s s' → tm_inv s → tm_inv s'.
Proof. induction 1; [done|]. intros. apply IHrtc. by eapply tm_inv_step. Qed.

Lemma tm_inv_reachable s : tm_reachable s → tm_inv s.
Proof. intros H. eapply tm_inv_steps; [exact H|apply tm_inv_bootstrap]. Qed.

(** ** Theorems *)

(** When the last check finds the list empty, nothing runs any more. *)
Lemma exited_finished s s' :
  tm_inv s → tm_step s s' → tm_shutdown s ≠ Exited → tm_shutdown s' = Exited →
  tm_monitored s' = [] ∧ loop_future (tm_loop s') = None ∧
  ∀ f x, tm_futures s' !! f = Some x → ∃ r, x = Finished r ∧ log_future_result r = Ok tt.
Proof.
  intros H Hs Hne Hex. destruct Hs; simpl in *; try done.
  case_decide as Hmon; [|done]. subst mon. clear Hne Hex.
  destruct H as [Hrq Hlp Hsd Hok Hun Hlf Hnd Hmon]. simpl in *.
  assert (lk = Some Shutdown) as -> by by apply Hsd. simpl in *.
  assert (Hno : ∀ f, ¬ tracked Outside lp fs f)
    by (intros f Hf%Hmon; by apply elem_of_nil in Hf).
  split; [done|]. split.
  - destruct (loop_future lp) as [f|] eqn:El; [|done]. destruct (Hlf f eq_refl) as [r Hr].
    destruct (Hno f). unfold tracked. rewrite Hr. split; [done|by left].
  - intros f x Hx. specialize (Hno f). unfold tracked in Hno. rewrite Hx in Hno. simpl in Hno.
    destruct x as [b|r]; [by destruct Hno|]. exists r. split; [done|].
    destruct r; try done. destruct Hno. split; [done|by right].
Qed.

(** C18: the thread that shuts the server down leaves only when every coroutine
    that [in_background] ever handed to the loop has ended, with its outcome logged
    and its callback over, whatever requests arrive meanwhile.  It does not wait for
    the coroutines of [in_foreground] ([foreground_abandoned]). *)
Theorem shutdown_waits s s' :
  tm_reachable s → tm_step s s' → tm_shutdown s ≠ Exited → tm_shutdown s' = Exited →
  tm_monitored s' = [] ∧ loop_future (tm_loop s') = None ∧
  ∀ f x, tm_futures s' !! f = Some x → ∃ r, x = Finished r ∧ log_future_result r = Ok tt.
Proof. intros H%tm_inv_reachable. by apply exited_finished. Qed.

(** A coroutine of [in_foreground], a kickoff, is not waited for: the shutdown may
    leave while its request still waits for it. *)
Theorem foreground_abandoned :
  ∃ s s', tm_reachable s ∧ tm_step s s' ∧ tm_shutdown s ≠ Exited ∧ tm_shutdown s' = Exited ∧
    tm_foreground s' 0 = Waiting.
Proof.
  eexists (Tm (Some Shutdown) [] [] (λ _, Outside) Running AtCheck _), _. split.
  { eapply rtc_l; [by apply (fg_submit 0)|]. eapply rtc_l; [apply sd_acquire|apply rtc_refl]. }
  split; [apply sd_check|]. split_and!; [done|done|]. simpl. by rewrite fn_lookup_insert.
Qed.

(** A request whose coroutine ended before its callback was registered: it calls
    the callback itself, and waits for the lock that it holds. *)
Definition stuck_request (s : tm) (t : nat) : Prop :=
  ∃ f r, tm_futures s !! f = Some (Finished r) ∧
    (tm_request s t = InCallback f ∨ tm_request s t = AtAddCallback f).

Lemma stuck_step s s' t :
  tm_step s s' → tm_inv s → stuck_request s t →
  stuck_request s' t ∧ (tm_shutdown s' = Exited → tm_shutdown s = Exited).
Proof.
  intros Hs H (f & r & Hf & Hpc).
  assert (Hl : tm_lock s = Some (Request t))
    by (apply (inv_requests _ H); destruct Hpc; congruence).
  pose proof (request_holder s t H) as Hh. destruct Hh as (_ & Hloop & Hsd);
    [destruct Hpc; congruence|].
  assert (Hone : ∀ t', tm_request s t' ≠ Outside → t' = t).
  { intros t' Ht'%(inv_requests _ H). congruence. }
  destruct Hs as [|t' lk mon fs rq lp sd fg Ht|t' g lk mon fs rq lp sd fg Ht Hg
    |t' g r' lk mon fs rq lp sd fg Ht Hg| |t' g lk mon fs rq lp sd fg Ht|t' lk mon fs rq lp sd fg Ht
    |g cb r' lk mon fs rq sd fg Hg| | | |t' lk mon fs rq lp sd fg Ht|t' r' lk mon fs rq sd fg Ht
    |t' r' lk mon fs rq lp sd fg Ht| | |]; simpl in *; try done;
    try (assert (t' = t) as -> by (apply Hone; congruence));
    try (exfalso; destruct Hpc; congruence).
  - split; [|done]. exists f, r. split; [done|]. left. simpl. rewrite fn_lookup_insert.
    destruct Hpc; congruence.
  - split; [|done]. exists f, r. split; [|done]. simpl.
    rewrite list_lookup_insert_ne; congruence.
  - split; [|done]. by exists f, r.
  - split; [|done]. by exists f, r.
  - split; [|done]. by exists f, r.
  - split; [|done]. by exists f, r.
Qed.

Lemma stuck_forever s s' t :
  rtc tm_step s s' → tm_inv s → stuck_request s t →
  tm_lock s' = Some (Request t) ∧ (tm_shutdown s' = Exited → tm_shutdown s = Exited).
Proof.
  induction 1 as [s|s1 s2 s3 Hs _ IH]; intros Hi H.
  - split; [|done]. apply (inv_requests _ Hi). destruct H as (f & r & _ & [->| ->]); done.
  - destruct (stuck_step _ _ _ Hs Hi H) as [H2 Hex].
    destruct IH as [Hl Hex2]; [by eapply tm_inv_step|done|]. auto.
Qed.

(** No coroutine ended from one state to the other. *)
Definition none_ended (s s' : tm) : Prop :=
  ∀ f r, tm_futures s' !! f = Some (Finished r) → tm_futures s !! f = Some (Finished r).

(** The rest of [in_background] for the request that holds the lock. *)
Lemma request_runs_on s t :
  tm_inv s → tm_lock s = Some (Request t) → ¬ stuck_request s t →
  ∃ s', rtc tm_step s s' ∧ tm_lock s' = None ∧ none_ended s s'.
Proof.
  intros H Hl Hns.
  assert (Happ : ∀ f lk mon fs rq lp sd fg, rq t = AtAppend f →
    ∃ s', rtc tm_step (Tm lk mon fs rq lp sd fg) s' ∧ tm_lock s' = None ∧ tm_futures s' = fs).
  { intros. eexists. split; [eapply rtc_l; [by apply (bg_append t f)|]; eapply rtc_l;
      [apply (bg_release t); by rewrite fn_lookup_insert|apply rtc_refl]|done]. }
  assert (Hadd : ∀ f lk mon fs rq lp sd fg, rq t = AtAddCallback f →
    fs !! f = Some (Pending false) →
    ∃ s', rtc tm_step (Tm lk mon fs rq lp sd fg) s' ∧ tm_lock s' = None ∧
          tm_futures s' = <[f := Pending true]> fs).
  { intros f lk mon fs rq lp sd fg Ht Hf.
    destruct (Happ f lk mon (<[f := Pending true]> fs) (<[t := AtAppend f]> rq) lp sd fg)
      as (s' & Hs' & ?); [by rewrite fn_lookup_insert|].
    exists s'. split; [|done]. eapply rtc_l; [by apply (bg_register t f)|done]. }
  assert (Hins : ∀ (fs : list future) (f g : nat) r, <[f := Pending true]> fs !! g = Some (Finished r) →
    fs !! g = Some (Finished r)).
  { intros fs f g r [(-> & [=] & _)|[_ ?]]%list_lookup_insert_Some; done. }
  pose proof (inv_request_ok _ H) as Hok. unfold none_ended.
  assert (Hnot : tm_request s t ≠ Outside) by by apply (inv_requests _ H).
  destruct s as [lk mon fs rq lp sd fg]. unfold stuck_request in Hns. simpl in *. subst lk.
  simpl in Hok. destruct (rq t) as [| |f|f|f|] eqn:Ht; simpl in *; [done| | | | |].
  - destruct (Hadd (length fs) (Some (Request t)) mon (fs ++ [Pending false])
      (<[t := AtAddCallback (length fs)]> rq) lp sd fg) as (s' & Hs' & ? & Hfs);
      [by rewrite fn_lookup_insert|apply lookup_snoc_fut; by right|].
    exists s'. split_and!; [eapply rtc_l; [by apply (bg_submit t)|done]|done|].
    rewrite Hfs. by intros g r [?|[_ [=]]]%Hins%lookup_snoc_fut.
  - destruct Hok as [Hf|[[r Hr] _]]; [|destruct Hns; exists f, r; eauto].
    destruct (Hadd f (Some (Request t)) mon fs rq lp sd fg) as (s' & Hs' & ? & Hfs); [done..|].
    exists s'. rewrite Hfs. eauto.
  - destruct Hok as [[r Hr] _]. destruct Hns. exists f, r. eauto.
  - destruct (Happ f (Some (Request t)) mon fs rq lp sd fg Ht) as (s' & Hs' & ? & Hfs).
    exists s'. by rewrite Hfs.
  - eexists. split; [eapply rtc_l; [by apply (bg_release t)|apply rtc_refl]|done].
Qed.

(** Whoever holds the lock releases it, unless it is such a request. *)
Lemma lock_free s :
  tm_inv s → (∀ t, tm_lock s = Some (Request t) → ¬ stuck_request s t) →
  ∃ s', rtc tm_step s s' ∧ tm_lock s' = None ∧ none_ended s s'.
Proof.
  unfold none_ended. intros H Hns. destruct (tm_lock s) as [[t| |]|] eqn:Hl; [| | |by exists s; split_and!; [apply rtc_refl|done|by intros f r]].
  - apply (request_runs_on s t); auto.
  - apply (inv_loop _ H) in Hl as Hh. destruct s as [lk mon fs rq lp sd fg]. simpl in *.
    destruct lp as [| |f|]; try done.
    + destruct (inv_loop_future _ H f eq_refl) as [r Hr]. simpl in Hr.
      eexists. split; [eapply rtc_l; [by eapply loop_remove|]; eapply rtc_l;
        [apply loop_release|apply rtc_refl]|done].
    + eexists. split; [eapply rtc_l; [apply loop_release|apply rtc_refl]|done].
  - apply (inv_shutdown _ H) in Hl as Hh. destruct s as [lk mon fs rq lp sd fg]. simpl in *.
    subst sd. eexists. split; [eapply rtc_l; [apply sd_check|apply rtc_refl]|done].
Qed.

(** C34: the lock is always released again, except by a request whose coroutine
    ended before its callback was registered; that request keeps it for ever. *)
Theorem lock_released s h :
  tm_reachable s → tm_lock s = Some h →
  (∃ s', rtc tm_step s s' ∧ tm_lock s' = None) ↔ ¬ ∃ t, h = Request t ∧ stuck_request s t.
Proof.
  intros H%tm_inv_reachable Hl. split.
  - intros (s' & Hs & Hn) (t & -> & Ht).
    destruct (stuck_forever _ _ _ Hs H Ht) as [Hl' _]. congruence.
  - intros Hns. destruct (lock_free s H) as (s' & ? & ? & _); [|by exists s'].
    intros t Ht Hst. apply Hns. exists t. split; [congruence|done].
Qed.

(** Such a request exists: the coroutine of the first request ends at once.  From
    then on no request starts a coroutine, and the server does not shut down. *)
Theorem background_deadlock :
  ∃ s, tm_reachable s ∧ stuck_request s 0 ∧
    ∀ s', rtc tm_step s s' → tm_lock s' = Some (Request 0) ∧ tm_shutdown s' ≠ Exited.
Proof.
  set (rq := <[0 := AtAddCallback 0]> (<[0 := AtSubmit]> (λ _ : nat, Outside))).
  set (s := Tm (Some (Request 0)) [] [Finished Returned] rq Running AtStart (λ _, NotWaiting)).
  assert (Hr : tm_reachable s).
  { unfold tm_reachable, tm_bootstrap. eapply rtc_l; [by apply (bg_acquire 0)|].
    eapply rtc_l; [by apply (bg_submit 0)|].
    eapply rtc_l; [by apply (loop_finish 0 false Returned)|]. apply rtc_refl. }
  assert (Hst : stuck_request s 0) by (exists 0, Returned; split; [done|by right]).
  exists s. split; [done|]. split; [done|]. intros s' Hs'.
  destruct (stuck_forever _ _ _ Hs' (tm_inv_reachable _ Hr) Hst) as [? Hex].
  split; [done|]. intros E. by apply Hex in E.
Qed.

(** ** A shutdown ends

    From where the lock is free, the loop can end what runs, one future after the
    other, and the shutdown finds the list empty. *)
Definition is_pending (x : future) : bool :=
  match x with Pending _ => true | Finished _ => false end.
Definition pending (fs : list future) : nat :=
  length (filter (λ x, is_pending x = true) fs).

Lemma pending_finish f cb r fs :
  fs !! f = Some (Pending cb) → pending fs = S (pending (<[f := Finished r]> fs)).
Proof.
  unfold pending. revert f. induction fs as [|x fs IH]; intros f Hf; [done|].
  destruct f as [|f]; simpl in *.
  - by simplify_eq.
  - rewrite !filter_cons. case_decide; simpl; [by rewrite (IH f)|by apply IH].
Qed.

Definition none_cancelled (s : tm) : Prop :=
  ∀ f, tm_futures s !! f ≠ Some (Finished Cancelled).

(** The loop thread runs the callback of a future that ended. *)
Lemma callback_runs f mon fs rq sd fg :
  (∃ r, fs !! f = Some (Finished r)) →
  ∃ mon', rtc tm_step (Tm None mon fs rq (AtAcquire f) sd fg) (Tm None mon' fs rq Running sd fg).
Proof.
  intros [r Hr]. eexists. eapply rtc_l; [apply loop_acquire|].
  eapply rtc_l; [by eapply loop_remove|]. eapply rtc_l; [apply loop_release|apply rtc_refl].
Qed.

Lemma shutdown_leaves fs rq lp sd fg :
  sd ≠ AtCheck → ∃ s', rtc tm_step (Tm None [] fs rq lp sd fg) s' ∧ tm_shutdown s' = Exited.
Proof.
  assert (H : ∃ s', rtc tm_step (Tm None [] fs rq lp AtStart fg) s' ∧ tm_shutdown s' = Exited).
  { eexists. split; [eapply rtc_l; [apply sd_acquire|]; eapply rtc_l;
      [apply sd_check|apply rtc_refl]|done]. }
  destruct sd; intros Hsd; [done|done| |by eexists; split; [apply rtc_refl|]].
  destruct H as (s' & Hs' & ?). exists s'. split; [|done]. by eapply rtc_l; [apply sd_wake|].
Qed.

Lemma loop_drains n s :
  tm_inv s → tm_lock s = None → none_cancelled s → pending (tm_futures s) = n →
  ∃ s', rtc tm_step s s' ∧ tm_shutdown s' = Exited.
Proof.
  revert s. induction (lt_wf n) as [n _ IH]. intros [lk mon fs rq lp sd fg] H Hl Hnc Hp.
  simpl in *. subst lk.
  (* once the loop is idle *)
  assert (Hidle : ∀ mon', tm_inv (Tm None mon' fs rq Running sd fg) →
    ∃ s', rtc tm_step (Tm None mon' fs rq Running sd fg) s' ∧ tm_shutdown s' = Exited).
  { clear H. intros mon' H.
    destruct (decide (Exists (λ x, is_pending x = true) fs)) as [He|Hn].
    - apply Exists_exists in He as ([cb|] & Hin & Hx); [clear Hx|done]. apply list_elem_of_lookup in Hin as [f Hf].
      assert (cb = true) as -> by (destruct cb; [done|by apply (inv_unregistered _ H) in Hf]).
      assert (Hlt : f < length fs) by by apply lookup_lt_Some in Hf.
      set (fs' := <[f := Finished Returned]> fs).
      assert (Hf' : ∃ r, fs' !! f = Some (Finished r)) by (exists Returned; by apply list_lookup_insert_eq).
      destruct (callback_runs f mon' fs' rq sd fg Hf') as (mon'' & Hcb).
      assert (Hsteps : rtc tm_step (Tm None mon' fs rq Running sd fg) (Tm None mon'' fs' rq Running sd fg))
        by (eapply rtc_l; [by apply (loop_finish f true Returned)|done]).
      destruct (IH (pending fs')) with (s := Tm None mon'' fs' rq Running sd fg) as (s' & Hs' & ?); try done.
      + pose proof (pending_finish f true Returned fs Hf) as Hdec. unfold fs'. lia.
      + by eapply tm_inv_steps.
      + intros g. simpl. unfold fs'. destruct (decide (f = g)) as [<-|Hne].
        * by rewrite list_lookup_insert_eq.
        * rewrite list_lookup_insert_ne by done. apply Hnc.
      + exists s'. split; [by etrans|done].
    - assert (mon' = []) as ->.
      { apply elem_of_nil_inv. intros f Hf. apply (inv_monitored _ H) in Hf as [_ Hf]. simpl in Hf.
        destruct (fs !! f) as [[cb|r]|] eqn:E; [| |done].
        2: { destruct Hf as [[=]| ->]. by destruct (Hnc f). }
        apply Hn, Exists_exists. exists (Pending cb). split; [by apply list_elem_of_lookup_2 in E|done]. }
      apply shutdown_leaves. intros ->.
      assert (Hx : None = Some Shutdown) by (by apply (inv_shutdown _ H)). discriminate Hx. }
  destruct lp as [|f|f|]; [by apply Hidle| | |];
    try (assert (Hx : None = Some LoopThread) by (by apply (inv_loop _ H)); discriminate Hx).
  destruct (callback_runs f mon fs rq sd fg) as (mon' & Hcb); [by apply (inv_loop_future _ H)|].
  destruct (Hidle mon') as (s' & Hs' & ?); [by eapply tm_inv_steps|].
  exists s'. split; [by etrans|done].
Qed.

(** C25: The server can always be shut down: from any state the threads can go on to
    where the shutdown has left, unless a request holds the lock for ever or a
    coroutine was cancelled. *)
Theorem shutdown_completes s :
  tm_reachable s → none_cancelled s →
  (∀ t, tm_lock s = Some (Request t) → ¬ stuck_request s t) →
  ∃ s', rtc tm_step s s' ∧ tm_shutdown s' = Exited.
Proof.
  intros H%tm_inv_reachable Hnc Hns. destruct (lock_free s H Hns) as (s1 & Hs1 & Hl & He).
  destruct (loop_drains (pending (tm_futures s1)) s1) as (s2 & Hs2 & ?); [|done| |done|].
  - by eapply tm_inv_steps.
  - intros f Hf%He. by apply (Hnc f).
  - exists s2. split; [by etrans|done].
Qed.

(** ** Witnesses *)
Definition demo_submitted : tm :=
  Tm (Some (Request 0)) [] [] (<[0 := AtSubmit]> (λ _, Outside)) Running AtStart (λ _, NotWaiting).

Lemma demo_submitted_reachable : tm_reachable demo_submitted.
Proof. eapply rtc_l; [by apply (bg_acquire 0)|apply rtc_refl]. Qed.

Lemma lock_released_witness : ∃ s', rtc tm_step demo_submitted s' ∧ tm_lock s' = None.
Proof.
  apply (proj2 (lock_released demo_submitted (Request 0) demo_submitted_reachable eq_refl)).
  intros (t & [= <-] & f & r & H & _). discriminate H.
Defined.

(** One request, whose coroutine ends after its callback was registered. *)
Definition demo_request (pc : list request_pc) : nat → request_pc :=
  foldl (λ rq p, <[0 := p]> rq) (λ _, Outside) pc.
Definition demo_done (lk : option thread) (sd : shutdown_pc) : tm :=
  Tm lk [] [Finished Returned]
    (demo_request [AtSubmit; AtAddCallback 0; AtAppend 0; AtRelease; Outside]) Running sd (λ _, NotWaiting).

Lemma demo_done_reachable : tm_reachable (demo_done (Some Shutdown) AtCheck).
Proof.
  eapply rtc_l; [by apply (bg_acquire 0)|]. eapply rtc_l; [by apply (bg_submit 0)|].
  eapply rtc_l; [by apply (bg_register 0 0)|]. eapply rtc_l; [by apply (bg_append 0 0)|].
  eapply rtc_l; [by apply (bg_release 0)|].
  eapply rtc_l; [by apply (loop_finish 0 true Returned)|].
  eapply rtc_l; [apply loop_acquire|]. eapply rtc_l; [by apply (loop_remove 0 Returned)|].
  eapply rtc_l; [apply loop_release|]. eapply rtc_l; [apply sd_acquire|apply rtc_refl].
Qed.

Lemma shutdown_waits_witness : ∃ r, Finished Returned = Finished r ∧ log_future_result r = Ok tt.
Proof.
  refine (proj2 (proj2 (shutdown_waits (demo_done (Some Shutdown) AtCheck) (demo_done None Exited)
    demo_done_reachable _ _ eq_refl)) 0 (Finished Returned) eq_refl).
  - exact (sd_check (Some Shutdown) [] [Finished Returned]
      (demo_request [AtSubmit; AtAddCallback 0; AtAppend 0; AtRelease; Outside]) Running
      (λ _, NotWaiting)).
  - discriminate.
Defined.

(** A request has just handed its coroutine to the loop. *)
Lemma shutdown_completes_witness :
  ∃ s', rtc tm_step demo_submitted s' ∧ tm_shutdown s' = Exited.
Proof.
  apply (shutdown_completes demo_submitted demo_submitted_reachable).
  - intros f. discriminate.
  - intros t _ (f & r & Hf & _). discriminate Hf.
Defined.
