(* ===== verification/Logging.v ===== *)
(** * Redaction of the log: [src/cxoneflow_logging/__init__.py]

    [SecretRegistry] keeps the secrets the program has read and a regular
    expression that finds them; [RedactingStreamHandler] overwrites what it finds
    in a formatted message with asterisks.  The regular expressions of Python's
    [re] that these use are modelled by a backtracking matcher over positions. *)
From S2P Require Import Prelude PyStr.
Open Scope string_scope.
Open Scope nat_scope.
Open Scope list_scope.

Abbreviation text := (list ascii).

(** ** Regular expressions *)

(** [Rep] repeats a class of characters, greedily or lazily; [Eol] is [$] of a
    multi-line expression; [Grp] is a named group. *)
Inductive re : Type :=
| Chr (p : ascii → bool)
| Eol
| Fail
| Seq (a b : re)
| Alt (a b : re)
| Rep (greedy : bool) (least : nat) (p : ascii → bool)
| Grp (name : string) (r : re).

(** The groups of a match: their names and positions. *)
Definition groups : Type := list (string * (nat * nat)).

(** The characters of a class at the beginning of a text. *)
Fixpoint span_length (p : ascii → bool) (l : text) : nat :=
  match l with c :: l' => if p c then S (span_length p l') else 0 | [] => 0 end.

(** The first result, in order. *)
Fixpoint first_some {A B} (f : A → option B) (l : list A) : option B :=
  match l with
  | [] => None
  | a :: l' => match f a with Some b => Some b | None => first_some f l' end
  end.

Section matcher.
Context (msg : text).

(** Match [r] at [pos]; [k] is the rest of the expression. *)
Fixpoint re_at {R} (r : re) (pos : nat) (g : groups) (k : nat → groups → option R) : option R :=
  match r with
  | Chr p => match msg !! pos with
             | Some c => if p c then k (S pos) g else None
             | None => None
             end
  | Eol => match msg !! pos with
           | Some c => if Ascii.eqb c "010"%char then k pos g else None
           | None => k pos g
           end
  | Fail => None
  | Seq a b => re_at a pos g (λ pos' g', re_at b pos' g' k)
  | Alt a b => match re_at a pos g k with Some x => Some x | None => re_at b pos g k end
  | Rep greedy least p =>
      let most := span_length p (drop pos msg) in
      let lengths := seq least (S most - least) in
      first_some (λ n, k (pos + n) g) (if greedy : bool then reverse lengths else lengths)
  | Grp name r => re_at r pos g (λ pos' g', k pos' ((name, (pos, pos')) :: g'))
  end.

(** A match: where it starts and ends, and its groups. *)
Record re_match : Type := ReMatch { m_start : nat; m_end : nat; m_groups : groups }.

(** A match at [pos], which must not be empty if [advance]. *)
Definition match_at (r : re) (advance : bool) (pos : nat) : option re_match :=
  re_at r pos [] (λ e g, if advance && (e =? pos) then None else Some (ReMatch pos e g)).

(** The leftmost match from [pos] on. *)
Definition search (r : re) (advance : bool) (pos : nat) : option re_match :=
  first_some (λ i, match_at r (advance && (i =? pos)) i) (seq pos (S (length msg) - pos)).

(** [finditer]: a match begins where the last one ended, and after an empty match
    the next one at that place is not empty. *)
Fixpoint find_from (r : re) (fuel : nat) (advance : bool) (pos : nat) : list re_match :=
  match fuel with
  | 0 => []
  | S fuel' =>
      match search r advance pos with
      | None => []
      | Some m => m :: find_from r fuel' (m_end m =? m_start m) (m_end m)
      end
  end.

(** Every step moves on, or is the first non-empty search at its place. *)
Definition find_fuel : nat := 2 * length msg + 2.
Definition finditer (r : re) : list re_match := find_from r find_fuel false 0.
End matcher.

(** The groups an expression names, in order. *)
Fixpoint groupindex (r : re) : list string :=
  match r with
  | Seq a b | Alt a b => groupindex a ++ groupindex b
  | Grp name r => name :: groupindex r
  | _ => []
  end.

(** ** [SecretRegistry] *)

(** Characters match whatever their case, and [\w] is a letter, a digit or an
    underscore: as [re] has it for ASCII text. *)
Definition same_char (c d : ascii) : bool := Ascii.eqb (lower_ascii c) (lower_ascii d).
Definition is_word (c : ascii) : bool :=
  is_digit c || Ascii.eqb c "_" ||
  let n := nat_of_ascii (lower_ascii c) in (97 <=? n) && (n <=? 122).
Definition not_nl (c : ascii) : bool := negb (Ascii.eqb c "010"%char).
Definition is_quote (c : ascii) : bool := Ascii.eqb c "039"%char || Ascii.eqb c "034"%char.

Fixpoint lit (l : text) : re :=
  match l with
  | [] => Rep true 0 (λ _, false)
  | c :: l' => Seq (Chr (same_char c)) (lit l')
  end.
Definition lit_str (s : string) : re := lit (list_ascii_of_string s).

(** [__default_regex]: a header [Auth.+:.*\w+ ], and the shortest secret [.+?] up
    to a quotation mark or the end of the line. *)
Definition default_regex : re :=
  Seq (Grp "header" (Seq (lit_str "Auth") (Seq (Rep true 1 not_nl) (Seq (lit_str ":")
         (Seq (Rep true 0 not_nl) (Seq (Rep true 1 is_word) (lit_str " ")))))))
  (Seq (Grp "secret" (Rep false 1 not_nl)) (Alt (Chr is_quote) Eol)).

(** [re.escape] puts a backslash before these. *)
Definition special_chars : string :=
  "()[]{}?*+-|^$\.&~# " +:+ String "009"%char (String "010"%char (String "013"%char
     (String "011"%char (String "012"%char "")))).
Fixpoint escape (s : string) : string :=
  match s with
  | "" => ""
  | String c s' => if str_elem c special_chars then String "\" (String c (escape s'))
                   else String c (escape s')
  end.
(** The text that an escaped text matches. *)
Fixpoint unescape (s : string) : string :=
  match s with
  | "" => ""
  | String c s' =>
      if Ascii.eqb c "\" then match s' with String d s'' => String d (unescape s'') | "" => "" end
      else String c (unescape s')
  end.

(** The expression of the registered texts: [default|(?P<any>(s1|s2|...))]. *)
Definition any_of (secrets : list string) : re :=
  Grp "any" (foldr (λ s r, Alt (lit_str (unescape s)) r) Fail secrets).
Definition compile (secrets : list string) : re := Alt default_regex (any_of secrets).

Record registry : Type := Registry { secrets : list string; compiled_regex : re }.
Definition empty_registry : registry := Registry [] default_regex.

(** [register] returns the secret. *)
Definition register (secret : option string) (r : registry) : registry :=
  match secret with
  | None => r
  | Some secret =>
      if decide (secret ∈ secrets r) then r
      else let l := secrets r ++ [escape (replace cr "" (replace nl "" secret))] in
           Registry l (compile l)
  end.

(** ** [RedactingStreamHandler] *)

(** [l[lo:hi]] and [l[lo:]]; a negative index counts from the end. *)
Definition py_index (l : text) (i : Z) : nat :=
  Z.to_nat (Z.min (Z.of_nat (length l)) (if (i <? 0)%Z then Z.of_nat (length l) + i else i)).
Definition py_slice (l : text) (lo hi : Z) : text :=
  take (py_index l hi - py_index l lo) (drop (py_index l lo) l).
Definition py_slice_from (l : text) (lo : Z) : text := drop (py_index l lo) l.

(** [start(name)] and [end(name)]; -1 when the group is not in the match. *)
Definition group_span (m : re_match) (name : string) : Z * Z :=
  match list_find (λ g, g.1 = name) (m_groups m) with
  | Some (_, (_, (a, b))) => (Z.of_nat a, Z.of_nat b)
  | None => (-1, -1)%Z
  end.

Definition mask_group (m : re_match) (msg : text) (name : string) : text :=
  let '(a, b) := group_span m name in
  py_slice msg 0 a ++ replicate (Z.to_nat (b - a)) "*"%char ++ py_slice_from msg b.

Definition mask_match (r : re) (msg : text) (m : re_match) : text :=
  foldl (mask_group m) msg (filter (λ n, n ∈ ["secret"; "any"]) (groupindex r)).

Definition redact (r : re) (msg : text) : text := foldl (mask_match r) msg (finditer msg r).

(** [format], of a message that the base class formatted. *)
Definition format (reg : registry) (msg : string) : string :=
  string_of_list_ascii (redact (compiled_regex reg) (list_ascii_of_string msg)).

Lemma format_header :
  format empty_registry "GET / Authorization: Bearer s3cr3t'" = "GET / Authorization: Bearer ******'".
Proof. vm_compute. reflexivity. Qed.
Lemma format_any :
  format (register (Some "p.w") empty_registry) "the P.W is pxw" = "the *** is pxw".
Proof. vm_compute. reflexivity. Qed.
(** The tail of a secret whose beginning is another one is not masked. *)
Lemma format_prefix :
  format (register (Some "abcdef") (register (Some "abc") empty_registry)) "key=abcdef"
    = "key=***def".
Proof. vm_compute. reflexivity. Qed.
(** A secret of several lines, like a private key, is looked for on one line: as it
    was read it is logged whole. *)
Lemma format_multiline :
  format (register (Some ("BEGIN" +:+ nl +:+ "c2VjcmV0" +:+ nl +:+ "END")) empty_registry)
    ("key BEGIN" +:+ nl +:+ "c2VjcmV0" +:+ nl +:+ "END read") =
    "key BEGIN" +:+ nl +:+ "c2VjcmV0" +:+ nl +:+ "END read".
Proof. vm_compute. reflexivity. Qed.
Lemma format_swallowed :
  format (register (Some "s3cr3t") empty_registry) "Authorization: Bearer s3cr3t sent"
    = "Authorization: Bearer s3cr3t ****".
Proof. vm_compute. reflexivity. Qed.

(** ** The matcher *)
Section matcher_lemmas.
Context (msg : text).

Lemma first_some_Some {A B} (f : A → option B) l b :
  first_some f l = Some b → ∃ a, a ∈ l ∧ f a = Some b.
Proof.
  induction l as [|a l IH]; simpl; [done|]. destruct (f a) eqn:E.
  - intros [= ->]. exists a. split; [by left|done].
  - intros (a' & ? & ?)%IH. exists a'. split; [by right|done].
Qed.

Lemma first_some_is_Some {A B} (f : A → option B) l a :
  a ∈ l → is_Some (f a) → is_Some (first_some f l).
Proof.
  induction 1 as [a l|a x l _ IH]; intros [b Hb]; simpl.
  - by rewrite Hb.
  - destruct (f x); [done|]. apply IH. by eexists.
Qed.

(** The first element with a result, and the ones before it. *)
Lemma first_some_split {A B} (f : A → option B) l b :
  first_some f l = Some b → ∃ l1 a l2, l = l1 ++ a :: l2 ∧ f a = Some b ∧ Forall (λ x, f x = None) l1.
Proof.
  induction l as [|a l IH]; simpl; [done|]. destruct (f a) eqn:E.
  - intros [= ->]. by exists [], a, l.
  - intros (l1 & a' & l2 & -> & ? & ?)%IH. exists (a :: l1), a', l2. by split_and!; [|..|constructor].
Qed.

Lemma span_length_le p (l : text) : span_length p l ≤ length l.
Proof. induction l as [|c l IH]; simpl; [lia|]. destruct (p c); lia. Qed.

Definition in_message (g : string * (nat * nat)) : Prop :=
  g.2.1 ≤ g.2.2 ≤ length msg.

(** What matched: the place moved on within the message, and the groups of the
    expression were added. *)
Lemma re_at_sound {R} (r : re) pos g (k : nat → groups → option R) x :
  pos ≤ length msg → re_at msg r pos g k = Some x →
  ∃ pos' new, k pos' (new ++ g) = Some x ∧ pos ≤ pos' ≤ length msg ∧
    Forall (λ e, e.1 ∈ groupindex r ∧ in_message e) new.
Proof.
  revert pos g k. induction r as [p| | |a IHa b IHb|a IHa b IHb|greedy least p|name r IH];
    intros pos g k Hpos H; simpl in H.
  - destruct (msg !! pos) eqn:E; [|done]. destruct (p a); [|done].
    apply lookup_lt_Some in E. exists (S pos), []. split_and!; [done|lia..|done].
  - exists pos, []. destruct (msg !! pos); [destruct (Ascii.eqb _ _); [|done]|]; done.
  - done.
  - apply IHa in H as (p1 & new1 & H & [??] & Hn1); [|done].
    apply IHb in H as (p2 & new2 & H & [??] & Hn2); [|done].
    exists p2, (new2 ++ new1). rewrite <- (assoc_L (++)). split; [done|]. split; [lia|].
    simpl. apply Forall_app. split; (eapply Forall_impl; [done|]);
      intros e [? ?]; (split; [|done]); apply elem_of_app; auto.
  - destruct (re_at msg a pos g k) eqn:E; simplify_eq.
    + apply IHa in E as (p1 & new & ? & ? & Hn); [|done]. exists p1, new. split; [done|]. split; [done|].
      eapply Forall_impl; [done|]. intros e [? ?]. split; [|done]. apply elem_of_app; auto.
    + apply IHb in H as (p1 & new & ? & ? & Hn); [|done]. exists p1, new. split; [done|]. split; [done|].
      eapply Forall_impl; [done|]. intros e [? ?]. split; [|done]. apply elem_of_app; auto.
  - apply first_some_Some in H as (n & Hn & H). exists (pos + n), []. split; [done|].
    split; [|done]. assert (n ∈ seq least (S (span_length p (drop pos msg)) - least)) as Hin
      by (destruct greedy; simpl in Hn; [by apply elem_of_reverse|done]).
    apply elem_of_seq in Hin. pose proof (span_length_le p (drop pos msg)) as Hle.
    rewrite length_drop in Hle. lia.
  - apply IH in H as (p1 & new & H & [??] & Hn); [|done].
    exists p1, ((name, (pos, p1)) :: new). simpl. split; [done|]. split; [lia|].
    constructor; [split; [by left|simpl; unfold in_message; simpl; lia]|].
    eapply Forall_impl; [done|]. intros e [? ?]. split; [by right|done].
Qed.

(** A match that a weaker rest of the expression allows. *)
Lemma re_at_weaken {R} (r : re) pos g (k1 k2 : nat → groups → option R) :
  (∀ e g', is_Some (k1 e g') → is_Some (k2 e g')) →
  is_Some (re_at msg r pos g k1) → is_Some (re_at msg r pos g k2).
Proof.
  revert pos g k1 k2. induction r as [p| | |a IHa b IHb|a IHa b IHb|greedy least p|name r IH];
    intros pos g k1 k2 Hk H; simpl in *.
  - destruct (msg !! pos) as [c|]; [destruct (p c)|]; auto.
  - destruct (msg !! pos) as [c|]; [destruct (Ascii.eqb _ _)|]; auto.
  - done.
  - eapply IHa; [|exact H]. intros e g'. by apply IHb.
  - destruct (re_at msg a pos g k2) eqn:E2; [by eexists|].
    destruct (re_at msg a pos g k1) eqn:E1.
    + destruct (IHa pos g k1 k2 Hk) as [x Hx]; [by rewrite E1|congruence].
    + by eapply IHb.
  - destruct H as [x (n & Hn & Hx)%first_some_Some]. eapply first_some_is_Some; [done|].
    apply Hk. by eexists.
  - eapply IH; [|exact H]. intros e g'. apply Hk.
Qed.

(** [l] is at [pos], whatever the case of the letters. *)
Definition occurs (l : text) (pos : nat) : Prop :=
  ∀ i c, l !! i = Some c → ∃ d, msg !! (pos + i) = Some d ∧ same_char c d = true.

Lemma re_at_lit {R} l pos g (k : nat → groups → option R) :
  occurs l pos → re_at msg (lit l) pos g k = k (pos + length l) g.
Proof.
  revert pos. induction l as [|c l IH]; intros pos Ho; simpl.
  - destruct (drop pos msg); simpl; by destruct (k (pos + 0) g).
  - destruct (Ho 0 c eq_refl) as (d & Hd & Hs). rewrite Nat.add_0_r in Hd. rewrite Hd, Hs.
    rewrite IH; [by rewrite Nat.add_succ_r|]. intros i e Hi.
    replace (S pos + i) with (pos + S i) by lia. by apply Ho.
Qed.
End matcher_lemmas.

(** ** The matches of a message *)
Section finds.
Context (msg : text) (r : re).

(** A match within the message, from [pos] on, that moves on when it must. *)
Definition sound_match (advance : bool) (pos : nat) (m : re_match) : Prop :=
  pos ≤ m_start m ≤ m_end m ∧ m_end m ≤ length msg ∧
  (advance = true → m_start m = pos → m_start m < m_end m) ∧
  Forall (λ e, e.1 ∈ groupindex r ∧ in_message msg e) (m_groups m).

Lemma match_at_sound advance pos m :
  pos ≤ length msg → match_at msg r advance pos = Some m →
  m_start m = pos ∧ sound_match advance pos m.
Proof.
  intros Hpos H. unfold match_at in H.
  apply re_at_sound in H as (e & new & H & [? ?] & Hn); [|done].
  destruct advance; simpl in H; [destruct (Nat.eqb_spec e pos)|]; simplify_eq/=; (split; [done|]);
    unfold sound_match; simpl; rewrite app_nil_r; split_and!; try done; lia.
Qed.

Lemma search_sound advance pos m :
  search msg r advance pos = Some m → sound_match advance pos m ∧
  match_at msg r (advance && (m_start m =? pos)) (m_start m) = Some m.
Proof.
  unfold search. intros (i & Hi & H)%first_some_Some. apply elem_of_seq in Hi.
  pose proof H as H'. apply match_at_sound in H as [<- (Hb & He & Ha & Hg)]; [|lia].
  split; [|done]. split; [lia|]. split; [done|]. split; [|done].
  intros -> Heq. apply Ha; [|done]. simpl. by apply Nat.eqb_eq.
Qed.

(** The search stops no later than at a place where there is a match. *)
Lemma search_finds advance pos i :
  pos ≤ i ≤ length msg → is_Some (match_at msg r (advance && (i =? pos)) i) →
  ∃ m, search msg r advance pos = Some m ∧ m_start m ≤ i.
Proof.
  intros Hi Hm. unfold search.
  destruct (first_some_is_Some (λ i, match_at msg r (advance && (i =? pos)) i)
    (seq pos (S (length msg) - pos)) i) as [m Hs]; [apply elem_of_seq; lia|done|].
  exists m. split; [done|].
  apply first_some_split in Hs as (l1 & j & l2 & Hl & Hj & Hl1).
  assert (Hjin : j ∈ seq pos (S (length msg) - pos)) by (rewrite Hl; set_solver).
  apply elem_of_seq in Hjin. apply match_at_sound in Hj as [-> _]; [|lia].
  assert (Hjl : j = pos + length l1).
  { assert (Hlk : seq pos (S (length msg) - pos) !! length l1 = Some j)
      by (by rewrite Hl, list_lookup_middle).
    apply lookup_seq in Hlk as [-> _]. done. }
  destruct (decide (j ≤ i)) as [|Hgt]; [done|exfalso].
  assert (Hin : seq pos (S (length msg) - pos) !! (i - pos) = Some i)
    by (apply lookup_seq; lia).
  rewrite Hl, lookup_app_l in Hin by lia.
  rewrite Forall_lookup in Hl1. specialize (Hl1 _ _ Hin). simpl in Hl1.
  rewrite Hl1 in Hm. by destruct Hm.
Qed.

(** Every match of a message is within it. *)
Lemma find_from_sound fuel advance pos m :
  m ∈ find_from msg r fuel advance pos →
  pos ≤ m_start m ∧ ∃ b, match_at msg r b (m_start m) = Some m ∧ sound_match b (m_start m) m.
Proof.
  revert advance pos. induction fuel as [|fuel IH]; intros advance pos Hm; simpl in Hm;
    [by apply elem_of_nil in Hm|].
  destruct (search msg r advance pos) as [m'|] eqn:Hs; [|by apply elem_of_nil in Hm].
  apply search_sound in Hs as [(Hb & He & _ & _) Hat].
  apply elem_of_cons in Hm as [->|Hm].
  - split; [lia|]. eexists. split; [done|]. by apply match_at_sound in Hat as [_ ?]; [|lia].
  - apply IH in Hm as [? Hm]. split; [lia|done].
Qed.

(** What is left to search. *)
Definition find_measure (advance : bool) (pos : nat) : nat :=
  2 * (length msg - pos) + (if advance then 0 else 1).

(** A place where a non-empty match begins is within some match. *)
Lemma find_from_covers fuel advance pos i :
  find_measure advance pos < fuel → pos ≤ i < length msg →
  is_Some (match_at msg r true i) →
  ∃ m, m ∈ find_from msg r fuel advance pos ∧ m_start m ≤ i < m_end m.
Proof.
  intros Hfuel Hi Hm.
  assert (Hany : ∀ b, is_Some (match_at msg r b i)).
  { intros [|]; [done|]. unfold match_at in *. eapply re_at_weaken; [|exact Hm].
    intros e g'. simpl. by eexists. }
  revert advance pos Hfuel Hi. induction fuel as [|fuel IH]; intros advance pos Hfuel Hi; [lia|].
  destruct (search_finds advance pos i) as (m & Hs & Hle); [lia|apply Hany|].
  simpl. rewrite Hs. apply search_sound in Hs as [(Hb & He & Ha & _) _].
  destruct (decide (i < m_end m)) as [Hlt|Hge].
  { exists m. split; [by left|lia]. }
  destruct (IH (m_end m =? m_start m) (m_end m)) as (m' & Hm' & ?); [|lia|].
  - unfold find_measure in *. destruct (Nat.eqb_spec (m_end m) (m_start m)) as [Heq|Hne].
    + destruct advance; [|lia]. destruct (decide (m_start m = pos)) as [E|]; [|lia].
      specialize (Ha eq_refl E). lia.
    + destruct advance; lia.
  - exists m'. split; [by right|done].
Qed.
End finds.

(** ** Masking *)

(** The places that a group of a match covers. *)
Definition group_covers (m : re_match) (i : nat) (name : string) : bool :=
  let '(a, b) := group_span m name in ((a <=? Z.of_nat i) && (Z.of_nat i <? b))%Z.
Definition masked_groups (r : re) : list string := filter (λ n, n ∈ ["secret"; "any"]) (groupindex r).
Definition match_covers (r : re) (i : nat) (m : re_match) : bool :=
  existsb (group_covers m i) (masked_groups r).

(** Asterisks where [f] says, and the message elsewhere. *)
Definition stars (f : nat → bool) (msg : text) : text :=
  imap (λ i c, if f i then "*"%char else c) msg.

Lemma stars_length f msg : length (stars f msg) = length msg.
Proof. apply length_imap. Qed.
Lemma stars_none msg : stars (λ _, false) msg = msg.
Proof. apply list_eq. intros i. unfold stars. rewrite list_lookup_imap. by destruct (msg !! i). Qed.
Lemma stars_ext f g msg : (∀ i, f i = g i) → stars f msg = stars g msg.
Proof. intros H. apply imap_ext. intros i c _. by rewrite H. Qed.
Lemma stars_stars f g msg : stars f (stars g msg) = stars (λ i, g i || f i) msg.
Proof.
  apply list_eq. intros i. unfold stars. rewrite !list_lookup_imap.
  destruct (msg !! i); [simpl|done]. by destruct (g i), (f i).
Qed.

Lemma py_index_nat l n : n ≤ length l → py_index l (Z.of_nat n) = n.
Proof. intros. unfold py_index. destruct (Z.ltb_spec (Z.of_nat n) 0); lia. Qed.

Lemma splice_stars a b (msg : text) :
  a ≤ b ≤ length msg →
  take a msg ++ replicate (b - a) "*"%char ++ drop b msg =
    stars (λ i, (a <=? i) && (i <? b)) msg.
Proof.
  intros H. apply list_eq. intros i. unfold stars. rewrite list_lookup_imap.
  destruct (decide (i < a)) as [Hi|Hi].
  - rewrite lookup_app_l, lookup_take_lt by (rewrite ?length_take; lia).
    destruct (Nat.leb_spec a i); [lia|]. by destruct (msg !! i).
  - rewrite lookup_app_r by (rewrite length_take; lia). rewrite length_take, Nat.min_l by lia.
    destruct (Nat.leb_spec a i); [|lia]. destruct (Nat.ltb_spec i b) as [Hb|Hb].
    + rewrite lookup_app_l by (rewrite length_replicate; lia). rewrite lookup_replicate_2 by lia.
      destruct (msg !! i) eqn:E; [done|]. apply lookup_ge_None in E. lia.
    + rewrite lookup_app_r, length_replicate, lookup_drop by (rewrite length_replicate; lia).
      replace (b + (i - a - (b - a))) with i by lia. by destruct (msg !! i).
Qed.

Lemma mask_group_stars m name (msg : text) :
  Forall (in_message msg) (m_groups m) →
  mask_group m msg name = stars (λ i, group_covers m i name) msg.
Proof.
  intros Hg. unfold mask_group, group_covers, group_span.
  destruct (list_find _ (m_groups m)) as [[j [n [a b]]]|] eqn:E.
  - apply list_find_Some in E as (Hj & _ & _). rewrite Forall_lookup in Hg.
    apply Hg in Hj. unfold in_message in Hj. simpl in Hj.
    unfold py_slice, py_slice_from. rewrite !py_index_nat by lia. change 0%Z with (Z.of_nat 0).
    rewrite py_index_nat, Nat.sub_0_r by lia. simpl.
    replace (Z.to_nat (Z.of_nat b - Z.of_nat a)) with (b - a) by lia.
    rewrite splice_stars by lia. apply stars_ext. intros i.
    f_equal; apply eq_true_iff_eq; rewrite ?Nat.leb_le, ?Nat.ltb_lt, ?Z.leb_le, ?Z.ltb_lt; lia.
  - rewrite (stars_ext _ (λ _, false)), stars_none.
    2: { intros i. apply andb_false_intro2, Z.ltb_ge. lia. }
    unfold py_slice, py_slice_from, py_index. simpl. rewrite (Z.min_r _ 0) by lia.
    simpl. rewrite Nat.sub_0_r, drop_0. apply take_drop.
Qed.

Lemma mask_match_stars r m (msg : text) :
  Forall (in_message msg) (m_groups m) →
  mask_match r msg m = stars (λ i, match_covers r i m) msg.
Proof.
  unfold mask_match, match_covers, masked_groups.
  generalize (filter (λ n, n ∈ ["secret"; "any"]) (groupindex r)) as l. intros l.
  revert msg. induction l as [|n l IH]; intros msg Hg; simpl; [by rewrite stars_none|].
  rewrite mask_group_stars by done.
  rewrite IH by (eapply Forall_impl; [done|]; intros e; unfold in_message; by rewrite stars_length).
  apply stars_stars.
Qed.

(** The masked message is the message with asterisks in the groups of the
    matches, and nowhere else. *)
Lemma redact_stars r msg :
  redact r msg = stars (λ i, existsb (match_covers r i) (finditer msg r)) msg.
Proof.
  unfold redact.
  assert (Hg : Forall (λ m, Forall (in_message msg) (m_groups m)) (finditer msg r)).
  { apply Forall_forall. intros m Hm.
    apply find_from_sound in Hm as (_ & b & _ & _ & _ & _ & Hg).
    eapply Forall_impl; [done|]. by intros e [_ ?]. }
  revert Hg. generalize (finditer msg r) as ms. intros ms Hg.
  assert (∀ out, length out = length msg →
    foldl (mask_match r) out ms = stars (λ i, existsb (match_covers r i) ms) out) as H; [|by apply H].
  induction Hg as [|m ms Hm _ IH]; intros out Hlen; simpl; [by rewrite stars_none|].
  rewrite mask_match_stars by (eapply Forall_impl; [done|]; intros e; unfold in_message;
    by rewrite Hlen).
  rewrite IH by (by rewrite stars_length). apply stars_stars.
Qed.

(** ** The registry *)

Lemma unescape_escape s : unescape (escape s) = s.
Proof.
  induction s as [|c s IH]; [done|]. cbn [escape].
  destruct (str_elem c special_chars) eqn:E; cbn [unescape].
  - change (Ascii.eqb "\" "\") with true. cbv iota. by rewrite IH.
  - destruct (Ascii.eqb_spec c "\") as [->|Hne]; [by vm_compute in E|]. by rewrite IH.
Qed.

(** The registries that a sequence of registrations leads to. *)
Definition registered (l : list (option string)) : registry :=
  foldl (λ r s, register s r) empty_registry l.

(** The text that is looked for instead of a secret. *)
Definition one_line (secret : string) : string := replace cr "" (replace nl "" secret).

(** The expression of a registry is that of its secrets. *)
Lemma registered_compiled l :
  let r := registered l in
  compiled_regex r = match secrets r with [] => default_regex | ss => compile ss end.
Proof.
  unfold registered. assert (H : ∀ r, compiled_regex r = match secrets r with [] => default_regex | ss => compile ss end →
    let r' := foldl (λ r s, register s r) r l in
    compiled_regex r' = match secrets r' with [] => default_regex | ss => compile ss end); [|by apply H].
  induction l as [|s l IH]; intros r Hr; simpl; [done|]. apply IH.
  destruct s as [s|]; simpl; [|done]. case_decide; [done|]. simpl. by destruct (secrets r).
Qed.

Lemma register_grows s r : secrets r ⊆ secrets (register s r).
Proof. destruct s as [s|]; simpl; [|done]. case_decide; simpl; set_solver. Qed.

(** A registered secret is looked for: it was registered now, or its escaped
    text equals the text of another one. *)
Lemma registered_in l s :
  Some s ∈ l → s ∈ secrets (registered l) ∨ escape (one_line s) ∈ secrets (registered l).
Proof.
  unfold registered. generalize empty_registry as r. induction l as [|s' l IH]; intros r Hs;
    [by apply elem_of_nil in Hs|].
  assert (Hsub : ∀ r, secrets r ⊆ secrets (foldl (λ r s, register s r) r l)).
  { clear. induction l as [|s l IH]; intros r; simpl; [done|].
    etrans; [apply (register_grows s)|apply IH]. }
  apply elem_of_cons in Hs as [<-|Hs]; simpl; [|by apply IH].
  case_decide as Hd; [left; by apply Hsub|right]. apply Hsub. simpl. set_solver.
Qed.

(** Where the default expression does not match, what matches is one of the
    secrets, and all of it is masked. *)
Lemma compiled_match msg ss b i m :
  i ≤ length msg → match_at msg default_regex b i = None →
  match_at msg (compile ss) b i = Some m → m_groups m = [("any", (i, m_end m))].
Proof.
  intros Hi Hd Hm. unfold match_at, compile in *.
  set (k := λ e g, if b && (e =? i) then None else Some (ReMatch i e g)) in *.
  change (match re_at msg default_regex i [] k with
          | Some x => Some x | None => re_at msg (any_of ss) i [] k end = Some m) in Hm.
  rewrite Hd in Hm. unfold any_of in Hm.
  change (re_at msg (foldr (λ s r, Alt (lit_str (unescape s)) r) Fail ss) i []
            (λ pos' g', k pos' (("any", (i, pos')) :: g')) = Some m) in Hm.
  apply re_at_sound in Hm as (e & new & Hm & _ & Hn); [|done].
  assert (new = []) as ->.
  { assert (Hnil : groupindex (foldr (λ s r, Alt (lit_str (unescape s)) r) Fail ss) = []).
    { clear. induction ss as [|s ss IH]; simpl; [done|]. rewrite IH, app_nil_r.
      unfold lit_str. generalize (list_ascii_of_string (unescape s)) as l.
      induction l; simpl; [done|]. done. }
    destruct Hn as [|x new [Hx _] _]; [done|]. rewrite Hnil in Hx. by apply elem_of_nil in Hx. }
  unfold k in Hm. simpl in Hm. by destruct (b && (e =? i)); simplify_eq/=.
Qed.

Lemma secrets_from l x :
  x ∈ secrets (registered l) → ∃ s, Some s ∈ l ∧ x = escape (one_line s).
Proof.
  unfold registered. assert (H : ∀ r, x ∈ secrets (foldl (λ r s, register s r) r l) →
    x ∈ secrets r ∨ ∃ s, Some s ∈ l ∧ x = escape (one_line s)).
  2: { intros [Hx|?]%H; [by apply elem_of_nil in Hx|done]. }
  induction l as [|s l IH]; intros r Hx; simpl in *; [by left|].
  destruct (IH _ Hx) as [Hr|(s' & Hs' & ->)]; [|right; exists s'; split; [by right|done]].
  destruct s as [s|]; simpl in Hr; [|by left]. case_decide; [by left|]. simpl in Hr.
  apply elem_of_app in Hr as [?|Hr%list_elem_of_singleton]; [by left|right].
  exists s. split; [by left|done].
Qed.

Lemma finditer_nil msg r b i :
  finditer msg r = [] → i ≤ length msg → match_at msg r b i = None.
Proof.
  intros H Hi. destruct (match_at msg r b i) as [m|] eqn:E; [exfalso|done].
  destruct (search_finds msg r false 0 i) as (m' & Hs & _); [lia| |].
  - destruct b; [|simpl; by eexists]. unfold match_at in *. eapply re_at_weaken; [|by eexists].
    intros e g'. simpl. by eexists.
  - unfold finditer, find_fuel in H. rewrite Nat.add_comm in H. simpl in H. by rewrite Hs in H.
Qed.

Lemma occurs_lt msg l i : l ≠ [] → occurs msg l i → i < length msg.
Proof.
  intros Hl Ho. destruct l as [|c l]; [done|]. destruct (Ho 0 c eq_refl) as (d & Hd & _).
  apply lookup_lt_Some in Hd. lia.
Qed.

(** At a place where a secret is, there is a match that is not empty. *)
Lemma secret_matches msg ss s i :
  escape s ∈ ss → s ≠ "" → occurs msg (list_ascii_of_string s) i →
  is_Some (match_at msg (compile ss) true i).
Proof.
  intros Hs Hne Ho. unfold match_at. set (k := λ e g, if true && (e =? i) then None else Some (ReMatch i e g)).
  change (is_Some (match re_at msg default_regex i [] k with
          | Some x => Some x | None => re_at msg (any_of ss) i [] k end)).
  destruct (re_at msg default_regex i [] k); [by eexists|]. unfold any_of.
  change (is_Some (re_at msg (foldr (λ s r, Alt (lit_str (unescape s)) r) Fail ss) i []
            (λ pos' g', k pos' (("any", (i, pos')) :: g')))).
  induction ss as [|s' ss IH]; [by apply elem_of_nil in Hs|]. simpl.
  apply elem_of_cons in Hs as [<-|Hs].
  2: { destruct (re_at msg (lit_str _) i [] _); [by eexists|]. by apply IH. }
  rewrite unescape_escape. unfold lit_str. rewrite re_at_lit by done. unfold k. simpl.
  destruct s as [|c s]; [done|]. simpl. rewrite Nat.add_succ_r.
  destruct (Nat.eqb_spec (S (i + length (list_ascii_of_string s))) i); [lia|]. by eexists.
Qed.

(** The match that covers a place masks it. *)
Lemma covered_is_masked msg ss i :
  finditer msg default_regex = [] → i < length msg →
  is_Some (match_at msg (compile ss) true i) →
  redact (compile ss) msg !! i = Some "*"%char.
Proof.
  intros Hd Hi Hm.
  destruct (find_from_covers msg (compile ss) (find_fuel msg) false 0 i) as (m & Hin & Hcov);
    [unfold find_measure, find_fuel; lia|lia|done|].
  pose proof Hin as (_ & b & Hat & (_ & He & _))%find_from_sound.
  assert (Hg : m_groups m = [("any", (m_start m, m_end m))]).
  { eapply compiled_match; [|apply finditer_nil; [done|]|exact Hat]; lia. }
  rewrite redact_stars. unfold stars. rewrite list_lookup_imap.
  destruct (lookup_lt_is_Some_2 msg i Hi) as [c ->]. simpl.
  replace (existsb _ _) with true; [done|]. symmetry. apply existsb_exists. exists m.
  split; [by apply list_elem_of_In|]. unfold match_covers. apply existsb_exists. exists "any".
  split.
  - apply list_elem_of_In. unfold masked_groups. apply list_elem_of_filter. split; [set_solver|].
    unfold compile, any_of. cbn [groupindex]. set_solver.
  - unfold group_covers, group_span. rewrite Hg. simpl.
    apply andb_true_intro. split; [apply Z.leb_le|apply Z.ltb_lt]; lia.
Qed.

(** ** Theorems *)

(** C32: a registered secret is masked as it is registered, that is without its line
    breaks: wherever that text, unless it is empty, occurs in a message, in any case
    of the letters, the log has an asterisk for its first character, if the message
    has no authorization header for the default expression to match and the secret is
    not itself the escaped text of another one; and the log is the message with some
    characters replaced by asterisks.  So a secret of one line is never printed whole;
    one of several lines is, as it was read ([format_multiline]). *)
Theorem secrets_masked l s msg i :
  finditer (list_ascii_of_string msg) default_regex = [] →
  Some s ∈ l → one_line s ≠ "" →
  (∀ s', Some s' ∈ l → escape (one_line s') = s → s' = s) →
  occurs (list_ascii_of_string msg) (list_ascii_of_string (one_line s)) i →
  let out := list_ascii_of_string (format (registered l) msg) in
  out !! i = Some "*"%char ∧ length out = length (list_ascii_of_string msg) ∧
  ∀ j c, out !! j = Some c → c = "*"%char ∨ list_ascii_of_string msg !! j = Some c.
Proof.
  intros Hd Hs Hne Hesc Ho out. unfold out, format.
  rewrite list_ascii_of_string_of_list_ascii. set (m := list_ascii_of_string msg) in *.
  assert (Hin : escape (one_line s) ∈ secrets (registered l)).
  { destruct (registered_in l s Hs) as [H|H]; [|done].
    pose proof H as (s' & Hs' & ->)%secrets_from. by rewrite (Hesc s' Hs' eq_refl) in H. }
  rewrite registered_compiled.
  destruct (secrets (registered l)) as [|x ss] eqn:Hss; [by apply elem_of_nil in Hin|].
  split; [|split].
  - apply covered_is_masked; [done| |by eapply secret_matches].
    eapply occurs_lt; [|done]. by destruct (one_line s).
  - rewrite redact_stars. apply stars_length.
  - intros j c. rewrite redact_stars. unfold stars. rewrite list_lookup_imap.
    destruct (m !! j) as [d|]; simpl; [|done]. destruct (existsb _ _); intros [= <-]; auto.
Qed.

(** The comparison with the escaped secrets never finds a secret that has a
    character to escape, so each registration of it makes the expression longer. *)
Theorem register_again s r :
  escape (one_line s) ≠ s → s ∉ secrets r →
  length (secrets (register (Some s) (register (Some s) r))) = length (secrets r) + 2.
Proof.
  intros Hne Hin. simpl. rewrite (decide_False (P := s ∈ secrets r)) by done. simpl.
  rewrite decide_False; [simpl; rewrite !length_app; simpl; lia|].
  rewrite elem_of_app, list_elem_of_singleton. intros [?|?]; [done|]. by apply Hne.
Qed.

(** ** Witness *)
Lemma secrets_masked_witness :
  list_ascii_of_string (format (registered [Some "p.w"; None; Some "k"]) "the P.W is k") !! 4
    = Some "*"%char.
Proof.
  refine (proj1 (secrets_masked [Some "p.w"; None; Some "k"] "p.w" "the P.W is k" 4 _ _ _ _ _)).
  - vm_compute. reflexivity.
  - apply elem_of_cons. by left.
  - vm_compute. discriminate.
  - intros s' Hs'. repeat (apply elem_of_cons in Hs' as [Hs'|Hs'];
      [first [discriminate Hs'|injection Hs' as ->; vm_compute; first [discriminate|reflexivity]]|]).
    by apply elem_of_nil in Hs'.
  - intros j c Hj. destruct j as [|[|[|j]]]; injection Hj as <- || discriminate Hj;
      (eexists; split; [reflexivity|reflexivity]).
Defined.
