(* ===== verification/Wsgi.v ===== *)
(** * The endpoints: [src/wsgi.py]

    The Flask functions that receive webhook events and kickoff requests.  An
    event is answered at once and its workflow runs in the background; a kickoff
    request waits for its answer.  What Flask makes of the body of a request as
    JSON is part of the request. *)
From S2P Require Import Prelude PyStr PyJson Url Auth ApiSession Messaging Grouping CxOne Cloner Config ScmConfig Bootstrap Orchestration Dispatch Kickoff Github Gitlab Adoe Bitbucket.
Open Scope string_scope.
Open Scope nat_scope.
Open Scope list_scope.

(** A request: its method, its body, its headers and [request.json]. *)
Record http_request : Type := HttpRequest {
  rq_method : string; rq_content_type : string; rq_data : string; rq_headers : dict string;
  rq_json : outcome json }.

(** The one call of an event endpoint: [TaskManager.in_background] of the dispatch
    of an orchestrator.  It may raise when the loop is closed. *)
Inductive wsgi_ev : Type := InBackground (w : webhook).
Definition wsgi_resp (e : wsgi_ev) : Type := unit.
#[global] Arguments wsgi_resp : simpl never.
Abbreviation wsgi_prog := (prog wsgi_ev wsgi_resp).

(** ** The headers that an event keeps *)

(** [User-Agent|X-(Git)?[H|h]ub] and [User-Agent|X-Gitlab|Idempotency-Key], at the
    beginning of a name; the class also has the bar. *)
Definition one_prefix (l : list string) (name : string) : bool :=
  existsb (λ p, startswith p name) l.
Definition gh_header : string → bool :=
  one_prefix ("User-Agent" :: ((λ p, p.1 +:+ p.2 +:+ "ub") <$>
    [("X-Git", "H"); ("X-Git", "|"); ("X-Git", "h"); ("X-", "H"); ("X-", "|"); ("X-", "h")])).
Definition gl_header : string → bool := one_prefix ["User-Agent"; "X-Gitlab"; "Idempotency-Key"].

Section wsgi.
Context (jp : string → json → list json).
Context (json_on_ok : response → outcome json).
Context (json_loads : string → outcome json).
Context (repr : json → string).
Context (hmac_digest : string → string → string → outcome string).
Context (scan_inspector : json → outcome inspector).
Context (version : string).
Context (page_fuel : nat).
(** [base64.b64decode(s).decode], and the parts of the URL libraries. *)
Context (b64decode : string → outcome string).
Context (clone_url_org : json → outcome string).
Context (str_set_order : list string → list string).
Context (set_order : list json → list json).
Context (remove_auth : json → outcome json).
Context (remove_auth_str : string → outcome string).
(** The configured routes, and how a route matches a URL. *)
Context (r : routes).
Context (route_match : string → string → bool).

(** ** Events *)

(** The event context of the endpoint of an SCM. *)
Definition request_context (scm : scm_key) (rq : http_request) : outcome EventContext :=
  match scm with
  | GH => filtered_event_context json_loads gh_header (rq_data rq) (rq_headers rq)
  | GL => filtered_event_context json_loads gl_header (rq_data rq) (rq_headers rq)
  | ADOE | BBDC | BBC => event_context_new json_loads (rq_data rq) (rq_headers rq)
  end.

(** Its orchestrator. *)
Definition new_orchestrator (scm : scm_key) (ctx : EventContext) : outcome webhook :=
  match scm with
  | GH => let? ev := gh_init jp repr ctx in
          Ok (gh_webhook jp repr hmac_digest scan_inspector version page_fuel ev)
  | GL => let? ev := gl_init jp ctx in
          Ok (gl_webhook jp json_on_ok repr scan_inspector version ev)
  | ADOE => let? ev := ado_init jp ctx in
            Ok (ado_webhook jp json_on_ok repr scan_inspector version b64decode clone_url_org
                  str_set_order page_fuel ev)
  | BBDC => let? ev := dc_init jp ctx in
            Ok (dc_webhook jp repr hmac_digest scan_inspector version set_order ev)
  | BBC => let? ev := bc_init jp ctx in
           Ok (bc_webhook jp json_on_ok repr hmac_digest scan_inspector version remove_auth ev)
  end.
Definition request_event (scm : scm_key) (rq : http_request) : outcome webhook :=
  let? ctx := request_context scm rq in new_orchestrator scm ctx.

(** The services whose secret is tried for a diagnostic event, until one fits. *)
Fixpoint any_signature_valid (w : webhook) (l : list scm_service) : outcome bool :=
  match l with
  | [] => Ok false
  | s :: l' =>
      let? valid := is_signature_valid w (scm_secret s) in
      if (valid : bool) then Ok true else any_signature_valid w l'
  end.

(** Bitbucket's endpoints have no diagnostic events of their own. *)
Definition answers_diagnostics (scm : scm_key) : bool :=
  match scm with GH | ADOE | GL => true | BBDC | BBC => false end.
Definition accepted (scm : scm_key) : Z := match scm with GL => 201 | _ => 204 end.

(** [github_webhook_endpoint], [gitlab_webhook_endpoint], [adoe_webhook_endpoint],
    [bbdc_webhook_endpoint] and [bbc_webhook_endpoint]: the status of the response.
    The request is logged, as JSON, before the [try]. *)
Definition webhook_endpoint (scm : scm_key) (rq : http_request) : wsgi_prog Z :=
  do! lift (rq_json rq) in
  catch is_Exception
    (let! w := lift (request_event scm rq) in
     if negb (answers_diagnostics scm) || negb (is_diagnostic w) then
       do! call (InBackground w) in Ret (accepted scm)
     else
       let! svcs := lift (retrieve_scm_services r (config_key w)) in
       let! valid := lift (any_signature_valid w svcs) in
       Ret (if (valid : bool) then 200%Z else 401%Z))
    (λ _, Ret 400%Z).

(** ** Kickoff requests *)

(** [github_kickoff_endpoint] and the others: the status and the body.  Nothing is
    caught here: what is raised is Flask's to answer. *)
Definition kickoff_endpoint (fuel : nat) (scm : scm_key) (rq : http_request) :
    ko_prog (Z * option KickoffResponseMsg) :=
  do! lift (rq_json rq) in
  let! ctx := lift (event_context_new json_loads (rq_data rq) (rq_headers rq)) in
  let! req := lift (kickoff_request_new remove_auth_str scm ctx) in
  let! ' (status, body) := kickoff_impl json_on_ok scan_inspector version repr r route_match fuel req in
  Ret (kickoff_code status, body).

(** ** The other endpoints *)

(** [ping]; with [ENABLE_DUMP] in the environment the body is logged. *)
Definition ping (enable_dump : bool) (rq : http_request) : outcome Z :=
  if negb (String.eqb (rq_method rq) "GET") && enable_dump &&
     String.eqb (rq_content_type rq) "application/json"
  then let? _ := rq_json rq in Ok 200%Z
  else Ok 200%Z.

(** [page_not_found] *)
Definition page_not_found : Z := 404.

(** The rules of the decorators, which Flask matches with the path of a request. *)
Inductive endpoint : Type :=
| Ping
| WebhookOf (scm : scm_key)
| KickoffOf (scm : scm_key)
| Artifacts.
Definition scm_rule (scm : scm_key) : string :=
  match scm with GH => "/gh" | ADOE => "/adoe" | GL => "/gl" | BBDC => "/bbdc" | BBC => "/bbc" end.
Definition url_rules : list (string * list string * endpoint) :=
  [("/ping", ["GET"; "POST"], Ping); ("/artifacts/<path:path>", ["GET"], Artifacts)] ++
  concat ((λ scm, [(scm_rule scm, ["POST"], WebhookOf scm);
                   (scm_rule scm +:+ "/kickoff", ["POST"], KickoffOf scm)]) <$>
            [BBC; BBDC; GH; ADOE; GL]).

(** ** Theorems *)

(** The signature of a request, by all its headers. *)
Definition request_signature (scm : scm_key) (rq : http_request) (secret : string) : outcome bool :=
  let ctx := MkEventContext (rq_data rq) (rq_headers rq) JNull in
  match scm with
  | GH => hub_signature_valid hmac_digest "X-Hub-Signature-256" ctx secret
  | BBDC | BBC => hub_signature_valid hmac_digest "X-Hub-Signature" ctx secret
  | GL => Ok (bool_decide (Some secret = get_header_key_safe ctx "X-Gitlab-Token"))
  | ADOE => ado_signature_valid b64decode ctx secret
  end.

Lemma dget_filter_keys {A} (keep : string → bool) k (d : list (string * A)) :
  keep k = true → dget k (filter (λ kv, keep kv.1 = true) d) = dget k d.
Proof.
  intros Hk. induction d as [|[k' v] d IH]; [done|].
  rewrite filter_cons. simpl. case_decide as Hkeep; simpl; rewrite IH; [done|].
  destruct (String.eqb_spec k k') as [->|]; [congruence|done].
Qed.

Lemma hub_signature_headers h ctx ctx' secret :
  raw_event_payload ctx = raw_event_payload ctx' → dget h (headers ctx) = dget h (headers ctx') →
  hub_signature_valid hmac_digest h ctx secret = hub_signature_valid hmac_digest h ctx' secret.
Proof. unfold hub_signature_valid, get_header_key_safe. by intros -> ->. Qed.

(** The orchestrators keep the context they are made with. *)
Lemma gh_init_ctx ctx ev : gh_init jp repr ctx = Ok ev → gh_ctx ev = ctx.
Proof.
  unfold gh_init. case_bool_decide; [by intros [= <-]|].
  destruct (match jp "$.action" (message ctx) with [] => _ | _ => _ end) as [a d].
  intros (rs & _ & (cl & _ & [= <-])%bindO_ok)%bindO_ok. done.
Qed.
Lemma gl_init_ctx ctx ev : gl_init jp ctx = Ok ev → gl_ctx ev = ctx.
Proof.
  unfold gl_init. intros (d & _ & H)%bindO_ok. case_bool_decide; [by simplify_eq|].
  apply bindO_ok in H as (n & _ & (u & _ & [= <-])%bindO_ok). done.
Qed.
Lemma ado_init_ctx ctx ev : ado_init jp ctx = Ok ev → ado_ctx ev = ctx.
Proof. unfold ado_init. case_bool_decide; intros Hi; [by simplify_eq|]. inv_ok. done. Qed.
Lemma dc_init_ctx ctx ev : dc_init jp ctx = Ok ev → dc_ctx ev = ctx.
Proof. unfold dc_init. case_bool_decide; intros Hi; [by simplify_eq|]. inv_ok. done. Qed.
Lemma bc_init_ctx ctx ev : bc_init jp ctx = Ok ev → bc_ctx ev = ctx.
Proof. unfold bc_init. destruct (jp _ _); [done|]. by intros [= <-]. Qed.

(** The headers that are filtered out play no part in the signature. *)
Lemma request_event_signature scm rq w :
  request_event scm rq = Ok w →
  config_key w = scm ∧ ∀ secret, is_signature_valid w secret = request_signature scm rq secret.
Proof.
  unfold request_event. intros (ctx & Hc & Hw)%bindO_ok.
  assert (Hctx : raw_event_payload ctx = rq_data rq ∧
    ∀ h, match scm with GH => gh_header h | GL => gl_header h | _ => true end = true →
      dget h (headers ctx) = dget h (rq_headers rq)).
  { destruct scm; apply bindO_ok in Hc as (m & _ & [= <-]); (split; [done|]); intros h Hh;
      simpl; try done; by apply dget_filter_keys. }
  destruct Hctx as [Hraw Hh]. unfold request_signature.
  destruct scm; apply bindO_ok in Hw as (ev & Hev & [= <-]); (split; [done|]); intros secret; simpl.
  - apply dc_init_ctx in Hev as ->. apply hub_signature_headers; [done|]. by apply Hh.
  - apply ado_init_ctx in Hev as ->. unfold ado_signature_valid, get_header_key_safe. by rewrite Hh.
  - apply gh_init_ctx in Hev as ->. apply hub_signature_headers; [done|]. by apply Hh.
  - apply gl_init_ctx in Hev as ->. unfold get_header_key_safe. simpl. by rewrite Hh.
  - apply bc_init_ctx in Hev as ->. apply hub_signature_headers; [done|]. by apply Hh.
Qed.

Lemma any_signature_valid_spec w l b :
  any_signature_valid w l = Ok b →
  if b then ∃ s, s ∈ l ∧ is_signature_valid w (scm_secret s) = Ok true
  else Forall (λ s, is_signature_valid w (scm_secret s) = Ok false) l.
Proof.
  revert b. induction l as [|s l IH]; intros b H; simpl in H; [by simplify_eq|].
  apply bindO_ok in H as ([] & Hs & H).
  - simplify_eq. exists s. split; [by left|done].
  - apply IH in H. destruct b; [|by constructor].
    destruct H as (s' & ? & ?). exists s'. split; [by right|done].
Qed.

Lemma retrieve_scm_services_spec scm l :
  retrieve_scm_services r scm = Ok l → l = fs_scm <$> services_of r scm.
Proof.
  unfold retrieve_scm_services, services_of.
  by destruct (assoc scm (ordered_services r)); intros [= <-].
Qed.

(** What the body of an endpoint does with an event. *)
Definition event_answer (scm : scm_key) (rq : http_request) (w : webhook)
    (tr : list (obs wsgi_ev wsgi_resp)) (o : outcome Z) : Prop :=
  if answers_diagnostics scm && is_diagnostic w then
    tr = [] ∧
    match o with
    | Ok code => code = 200%Z ∧ (∃ s, s ∈ services_of r scm ∧
                                  request_signature scm rq (scm_secret (fs_scm s)) = Ok true) ∨
                 code = 401%Z ∧ Forall (λ s, request_signature scm rq (scm_secret (fs_scm s)) = Ok false)
                                  (services_of r scm) ∨
                 code = 400%Z
    | Err e => is_Exception e = false
    end
  else ∃ started, tr = [Obs (InBackground w) started] ∧
    o = match started with
        | Ok _ => Ok (accepted scm)
        | Err e => if is_Exception e then Ok 400%Z else Err e
        end.

Lemma webhook_endpoint_spec scm rq tr o :
  exec (webhook_endpoint scm rq) tr o →
  match rq_json rq, request_event scm rq with
  | Err e, _ => tr = [] ∧ o = Err e
  | Ok _, Err e => tr = [] ∧ o = if is_Exception e then Ok 400%Z else Err e
  | Ok _, Ok w => event_answer scm rq w tr o
  end.
Proof.
  unfold webhook_endpoint. intros H.
  apply exec_lift_bind in H as [(j & -> & H)|(e & -> & -> & ->)]; [|done].
  apply exec_on_outcome in H as (x & tr1 & tr2 & -> & H1 & H2).
  assert (Ho : tr2 = [] ∧ o = match x with
                             | Err e => if is_Exception e then Ok 400%Z else Err e
                             | _ => x
                             end).
  { destruct x as [v|e]; [by destruct H2|]. by destruct (is_Exception e); destruct H2. }
  destruct Ho as [-> Ho]. clear H2. rewrite app_nil_r.
  apply exec_lift_bind in H1 as [(w & Hw & H)|(e & -> & -> & ->)]; [|done].
  rewrite Hw. apply request_event_signature in Hw as [Hkey Hsig]. unfold event_answer.
  destruct (answers_diagnostics scm && is_diagnostic w) eqn:Hd.
  2: { assert (Hd' : negb (answers_diagnostics scm) || negb (is_diagnostic w) = true)
         by (by destruct (answers_diagnostics scm), (is_diagnostic w)).
    rewrite Hd' in H. call_step H as [([] & tr' & -> & [-> ->])|(e & -> & ->)]; eauto. }
  assert (Hd' : negb (answers_diagnostics scm) || negb (is_diagnostic w) = false)
    by (by destruct (answers_diagnostics scm), (is_diagnostic w)).
  rewrite Hd', Hkey in H.
  assert (Hx : ∀ e, x = Err e → match o with Ok code => code = 400%Z | Err e => is_Exception e = false end).
  { intros e ->. subst o. by destruct (is_Exception e) eqn:E. }
  apply exec_lift_bind in H as [(l & Hl & H)|(e & _ & -> & ->)];
    [|split; [done|]; specialize (Hx e eq_refl); destruct o; auto].
  apply exec_lift_bind in H as [(b & Hb & H)|(e & _ & -> & ->)];
    [|split; [done|]; specialize (Hx e eq_refl); destruct o; auto].
  destruct H as [-> ->]. subst o. split; [done|].
  apply retrieve_scm_services_spec in Hl as ->. apply any_signature_valid_spec in Hb. destruct b.
  - left. split; [done|]. destruct Hb as (s & Hs & Hv). apply list_elem_of_fmap in Hs as (fs & -> & Hin).
    exists fs. split; [done|]. by rewrite <- Hsig.
  - right. left. split; [done|]. rewrite Forall_fmap in Hb. eapply Forall_impl; [done|].
    intros fs. simpl. by rewrite Hsig.
Qed.

(** An event endpoint starts at most one workflow, that of the event of the
    request, and answers that it was accepted only when it did; a diagnostic event
    starts none, and is answered with 200 only when its signature fits the secret
    of a configured service of the SCM, and with 401 only when it fits none; a
    request from which no orchestrator can be made is answered with 400. *)
Theorem webhook_answers scm rq tr o :
  exec (webhook_endpoint scm rq) tr o →
  match rq_json rq, request_event scm rq with
  | Err e, _ => tr = [] ∧ o = Err e
  | Ok _, Err e => tr = [] ∧ o = if is_Exception e then Ok 400%Z else Err e
  | Ok _, Ok w => event_answer scm rq w tr o
  end.
Proof. apply webhook_endpoint_spec. Qed.

(** C3: a request that is not signed with the secret of any configured service of
    its SCM achieves nothing: the endpoint does not answer it with 200, and the
    workflows that it starts end without any call - none of the headers that are
    filtered out could have made a difference. *)
Theorem unsigned_request_ignored scm rq tr o :
  Forall (λ s, request_signature scm rq (scm_secret (fs_scm s)) ≠ Ok true) (services_of r scm) →
  exec (webhook_endpoint scm rq) tr o →
  o ≠ Ok 200%Z ∧
  ∀ w, InBackground w ∈ events tr →
    ∀ tr' o', exec (dispatch_execute r route_match repr w) tr' o' → tr' = [].
Proof.
  intros Hsig H%webhook_endpoint_spec. rewrite Forall_forall in Hsig.
  destruct (rq_json rq) as [j|e]; [|destruct H as [-> ->]; split; [done|];
    intros w Hw; by apply elem_of_nil in Hw].
  destruct (request_event scm rq) as [w|e] eqn:Hw.
  2: { destruct H as [-> ->]. split; [by destruct (is_Exception e)|].
    intros w Hin. by apply elem_of_nil in Hin. }
  pose proof (request_event_signature _ _ _ Hw) as [Hkey Hs]. unfold event_answer in H.
  destruct (answers_diagnostics scm && is_diagnostic w).
  - destruct H as [-> Ho]. split; [|intros w' Hin; by apply elem_of_nil in Hin].
    intros ->. destruct Ho as [(_ & s & Hin & Hv)|[[? _]|?]]; [|done..]. by apply (Hsig s).
  - destruct H as (started & -> & ->). split.
    { destruct started as [u|e]; [by destruct scm|by destruct (is_Exception e)]. }
    intros w' Hin tr' o' Hex. apply list_elem_of_singleton in Hin. injection Hin as ->.
    eapply dispatch_execute_quiet; [|exact Hex]. intros urls s _ Hr Hv. rewrite Hkey in Hr.
    apply retrieve_in in Hr. rewrite Hs in Hv. by apply (Hsig s).
Qed.
End wsgi.

(** ** Witnesses *)
Definition demo_wsgi_jp (_ : string) (_ : json) : list json := [JStr "https://gitlab/a/b.git"].
Definition demo_loads (_ : string) : outcome json :=
  Ok (JObj [("object_kind", JStr "merge_request")]).
Definition demo_request (token : string) : http_request :=
  HttpRequest "POST" "application/json" "{}" [("Accept", "any"); ("X-Gitlab-Token", token)] (Ok JNull).
Definition demo_endpoint (token : string) : wsgi_prog Z :=
  webhook_endpoint demo_wsgi_jp r_json demo_loads (λ _, "") (λ _ _ _, Ok "") demo_make_inspector "1"
    9 Ok (λ _, Ok "") id id Ok demo_routes GL (demo_request token).
Definition demo_wsgi_world (n : nat) (e : wsgi_ev) : outcome (wsgi_resp e) * nat := (Ok tt, S n).
Definition demo_event (token : string) : outcome webhook :=
  request_event demo_wsgi_jp r_json demo_loads (λ _, "") (λ _ _ _, Ok "") demo_make_inspector "1"
    9 Ok (λ _, Ok "") id id Ok GL (demo_request token).

Lemma webhook_answers_witness :
  run_outcome demo_wsgi_world 0 (demo_endpoint "wrong") = Ok 201%Z ∧
  ∃ w, demo_event "wrong" = Ok w ∧
    event_answer (λ _ _ _, Ok "") Ok demo_routes GL (demo_request "wrong") w
      (run_trace demo_wsgi_world 0 (demo_endpoint "wrong"))
      (run_outcome demo_wsgi_world 0 (demo_endpoint "wrong")).
Proof.
  split; [vm_compute; reflexivity|].
  pose proof (webhook_answers demo_wsgi_jp r_json demo_loads (λ _, "") (λ _ _ _, Ok "")
    demo_make_inspector "1" 9 Ok (λ _, Ok "") id id Ok demo_routes GL (demo_request "wrong") _ _
    (exec_run demo_wsgi_world 0 (demo_endpoint "wrong"))) as H.
  change (match demo_event "wrong" with
          | Ok w => event_answer (λ _ _ _, Ok "") Ok demo_routes GL (demo_request "wrong") w
              (run_trace demo_wsgi_world 0 (demo_endpoint "wrong"))
              (run_outcome demo_wsgi_world 0 (demo_endpoint "wrong"))
          | Err e => run_trace demo_wsgi_world 0 (demo_endpoint "wrong") = [] ∧
              run_outcome demo_wsgi_world 0 (demo_endpoint "wrong") =
                if is_Exception e then Ok 400%Z else Err e
          end) in H.
  destruct (demo_event "wrong") as [w|e] eqn:Hw; [exists w; by split|].
  vm_compute in Hw. discriminate Hw.
Defined.

Lemma unsigned_request_ignored_witness :
  run_outcome demo_wsgi_world 0 (demo_endpoint "wrong") ≠ Ok 200%Z ∧
  (∃ w, InBackground w ∈ events (run_trace demo_wsgi_world 0 (demo_endpoint "wrong")) ∧
    run_trace (demo_orch_world None) 0
      (dispatch_execute demo_routes (λ p s, startswith p s) (λ _, "") w) = []).
Proof.
  assert (Hsig : Forall (λ s, request_signature (λ _ _ _, Ok "") Ok GL (demo_request "wrong")
    (scm_secret (fs_scm s)) ≠ Ok true) (services_of demo_routes GL)).
  { apply (bool_decide_unpack _). vm_compute. exact I. }
  destruct (unsigned_request_ignored demo_wsgi_jp r_json demo_loads (λ _, "") (λ _ _ _, Ok "")
    demo_make_inspector "1" 9 Ok (λ _, Ok "") id id Ok demo_routes (λ p s, startswith p s) GL
    (demo_request "wrong") _ _ Hsig (exec_run demo_wsgi_world 0 (demo_endpoint "wrong")))
    as [Ho Hw].
  split; [exact Ho|]. destruct (events (run_trace demo_wsgi_world 0 (demo_endpoint "wrong")))
    as [|[w] l] eqn:He; [vm_compute in He; discriminate He|].
  exists w. split; [apply elem_of_cons; by left|].
  refine (Hw w _ _ _ (exec_run (demo_orch_world None) 0 _)). apply elem_of_cons. by left.
Defined.
