(* ===== verification/Reentry.v ===== *)
(** * Going on with an event: [__orchestrator_factory] of
    [src/agent/resolver/results_agent.py]

    A delegated scan leaves the server with the name of the class of its
    orchestrator and the context of its event, and when the result comes back the
    orchestrator is built again from the two.  [Journey] takes that construction as
    an argument; here it is the one of the code, over the orchestrators of [Github],
    [Gitlab], [Adoe] and [Bitbucket], and the end of the journey is told for the
    events that the endpoints of [Wsgi] take.  A context that is decoded reads its
    message again from the payload of the event ([EventContext.__post_init__]), so
    that what a workflow did to the message does not come back with a result. *)
From S2P Require Import Prelude PyStr PyJson Url Auth ApiSession Messaging Broker Grouping CxOne Cloner Config Workflows ScmConfig Bootstrap Content Polling Feedback Resolver Runner Orchestration ScanAgent Dispatch System Deployment Journey Kickoff Github Gitlab Adoe Bitbucket Wsgi.
Open Scope string_scope.
Open Scope nat_scope.
Open Scope list_scope.

(** ** What a workflow hands to the agents *)

(** The request of a delegated scan carries the class and the context. *)
Definition hands (class : string) (ctx : EventContext) (e : orch_ev) : Prop :=
  match e with
  | RequestResolverScan _ _ _ _ _ _ _ ctx' class' => class' = class ∧ same_event ctx' ctx
  | _ => True
  end.

Section workflows.
Context (scan_inspector : json → outcome inspector).
Context (version : string).
Context (svc : services).

Lemma hands_quiet {A} class ctx (p : orch_prog A) :
  only (λ e, is_delegation e = false) p → only (hands class ctx) p.
Proof. apply only_weaken. by intros []. Qed.

Lemma clone_hands class ctx url hash branch pc tags ctx' :
  only (hands class ctx) (exec_clone_scan scan_inspector url hash branch pc tags ctx').
Proof.
  apply hands_quiet. eapply only_weaken; [|apply exec_clone_scan_quiet]. by intros e [_ ?].
Qed.

Lemma delegate_hands o ctx pc url hash branch tags wf :
  same_event (o_event_context o) ctx →
  only (hands (o_class o) ctx) (try_delegate svc o pc url hash branch tags wf).
Proof. intros Hctx. unfold try_delegate. only_calls. Qed.

Ltac hand_over :=
  repeat first
    [ done | apply clone_hands | by apply delegate_hands
    | progress intros | apply only_ret | apply only_raise | apply only_lift
    | lazymatch goal with
      | |- only ?Q (@call ?Ev ?Resp ?e) => by apply (only_call (Ev:=Ev) (Resp:=Resp) Q e)
      end
    | apply only_bind | apply only_catch | apply only_mapP | case_match ].

Lemma scan_hands o ctx (Hctx : same_event (o_event_context o) ctx) tags wf :
  only (hands (o_class o) ctx) (o_protected o) →
  only (hands (o_class o) ctx) (orchestrate_scan scan_inspector svc o tags wf).
Proof. intros Hp. unfold orchestrate_scan. hand_over. Qed.

(** The orchestrator [o] of an event, under its class and in a context of the event. *)
Lemma push_hands class ctx o tags :
  o_class o = class → same_event (o_event_context o) ctx → only (hands class ctx) (o_protected o) →
  only (hands class ctx) (execute_push_scan scan_inspector version svc o tags).
Proof.
  intros <- Hctx Hp. unfold execute_push_scan, start_sarif, make_push_details.
  pose proof (scan_hands o ctx Hctx). hand_over.
Qed.
Lemma pr_hands class ctx o tags :
  o_class o = class → same_event (o_event_context o) ctx → only (hands class ctx) (o_protected o) →
  only (hands class ctx) (execute_pr_scan scan_inspector version svc o tags).
Proof.
  intros <- Hctx Hp. unfold execute_pr_scan, start_pr_workflow, start_delegated_pr_workflow, make_prdetails.
  pose proof (scan_hands o ctx Hctx). hand_over.
Qed.
Lemma tag_update_hands class ctx o : only (hands class ctx) (execute_pr_tag_update o).
Proof. unfold execute_pr_tag_update. hand_over. Qed.
Lemma delegated_push_hands class ctx o id : only (hands class ctx) (execute_delegated_push_scan svc o id).
Proof. unfold execute_delegated_push_scan, start_sarif, make_push_details. hand_over. Qed.
Lemma delegated_pr_hands class ctx o id : only (hands class ctx) (execute_delegated_pr_scan svc o id).
Proof. unfold execute_delegated_pr_scan, start_pr_workflow, make_prdetails. hand_over. Qed.
End workflows.

(** ** The orchestrators of events *)
Section orchestrators.
Context (jp : string → json → list json).
Context (json_on_ok : response → outcome json).
Context (repr : json → string).
Context (hmac_digest : string → string → string → outcome string).
Context (scan_inspector : json → outcome inspector).
Context (version : string).
Context (page_fuel : nat).
Context (b64decode : string → outcome string).
Context (clone_url_org : json → outcome string).
Context (str_set_order : list string → list string).
Context (set_order : list json → list json).
Context (remove_auth : json → outcome json).

(** All that the workflows of an orchestrator ask for is asked in one name. *)
Definition hands_all (class : string) (ctx : EventContext) (w : webhook) : Prop :=
  ∀ svc, only (hands class ctx) (w_execute w svc) ∧
    (∀ id, only (hands class ctx) (w_handle_delegated_scan w svc id)) ∧
    (∀ msg, only (hands class ctx) (w_handle_delegated_pr_scan_hard_fail w svc msg)).

Lemma gen_all_hands {A} class ctx (coro : nat → orch_prog response) (extract : response → outcome (option (list A) * bool)) fuel :
  (∀ k, only (hands class ctx) (coro k)) →
  ∀ g, only (hands class ctx) (gen_all coro extract fuel g).
Proof.
  intros Hcoro. induction fuel as [|fuel IH]; intros g; cbn [gen_all]; [apply only_raise|].
  apply only_bind; [|intros [[x g']|]; [|apply only_ret]].
  - unfold gen_next. only_calls.
  - apply only_bind; [apply IH|intros; apply only_ret].
Qed.

Lemma ado_pages_hands {A} class ctx fuel path query (extract : json → outcome (list A)) :
  only (hands class ctx) (ado_pages json_on_ok fuel path query extract).
Proof.
  revert query. induction fuel as [|fuel IH]; intros query; cbn [ado_pages]; [apply only_raise|].
  only_calls.
Qed.

(** The workflows by the name of an event. *)
Lemma handler_for_in {A} (table : dict A) event h :
  handler_for table event = Ok (Some h) → ∃ name, (name, h) ∈ table.
Proof.
  unfold handler_for. destruct (hashable event); [|done]. intros [= H].
  destruct event as [| | |s| |]; try done. exists s. by apply dget_in.
Qed.
Lemma handler_hands {B A} (table : dict B) event (f : B → orch_prog A) p Q :
  (∀ name h, (name, h) ∈ table → only Q (f h)) → only Q p →
  only Q (let! handler := lift (handler_for table event) in
          match handler with Some h => f h | None => p end).
Proof.
  intros Ht Hp tr o H. apply exec_lift_bind in H as [(handler & Hh & H)|(e & _ & -> & _)]; [|constructor].
  destruct handler as [h|]; [|by eapply Hp].
  apply handler_for_in in Hh as [name Hin]. by eapply Ht.
Qed.

Ltac each_entry :=
  let row := fresh "row" in let h := fresh "h" in let Hin := fresh "Hin" in
  intros row h Hin; repeat (apply elem_of_cons in Hin as [[= _ ->]|Hin]); [..|by apply elem_of_nil in Hin].

Lemma gh_state_hands {A} ctx (f : EventContext * gh_state → orch_prog A) Q :
  (∀ ctx' s, same_event ctx' ctx → only Q (f (ctx', s))) →
  only Q (let! x := lift (gh_pr_state jp repr ctx) in f x).
Proof.
  intros Hf tr o H. apply exec_lift_bind in H as [([ctx' s] & Hs & H)|(e & _ & -> & _)]; [|constructor].
  eapply Hf; [|exact H]. by eapply gh_pr_state_same.
Qed.

(** Take a workflow apart down to the workflows of the base class. *)
Ltac hand_over :=
  repeat first
    [ done | solve [auto using tag_update_hands, delegated_push_hands, delegated_pr_hands]
    | apply push_hands; [done..|] | apply pr_hands; [done..|]
    | apply ado_pages_hands | apply gen_all_hands | apply handler_hands; [each_entry|]
    | apply gh_state_hands
    | progress intros | apply only_ret | apply only_raise | apply only_lift
    | lazymatch goal with
      | |- only ?Q (@call ?Ev ?Resp ?e) => by apply (only_call (Ev:=Ev) (Resp:=Resp) Q e)
      end
    | apply only_bind | apply only_catch | apply only_mapP | apply only_on_outcome | case_match ].

(** The workflows of a table. *)
Lemma lookup_hands {B A} (table : list (list string * B)) event (f : B → orch_prog A) p Q :
  (∀ row h, (row, h) ∈ table → only Q (f h)) → only Q p →
  only Q (match gh_lookup table event with Some h => f h | None => p end).
Proof.
  intros Ht Hp. destruct (gh_lookup table event) as [h|] eqn:Hl; [|done].
  apply gh_lookup_in in Hl as (e & row & _ & Hin & _). by eapply Ht.
Qed.
Ltac each_row := apply lookup_hands; [each_entry|apply only_ret].

Lemma gh_hands ev :
  hands_all "orchestration.gh.GithubOrchestrator" (gh_ctx ev)
    (gh_webhook jp repr hmac_digest scan_inspector version page_fuel ev).
Proof.
  intros svc. split_and!; simpl.
  - unfold gh_execute. each_row;
      unfold gh_install_log, gh_push, gh_pr_scan, gh_pr_tag_update, gh_check_requested_action,
        gh_check_rerequest, gh_check_rescan; hand_over;
      unfold gh_check_cancel_scan, gh_check_rescan; hand_over;
      simpl; unfold gh_protected_branches, gh_branches_request; hand_over.
  - intros id. unfold gh_handle_delegated_scan. each_row;
      unfold gh_delegated_push, gh_delegated_pr, gh_delegated_action; hand_over.
  - intros msg. unfold gh_hard_fail, make_prdetails. hand_over.
Qed.

Ltac each_handler := apply handler_hands; [each_entry|apply only_ret].

Lemma gl_hands ev :
  hands_all "orchestration.gl.GitlabOrchestrator" (gl_ctx ev)
    (gl_webhook jp json_on_ok repr scan_inspector version ev).
Proof.
  intros svc. split_and!; simpl; [|intros id|intros msg].
  - unfold gl_execute. each_handler;
      unfold gl_push, gl_pr_scan, gl_merge_protected, gather2; hand_over.
  - unfold gl_handle_delegated_scan. each_handler;
      unfold gl_delegated_push, gl_delegated_pr; hand_over.
  - unfold gl_hard_fail, make_prdetails. hand_over.
Qed.

Lemma ado_hands ev :
  hands_all "orchestration.adoe.AzureDevOpsEnterpriseOrchestrator" (ado_ctx ev)
    (ado_webhook jp json_on_ok repr scan_inspector version b64decode clone_url_org str_set_order
       page_fuel ev).
Proof.
  intros svc. split_and!; simpl; [|intros id|intros msg].
  - unfold ado_execute. each_handler;
      unfold ado_common_execution_steps, ado_push, ado_pr_scan; hand_over;
      simpl; unfold ado_protected_branches, ado_policy_branches; hand_over.
  - unfold ado_handle_delegated_scan. each_handler;
      unfold ado_common_execution_steps, ado_delegated_push, ado_delegated_pr; hand_over.
  - unfold ado_hard_fail, make_prdetails. hand_over.
Qed.

Lemma dc_hands ev :
  hands_all "orchestration.bitbucket.bbdc.BitBucketDataCenterOrchestrator" (dc_ctx ev)
    (dc_webhook jp repr hmac_digest scan_inspector version set_order ev).
Proof.
  intros svc. split_and!; simpl.
  - unfold dc_execute. each_row; unfold dc_push, dc_pr_scan, dc_pr_tag_update, dc_unless_draft;
      hand_over; simpl; unfold dc_protected_branches; hand_over.
  - intros id. unfold dc_handle_delegated_scan. each_row;
      unfold dc_delegated_push, dc_delegated_pr; hand_over.
  - intros msg. unfold dc_hard_fail, make_prdetails. hand_over.
Qed.

Lemma bc_hands ev :
  hands_all "orchestration.bitbucket.bbc.BitBucketCloudOrchestrator" (bc_ctx ev)
    (bc_webhook jp json_on_ok repr hmac_digest scan_inspector version remove_auth ev).
Proof.
  assert (Hdata : ∀ class ctx, only (hands class ctx) (bc_event_data jp json_on_ok repr remove_auth ev)).
  { intros. unfold bc_event_data. hand_over. }
  intros svc. split_and!; simpl.
  - unfold bc_execute. each_row; unfold bc_push, bc_pr_scan, bc_pr_tag_update, bc_unless_draft,
      bc_push_state, bc_pr_state; hand_over; simpl; unfold bc_protected_branches; hand_over.
  - intros id. unfold bc_handle_delegated_scan. each_row;
      unfold bc_delegated_push, bc_delegated_pr, bc_push_state, bc_pr_state; hand_over.
  - intros msg. unfold bc_hard_fail, bc_pr_state, make_prdetails. hand_over.
Qed.
End orchestrators.

(** ** Built again *)
Section reentry.
Context (jp : string → json → list json).
Context (json_on_ok : response → outcome json).
Context (json_loads : string → outcome json).
Context (repr : json → string).
Context (hmac_digest : string → string → string → outcome string).
Context (scan_inspector : json → outcome inspector).
Context (version : string).
Context (page_fuel : nat).
Context (b64decode : string → outcome string).
Context (clone_url_org : json → outcome string).
Context (str_set_order : list string → list string).
Context (set_order : list json → list json).
Context (remove_auth : json → outcome json).
(** The routes, and how a route matches a URL. *)
Context (r : routes).
Context (re_match : string → string → bool).
(** [importlib] and [getattr] for a name that is none of the orchestrators'. *)
Context (other_class : string → string → EventContext → outcome webhook).

Abbreviation new_orchestrator := (new_orchestrator jp json_on_ok repr hmac_digest scan_inspector
  version page_fuel b64decode clone_url_org str_set_order set_order remove_auth).
Abbreviation request_event := (request_event jp json_on_ok json_loads repr hmac_digest
  scan_inspector version page_fuel b64decode clone_url_org str_set_order set_order remove_auth).

(** The classes of the modules of [src/orchestration/]. *)
Definition orchestrator_class (module class_name : string) : option scm_key :=
  match module, class_name with
  | "orchestration.gh", "GithubOrchestrator" => Some GH
  | "orchestration.gl", "GitlabOrchestrator" => Some GL
  | "orchestration.adoe", "AzureDevOpsEnterpriseOrchestrator" => Some ADOE
  | "orchestration.bitbucket.bbdc", "BitBucketDataCenterOrchestrator" => Some BBDC
  | "orchestration.bitbucket.bbc", "BitBucketCloudOrchestrator" => Some BBC
  | _, _ => None
  end.

(** [__orchestrator_factory] *)
Definition orchestrator_factory (orchestrator_name : string) (ctx : EventContext) : outcome webhook :=
  let names := split "."%char orchestrator_name in
  let class_name := List.last names "" in
  let module := join "." (removelast names) in
  match orchestrator_class module class_name with
  | Some scm => new_orchestrator scm ctx
  | None => other_class module class_name ctx
  end.

(** The name that the requests of an SCM's events carry. *)
Definition class_of (scm : scm_key) : string :=
  match scm with
  | GH => "orchestration.gh.GithubOrchestrator"
  | GL => "orchestration.gl.GitlabOrchestrator"
  | ADOE => "orchestration.adoe.AzureDevOpsEnterpriseOrchestrator"
  | BBDC => "orchestration.bitbucket.bbdc.BitBucketDataCenterOrchestrator"
  | BBC => "orchestration.bitbucket.bbc.BitBucketCloudOrchestrator"
  end.
Lemma factory_class scm ctx : orchestrator_factory (class_of scm) ctx = new_orchestrator scm ctx.
Proof. by destruct scm. Qed.

(** *** The requests of an event *)
Lemma new_orchestrator_hands scm ctx w : new_orchestrator scm ctx = Ok w → hands_all (class_of scm) ctx w.
Proof.
  destruct scm; simpl; intros H; apply bindO_ok in H as (ev & Hev & [= <-]).
  - apply dc_init_ctx in Hev as <-. apply dc_hands.
  - apply ado_init_ctx in Hev as <-. apply ado_hands.
  - apply gh_init_ctx in Hev as <-. apply gh_hands.
  - apply gl_init_ctx in Hev as <-. apply gl_hands.
  - apply bc_init_ctx in Hev as <-. apply bc_hands.
Qed.

Abbreviation service_of := (service_of r re_match).
Abbreviation service_name := (service_name repr).
Abbreviation started := (started r re_match repr json_loads).

(** Whatever an event starts is for the service that accepted its signature, and
    hands on the event itself. *)
Lemma started_again scm ctx w s e :
  json_loads (raw_event_payload ctx) = Ok (message ctx) →
  new_orchestrator scm ctx = Ok w → started orchestrator_factory w s e →
  service_of w = Some s ∧ is_signature_valid w (scm_secret (fs_scm s)) = Ok true ∧
  hands (class_of scm) ctx e.
Proof.
  intros Hparsed Hw Hst.
  assert (Hhands : ∀ A (p : orch_prog A) tr o e, only (hands (class_of scm) ctx) p →
            exec p tr o → e ∈ events tr → hands (class_of scm) ctx e).
  { intros A p tr o e' Hp H. specialize (Hp _ _ H). rewrite Forall_forall in Hp. apply Hp. }
  pose proof (new_orchestrator_hands scm ctx w Hw) as Hall.
  assert (Hagain : ∀ e0 d w', hands (class_of scm) ctx e0 → details_of e0 d →
            orchestrator_factory (df_orchestrator d) (reread json_loads (df_event_context d)) = Ok w' →
            w' = w).
  { intros e0 d w' He0 Hd Hw'. destruct e0; try done. destruct He0 as [-> Hsame].
    destruct Hd as (_ & _ & _ & _ & _ & Hctx & Hclass). rewrite Hctx, Hclass in Hw'.
    rewrite (reread_same _ _ ctx Hparsed Hsame), factory_class, Hw in Hw'. by injection Hw'. }
  induction Hst as [s tr o e Hs Hv H He
    |s0 e0 d w' s id tr o e _ (Hs0 & Hv & He0) Hd Hw' Hs H He
    |s0 e0 d w' s tr o e _ (Hs0 & Hv & He0) Hd Hw' Hs H He].
  - split_and!; [done..|]. eapply Hhands; [|exact H|exact He]. unfold dispatch_execute.
    case_match; [apply only_ret|]. apply only_catch; [|intros; apply only_ret].
    only_calls. by apply Hall.
  - pose proof (Hagain e0 d w' He0 Hd Hw') as ->. rewrite Hs in Hs0. injection Hs0 as <-.
    split_and!; [done..|]. eapply Hhands; [|exact H|exact He]. unfold dispatch_delegated_scan.
    apply only_catch; [|intros; apply only_ret]. only_calls. by apply Hall.
  - pose proof (Hagain e0 d w' He0 Hd Hw') as ->. rewrite Hs in Hs0. injection Hs0 as <-.
    split_and!; [done..|]. eapply Hhands; [|exact H|exact He]. unfold dispatch_hard_failure.
    apply only_catch; [|intros; apply only_ret]. only_calls. by apply Hall.
Qed.

(** *** The comments of an event *)
Context (isoformat : Z → string).
Context (fromisoformat : string → outcome Z).
Context (sign : string → string → outcome string).
Context (verify_private verify_public : string → string → string → outcome unit).
Context (details_binary : DelegatedScanDetails → string).
Context (pickled_scm pickled_cxone : flow_services → string).
Context (await_from_binary : string → outcome (ScanMessage * string)).
Context (feedback_from_binary : string → outcome (ScanMessage * bool * option string)).
Context (annotation_from_binary : string → outcome (ScanMessage * string)).
Context (prescan_from_binary : string → outcome (string * workflow_details * string)).
Context (delegated_from_binary : string → outcome DelegatedScanMessage).
Context (result_from_binary : string → outcome DelegatedScanResultMessage).
Context (tags : list string).
Context (str_exn : exn → string) (available : string → bool).
Context (hmac : string → string → string → string) (gzip : string → string).
Context (dumps_error : option string → string).

Abbreviation comes_from := (comes_from r re_match repr isoformat fromisoformat sign verify_private
  verify_public details_binary pickled_scm pickled_cxone await_from_binary delegated_from_binary
  result_from_binary tags json_loads).
Abbreviation handled := (handled r repr feedback_from_binary annotation_from_binary
  prescan_from_binary json_loads str_exn available hmac gzip dumps_error).

(** Services have the names that [Bootstrap] gives them, and these are words of a
    topic. *)
Definition well_named (s : flow_services) : Prop :=
  ∃ name, scm_moniker (fs_scm s) = JStr name ∧ cs_moniker (fs_cxone s) = JStr name ∧
    str_elem "."%char name = false.

Hypothesis routes_ok : routes_wf r.
Hypothesis names_ok : ∀ scm s, s ∈ services_of r scm → well_named s.

Lemma named_service scm s :
  s ∈ services_of r scm → retrieve_services_by_moniker repr r (JStr (service_name s)) = Ok s.
Proof.
  intros Hs. destruct (names_ok scm s Hs) as (name & Hscm & Hcx & _).
  unfold System.service_name, retrieve_services_by_moniker. rewrite Hcx. simpl.
  rewrite (assoc_NoDup (JStr name) s); [done|by apply wf_monikers|].
  apply wf_named; [done|]. split; [done|by exists scm].
Qed.

(** C2: the comments on a pull request, and the deliveries for a push, are made
    through the service that accepted the signature of the event, whichever way a
    message came to be: the service that the handler of the message looks up is that
    service, also when the scan was delegated and an agent's result made the server
    build the orchestrator again; and they are for the event, since what the handler
    reads and posts concerns the scan, the pull request and the commit that a
    workflow of the event gave, with the context of the event made anew from its
    payload once the message was decoded.  The names of the services are words of a
    topic. *)
Theorem comments_by_accepting_service scm rq w p :
  request_event scm rq = Ok w → comes_from orchestrator_factory w p →
  ∃ s e, service_of w = Some s ∧ is_signature_valid w (scm_secret (fs_scm s)) = Ok true ∧
    started orchestrator_factory w s e ∧
    (∀ am, out_message (p_message p) = scan_body am →
       retrieve_services_by_moniker repr r (JStr (message_moniker am)) = Ok s ∧
       ∃ x, feedback_of e = Some x ∧ in_transit json_loads x (message_subject am)) ∧
    (∀ tr, handled p tr → ∃ x, feedback_of e = Some x ∧
       Forall (concerns (reread_subject json_loads x)) (events tr)).
Proof.
  intros Hreq Hp. unfold Wsgi.request_event in Hreq. apply bindO_ok in Hreq as (ctx & Hctx & Hw).
  assert (Hparsed : json_loads (raw_event_payload ctx) = Ok (message ctx)).
  { unfold request_context, filtered_event_context in Hctx.
    destruct scm; by eapply event_context_new_parsed. }
  eapply comes_from_started in Hp as (s & e & Hst & Hdue & _).
  2: { intros scm' s Hs. destruct (names_ok scm' s Hs) as (name & _ & Hcx & Hdot).
       unfold System.service_name. by rewrite Hcx. }
  destruct (started_again scm ctx w s e Hparsed Hw Hst) as (Hs & Hv & _).
  exists s, e. split_and!; [done..| |].
  - intros am Ham. unfold due in Hdue. rewrite Ham in Hdue.
    destruct Hdue as (x & x' & Hx & Hx' & _ & am' & Ham' & Hmon & Hsub & _). rewrite Ham in Ham'.
    injection Ham' as <-. rewrite Hmon. split; [by eapply named_service, service_of_in|]. exists x. by rewrite Hsub.
  - intros tr (am & Ham & Hall)%handled_concerns.
    destruct (due_scan _ _ _ _ _ _ _ Hdue Ham) as (x & Hx & Hsub). rewrite Hsub in Hall. by exists x.
Qed.
End reentry.

(** ** Witness: a merge request whose scan an agent of the network does *)
Definition demo_gl_values : dict (list json) :=
  [("$.object_kind", [JStr "merge_request"]);
   ("$.object_attributes.draft", [JBool false]);
   ("$.project.path_with_namespace", [JStr "a/b"]);
   ("$.project.git_http_url", [JStr "https://gitlab/a/b.git"]);
   ("$.project.id", [JInt 3]);
   ("$.object_attributes.source_branch", [JStr "feature"]);
   ("$.object_attributes.target_branch", [JStr "main"]);
   ("$.object_attributes.last_commit.id", [JStr "c0ffee"]);
   ("$.object_attributes.iid", [JInt 7]);
   ("$.object_attributes.state", [JStr "opened"]);
   ("$.object_attributes.action", [JStr "open"]);
   ("$.default_branch", [JStr "main"])].
Definition demo_gl_jp (q : string) (_ : json) : list json := default [] (dget q demo_gl_values).
Definition demo_merge_request : outcome webhook :=
  request_event demo_gl_jp r_json demo_loads (λ _, "") (λ _ _ _, Ok "") demo_make_inspector "1.0"
    9 Ok (λ _, Ok "") id id Ok GL (demo_request "AbcDefGhi123--longEnoughSecret").
Definition demo_merge : webhook :=
  match demo_merge_request with Ok w => w | Err _ => demo_delegating end.
Definition demo_factory : string → EventContext → outcome webhook :=
  orchestrator_factory demo_gl_jp r_json (λ _, "") (λ _ _ _, Ok "") demo_make_inspector "1.0"
    9 Ok (λ _, Ok "") id id Ok (λ _ _ _, Err ModuleNotFoundError).

Lemma mapped_services f r scm :
  services_of (Routes (List.map (λ kl, (kl.1, List.map f kl.2)) (ordered_services r))
    (List.map (λ ms, (ms.1, f ms.2)) (by_moniker r))) scm = f <$> services_of r scm.
Proof.
  unfold services_of. simpl. induction (ordered_services r) as [|[k l] d IH]; [done|].
  simpl. case_decide; [done|exact IH].
Qed.
Lemma mapped_wf f r : (∀ s, fs_scm (f s) = fs_scm s) → routes_wf r →
  routes_wf (Routes (List.map (λ kl, (kl.1, List.map f kl.2)) (ordered_services r))
    (List.map (λ ms, (ms.1, f ms.2)) (by_moniker r))).
Proof.
  intros Hf [Hm Hn Hh]. split.
  - simpl. rewrite <- (list_fmap_compose _ fst). exact Hm.
  - intros m s. setoid_rewrite mapped_services. split.
    + intros ([m' s'] & [= -> ->] & Hin)%list_elem_of_fmap. apply Hn in Hin as [-> [scm Hin]].
      split; [by rewrite Hf|]. exists scm. by apply list_elem_of_fmap_2.
    + intros [-> [scm (s' & -> & Hin)%list_elem_of_fmap]]. apply list_elem_of_fmap.
      exists (scm_moniker (fs_scm s'), s'). split; [by rewrite Hf|]. apply Hn. split; [done|by exists scm].
  - intros m s ([m' s'] & [= -> ->] & Hin)%list_elem_of_fmap. by eapply Hh.
Qed.

Lemma demo_agents_wf : routes_wf demo_agent_routes.
Proof. apply mapped_wf; [done|apply demo_routes_wf]. Qed.
Lemma demo_agents_named scm s : s ∈ services_of demo_agent_routes scm → well_named s.
Proof.
  intros Hs.
  assert (H : forallb (λ s, match scm_moniker (fs_scm s), cs_moniker (fs_cxone s) with
      | JStr n, JStr n' => String.eqb n n' && negb (str_elem "."%char n) | _, _ => false end)
      (services_of demo_agent_routes scm) = true) by (destruct scm; vm_compute; reflexivity).
  rewrite forallb_forall in H. specialize (H s (proj1 (list_elem_of_In _ _) Hs)). unfold well_named.
  destruct (scm_moniker _) as [| | |n| |], (cs_moniker _) as [| | |n'| |]; try discriminate H.
  apply andb_true_iff in H as [->%String.eqb_eq H%negb_true_iff]. by exists n'.
Qed.

(** The scan of an agent is announced through the service of the event. *)
Lemma comments_by_accepting_service_witness :
  ∃ s e x, service_of demo_agent_routes demo_match demo_merge = Some s ∧
    is_signature_valid demo_merge (scm_secret (fs_scm s)) = Ok true ∧
    started demo_agent_routes demo_match (λ _, "") demo_loads demo_factory demo_merge s e ∧
    feedback_of e = Some x ∧
    Forall (concerns (reread_subject demo_loads x)) (events (run_trace demo_fb_world [] (demo_comment_run demo_merge demo_factory))).
Proof.
  assert (Hreq : demo_merge_request = Ok demo_merge).
  { unfold demo_merge. destruct demo_merge_request eqn:H; [done|]. vm_compute in H. discriminate H. }
  destruct (comments_by_accepting_service demo_gl_jp r_json demo_loads (λ _, "") (λ _ _ _, Ok "")
    demo_make_inspector "1.0" 9 Ok (λ _, Ok "") id id Ok demo_agent_routes demo_match
    (λ _ _ _, Err ModuleNotFoundError) pretty (λ _, Ok 0%Z) demo_sign demo_verify demo_verify
    demo_details_binary (λ _, "scm") (λ _, "cxone") (λ _, Err ValueError) (λ _, Err ValueError)
    (demo_comment_decode demo_merge demo_factory) (λ _, Err ValueError)
    (demo_request_decode demo_merge) (demo_result_decode demo_merge) ["linux"] demo_str_exn
    (λ _, true) (λ _ _ _, "") (λ s, s) (λ _, "") demo_agents_wf demo_agents_named GL
    (demo_request "AbcDefGhi123--longEnoughSecret") demo_merge
    (demo_comment_post demo_merge demo_factory) Hreq)
    as (s & e & Hs & Hv & Hst & _ & Hall).
  - demo_journey demo_merge demo_factory.
  - destruct (Hall (run_trace demo_fb_world [] (demo_comment_run demo_merge demo_factory)))
      as (x & Hx & Hc).
    + eapply handled_annotation with (body := "comment");
        [|exact (exec_run demo_fb_world [] (demo_comment_run demo_merge demo_factory))].
      eexists (_, _). split; vm_compute; reflexivity.
    + exists s, e, x. split; [exact Hs|]. split; [exact Hv|]. split; [exact Hst|]. split; [exact Hx|exact Hc].
Defined.
