(* ===== verification/Server.v ===== *)
(** * The server: [src/wsgi.py], [src/task_management/], [src/orchestration/]

    The event endpoints ([Wsgi]), the background tasks ([TaskManager]) and the
    dispatch of events ([Dispatch]) put together.  The threads of the requests, the
    event loop and the shutdown interleave as in [TaskManager]; here a coroutine is
    the dispatch of the event of a request, a request is answered when
    [in_background] returns to its endpoint, and what the dispatch of an event did
    is kept next to its future. *)
From stdpp Require Import functions relations.
From S2P Require Import Prelude PyStr PyJson Url Auth ApiSession Messaging Grouping CxOne Cloner Config ScmConfig Bootstrap Orchestration Dispatch System Deployment Journey Kickoff Github Gitlab Adoe Bitbucket TaskManager Wsgi Reentry.
Open Scope string_scope.
Open Scope nat_scope.
Open Scope list_scope.

(** A request whose endpoint made an orchestrator of its event. *)
Record hit : Type := Hit { h_scm : scm_key; h_request : http_request; h_event : webhook }.

(** What a request thread is doing: nothing, [in_background] before the coroutine
    is handed to the loop, or after it, with its future. *)
Inductive serving : Type :=
| Idle
| Serving (h : hit)
| Started (h : hit) (f : nat).

(** What the dispatch of an event did, and how it ended. *)
Definition run_of : Type := list (obs orch_ev orch_resp) * outcome wf_result.

Record server : Type := Server {
  sv_tm : tm;
  sv_serving : nat → serving;
  sv_submitted : list hit;                 (* the request of each future *)
  sv_runs : list (nat * run_of);           (* the futures that ended *)
  sv_answers : list (hit * nat * Z) }.     (* the responses, with their futures *)

(** The result of a future, by how its coroutine ended. *)
Definition ended (o : outcome wf_result) : coro_result :=
  match o with Ok _ => Returned | Err CancelledError => Cancelled | Err e => Raised e end.

Definition sv_bootstrap : server := Server tm_bootstrap (λ _, Idle) [] [] [].

Section server.
Context (jp : string → json → list json).
Context (json_on_ok : response → outcome json).
Context (json_loads : string → outcome json).
Context (repr : json → string).
Context (hmac_digest : string → string → string → outcome string).
Context (scan_inspector : json → outcome inspector).
Context (version : string).
Context (page_fuel : nat).
Context (b64decode : string → outcome string).
Context (clone_url_org : json → outcome string).
Context (str_set_order : list string → list string).
Context (set_order : list json → list json).
Context (remove_auth : json → outcome json).
Context (r : routes).
Context (route_match : string → string → bool).

Local Abbreviation endpoint := (webhook_endpoint jp json_on_ok json_loads repr hmac_digest
  scan_inspector version page_fuel b64decode clone_url_org str_set_order set_order remove_auth r).
Local Abbreviation dispatch := (dispatch_execute r route_match repr).

(** The endpoint of the request calls [in_background] with the dispatch of the
    event, and answers with the code when that returns. *)
Definition answers_with (h : hit) (code : Z) : Prop :=
  exec (endpoint (h_scm h) (h_request h)) [Obs (InBackground (h_event h)) (Ok tt)] (Ok code).

(** ** The steps

    A step of the server is one of [TaskManager], and four of these mean more: a
    request reaches [in_background], it hands the dispatch of its event to the
    loop, it is answered, and the dispatch of an event has run. *)
Inductive sv_step : server → server → Prop :=
| sv_reach t h code m m' sv sub runs ans :
    tm_step m m' → tm_request m t = Outside → tm_request m' t = AtSubmit →
    answers_with h code →
    sv_step (Server m sv sub runs ans) (Server m' (<[t := Serving h]> sv) sub runs ans)
| sv_submit t h f m m' sv sub runs ans :
    tm_step m m' → tm_request m t = AtSubmit → tm_request m' t = AtAddCallback f →
    sv t = Serving h →
    sv_step (Server m sv sub runs ans)
            (Server m' (<[t := Started h f]> sv) (sub ++ [h]) runs ans)
| sv_answer t h f code m m' sv sub runs ans :
    tm_step m m' → tm_request m t = AtRelease → tm_request m' t = Outside →
    sv t = Started h f → answers_with h code →
    sv_step (Server m sv sub runs ans)
            (Server m' (<[t := Idle]> sv) sub runs (ans ++ [(h, f, code)]))
| sv_finish f h cb tr o m m' sv sub runs ans :
    tm_step m m' → tm_futures m !! f = Some (Pending cb) →
    tm_futures m' !! f = Some (Finished (ended o)) →
    sub !! f = Some h → exec (dispatch (h_event h)) tr o →
    sv_step (Server m sv sub runs ans) (Server m' sv sub (runs ++ [(f, (tr, o))]) ans)
| sv_inner m m' sv sub runs ans :
    tm_step m m' → length (tm_futures m') = length (tm_futures m) →
    (∀ f r, tm_futures m' !! f = Some (Finished r) → tm_futures m !! f = Some (Finished r)) →
    (∀ t, tm_request m t = Outside ↔ tm_request m' t = Outside) →
    sv_step (Server m sv sub runs ans) (Server m' sv sub runs ans).

Definition sv_reachable (s : server) : Prop := rtc sv_step sv_bootstrap s.

(** ** What a step of the threads can be *)

(** A request thread goes on, or not, without beginning or ending anything. *)
Definition goes_on (pc pc' : request_pc) : Prop :=
  pc' = pc ∨ ∃ f, pc_future pc = Some f ∧ (pc_future pc' = Some f ∨ pc' = AtRelease).

Inductive step_kind (m m' : tm) : Prop :=
| kind_reach t :
    tm_request m t = Outside → tm_request m' = <[t := AtSubmit]> (tm_request m) →
    tm_futures m' = tm_futures m → step_kind m m'
| kind_submit t :
    tm_request m t = AtSubmit →
    tm_request m' = <[t := AtAddCallback (length (tm_futures m))]> (tm_request m) →
    tm_futures m' = tm_futures m ++ [Pending false] → step_kind m m'
| kind_answer t :
    tm_request m t = AtRelease → tm_request m' = <[t := Outside]> (tm_request m) →
    tm_futures m' = tm_futures m → step_kind m m'
| kind_finish f cb res :
    tm_futures m !! f = Some (Pending cb) → tm_request m' = tm_request m →
    tm_futures m' = <[f := Finished res]> (tm_futures m) → step_kind m m'
| kind_inner :
    length (tm_futures m') = length (tm_futures m) →
    (∀ f res, tm_futures m' !! f = Some (Finished res) ↔
              tm_futures m !! f = Some (Finished res)) →
    (∀ t, goes_on (tm_request m t) (tm_request m' t)) → step_kind m m'.

Lemma goes_on_insert (rq : nat → request_pc) t pc t' :
  goes_on (rq t) pc → goes_on (rq t') (<[t := pc]> rq t').
Proof.
  intros H. destruct (decide (t = t')) as [<-|Hne]; [by rewrite fn_lookup_insert|].
  rewrite fn_lookup_insert_ne by done. by left.
Qed.

Lemma step_kinds m m' : tm_step m m' → step_kind m m'.
Proof.
  intros Hs. destruct Hs as [| |? f ? ? ? ? ? ? ? ? Hf| | | | | | | | | | | | | |];
    try (by eapply kind_reach); try (by eapply kind_submit);
    try (by eapply kind_answer); try (by eapply kind_finish);
    apply kind_inner; simpl; try done; try (by intros; left);
    try (intros; apply goes_on_insert; right;
         match goal with H : _ = _ |- _ => rewrite H; simpl; by eauto end).
  - by rewrite length_insert.
  - intros g res. destruct (decide (f = g)) as [<-|Hne].
    + rewrite list_lookup_insert_eq by (by apply lookup_lt_Some in Hf). rewrite Hf. done.
    + by rewrite list_lookup_insert_ne.
Qed.

(** The pcs of one thread before and after a step tell which kind it is. *)
Ltac step_cases t :=
  match goal with
  | Hs : tm_step ?m ?m', H' : tm_request ?m' t = _ |- _ =>
      destruct (step_kinds m m' Hs) as [t' Ht Hrq Hfs|t' Ht Hrq Hfs|t' Ht Hrq Hfs
        |g cb' res' Hg Hrq Hfs|Hlen' Hfin Hgo];
      try (match goal with Hq : _ = <[?t' := _]> _ |- _ =>
        rewrite Hq in H'; destruct (decide (t' = t)) as [->|Hne];
        [rewrite fn_lookup_insert in H'|rewrite fn_lookup_insert_ne in H' by done] end)
  end; try congruence.

Lemma goes_on_ends pc pc' :
  goes_on pc pc' → (pc = Outside ∨ pc = AtSubmit ∨ pc = AtRelease) → pc' = pc.
Proof. by intros [->|(f & Hf & _)] [->|[->| ->]]. Qed.

Lemma kind_of_reach m m' t :
  tm_step m m' → tm_request m t = Outside → tm_request m' t = AtSubmit →
  tm_request m' = <[t := AtSubmit]> (tm_request m) ∧ tm_futures m' = tm_futures m.
Proof.
  intros Hs H H'. step_cases t; [done|].
  specialize (Hgo t). apply goes_on_ends in Hgo; [congruence|auto].
Qed.
Lemma kind_of_submit m m' t f :
  tm_step m m' → tm_request m t = AtSubmit → tm_request m' t = AtAddCallback f →
  f = length (tm_futures m) ∧ tm_request m' = <[t := AtAddCallback f]> (tm_request m) ∧
  tm_futures m' = tm_futures m ++ [Pending false].
Proof.
  intros Hs H H'. step_cases t; [by injection H' as <-|].
  specialize (Hgo t). apply goes_on_ends in Hgo; [congruence|auto].
Qed.
Lemma kind_of_answer m m' t :
  tm_step m m' → tm_request m t = AtRelease → tm_request m' t = Outside →
  tm_request m' = <[t := Outside]> (tm_request m) ∧ tm_futures m' = tm_futures m.
Proof.
  intros Hs H H'. step_cases t; [done|].
  specialize (Hgo t). apply goes_on_ends in Hgo; [congruence|auto].
Qed.
Lemma kind_of_finish m m' f cb res :
  tm_step m m' → tm_futures m !! f = Some (Pending cb) →
  tm_futures m' !! f = Some (Finished res) →
  tm_request m' = tm_request m ∧ tm_futures m' = <[f := Finished res]> (tm_futures m).
Proof.
  intros Hs H H'. destruct (step_kinds _ _ Hs) as [t Ht Hrq Hfs|t Ht Hrq Hfs|t Ht Hrq Hfs
    |g cb' res' Hg Hrq Hfs|_ Hfin _]; rewrite ?Hfs in H'; try congruence.
  - apply lookup_snoc_fut in H' as [?|[_ ?]]; congruence.
  - split; [done|]. rewrite Hfs. destruct (decide (g = f)) as [->|Hne].
    + rewrite list_lookup_insert_eq in H' by (by apply lookup_lt_Some in H). congruence.
    + rewrite list_lookup_insert_ne in H' by done. congruence.
  - apply Hfin in H'. congruence.
Qed.
Lemma kind_of_inner m m' :
  tm_step m m' → length (tm_futures m') = length (tm_futures m) →
  (∀ f res, tm_futures m' !! f = Some (Finished res) → tm_futures m !! f = Some (Finished res)) →
  (∀ t, tm_request m t = Outside ↔ tm_request m' t = Outside) →
  (∀ f res, tm_futures m' !! f = Some (Finished res) ↔
            tm_futures m !! f = Some (Finished res)) ∧
  ∀ t, goes_on (tm_request m t) (tm_request m' t).
Proof.
  intros Hs Hlen Hfin Hout. destruct (step_kinds _ _ Hs) as [t Ht Hrq Hfs|t Ht Hrq Hfs
    |t Ht Hrq Hfs|g cb' res' Hg Hrq Hfs|_ ? ?]; [| | | |done]; exfalso.
  - apply (Hout t) in Ht. rewrite Hrq, fn_lookup_insert in Ht. done.
  - rewrite Hfs, length_app in Hlen. simpl in Hlen. lia.
  - assert (tm_request m t = Outside) as ?; [|congruence].
    apply Hout. by rewrite Hrq, fn_lookup_insert.
  - assert (tm_futures m !! g = Some (Finished res')) as ?; [|congruence].
    apply Hfin. rewrite Hfs. apply list_lookup_insert_eq. by apply lookup_lt_Some in Hg.
Qed.

(** ** The invariant *)

(** What a request thread serves fits where it is. *)
Definition serving_ok (pc : request_pc) (sv : serving) (sub : list hit) : Prop :=
  match sv with
  | Idle => pc = Outside
  | Serving h => pc = AtSubmit ∧ ∃ code, answers_with h code
  | Started h f => (pc_future pc = Some f ∨ pc = AtRelease) ∧ sub !! f = Some h
  end.

Record sv_inv (s : server) : Prop := SvInv {
  si_tm : tm_reachable (sv_tm s);
  si_length : length (sv_submitted s) = length (tm_futures (sv_tm s));
  si_reached f h : sv_submitted s !! f = Some h → ∃ code, answers_with h code;
  si_serving t : serving_ok (tm_request (sv_tm s) t) (sv_serving s t) (sv_submitted s);
  si_finished f res : tm_futures (sv_tm s) !! f = Some (Finished res) ↔
    ∃ x, (f, x) ∈ sv_runs s ∧ ended x.2 = res;
  si_runs f x : (f, x) ∈ sv_runs s →
    ∃ h, sv_submitted s !! f = Some h ∧ exec (dispatch (h_event h)) x.1 x.2;
  si_once : NoDup (sv_runs s).*1;
  si_answers h f code : (h, f, code) ∈ sv_answers s →
    sv_submitted s !! f = Some h ∧ answers_with h code;
  si_unanswered t h f : sv_serving s t = Started h f → f ∉ (λ a, a.1.2) <$> sv_answers s;
  si_answered_once : NoDup ((λ a, a.1.2) <$> sv_answers s) }.

Lemma sv_inv_bootstrap : sv_inv sv_bootstrap.
Proof.
  split; simpl; try done; try (by constructor).
  - intros f res. split; [done|]. intros (x & Hx & _). by apply elem_of_nil in Hx.
  - intros f x Hx. by apply elem_of_nil in Hx.
  - intros h f code Hx. by apply elem_of_nil in Hx.
Qed.

(** Only the thread with the lock serves a request. *)
Lemma serving_alone s t t' :
  sv_inv s → tm_request (sv_tm s) t ≠ Outside → t' ≠ t → sv_serving s t' = Idle.
Proof.
  intros H Ht Hne. pose proof (tm_inv_reachable _ (si_tm _ H)) as Hi.
  apply (inv_requests _ Hi) in Ht. pose proof (si_serving _ H t') as Hok.
  assert (Hout : tm_request (sv_tm s) t' = Outside).
  { destruct (tm_request (sv_tm s) t') eqn:E; try done;
      assert (tm_request (sv_tm s) t' ≠ Outside) as Hl%(inv_requests _ Hi) by congruence;
      congruence. }
  rewrite Hout in Hok. destruct (sv_serving s t'); simpl in Hok; naive_solver.
Qed.

Lemma serving_ok_app pc sv sub h : serving_ok pc sv sub → serving_ok pc sv (sub ++ [h]).
Proof.
  destruct sv as [|h'|h' f]; simpl; try done. intros [? Hf]. split; [done|].
  by apply lookup_app_l_Some.
Qed.

Lemma serving_ok_goes_on pc pc' sv sub :
  goes_on pc pc' → serving_ok pc sv sub → serving_ok pc' sv sub.
Proof.
  intros [->|(f & Hf & Hf')]; [done|].
  destruct sv as [|h'|h' g]; simpl; [by intros ->|by intros [-> _]|].
  intros [[Hg|Hg] ?]; [|by rewrite Hg in Hf]. rewrite Hg in Hf. simplify_eq. done.
Qed.
(** The threads and what they serve, after one of them moved on. *)
Lemma serving_moves (rq : nat → request_pc) sv t pc x sub :
  (∀ t', t' ≠ t → serving_ok (rq t') (sv t') sub) → serving_ok pc x sub →
  ∀ t', serving_ok ((<[t := pc]> rq) t') ((<[t := x]> sv) t') sub.
Proof.
  intros Hother Hx t'. destruct (decide (t = t')) as [<-|Hne].
  - by rewrite !fn_lookup_insert.
  - rewrite !fn_lookup_insert_ne by done. by apply Hother.
Qed.

Lemma sv_inv_reach t h code m m' sv sub runs ans :
  tm_step m m' → tm_request m t = Outside → tm_request m' t = AtSubmit →
  answers_with h code →
  sv_inv (Server m sv sub runs ans) →
  sv_inv (Server m' (<[t := Serving h]> sv) sub runs ans).
Proof.
  intros Hs Ht Ht' Hh H. destruct (kind_of_reach _ _ _ Hs Ht Ht') as [Hrq Hfs].
  destruct H as [H1 H2 H3 H4 H5 H6 H7 H8 H9 H10]; simpl in *.
  split; simpl; rewrite ?Hfs; try done.
  - by eapply rtc_r.
  - rewrite Hrq. apply serving_moves; [done|]. split; [done|by exists code].
  - intros t' h' f. destruct (decide (t = t')) as [<-|Hne];
      [by rewrite fn_lookup_insert|rewrite fn_lookup_insert_ne by done; apply H9].
Qed.

Lemma sv_inv_submit t h f m m' sv sub runs ans :
  tm_step m m' → tm_request m t = AtSubmit → tm_request m' t = AtAddCallback f →
  sv t = Serving h →
  sv_inv (Server m sv sub runs ans) →
  sv_inv (Server m' (<[t := Started h f]> sv) (sub ++ [h]) runs ans).
Proof.
  intros Hs Ht Ht' Hh H. destruct (kind_of_submit _ _ _ _ Hs Ht Ht') as (Hf & Hrq & Hfs).
  assert (Hone : ∀ t', t' ≠ t → sv t' = Idle).
  { intros t' Hne. apply (serving_alone _ t t' H); [simpl; congruence|done]. }
  destruct H as [H1 H2 H3 H4 H5 H6 H7 H8 H9 H10]; simpl in *.
  assert (Hlast : (sub ++ [h]) !! f = Some h).
  { rewrite Hf, <- H2. by apply list_lookup_middle. }
  assert (Hlt : ∀ g h', sub !! g = Some h' → (sub ++ [h]) !! g = Some h').
  { intros g h' Hg. by apply lookup_app_l_Some. }
  split; simpl; try done.
  - by eapply rtc_r.
  - rewrite Hfs, !length_app. simpl. lia.
  - intros g h' [Hg|[_ Hg]]%lookup_app_Some; [by eapply H3|].
    apply list_lookup_singleton_Some in Hg as [_ <-].
    specialize (H4 t). rewrite Hh in H4. apply H4.
  - rewrite Hrq. apply serving_moves.
    + intros t' Hne. by apply serving_ok_app.
    + split; [by left|done].
  - intros g res. rewrite <- H5, Hfs, lookup_snoc_fut. naive_solver.
  - intros g x Hx. destruct (H6 g x Hx) as (h' & Hg & ?). eauto.
  - intros h' g code Hx. destruct (H8 h' g code Hx). eauto.
  - intros t' h' g. destruct (decide (t = t')) as [<-|Hne].
    + rewrite fn_lookup_insert. intros [= <- <-].
      intros ([[h'' g] code] & -> & Hin)%list_elem_of_fmap. apply H8 in Hin as [Hin _].
      apply lookup_lt_Some in Hin. simpl in *. lia.
    + rewrite fn_lookup_insert_ne by done. apply H9.
Qed.
Lemma sv_inv_answer t h f code m m' sv sub runs ans :
  tm_step m m' → tm_request m t = AtRelease → tm_request m' t = Outside →
  sv t = Started h f → answers_with h code →
  sv_inv (Server m sv sub runs ans) →
  sv_inv (Server m' (<[t := Idle]> sv) sub runs (ans ++ [(h, f, code)])).
Proof.
  intros Hs Ht Ht' Hh Hc H. destruct (kind_of_answer _ _ _ Hs Ht Ht') as [Hrq Hfs].
  assert (Hone : ∀ t', t' ≠ t → sv t' = Idle).
  { intros t' Hne. apply (serving_alone _ t t' H); [simpl; congruence|done]. }
  destruct H as [H1 H2 H3 H4 H5 H6 H7 H8 H9 H10]; simpl in *.
  split; simpl; rewrite ?Hfs; try done.
  - by eapply rtc_r.
  - rewrite Hrq. by apply serving_moves.
  - intros h' g code' [Hin|Hin]%elem_of_app; [by eapply H8|].
    apply list_elem_of_singleton in Hin as [= -> -> ->]. specialize (H4 t). rewrite Hh in H4.
    split; [apply H4|done].
  - intros t' h' g. destruct (decide (t = t')) as [<-|Hne];
      [by rewrite fn_lookup_insert|rewrite fn_lookup_insert_ne, Hone by done; done].
  - rewrite fmap_app. apply NoDup_app. split_and!; [done| |apply NoDup_singleton].
    intros g Hg Hg'. apply list_elem_of_singleton in Hg' as ->. by apply (H9 t h f Hh).
Qed.

Lemma sv_inv_finish f h cb tr o m m' sv sub runs ans :
  tm_step m m' → tm_futures m !! f = Some (Pending cb) →
  tm_futures m' !! f = Some (Finished (ended o)) →
  sub !! f = Some h → exec (dispatch (h_event h)) tr o →
  sv_inv (Server m sv sub runs ans) →
  sv_inv (Server m' sv sub (runs ++ [(f, (tr, o))]) ans).
Proof.
  intros Hs Hf Hf' Hh Hex H. destruct (kind_of_finish _ _ _ _ _ Hs Hf Hf') as [Hrq Hfs].
  destruct H as [H1 H2 H3 H4 H5 H6 H7 H8 H9 H10]; simpl in *.
  assert (Hnew : ∀ x, (f, x) ∉ runs).
  { intros x Hx. assert (tm_futures m !! f = Some (Finished (ended x.2))) as ?; [|congruence].
    apply H5. eauto. }
  split; simpl; rewrite ?Hrq; try done.
  - by eapply rtc_r.
  - by rewrite Hfs, length_insert.
  - intros g res. rewrite Hfs. destruct (decide (f = g)) as [<-|Hne].
    + rewrite list_lookup_insert_eq by (by apply lookup_lt_Some in Hf). split.
      * intros [= <-]. exists (tr, o). split; [set_solver|done].
      * intros (x & Hx & <-). apply elem_of_app in Hx as [Hx|Hx]; [by apply Hnew in Hx|].
        apply list_elem_of_singleton in Hx as [= ->]. done.
    + rewrite list_lookup_insert_ne, H5 by done. set_solver.
  - intros g x [Hx|Hx]%elem_of_app; [by apply H6|].
    apply list_elem_of_singleton in Hx as [= -> ->]. by exists h.
  - rewrite fmap_app. apply NoDup_app. split_and!; [done| |apply NoDup_singleton].
    intros g ([g' x] & -> & Hx)%list_elem_of_fmap Hg. apply list_elem_of_singleton in Hg.
    simpl in Hg. subst g'. by apply Hnew in Hx.
Qed.

Lemma sv_inv_inner m m' sv sub runs ans :
  tm_step m m' → length (tm_futures m') = length (tm_futures m) →
  (∀ f res, tm_futures m' !! f = Some (Finished res) → tm_futures m !! f = Some (Finished res)) →
  (∀ t, tm_request m t = Outside ↔ tm_request m' t = Outside) →
  sv_inv (Server m sv sub runs ans) → sv_inv (Server m' sv sub runs ans).
Proof.
  intros Hs Hlen Hfin Hout H. destruct (kind_of_inner _ _ Hs Hlen Hfin Hout) as [Hfin' Hgo].
  destruct H as [H1 H2 H3 H4 H5 H6 H7 H8 H9 H10]; simpl in *.
  split; simpl; try done.
  - by eapply rtc_r.
  - congruence.
  - intros t. by eapply serving_ok_goes_on.
  - intros f res. by rewrite Hfin'.
Qed.

Lemma sv_inv_step s s' : sv_step s s' → sv_inv s → sv_inv s'.
Proof.
  destruct 1.
  - by eapply sv_inv_reach.
  - by eapply sv_inv_submit.
  - by eapply sv_inv_answer.
  - by eapply sv_inv_finish.
  - by eapply sv_inv_inner.
Qed.

Lemma sv_inv_reachable s : sv_reachable s → sv_inv s.
Proof.
  unfold sv_reachable. intros H.
  assert (∀ s0, rtc sv_step s0 s → sv_inv s0 → sv_inv s) as Hi.
  { clear H. induction 1; [done|]. intros. apply IHrtc. by eapply sv_inv_step. }
  by eapply Hi; [|apply sv_inv_bootstrap].
Qed.
Lemma NoDup_fst_eq {A B} (l : list (A * B)) a b b' :
  NoDup l.*1 → (a, b) ∈ l → (a, b') ∈ l → b = b'.
Proof.
  induction l as [|[x y] l IH]; simpl; [by intros _ ?%elem_of_nil|].
  intros [Hx Hnd]%NoDup_cons [[= <- <-]|H]%elem_of_cons [[= <-]|H']%elem_of_cons; try done.
  - by destruct Hx; apply (list_elem_of_fmap_2 fst) in H'.
  - by simplify_eq; destruct Hx; apply (list_elem_of_fmap_2 fst) in H.
  - by apply IH.
Qed.

(** ** What an answer tells of its request *)
Definition obs_ok (o : obs wsgi_ev wsgi_resp) : bool :=
  match projT2 o with Ok _ => true | Err _ => false end.

Lemma answers_with_event h code :
  answers_with h code →
  request_event jp json_on_ok json_loads repr hmac_digest scan_inspector version page_fuel
    b64decode clone_url_org str_set_order set_order remove_auth (h_scm h) (h_request h) =
    Ok (h_event h) ∧ code = accepted (h_scm h).
Proof.
  intros H%webhook_endpoint_spec. destruct (rq_json _) as [j|e]; [|by destruct H].
  destruct (request_event _ _ _ _ _ _ _ _ _ _ _ _ _ _ _) as [w|e]; [|by destruct H].
  unfold event_answer in H. destruct (_ && _); [by destruct H|].
  destruct H as (started & Htr & Ho).
  assert (H1 : events [Obs (InBackground (h_event h)) (Ok tt)] = events [Obs (InBackground w) started])
    by (by rewrite Htr).
  assert (H2 : obs_ok <$> [Obs (InBackground (h_event h)) (Ok tt)] = obs_ok <$> [Obs (InBackground w) started])
    by (by rewrite Htr).
  injection H1 as ->. destruct started; [|done]. by injection Ho.
Qed.

(** What ran is the dispatch of the event of a request, and did nothing unless
    the request was signed. *)
Lemma run_signed h tr o code :
  answers_with h code → exec (dispatch (h_event h)) tr o → tr ≠ [] →
  ∃ s, s ∈ services_of r (h_scm h) ∧
    request_signature hmac_digest b64decode (h_scm h) (h_request h) (scm_secret (fs_scm s)) = Ok true.
Proof.
  intros [Hev _]%answers_with_event Hex Htr.
  apply request_event_signature in Hev as [Hkey Hsig].
  destruct (decide (Exists (λ s, request_signature hmac_digest b64decode (h_scm h) (h_request h)
    (scm_secret (fs_scm s)) = Ok true) (services_of r (h_scm h)))) as [He|Hn].
  - apply Exists_exists in He as (s & ? & ?). eauto.
  - destruct Htr. eapply dispatch_execute_quiet; [|exact Hex].
    intros urls s _ Hr Hv. apply Hn, Exists_exists. exists s.
    rewrite Hkey in Hr. apply retrieve_in in Hr. by rewrite <- Hsig.
Qed.

(** ** Theorems *)

(** C4: At any time, whatever the threads did, what ran is the dispatch of the event
    of a request that came, once for each future; and it did something only if that
    request was signed with the secret of a configured service of its SCM. *)
Theorem only_signed_requests_run s f tr o :
  sv_reachable s → (f, (tr, o)) ∈ sv_runs s →
  NoDup (sv_runs s).*1 ∧
  ∃ h, sv_submitted s !! f = Some h ∧ exec (dispatch (h_event h)) tr o ∧
    request_event jp json_on_ok json_loads repr hmac_digest scan_inspector version page_fuel
      b64decode clone_url_org str_set_order set_order remove_auth (h_scm h) (h_request h) =
      Ok (h_event h) ∧
    (tr ≠ [] → ∃ svc, svc ∈ services_of r (h_scm h) ∧
       request_signature hmac_digest b64decode (h_scm h) (h_request h)
         (scm_secret (fs_scm svc)) = Ok true).
Proof.
  intros H%sv_inv_reachable Hr. split; [apply H|].
  destruct (si_runs _ H _ _ Hr) as (h & Hsub & Hex). exists h.
  destruct (si_reached _ H _ _ Hsub) as [code Hc].
  split_and!; [done..|by eapply answers_with_event|]. by eapply run_signed.
Qed.

(** C13: When the server has shut down, every event that it answered as accepted was
    dispatched: its own future ended, with one run of the dispatch of the event of
    its request, which was not cancelled. *)
Theorem accepted_events_run s s' h f code :
  sv_reachable s → sv_step s s' →
  tm_shutdown (sv_tm s) ≠ Exited → tm_shutdown (sv_tm s') = Exited →
  (h, f, code) ∈ sv_answers s' →
  code = accepted (h_scm h) ∧
  (∀ h' code', (h', f, code') ∈ sv_answers s' → h' = h) ∧
  ∃ tr o, exec (dispatch (h_event h)) tr o ∧ o ≠ Err CancelledError ∧
          ∀ x, (f, x) ∈ sv_runs s' ↔ x = (tr, o).
Proof.
  intros H%sv_inv_reachable Hs Hne Hex Ha.
  pose proof (sv_inv_step _ _ Hs H) as H'. destruct (si_answers _ H' _ _ _ Ha) as [Hsub Hc].
  split; [by eapply answers_with_event|]. split.
  { intros h' code' [Hsub' _]%(si_answers _ H'). congruence. }
  assert (Hstep : tm_step (sv_tm s) (sv_tm s')) by (by destruct Hs).
  destruct (exited_finished _ _ (tm_inv_reachable _ (si_tm _ H)) Hstep Hne Hex) as (_ & _ & Hall).
  assert (Hlt : f < length (tm_futures (sv_tm s'))).
  { rewrite <- (si_length _ H'). by apply lookup_lt_Some in Hsub. }
  apply lookup_lt_is_Some in Hlt as [x Hx]. destruct (Hall f x Hx) as (res & -> & Hlog).
  apply (si_finished _ H') in Hx as ([tr o] & Hrun & Hres).
  destruct (si_runs _ H' _ _ Hrun) as (h' & Hsub' & Hrun'). simplify_eq/=.
  exists tr, o. split_and!; [done|by intros ->|]. intros y. split; [|by intros ->].
  intros Hy. by eapply NoDup_fst_eq; [apply (si_once _ H')|..].
Qed.
End server.

(** ** Witness: a signed merge request arrives, is answered and runs, and then the
    server is shut down *)
Definition demo_hit : hit :=
  Hit GL (demo_request "AbcDefGhi123--longEnoughSecret") demo_merge.
Definition demo_dispatch : orch_prog wf_result :=
  dispatch_execute demo_agent_routes demo_match (λ _, "") demo_merge.
Definition demo_run : run_of :=
  (run_trace (demo_orch_world None) 0 demo_dispatch,
   run_outcome (demo_orch_world None) 0 demo_dispatch).

Local Abbreviation demo_step := (sv_step demo_gl_jp r_json demo_loads (λ _, "")
  (λ _ _ _, Ok "") demo_make_inspector "1.0" 9 Ok (λ _, Ok "") id id Ok demo_agent_routes demo_match).
Local Abbreviation demo_sv_reachable := (sv_reachable demo_gl_jp r_json demo_loads (λ _, "")
  (λ _ _ _, Ok "") demo_make_inspector "1.0" 9 Ok (λ _, Ok "") id id Ok demo_agent_routes demo_match).

Lemma demo_answered :
  answers_with demo_gl_jp r_json demo_loads (λ _, "") (λ _ _ _, Ok "") demo_make_inspector "1.0"
    9 Ok (λ _, Ok "") id id Ok demo_agent_routes demo_hit 201.
Proof.
  unfold answers_with.
  assert (Hreq : demo_merge_request = Ok demo_merge).
  { unfold demo_merge. destruct demo_merge_request eqn:E; [done|]. vm_compute in E. discriminate E. }
  apply exec_lift_bind. left. exists JNull. split; [done|].
  apply exec_on_outcome. exists (Ok 201%Z), [Obs (InBackground demo_merge) (Ok tt)], [].
  split_and!; [done| |done]. apply exec_lift_bind. left. exists demo_merge. split; [exact Hreq|].
  assert (Hd : is_diagnostic demo_merge = false) by (vm_compute; reflexivity).
  cbv beta. rewrite Hd, orb_true_r. apply exec_call_bind. left. exists tt, []. done.
Qed.

Definition demo_served (lk : option thread) (pcs : list request_pc) (lp : loop_pc)
    (sd : shutdown_pc) (fs : list future) (mon : list nat) : tm :=
  Tm lk mon fs (TaskManager.demo_request pcs) lp sd (λ _, NotWaiting).

(** The server after each of the steps of the request and of the loop. *)
Definition demo_server (m : tm) (sv : list serving) (sub : list hit)
    (runs : list (nat * run_of)) (ans : list (hit * nat * Z)) : server :=
  Server m (foldl (λ g x, <[0 := x]> g) (λ _, Idle) sv) sub runs ans.
Definition demo_stopping (lk : option thread) (sd : shutdown_pc) : server :=
  demo_server (demo_served lk [AtSubmit; AtAddCallback 0; AtAppend 0; AtRelease; Outside]
      Running sd [Finished Returned] [])
    [Serving demo_hit; Started demo_hit 0; Idle] [demo_hit] [(0, demo_run)] [(demo_hit, 0, 201%Z)].

Lemma demo_ends : ended demo_run.2 = Returned.
Proof. vm_compute. reflexivity. Qed.

(** A step of the threads that neither begins nor ends anything. *)
Ltac demo_inner s :=
  eapply rtc_l; [apply sv_inner; [by apply s|done|by intros []; simpl; try done; intros []|
    intros t; simpl; first [done|destruct (decide (0 = t)) as [<-|Hne];
    [by rewrite ?fn_lookup_insert|by rewrite ?fn_lookup_insert_ne]]]|].

Lemma demo_stopping_reachable : demo_sv_reachable (demo_stopping (Some Shutdown) AtCheck).
Proof.
  unfold sv_reachable, sv_bootstrap.
  eapply rtc_l; [apply (sv_reach _ _ _ _ _ _ _ _ _ _ _ _ _ _ _ 0 demo_hit 201);
    [by apply (bg_acquire 0)|done..|exact demo_answered]|].
  eapply rtc_l; [apply (sv_submit _ _ _ _ _ _ _ _ _ _ _ _ _ _ _ 0 demo_hit 0);
    [by apply (bg_submit 0)|done..]|].
  demo_inner (bg_register 0 0). demo_inner (bg_append 0 0).
  eapply rtc_l; [apply (sv_answer _ _ _ _ _ _ _ _ _ _ _ _ _ _ _ 0 demo_hit 0 201);
    [by apply (bg_release 0)|done..|exact demo_answered]|].
  eapply rtc_l; [apply (sv_finish _ _ _ _ _ _ _ _ _ _ _ _ _ _ _ 0 demo_hit true demo_run.1 demo_run.2);
    [by apply (loop_finish 0 true Returned)|done|by rewrite demo_ends|done|
     exact (exec_run (demo_orch_world None) 0 demo_dispatch)]|].
  demo_inner loop_acquire. demo_inner (loop_remove 0 Returned). demo_inner loop_release.
  demo_inner sd_acquire. apply rtc_refl.
Qed.

Lemma only_signed_requests_run_witness :
  demo_run.1 ≠ [] ∧
  ∃ svc, svc ∈ services_of demo_agent_routes GL ∧
    request_signature (λ _ _ _, Ok "") Ok GL (h_request demo_hit) (scm_secret (fs_scm svc)) = Ok true.
Proof.
  assert (Hne : demo_run.1 ≠ []) by (vm_compute; discriminate).
  split; [exact Hne|].
  destruct (only_signed_requests_run demo_gl_jp r_json demo_loads (λ _, "")
    (λ _ _ _, Ok "") demo_make_inspector "1.0" 9 Ok (λ _, Ok "") id id Ok demo_agent_routes
    demo_match (demo_stopping (Some Shutdown) AtCheck) 0 demo_run.1 demo_run.2
    demo_stopping_reachable) as (_ & h & Hh & _ & _ & Hsig).
  - apply list_elem_of_singleton. reflexivity.
  - injection Hh as <-. exact (Hsig Hne).
Defined.

Lemma accepted_events_run_witness :
  ∃ tr o, exec demo_dispatch tr o ∧ o ≠ Err CancelledError ∧
    ∀ x, (0, x) ∈ [(0, demo_run)] ↔ x = (tr, o).
Proof.
  refine (proj2 (proj2 (accepted_events_run demo_gl_jp r_json demo_loads (λ _, "")
    (λ _ _ _, Ok "") demo_make_inspector "1.0" 9 Ok (λ _, Ok "") id id Ok demo_agent_routes
    demo_match (demo_stopping (Some Shutdown) AtCheck) (demo_stopping None Exited) demo_hit 0 201
    demo_stopping_reachable _ _ eq_refl _))).
  - apply sv_inner; [exact (sd_check (Some Shutdown) [] [Finished Returned]
      (TaskManager.demo_request [AtSubmit; AtAddCallback 0; AtAppend 0; AtRelease; Outside])
      Running (λ _, NotWaiting))|reflexivity|intros f res H; exact H|intros t; reflexivity].
  - discriminate.
  - apply list_elem_of_singleton. reflexivity.
Defined.
