(* ===== verification/Signatures.v ===== *)
(** * Signatures of delegated scans: [src/api_utils/signatures.py]

    The two classes that sign and check with the keys of PEM files.  The
    cryptography library is a parameter; what is modelled is how the classes
    choose its algorithms by the type of a key, so that the server and its agents
    agree.  These definitions are what the resolver service and the scan agent use
    to sign and check. *)
From S2P Require Import Prelude PyStr PyJson JsonText Url Auth ApiSession Messaging Grouping CxOne Cloner Config ScmConfig Bootstrap Orchestration Workflows Wire Polling Resolver Github.
Open Scope string_scope.
Open Scope nat_scope.
Open Scope list_scope.

(** The types of keys the classes tell apart. *)
Inductive key_type : Type := EllipticCurve | RSA | OtherKey.

(** The algorithms, with the hash functions by name. *)
Inductive scheme : Type :=
| ECDSA (hash : string)
| PSS (mgf1_hash salt_length hash : string).
#[export] Instance scheme_eq_dec : EqDecision scheme.
Proof. solve_decision. Defined.

Definition _hash_alg : string := "SHA3_512".
Definition _ecda_hash_alg : scheme := ECDSA _hash_alg.
Definition _padding_and_hash : scheme := PSS _hash_alg "MAX_LENGTH" _hash_alg.

Section signatures.
(** The cryptography library: PEM files, keys, and its two primitives. *)
Context {key : Type}.
Context (load_pem_private_key load_pem_public_key : string → outcome key).
Context (key_kind : key → key_type).
Context (public_key : key → key).
Context (lib_sign : key → scheme → string → outcome string).
Context (lib_verify : key → scheme → string → string → outcome unit).

(** An object of [AsymmetricSignatureVerifier]: the key and the bound method. *)
Record verifier : Type := Verifier { v_key : key; v_scheme : scheme }.
(** One of [AsymmetricSignatureSignerVerifier] also has the private key. *)
Record signer : Type := Signer { s_verifier : verifier; s_key : key; s_scheme : scheme }.

(** [from_public_key] *)
Definition verifier_from_public_key (pem : string) : outcome verifier :=
  let? k := load_pem_public_key pem in
  match key_kind k with
  | EllipticCurve => Ok (Verifier k _ecda_hash_alg)
  | RSA => Ok (Verifier k _padding_and_hash)
  | OtherKey => Err TypeError
  end.

(** [from_private_key] *)
Definition signer_from_private_key (pem : string) : outcome signer :=
  let? k := load_pem_private_key pem in
  match key_kind k with
  | EllipticCurve => Ok (Signer (Verifier (public_key k) _ecda_hash_alg) k _ecda_hash_alg)
  | RSA => Ok (Signer (Verifier (public_key k) _padding_and_hash) k _padding_and_hash)
  | OtherKey => Err TypeError
  end.

(** [verify], which raises, and [sign] *)
Definition verify (v : verifier) (signature data : string) : outcome unit :=
  lib_verify (v_key v) (v_scheme v) signature data.
Definition sign_data (s : signer) (data : string) : outcome string :=
  lib_sign (s_key s) (s_scheme s) data.

(** What a workflow does with the key it was made of. *)
Definition sign_with (private_pem data : string) : outcome string :=
  let? s := signer_from_private_key private_pem in sign_data s data.
Definition verify_with_private (private_pem signature data : string) : outcome unit :=
  let? s := signer_from_private_key private_pem in verify (s_verifier s) signature data.
Definition verify_with_public (public_pem signature data : string) : outcome unit :=
  let? v := verifier_from_public_key public_pem in verify v signature data.
Definition can_load_public (public_pem : string) : outcome unit :=
  let? _ := verifier_from_public_key public_pem in Ok tt.

(** ** Theorems *)

(** The library: a public key has the type of its private key, and a signature
    made with a key and an algorithm is valid for the public key under that
    algorithm. *)
Hypothesis public_key_kind : ∀ k, key_kind (public_key k) = key_kind k.
Hypothesis lib_verify_sign : ∀ k a data signature,
  lib_sign k a data = Ok signature → lib_verify (public_key k) a signature data = Ok tt.

(** The two PEM files of one pair of keys. *)
Definition key_pair (private_pem public_pem : string) : Prop :=
  ∃ k, load_pem_private_key private_pem = Ok k ∧ load_pem_public_key public_pem = Ok (public_key k).

(** What is signed with one file of a pair is accepted with either file. *)
Lemma sign_verify private_pem public_pem data signature :
  key_pair private_pem public_pem → sign_with private_pem data = Ok signature →
  verify_with_public public_pem signature data = Ok tt ∧
  verify_with_private private_pem signature data = Ok tt.
Proof.
  intros (k & Hpriv & Hpub) H.
  unfold sign_with, verify_with_public, verify_with_private, signer_from_private_key,
    verifier_from_public_key in *.
  rewrite Hpriv in *. rewrite Hpub. simpl in *. rewrite public_key_kind.
  destruct (key_kind k); [| |done]; simpl in *; split; by apply lib_verify_sign.
Qed.

(** The library: a signature is not valid for anything else than what was signed. *)
Hypothesis lib_verify_other : ∀ k a data data' signature,
  lib_sign k a data = Ok signature → data' ≠ data →
  lib_verify (public_key k) a signature data' = Err (OtherException "InvalidSignature").

Lemma refuse_other private_pem public_pem data signature data' :
  key_pair private_pem public_pem → sign_with private_pem data = Ok signature → data' ≠ data →
  verify_with_public public_pem signature data' = Err (OtherException "InvalidSignature").
Proof.
  intros (k & Hpriv & Hpub) H Hne.
  unfold sign_with, verify_with_public, signer_from_private_key, verifier_from_public_key in *.
  rewrite Hpriv in *. rewrite Hpub. simpl in *. rewrite public_key_kind.
  destruct (key_kind k); [| |done]; simpl in *; by eapply lib_verify_other.
Qed.

(** The server and its agents agree: whatever details the server signs with
    its private key, an agent that has the public key of the pair, and the server
    itself when the result comes back, accept the signature as valid; and a key
    that is neither of an elliptic curve nor RSA is refused before anything is
    signed or checked with it. *)
Theorem delegated_signature_accepted details_binary capture capture' retries timeout
    private_pem public_pem d :
  key_pair private_pem public_pem →
  match get_signature sign_with details_binary
          (from_private_key capture private_pem retries timeout) d with
  | Ok signature =>
      can_load_public public_pem = Ok tt ∧
      validate_signature verify_with_private verify_with_public
        (from_public_key capture' public_pem) signature (details_binary d) = Ok true ∧
      validate_signature verify_with_private verify_with_public
        (from_private_key capture private_pem retries timeout) signature (details_binary d) = Ok true
  | Err e =>
      (∃ k, load_pem_private_key private_pem = Ok k ∧
         (key_kind k = OtherKey ∧ e = TypeError ∧ can_load_public public_pem = Err TypeError ∨
          ∃ a, lib_sign k a (details_binary d) = Err e))
  end.
Proof.
  intros Hpair. simpl. destruct (sign_with private_pem (details_binary d)) as [signature|e] eqn:Hs.
  - destruct (sign_verify _ _ _ _ Hpair Hs) as [Hpub Hpriv]. rewrite Hpub, Hpriv.
    split; [|done]. unfold can_load_public, verify_with_public in *.
    by destruct (verifier_from_public_key public_pem).
  - destruct Hpair as (k & Hpriv & Hpub). exists k. split; [done|].
    unfold sign_with, signer_from_private_key, can_load_public, verifier_from_public_key in *.
    rewrite Hpriv in Hs. rewrite Hpub. simpl in *. rewrite public_key_kind.
    destruct (key_kind k); simpl in *; [right; by eexists..|left]. by simplify_eq.
Qed.

(** *** Through the broker *)
Section through_the_broker.
Context (version : string) (json_loads : string → outcome json).
Context {lib : DataclassesJson version json_loads}.
Hypothesis json_loads_dumps : ∀ j, json_wf j → json_loads (json_dumps j) = Ok j.

Local Abbreviation details_binary := (Wire.details_binary version json_loads).
Local Abbreviation body_binary := (Wire.body_binary version json_loads).
Local Abbreviation delegated_from_binary := (Wire.delegated_from_binary version json_loads).
Local Abbreviation result_from_binary := (Wire.result_from_binary version json_loads).

(** Details whose context was altered before they were signed are refused. *)
Lemma altered_refused capture capture' retries timeout private_pem public_pem d signature :
  key_pair private_pem public_pem →
  delegated_wf json_loads d → delegated_wf json_loads (reread_delegated json_loads d) →
  get_signature sign_with details_binary (from_private_key capture private_pem retries timeout) d =
    Ok signature →
  reread_delegated json_loads d ≠ d →
  validate_signature verify_with_private verify_with_public (from_public_key capture' public_pem)
    signature (details_binary (reread_delegated json_loads d)) = Ok false.
Proof.
  intros Hpair Hwf Hwf' Hs Hother. cbn [get_signature] in Hs. simpl.
  rewrite (refuse_other _ _ _ _ (details_binary (reread_delegated json_loads d)) Hpair Hs); [done|].
  intros Heq. apply (details_binary_message version json_loads json_loads_dumps _ _ Hwf' Hwf) in Heq.
  apply Hother. unfold reread_delegated in Heq |- *. simpl in Heq.
  apply reread_unaltered in Heq. rewrite Heq. by destruct d.
Qed.

(** C31: A delegated scan goes to the agent and its result comes back as bytes.  The
    agent reads the details that the server signed, with the context of the event
    made anew.  If that is the context that was signed, the agent accepts the
    signature, and whatever result it makes of the details, the server reads and
    accepts it, because what is decoded is encoded again to the bytes that were
    signed.  If the message of the context was altered before it was signed, the
    agent refuses the scan. *)
Theorem delegated_scan_there_and_back capture capture' retries timeout private_pem public_pem
    sent sent' moniker state workflow d signature logs :
  key_pair private_pem public_pem → delegated_wf json_loads d →
  get_signature sign_with details_binary (from_private_key capture private_pem retries timeout) d =
    Ok signature →
  ∃ bytes m,
    body_binary sent (delegated_body
      (MkDelegatedScanMessage moniker state workflow d signature logs)) = Ok bytes ∧
    delegated_from_binary bytes = Ok m ∧ ds_details m = reread_delegated json_loads d ∧
    (ds_details m = d →
     validate_signature verify_with_private verify_with_public (from_public_key capture' public_pem)
       (ds_signature m) (details_binary (ds_details m)) = Ok true ∧
     ∀ state' exit_code scan_id captured,
       scan_id ≠ Some JNull → json_wf (default JNull scan_id) →
       ∃ bytes' result,
         body_binary sent' (result_body (MkDelegatedScanResultMessage (ds_moniker m) state'
           (ds_workflow m) (ds_details m) (ds_signature m) exit_code scan_id captured)) = Ok bytes' ∧
         result_from_binary bytes' = Ok result ∧ dr_scan_id result = scan_id ∧
         validate_signature verify_with_private verify_with_public
           (from_private_key capture private_pem retries timeout)
           (dr_signature result) (details_binary (dr_details result)) = Ok true) ∧
    (ds_details m ≠ d → delegated_wf json_loads (ds_details m) →
     validate_signature verify_with_private verify_with_public (from_public_key capture' public_pem)
       (ds_signature m) (details_binary (ds_details m)) = Ok false).
Proof.
  intros Hpair Hwf Hs. cbn [get_signature] in Hs.
  destruct (sign_verify _ _ _ _ Hpair Hs) as [Hpub Hpriv].
  set (m0 := MkDelegatedScanMessage moniker state workflow d signature logs).
  destruct (delegated_read version json_loads json_loads_dumps sent m0 Hwf) as (bytes & m & Hb & Hr & Hm).
  injection Hm as ->. eexists bytes, _. split_and!; [done|exact Hr|done| |]; cbn [ds_details ds_signature].
  - intros Hsame. rewrite Hsame. split; [simpl; by rewrite Hpub|].
    intros state' exit_code scan_id captured Hnull Hid.
    set (result := MkDelegatedScanResultMessage _ _ _ _ _ _ _ _).
    destruct (result_read version json_loads json_loads_dumps sent' result) as (bytes' & m' & Hb' & Hr' & Hm');
      [done|].
    injection Hm' as ->. eexists bytes', _. split_and!; [done|exact Hr'|done|].
    cbn [dr_details dr_signature]. rewrite Hsame. simpl. by rewrite Hpriv.
  - intros Hother Hwf'.
    by apply (altered_refused capture capture' retries timeout private_pem public_pem d signature).
Qed.

(** The scan of a GitHub pull request with an assignee is never done by an agent: the
    orchestrator has added the assignee to the list of the event's message when the
    details are signed, and the agent reads the message as it came. *)
Theorem assigned_request_refused jp repr ctx ctx' st capture capture' retries timeout private_pem
    public_pem d signature :
  json_loads (raw_event_payload ctx) = Ok (message ctx) → gh_assigned jp (message ctx) →
  gh_pr_state jp repr ctx = Ok (ctx', st) → df_event_context d = ctx' →
  key_pair private_pem public_pem →
  delegated_wf json_loads d → delegated_wf json_loads (reread_delegated json_loads d) →
  get_signature sign_with details_binary (from_private_key capture private_pem retries timeout) d =
    Ok signature →
  validate_signature verify_with_private verify_with_public (from_public_key capture' public_pem)
    signature (details_binary (reread_delegated json_loads d)) = Ok false.
Proof.
  intros Hctx Has Hst Hd Hpair Hwf Hwf' Hs. eapply altered_refused; [done..|].
  intros Heq%(f_equal df_event_context). simpl in Heq. rewrite Hd in Heq.
  rewrite (reread_same _ _ ctx Hctx (gh_pr_state_same _ _ _ _ _ Hst)) in Heq.
  apply (gh_assigned_altered _ _ _ _ _ Has Hst). by rewrite Heq.
Qed.
End through_the_broker.
End signatures.

(** ** Witness: keys are numbers, and a signature repeats what was signed. *)
Definition demo_lib_sign (k : nat) (a : scheme) (data : string) : outcome string :=
  Ok (pretty k +:+ ":" +:+ data).
Definition demo_lib_verify (k : nat) (a : scheme) (signature data : string) : outcome unit :=
  if String.eqb signature (pretty k +:+ ":" +:+ data) then Ok tt else Err (OtherException "InvalidSignature").
Definition demo_load_pem (pem : string) : outcome nat :=
  if String.eqb pem "none" then Err ValueError else Ok (String.length pem).

Lemma demo_lib_verify_sign k a data signature :
  demo_lib_sign k a data = Ok signature → demo_lib_verify k a signature data = Ok tt.
Proof. intros [= <-]. unfold demo_lib_verify. by rewrite String.eqb_refl. Qed.
Lemma demo_lib_verify_other k a data data' signature :
  demo_lib_sign k a data = Ok signature → data' ≠ data →
  demo_lib_verify k a signature data' = Err (OtherException "InvalidSignature").
Proof.
  intros [= <-] Hne. unfold demo_lib_verify. rewrite (proj2 (String.eqb_neq _ _)); [done|].
  intros H. apply (inj (String.append _)), (inj (String.append ":")) in H. congruence.
Qed.

Lemma delegated_signature_accepted_witness :
  validate_signature
    (verify_with_private demo_load_pem (λ _, RSA) id demo_lib_verify)
    (verify_with_public demo_load_pem (λ _, RSA) demo_lib_verify)
    (from_public_key false "private") "7:details" "details" = Ok true.
Proof.
  refine (proj1 (proj2 (delegated_signature_accepted demo_load_pem demo_load_pem (λ _, RSA) id
    demo_lib_sign demo_lib_verify (λ _, eq_refl) demo_lib_verify_sign demo_details_binary false false 3 60
    "private" "private" demo_details _))).
  exists 7. split; reflexivity.
Defined.

Definition demo_sent_details : DelegatedScanDetails :=
  MkDelegatedScanDetails (JStr "https://host/a/b.git") (JStr "c0ffee") (JStr "main")
    [("service", JStr "svc")] JNull (JStr "project") "scm" "cxone" demo_event_context
    "orchestration.gl.GitlabOrchestrator".
Lemma demo_sent_wf : delegated_wf json_read demo_sent_details.
Proof.
  split; [repeat constructor|apply demo_context_wf].
  apply (bool_decide_unpack _). vm_compute. exact I.
Qed.

(** The same details, with a message that is not that of the payload. *)
Definition demo_altered_details : DelegatedScanDetails :=
  MkDelegatedScanDetails (JStr "https://host/a/b.git") (JStr "c0ffee") (JStr "main")
    [("service", JStr "svc")] JNull (JStr "project") "scm" "cxone"
    (MkEventContext (raw_event_payload demo_event_context) (headers demo_event_context)
       (JArr [message demo_event_context; JStr "alice"]))
    "orchestration.gh.GithubOrchestrator".
Lemma demo_altered_wf : delegated_wf json_read demo_altered_details.
Proof.
  destruct demo_context_wf as [Hm Hj Hh].
  split; [repeat constructor; apply (bool_decide_unpack _); vm_compute; exact I|].
  split; [exact Hm|by split; [|split]|exact Hh].
Qed.

Definition demo_signed (d : DelegatedScanDetails) : string :=
  pretty 7 +:+ ":" +:+ Wire.details_binary "1.0" json_read d.
(** What the agent finds of the signature of details that were sent. *)
Definition demo_checked (m : DelegatedScanMessage) : outcome bool :=
  validate_signature (verify_with_private demo_load_pem (λ _, RSA) id demo_lib_verify)
    (verify_with_public demo_load_pem (λ _, RSA) demo_lib_verify)
    (from_public_key false "private") (ds_signature m)
    (Wire.details_binary "1.0" json_read (ds_details m)).

Lemma delegated_scan_there_and_back_witness :
  (∃ m, ds_details m = demo_sent_details ∧ demo_checked m = Ok true) ∧
  (∃ m, ds_details m = reread_delegated json_read demo_altered_details ∧
        demo_checked m = Ok false).
Proof.
  pose (there d (Hwf : delegated_wf json_read d) :=
    delegated_scan_there_and_back demo_load_pem demo_load_pem (λ _, RSA) id demo_lib_sign
      demo_lib_verify (λ _, eq_refl) demo_lib_verify_sign demo_lib_verify_other
      "1.0" json_read json_read_dumps false false 3%Z 60%Z "private" "private"
      (Stamp "now" "id") (Stamp "now" "id") "svc" EXECUTE PUSH d (demo_signed d) true
      (ex_intro _ 7 (conj eq_refl eq_refl)) Hwf eq_refl).
  split.
  - destruct (there _ demo_sent_wf) as (bytes & m & _ & _ & Hd & Haccept & _). exists m.
    assert (Hsame : ds_details m = demo_sent_details) by (rewrite Hd; vm_compute; reflexivity).
    split; [exact Hsame|exact (proj1 (Haccept Hsame))].
  - destruct (there _ demo_altered_wf) as (bytes & m & _ & _ & Hd & _ & Hrefuse). exists m.
    split; [exact Hd|]. apply Hrefuse; rewrite Hd.
    + intros H. apply (f_equal (λ d, message (df_event_context d))) in H. vm_compute in H. discriminate H.
    + split; [repeat constructor; apply (bool_decide_unpack _); vm_compute; exact I|apply demo_context_wf].
Defined.
