(* ===== verification/Amqp.v ===== *)
(** * The connection of a service to the broker: [AMQPClient] of
    [src/workflows/base_service.py], and [mq_agent] of [src/agent/__init__.py]

    A service connects when it is first asked for its connection and keeps it; a
    lock makes the requests for it follow one another.  An agent consumes a queue
    over a channel of such a connection until it is cancelled. *)
From S2P Require Import Prelude PyStr PyJson Url Logging.
Open Scope string_scope.
Open Scope nat_scope.
Open Scope list_scope.

(** ** Calls *)

(** The context of a TLS connection; without one the library verifies the
    certificate of the broker with its defaults. *)
Inductive ssl_context : Type :=
| DefaultContext
| Unverified            (* no host name check, no certificate *)
| CaFile (path : string)
| CaPath (path : string).
#[export] Instance ssl_context_eq_dec : EqDecision ssl_context.
Proof. solve_decision. Defined.

Inductive amqp_ev : Type :=
| IsFile (path : string)
| IsDir (path : string)
| ConnectRobust (url : string) (login password : option string) (ctx : ssl_context)
(** what an agent does with a channel *)
| Channel (connection : nat)
| SetQos (prefetch_count : nat)
| GetQueue (queue : string)
| Consume (moniker consumer_tag : string)
| AwaitFuture
| CloseChannel.

(** Connections are told apart by numbers. *)
Definition amqp_resp (e : amqp_ev) : Type :=
  match e with
  | IsFile _ | IsDir _ => bool
  | ConnectRobust _ _ _ _ => nat
  | AwaitFuture => Empty_set          (* a future that nobody completes *)
  | _ => unit
  end.
#[global] Arguments amqp_resp : simpl never.
Abbreviation amqp_prog := (prog amqp_ev amqp_resp).

(** ** [AMQPClient] *)
Record amqp_client : Type := AMQPClient {
  amqp_url : string; amqp_user : option string; amqp_password : option string;
  amqp_ssl_verify : json;          (* a boolean or a path *)
  amqp_connection : option nat }.

(** [__init__]: what it registers as a secret, and the client. *)
Definition amqp_secret (url : string) : option string :=
  let netloc := p_netloc (urlparse url) in
  if str_elem "@" netloc then head (split "@" netloc) else None.
Definition amqp_client_new (url : string) (user password : option string) (ssl_verify : json)
    (reg : registry) : amqp_client * registry :=
  (AMQPClient url user password ssl_verify None,
   match amqp_secret url with Some s => register (Some s) reg | None => reg end).

Definition use_ssl (c : amqp_client) : bool := String.eqb (p_scheme (urlparse (amqp_url c))) "amqps".

(** The context that the connection gets. *)
Definition choose_context (c : amqp_client) : amqp_prog ssl_context :=
  match amqp_ssl_verify c with
  | JBool verify => Ret (if negb verify && use_ssl c then Unverified else DefaultContext)
  | v =>
      if use_ssl c then
        match v with
        | JStr path =>
            let! file := (call (IsFile path) : amqp_prog bool) in
            if (file : bool) then Ret (CaFile path)
            else let! dir := (call (IsDir path) : amqp_prog bool) in
                 Ret (if (dir : bool) then CaPath path else DefaultContext)
        | _ => Raise TypeError
        end
      else Ret DefaultContext
  end.

(** [mq_client], under the lock: the connection, and the client that keeps it. *)
Definition mq_client (c : amqp_client) : amqp_prog (nat * amqp_client) :=
  match amqp_connection c with
  | Some conn => Ret (conn, c)
  | None =>
      let! ctx := choose_context c in
      let! conn := (call (ConnectRobust (amqp_url c) (amqp_user c) (amqp_password c) ctx)
                    : amqp_prog nat) in
      Ret (conn, AMQPClient (amqp_url c) (amqp_user c) (amqp_password c) (amqp_ssl_verify c)
                   (Some conn))
  end.

(** The connections that [n] requests get, one after the other. *)
Fixpoint connections (n : nat) (c : amqp_client) : amqp_prog (list nat) :=
  match n with
  | 0 => Ret []
  | S n' => let! ' (conn, c') := mq_client c in
            let! rest := connections n' c' in Ret (conn :: rest)
  end.

(** ** [mq_agent] *)

(** The name of a handler in its consumer tag: [__name__], or that of its class. *)
Definition handler_name (name class : option string) : string :=
  match name, class with
  | Some n, _ => n
  | None, Some c => c
  | None, None => "unknown"
  end.

(** The loop awaits futures that never have a result: it ends with an exception of
    the first. *)
Definition mq_agent (name : string) (pid : string) (connection : nat) (moniker queue : string)
    (prefetch : nat) : amqp_prog unit :=
  do! call (Channel connection) in
  finally
    (do! call (SetQos prefetch) in
     do! call (GetQueue queue) in
     do! call (Consume moniker (name +:+ "." +:+ moniker +:+ "." +:+ pid)) in
     let! never := (call AwaitFuture : amqp_prog Empty_set) in match never with end)
    (call CloseChannel).

(** ** Theorems *)

Definition is_connect (e : amqp_ev) : bool :=
  match e with ConnectRobust _ _ _ _ => true | _ => false end.

Lemma mq_client_kept c conn tr o :
  amqp_connection c = Some conn → exec (mq_client c) tr o → tr = [] ∧ o = Ok (conn, c).
Proof. unfold mq_client. intros ->. by intros [-> ->]. Qed.

Lemma connections_kept n c conn tr o :
  amqp_connection c = Some conn → exec (connections n c) tr o →
  tr = [] ∧ o = Ok (replicate n conn).
Proof.
  intros Hc. revert tr o. induction n as [|n IH]; intros tr o H; [by destruct H|].
  cbn [connections] in H.
  apply exec_bind in H as [([x c'] & tr1 & tr2 & -> & H1 & H)|(e & H1 & ->)];
    apply (mq_client_kept _ conn) in H1 as [-> Hx]; try done. simplify_eq.
  apply exec_bind in H as [(l & tr3 & tr4 & -> & H3 & [-> ->])|(e & H3 & ->)];
    apply IH in H3 as [-> ?]; by simplify_eq.
Qed.

(** The certificate of the broker goes unchecked only when the configuration says
    so; otherwise it is checked with the configured authority, when there is one. *)
Definition verified_as_configured (c : amqp_client) (ctx : ssl_context) : Prop :=
  match ctx with
  | Unverified => amqp_ssl_verify c = JBool false ∧ use_ssl c = true
  | CaFile p | CaPath p => amqp_ssl_verify c = JStr p ∧ use_ssl c = true
  | DefaultContext => use_ssl c = true → amqp_ssl_verify c ≠ JBool false
  end.

Lemma choose_context_spec c tr ctx :
  exec (choose_context c) tr (Ok ctx) →
  verified_as_configured c ctx ∧ count is_connect tr = 0.
Proof.
  unfold choose_context, verified_as_configured. intros H.
  destruct (amqp_ssl_verify c) as [|b| |path| |] eqn:Hv; try (destruct (use_ssl c) eqn:Hs;
    destruct H as [-> H]; by simplify_eq).
  - destruct H as [-> H]. destruct b, (use_ssl c) eqn:Hs; simplify_eq/=; done.
  - destruct (use_ssl c) eqn:Hs; [|by destruct H as [-> H]; simplify_eq].
    call_step H as [(file & tr1 & -> & H)|(? & -> & ?)]; [|done].
    destruct file; [by destruct H as [-> H]; simplify_eq|].
    call_step H as [(dir & tr2 & -> & H)|(? & -> & ?)]; [|done].
    destruct H as [-> H]. by destruct dir; simplify_eq.
Qed.

(** A service connects to the broker at most once for all its requests, which get
    the same connection, with a certificate check as the configuration asks; a
    connection that fails is not kept. *)
Theorem one_connection n c tr l :
  amqp_connection c = None → exec (connections (S n) c) tr (Ok l) →
  ∃ tr1 ctx conn, tr = tr1 ++ [Obs (ConnectRobust (amqp_url c) (amqp_user c) (amqp_password c) ctx)
                                 (Ok conn)] ∧
    count is_connect tr1 = 0 ∧ verified_as_configured c ctx ∧ l = replicate (S n) conn.
Proof.
  intros Hc H. cbn [connections] in H.
  apply exec_bind_ok in H as ([conn c'] & tr1 & tr2 & -> & H1 & H).
  unfold mq_client in H1. rewrite Hc in H1.
  apply exec_bind_ok in H1 as (ctx & tr3 & tr4 & -> & Hctx & H1).
  apply choose_context_spec in Hctx as [Hv Hcount].
  call_step H1 as [(conn' & tr5 & -> & [-> H1])|(? & -> & ?)]; [|done]. simplify_eq.
  apply exec_bind_ok in H as (rest & tr6 & tr7 & -> & H & [-> ?]).
  apply (connections_kept _ _ conn') in H as [-> ?]; [|done]. simplify_eq.
  exists tr3, ctx, conn'. rewrite !app_nil_r. done.
Qed.

(** An agent never returns: it prepares its queue, consumes, and ends with an
    exception, and closes its channel if it opened one. *)
Theorem mq_agent_ends name pid connection moniker queue prefetch tr o :
  exec (mq_agent name pid connection moniker queue prefetch) tr o →
  (∃ e, o = Err e) ∧
  (events tr = [Channel connection] ∨
   ∃ done_, events tr = Channel connection :: done_ ++ [CloseChannel] ∧
     done_ `prefix_of` [SetQos prefetch; GetQueue queue;
       Consume moniker (name +:+ "." +:+ moniker +:+ "." +:+ pid); AwaitFuture]).
Proof.
  intros H. unfold mq_agent in H.
  call_step H as [([] & tr' & -> & H)|(e & -> & ->)]; [|split; [by eexists|by left]].
  apply exec_on_outcome in H as (x & tr1 & tr2 & -> & H1 & H2).
  assert (Hx : (∃ e, x = Err e) ∧ events tr1 `prefix_of` [SetQos prefetch; GetQueue queue;
       Consume moniker (name +:+ "." +:+ moniker +:+ "." +:+ pid); AwaitFuture]).
  { do 3 (call_step H1 as [([] & ? & -> & H1)|(? & -> & ->)];
      [|split; [by eexists|by eexists]]).
    call_step H1 as [([] & ? & _ & _)|(? & -> & ->)]. split; by eexists. }
  destruct Hx as [[e ->] Hpre].
  assert (Hend : (∃ e, o = Err e) ∧ events tr2 = [CloseChannel]).
  { call_step H2 as [([] & tr3 & -> & H2)|(e' & -> & ->)]; [|split; [by eexists|done]].
    destruct H2 as [-> ->]. split; [by eexists|done]. }
  destruct Hend as [Ho Hev]. split; [done|]. right. exists (events tr1).
  split; [|done]. change (Channel connection :: events (tr1 ++ tr2) = Channel connection :: events tr1 ++ [CloseChannel]).
  by rewrite events_app, Hev.
Qed.
