(* ===== verification/Naming.v ===== *)
(** * Names of projects: [src/naming_services/__init__.py]

    The name of a project is the default one of its orchestrator, unless the
    configuration names a script, which may choose another. *)
From S2P Require Import Prelude PyStr PyJson Auth.
Open Scope string_scope.
Open Scope nat_scope.
Open Scope list_scope.

(** The one call: the coroutine of the script, with the event. *)
Inductive naming_ev : Type := RunNaming (script : string) (ctx : EventContext).
Definition naming_resp (e : naming_ev) : Type := json.
#[global] Arguments naming_resp : simpl never.
Abbreviation naming_prog := (prog naming_ev naming_resp).

(** [get_project_name]: every exception of the script is caught. *)
Definition get_project_name (naming_coro : option string) (default_name : json)
    (ctx : EventContext) : naming_prog json :=
  match naming_coro with
  | None => Ret default_name
  | Some script =>
      on_outcome (λ o, match o with
                       | Ok name => Ret (if not_none name then name else default_name)
                       | Err _ => Ret default_name
                       end)
        (call (RunNaming script ctx))
  end.

(** A project always has a name: the script runs at most once, its name is taken
    when it gives one, and whatever else it does the default name is used. *)
Theorem project_name_total naming_coro default_name ctx tr o :
  not_none default_name = true →
  exec (get_project_name naming_coro default_name ctx) tr o →
  ∃ name, o = Ok name ∧ not_none name = true ∧
    match naming_coro with
    | None => tr = [] ∧ name = default_name
    | Some script => ∃ answer, tr = [Obs (RunNaming script ctx) answer] ∧
        (name = default_name ∨ answer = Ok name)
    end.
Proof.
  intros Hd H. destruct naming_coro as [script|]; [|destruct H as [-> ->]; by exists default_name].
  apply exec_on_outcome in H as (x & tr1 & tr2 & -> & H1 & H2). last_call H1. subst tr1.
  assert (tr2 = []) as -> by (destruct x; by destruct H2). rewrite app_nil_r.
  destruct x as [name|e]; destruct H2 as [_ ->].
  - destruct (not_none name) eqn:Hn; [exists name|exists default_name]; eauto 8.
  - exists default_name. eauto 8.
Qed.
