(* ===== verification/Environment.v ===== *)
(** * The environment of the server: the functions of [src/config/__init__.py]
    that read environment variables, and the search for a CA bundle

    Its results are the defaults that the configuration reader uses.  The
    configuration of the log of [src/cxoneflow_logging/__init__.py] is here, too. *)
From S2P Require Import Prelude PyStr PyJson.
Open Scope string_scope.
Open Scope Z_scope.
Open Scope list_scope.

Section environment.
(** [os.environ], [multiprocessing.cpu_count] and [os.path.exists] *)
Context (environ : dict string).
Context (cpu_count : Z).
Context (path_exists : string → bool).

(** [get_workers_count]; [int(cpu_count() / 2)] of a positive count. *)
Definition get_workers_count : outcome Z :=
  match dget "CXONEFLOW_WORKERS" environ with
  | None => Ok (cpu_count / 2)
  | Some n => let? n := of_option ValueError (int_of_str n) in Ok (Z.min (cpu_count - 1) n)
  end.

(** [get_log_level] *)
Definition get_log_level : string := default "INFO" (dget "LOG_LEVEL" environ).

(** [load_logging_config_dict], of what the file holds: an item is set in a
    dictionary only. *)
Definition load_logging_config_dict (config : json) : outcome json :=
  let? loggers := jindex "loggers" config in
  let? root := jindex "root" loggers in
  match config, loggers, root with
  | JObj c, JObj l, JObj r =>
      let r := dset "level" (JStr get_log_level) r in
      Ok (JObj (dset "loggers" (JObj (dset "root" (JObj r) l)) c))
  | _, _, _ => Err TypeError
  end.

(** The configuration that [bootstrap] of the log hands to [dictConfig]; the path of
    a log file that it also makes is not used. *)
Definition log_cfg : json := JObj
  [("version", JInt 1);
   ("handlers", JObj [("console", JObj
     [("class", JStr "cxoneflow_logging.RedactingStreamHandler");
      ("formatter", JStr "default"); ("stream", JStr "ext://sys.stdout")])]);
   ("formatters", JObj [("default", JObj
     [("format", JStr "[%(asctime)s][%(process)d][%(name)s][%(levelname)s] %(message)s");
      ("datefmt", JStr "%Y-%m-%dT%H:%M:%S%z")])]);
   ("loggers", JObj [("root", JObj
     [("handlers", JArr [JStr "console"]); ("level", JStr get_log_level)])])].

(** The program logs through the handler that redacts, and only through it. *)
Lemma log_is_redacted :
  item_at ["loggers"; "root"; "handlers"] log_cfg = Ok (JArr [JStr "console"]) ∧
  item_at ["handlers"; "console"; "class"] log_cfg =
    Ok (JStr "cxoneflow_logging.RedactingStreamHandler").
Proof. done. Qed.

(** Either way the level is that of the environment; a file keeps what else it says
    of its root logger and of its handlers. *)
Lemma logging_level config config' :
  load_logging_config_dict config = Ok config' →
  item_at ["loggers"; "root"; "level"] config' = item_at ["loggers"; "root"; "level"] log_cfg ∧
  (∀ k, k ≠ "level" → item_at ["loggers"; "root"; k] config' = item_at ["loggers"; "root"; k] config) ∧
  (∀ k, k ≠ "loggers" → jindex k config' = jindex k config).
Proof.
  unfold load_logging_config_dict. intros (loggers & Hl & (root & Hr & H)%bindO_ok)%bindO_ok.
  destruct config as [| | | | |c]; [done..|]. destruct loggers as [| | | | |l]; [done..|].
  destruct root as [| | | | |r]; [done..|].
  injection H as <-. unfold item_at, foldO, jindex, dindex in *. split_and!.
  - by rewrite !dget_dset_eq; simpl; rewrite !dget_dset_eq; simpl; rewrite dget_dset_eq.
  - intros k Hk. rewrite Hl. cbn [bindO]. rewrite Hr. cbn [bindO].
    rewrite dget_dset_eq. cbn [of_option bindO]. rewrite dget_dset_eq. cbn [of_option bindO].
    by rewrite dget_dset_ne.
  - intros k Hk. by rewrite dget_dset_ne.
Qed.

(** [get_config_path] *)
Definition get_config_path : string := default "./config.yaml" (dget "CONFIG_YAML_PATH" environ).

(** [get_default_ssl_verify_value] *)
Definition default_bundles : list string :=
  ["/etc/pki/tls/certs/ca-bundle.crt"; "/etc/ssl/certs/ca-certificates.crt"].
Definition get_default_ssl_verify_value : json :=
  match dget "REQUESTS_CA_BUNDLE" environ with
  | Some bundle => JStr bundle
  | None => match find path_exists default_bundles with
            | Some bundle => JStr bundle
            | None => JBool false
            end
  end.

(** Certificates are verified by default, unless no bundle is named and neither of
    the default ones exists. *)
Lemma ssl_verify_default :
  get_default_ssl_verify_value = JBool false ↔
  dhas "REQUESTS_CA_BUNDLE" environ = false ∧ Forall (λ b, path_exists b = false) default_bundles.
Proof.
  unfold get_default_ssl_verify_value, dhas.
  destruct (dget "REQUESTS_CA_BUNDLE" environ); [split; [done|by intros [? _]]|].
  unfold default_bundles. simpl. repeat case_match; split; try done.
  - intros [_ Hf]. inversion Hf; congruence.
  - intros [_ Hf]. inversion Hf as [|? ? ? Hf']. inversion Hf'; congruence.
  - intros _. split; [done|]. by repeat constructor.
Qed.

(** On a machine with one processor the server is given no worker at all, whatever
    positive number is configured. *)
Theorem no_worker_on_one_cpu n :
  cpu_count = 1 → get_workers_count = Ok n →
  (∀ v, dget "CXONEFLOW_WORKERS" environ = Some v → ∃ m, int_of_str v = Some m ∧ 0 < m) → n = 0.
Proof.
  unfold get_workers_count. intros -> H Hv. destruct (dget "CXONEFLOW_WORKERS" environ) as [v|].
  - destruct (Hv v eq_refl) as (m & Hm & ?). rewrite Hm in H. simpl in H. injection H as <-. lia.
  - by injection H as <-.
Qed.
End environment.
