(* ===== verification/Conformance.v ===== *)
(** * The repository's own tests, evaluated on the model: [src/tests/]

    What the unit tests of the repository assert about the password policy, the
    command line options, the rows of a comment and the serialisation of messages
    holds of the definitions of this library.  The tests of signatures need the
    cryptography that is a parameter here; what they assert in general is
    [ApiSession.verify_signature_spec] and [Signatures.delegated_signature_accepted]. *)
From stdpp Require Import sorting.
From S2P Require Import Prelude PyStr PyJson JsonText Messaging Markdown Workflows Wire Runner ScmConfig.
Open Scope string_scope.
Open Scope nat_scope.
Open Scope list_scope.

Ltac evaluate := vm_compute; reflexivity.

(** ** [password_strength_test.py] *)
Section passwords.
Let secret_policy := PasswordPolicy 20 3 3 2.
Let valid_uppercase := "ABC".
Let valid_numbers := "321".
Let valid_special := "!(".
Let remaining (n : nat) := repeat_str n "a".
Let length_policy := PasswordPolicy 20 0 0 0.
Let uppercase_policy := PasswordPolicy 0 3 0 0.
Let numbers_policy := PasswordPolicy 0 0 3 0.
Let special_policy := PasswordPolicy 0 0 0 3.

Example test_combo_invalid_length :
  password_test secret_policy (valid_uppercase +:+ valid_numbers +:+ valid_special +:+ remaining 11) = false.
Proof. evaluate. Qed.
Example test_valid_orders :
  password_test secret_policy <$>
    [remaining 12 +:+ valid_uppercase +:+ valid_numbers +:+ valid_special;
     valid_uppercase +:+ remaining 12 +:+ valid_numbers +:+ valid_special;
     valid_uppercase +:+ valid_numbers +:+ remaining 12 +:+ valid_special;
     valid_special +:+ valid_uppercase +:+ valid_numbers +:+ remaining 12] = [true; true; true; true].
Proof. evaluate. Qed.
Example test_lengths :
  password_test length_policy <$> [remaining 19; remaining 20; remaining 22] = [false; true; true].
Proof. evaluate. Qed.
Example test_uppercase :
  password_test uppercase_policy <$>
    [remaining 2 +:+ "AB"; remaining 20 +:+ "BBB"; remaining 20 +:+ "BBBBB"] = [false; true; true].
Proof. evaluate. Qed.
Example test_numbers :
  password_test numbers_policy <$>
    ["2" +:+ remaining 2 +:+ "1"; "1" +:+ remaining 20 +:+ "09"; remaining 20 +:+ "0123456789"] =
    [false; true; true].
Proof. evaluate. Qed.
Example test_special :
  password_test special_policy <$>
    ["2" +:+ remaining 2 +:+ "1"; "1" +:+ remaining 20 +:+ String.substring 0 29 punctuation;
     "1" +:+ remaining 20 +:+ punctuation] = [false; true; true].
Proof. evaluate. Qed.
End passwords.

(** ** [agent_tool_test.py], with options that no resolver forbids *)
Section options.
Let foo (x : string) := "foo," +:+ x.
Let merge : dict (string → string) := [("excludes", foo); ("e", foo)].

Example test_dashes :
  (λ k, as_string (Some [(k, JNull)]) []) <$> ["e"; "foo"] = ["-e"; "--foo"].
Proof. evaluate. Qed.
Example test_str_args :
  (λ k, as_string (Some [(k, JStr "bar")]) []) <$> ["f"; "foo"] = ["-f bar"; "--foo bar"].
Proof. evaluate. Qed.
Example test_non_str_args_skipped :
  (λ k, as_string (Some [(k, JArr [JStr "bar"])]) []) <$> ["f"; "foo"] = [""; ""].
Proof. evaluate. Qed.
Example test_zero_len_arg : as_string (Some [("", JStr "bar")]) [] = "".
Proof. evaluate. Qed.
Example test_merge_options :
  (λ k, as_args (Some [(k, JStr "bar")]) merge) <$> ["e"; "excludes"; "foo-opt"] =
    [["-e"; "foo,bar"]; ["--excludes"; "foo,bar"]; ["--foo-opt"; "bar"]].
Proof. evaluate. Qed.
End options.

(** ** [pr_details_test.py] *)
Section rows.
Let row (sev : ResultSeverity) (foo bar : string) : DetailRow :=
  MkDetailRow sev [("foo", JStr foo); ("bar", JStr bar)].

(** [str(rows)] of rows sorted by these fields. *)
Definition rows_str (columns fields : list string) (rows : list DetailRow) : outcome string :=
  let? keyed := mapO (λ r, let? k := sort_key fields r in Ok (k, r)) rows in
  let? lines := mapO (DetailRow_str columns) (merge_rows keyed) in
  Ok (join nl lines).

Example test_row_order :
  DetailRow_str ["foo"; "bar"] <$>
    [row CRITICAL "1" "2"; MkDetailRow CRITICAL [("bar", JStr "2"); ("foo", JStr "1")]] =
    [Ok "| 1 | 2 |"; Ok "| 1 | 2 |"].
Proof. evaluate. Qed.
Example test_row_order_missing_arg :
  DetailRow_str ["foo"; "bar"] (MkDetailRow CRITICAL [("bar", JStr "2")]) = Err (KeyError "foo").
Proof. evaluate. Qed.
Example test_sort_by_severity :
  rows_str ["foo"] [] [row INFO "0" "1"; row LOW "1" "1"; row MEDIUM "2" "1"; row HIGH "3" "1";
                       row CRITICAL "4" "2"] =
    Ok (join nl ["| 4 |"; "| 3 |"; "| 2 |"; "| 1 |"; "| 0 |"]).
Proof. evaluate. Qed.
Example test_sort_by_severity_composite_key :
  rows_str ["foo"] ["foo"] [row CRITICAL "2" "2"; row CRITICAL "1" "2"; row CRITICAL "0" "2"] =
    Ok (join nl ["| 0 |"; "| 1 |"; "| 2 |"]).
Proof. evaluate. Qed.
Example test_sort_by_severity_2xcomposite_key :
  rows_str ["foo"; "bar"] ["foo"; "bar"]
    [row HIGH "a" "a"; row CRITICAL "a" "z"; row CRITICAL "a" "x"; row CRITICAL "b" "a"] =
    Ok (join nl ["| a | x |"; "| a | z |"; "| b | a |"; "| a | a |"]).
Proof. evaluate. Qed.
Example test_sort_by_severity_composite_key_with_other_cols :
  rows_str ["foo"; "bar"] ["foo"] [row CRITICAL "2" "a"; row CRITICAL "1" "b"; row CRITICAL "0" "c"] =
    Ok (join nl ["| 0 | c |"; "| 1 | b |"; "| 2 | a |"]).
Proof. evaluate. Qed.
End rows.

(** ** [message_serialization_test.py] *)
Example test_timestamp_binary_serialization :
  (let? msg := factory "1.0" json_read (Stamp "2026-01-01T00:00:00+00:00" "id") StampedMessageC [] in
   from_binary "1.0" json_read StampedMessageC (to_binary "1.0" json_read msg)) =
    Ok (VObj StampedMessageC [("timestamp", VJson (JStr "2026-01-01T00:00:00+00:00"));
                              ("correlation_id", VJson (JStr "id"))]).
Proof. evaluate. Qed.
