(* ===== verification/Examples.v ===== *)
(** * The examples of the manual: [src/manual/quickstart_configs/project_naming/]
    and [src/examples/hmac/]

    The scripts that name projects, one for each host, which [Naming] runs, and the
    consumer that checks the signature of a delivered SARIF log. *)
From S2P Require Import Prelude PyStr PyJson Url Auth ApiSession Messaging Grouping CxOne Cloner Config Bootstrap Feedback Naming.
Open Scope string_scope.
Open Scope nat_scope.
Open Scope list_scope.

(** ** The call of a script on its host: [BasicSCMService.exec] *)
Inductive script_ev : Type :=
| ScriptExec (method path : string) (event_context : option EventContext).
Definition script_resp (e : script_ev) : Type := response.
#[global] Arguments script_resp : simpl never.
Abbreviation script_prog := (prog script_ev script_resp).

Section naming_examples.
Context (repr : json → string).
(** [c.isupper()], of a character *)
Context (isupper : ascii → bool).

(** [normalize_org_name] and [normalize_collection_name]: a name, or a list. *)
Definition normalize_name (name : json) : outcome json :=
  match name with
  | JStr s => Ok (JStr (if String.length s <? 6 then s else take_str 6 s))
  | JArr l => Ok (JArr (if length l <? 6 then l else take 6 l))
  | JObj d => if length d <? 6 then Ok name else Err (KeyError "slice(0, 6, None)")
  | _ => Err TypeError
  end.

(** [f"{a}_{b}"] *)
Definition underscored (a b : json) : string := py_str repr a +:+ "_" +:+ py_str repr b.

(** *** BitBucket Data Center *)
Definition bbdc_repo_dict (m : json) : outcome json :=
  let? push := jhas "repository" m in
  if (push : bool) then jindex "repository" m
  else
    let? pr := jhas "pullRequest" m in
    if (pr : bool) then item_at ["pullRequest"; "toRef"; "repository"] m else Ok JNull.

Definition bbdc_project_name (ctx : EventContext) : script_prog json :=
  lift (let? repo := bbdc_repo_dict (message ctx) in
        match repo with
        | JNull => Ok JNull
        | _ =>
            let? slug := jindex "slug" repo in
            let? has := jhas "project" repo in
            if (has : bool) then
              let? key := item_at ["project"; "key"] repo in Ok (JStr (underscored key slug))
            else Ok JNull
        end).

(** *** GitHub *)
Definition gh_project_name (ctx : EventContext) : script_prog json :=
  lift (let m := message ctx in
        let? has_repo := jhas "repository" m in
        let? repo_name := if (has_repo : bool) then item_at ["repository"; "name"] m
                          else Ok JNull in
        let? has_org := jhas "organization" m in
        let? org_name := if (has_org : bool) then
                           let? login := item_at ["organization"; "login"] m in
                           normalize_name login
                         else Ok JNull in
        Ok (if not_none org_name && not_none repo_name
            then JStr (underscored org_name repo_name) else JNull)).

(** *** GitLab *)
Fixpoint only_upper (s : string) : string :=
  match s with
  | "" => ""
  | String c s' => if isupper c then String c (only_upper s') else only_upper s'
  end.

Definition gl_project_name (ctx : EventContext) : script_prog json :=
  let m := message ctx in
  let! has := lift (jhas "project" m) in
  if (has : bool) then
    let! project_name := lift (item_at ["project"; "name"] m) in
    let! id := lift (item_at ["project"; "id"] m) in
    let! resp := (call (ScriptExec "GET" ("/projects/" +:+ py_str repr id) None) :
                  script_prog response) in
    if r_ok resp then
      lift (let? j := r_json resp in
            let? full_name := jindex "name_with_namespace" j in
            let? full_name := as_str full_name in
            let revised := only_upper <$> removelast (split "/"%char full_name) in
            match project_name with
            | JStr name => Ok (JStr (join "/" (revised ++ [name])))
            | _ => Err TypeError
            end)
    else Ret JNull
  else Ret JNull.

(** *** Azure DevOps *)
Definition adoe_name (collection project repo : json) : outcome json :=
  let? collection := normalize_name collection in
  Ok (JStr (underscored collection project +:+ "_" +:+ py_str repr repo)).

Definition adoe_project_name (ctx : EventContext) : script_prog json :=
  let m := message ctx in
  let! webhook := lift (jhas "resource" m) in
  if (webhook : bool) then
    let! repo_name := lift (item_at ["resource"; "repository"; "name"] m) in
    let! project_name := lift (item_at ["resource"; "repository"; "project"; "name"] m) in
    let! id := lift (item_at ["resourceContainers"; "collection"; "id"] m) in
    let! resp := (call (ScriptExec "GET" ("/_apis/projectcollections/" +:+ py_str repr id)
                          (Some ctx)) : script_prog response) in
    if negb (r_ok resp) then Ret JNull
    else lift (let? j := r_json resp in
               let? collection := jindex "name" j in adoe_name collection project_name repo_name)
  else
    lift (let? collection := jindex "collection_name" m in
          let? repo_name := jindex "repo_name" m in
          let? project_name := jindex "project_name" m in
          adoe_name collection project_name repo_name).
End naming_examples.

(** ** The consumer of SARIF logs *)
Inductive sarif_client_ev : Type :=
| PrintVerdict (verified : bool)
| ClientNack (requeue : bool)
| ClientAck.
Definition sarif_client_resp (e : sarif_client_ev) : Type := unit.
#[global] Arguments sarif_client_resp : simpl never.
Abbreviation client_prog := (prog sarif_client_ev sarif_client_resp).

Section client.
(** The algorithms that [hmac.new] knows, and its digest in hexadecimal. *)
Context (available : string → bool).
Context (hmac : string → string → string → string).

Definition example_secret : string := "MySharedSecret-12344$abc!123".

(** [receive_sarif_log], with a secret *)
Definition receive_sarif_log (secret body : string) (headers : dict json) : client_prog unit :=
  finally
    (catch is_BaseException
       (let! sig := lift (dindex "x-cx-signature" headers) in
        let! alg := lift (dindex "x-cx-signature-alg" headers) in
        let! alg := lift (match alg with JStr a => Ok a | _ => Err TypeError end) in
        let! digest := lift (if available alg then Ok (hmac alg secret body) else Err ValueError) in
        (call (PrintVerdict (bool_decide (JStr digest = sig))) : client_prog unit))
       (λ _, (call (ClientNack false) : client_prog unit)))
    (call ClientAck : client_prog unit).

(** [validate__hmac_signature]: the status of the answer to a delivery by HTTP.  A
    header that is missing raises in the library. *)
Definition validate__hmac_signature (secret body : string) (header : string → outcome string) :
    outcome Z :=
  let? sig := header "x-cx-signature" in
  let? alg := header "x-cx-signature-alg" in
  let? digest := if available alg then Ok (hmac alg secret body) else Err ValueError in
  Ok (if bool_decide (digest = sig) then 204 else 403)%Z.
End client.

(** ** Theorems *)
Definition answer_of (ob : obs script_ev script_resp) : outcome response :=
  match ob with existT (ScriptExec _ _ _) r => r end.
Section theorems.
Context (repr : json → string) (isupper : ascii → bool).

(** The script of BitBucket Data Center names the same project for a push to a
    repository and for a pull request to it. *)
Theorem bbdc_events_agree repo raw1 raw2 hdrs1 hdrs2 push pr tr o :
  dget "repository" push = Some repo →
  dhas "repository" pr = false → item_at ["pullRequest"; "toRef"; "repository"] (JObj pr) = Ok repo →
  exec (bbdc_project_name repr (MkEventContext raw1 hdrs1 (JObj push))) tr o ↔
  exec (bbdc_project_name repr (MkEventContext raw2 hdrs2 (JObj pr))) tr o.
Proof.
  intros Hpush Hpr Hrepo. unfold bbdc_project_name. cbn [message].
  assert (bbdc_repo_dict (JObj push) = Ok repo) as ->.
  { unfold bbdc_repo_dict, jhas, dhas, jindex, dindex. by rewrite Hpush. }
  assert (bbdc_repo_dict (JObj pr) = Ok repo) as ->; [|done].
  unfold bbdc_repo_dict. cbn [jhas]. rewrite Hpr. cbn [bindO].
  assert (dhas "pullRequest" pr = true) as ->; [|done].
  unfold item_at in Hrepo. simpl in Hrepo. unfold dindex in Hrepo. unfold dhas.
  by destruct (dget "pullRequest" pr).
Qed.

(** The script of Azure DevOps names the same project for an event and for the
    kickoff of its repository, when the host answers with the collection that the
    kickoff names. *)
Theorem adoe_events_agree ctx ctx' m ko collection project repo resp j path o :
  message ctx = m → jhas "resource" m = Ok true →
  item_at ["resource"; "repository"; "name"] m = Ok repo →
  item_at ["resource"; "repository"; "project"; "name"] m = Ok project →
  r_ok resp = true → r_json resp = Ok j → jindex "name" j = Ok collection →
  message ctx' = JObj ko → dhas "resource" ko = false →
  dget "collection_name" ko = Some collection → dget "repo_name" ko = Some repo →
  dget "project_name" ko = Some project →
  exec (adoe_project_name repr ctx) [Obs (ScriptExec "GET" path (Some ctx)) (Ok resp)] o →
  exec (adoe_project_name repr ctx') [] o.
Proof.
  intros Hm Hres Hrepo Hproject Hok Hj Hname Hko Hno Hc Hr Hp H.
  unfold adoe_project_name in *. rewrite Hko. rewrite Hm in H. cbn [jhas]. rewrite Hno. cbn [lift bindP].
  unfold jindex, dindex. rewrite Hc, Hr, Hp. cbn [bindO of_option].
  rewrite Hres, Hrepo, Hproject in H. cbn [lift bindP] in H.
  apply exec_lift_bind in H as [(id & _ & H)|(e & _ & ? & _)]; [|done].
  call_step H as [(resp' & tr & Htr & H)|(e & Htr & _)];
    apply (f_equal (fmap answer_of)) in Htr; [|done].
  injection Htr as <- Htr. symmetry in Htr. apply fmap_nil_inv in Htr as ->.
  rewrite Hok in H. cbn [negb] in H. rewrite Hj in H. cbn [bindO] in H. by rewrite Hname in H.
Qed.

(** A consumer like the example with the secret of the delivery accepts every SARIF
    log that an agent packages, and acknowledges it. *)
Theorem packaged_log_accepted available hmac gzip secret log m is_error d body hdrs :
  package_message available hmac gzip secret log (sarif_headers m is_error d) = Ok (body, hdrs) →
  exec (receive_sarif_log available hmac secret body hdrs)
    [Obs (PrintVerdict true) (Ok tt); Obs ClientAck (Ok tt)] (Ok tt).
Proof.
  unfold package_message, gen_signature_headers, gen_signature_header, gen_signature_hash.
  destruct (available "sha256") eqn:Ha; [|done]. cbn [bindO]. intros [= <- <-].
  unfold receive_sarif_log, finally, catch. apply exec_on_outcome.
  exists (Ok tt), [Obs (PrintVerdict true) (Ok tt)], [Obs ClientAck (Ok tt)]. split; [done|].
  split; [|by exists (Ok tt), []].
  apply exec_on_outcome. exists (Ok tt), [Obs (PrintVerdict true) (Ok tt)], [].
  split; [done|]. split; [|done]. cbn -[String.eqb exec bool_decide].
  do 3 (apply exec_lift_bind_ok; eexists; split; [reflexivity|]). rewrite Ha.
  apply exec_lift_bind_ok; eexists; split; [reflexivity|].
  rewrite bool_decide_true by done. by apply (exec_call (Resp:=sarif_client_resp)).
Qed.

(** It prints that a log is verified only for the digest of its body under the
    secret, by the algorithm that the headers name. *)
Theorem verified_log available hmac secret body hdrs tr o :
  exec (receive_sarif_log available hmac secret body hdrs) tr o →
  PrintVerdict true ∈ events tr →
  ∃ alg, dget "x-cx-signature-alg" hdrs = Some (JStr alg) ∧ available alg = true ∧
    dget "x-cx-signature" hdrs = Some (JStr (hmac alg secret body)).
Proof.
  intros H Hin. revert Hin. set (P := ∃ alg, _).
  assert (Ho : only (λ e, e = PrintVerdict true → P)
                 (receive_sarif_log available hmac secret body hdrs)).
  2: { intros Hin. apply Ho in H. rewrite Forall_forall in H. by apply (H _ Hin). }
  unfold receive_sarif_log, finally, catch. apply only_on_outcome; [apply only_on_outcome|].
  - unfold dindex. destruct (dget "x-cx-signature" hdrs) as [sig|] eqn:Hs; [|apply only_raise].
    destruct (dget "x-cx-signature-alg" hdrs) as [[| | |alg| |]|] eqn:Ha; try apply only_raise.
    change (only (λ e, e = PrintVerdict true → P)
      (let! digest := lift (if available alg then Ok (hmac alg secret body) else Err ValueError) in
       (call (PrintVerdict (bool_decide (JStr digest = sig))) : client_prog unit))).
    destruct (available alg) eqn:Hav; [|apply only_raise]. unfold lift, bindP.
    refine (only_call (Ev:=sarif_client_ev) (Resp:=sarif_client_resp) _ (PrintVerdict _) _).
    intros [= Hv]. apply bool_decide_eq_true in Hv. exists alg. by rewrite Hv.
  - intros [[]|e]; [apply only_ret|]. case_match; [|apply only_raise].
    by refine (only_call (Ev:=sarif_client_ev) (Resp:=sarif_client_resp) _ (ClientNack _) _).
  - intros x. apply only_bind; [|intros; apply only_lift].
    by refine (only_call (Ev:=sarif_client_ev) (Resp:=sarif_client_resp) _ ClientAck _).
Qed.

(** The example that receives a log by HTTP answers 204 exactly for those logs. *)
Theorem http_log_verified available hmac secret body header :
  validate__hmac_signature available hmac secret body header = Ok 204%Z ↔
  ∃ alg, header "x-cx-signature-alg" = Ok alg ∧ available alg = true ∧
    header "x-cx-signature" = Ok (hmac alg secret body).
Proof.
  unfold validate__hmac_signature. split.
  - intros (sig & -> & H)%bindO_ok. apply bindO_ok in H as (alg & Halg & H).
    destruct (available alg) eqn:Hav; [|done]. cbn [bindO] in H. injection H as H.
    case_bool_decide; [subst; eauto|done].
  - intros (alg & Halg & Hav & Hsig). rewrite Hsig, Halg. cbn [bindO]. rewrite Hav. cbn [bindO].
    by rewrite bool_decide_true.
Qed.

(** A log without a signature is settled twice: it is refused, and then
    acknowledged. *)
Theorem unsigned_log_settled_twice available hmac secret body hdrs :
  dget "x-cx-signature" hdrs = None →
  exec (receive_sarif_log available hmac secret body hdrs)
    [Obs (ClientNack false) (Ok tt); Obs ClientAck (Ok tt)] (Ok tt).
Proof.
  intros H. unfold receive_sarif_log, finally, catch. apply exec_on_outcome.
  exists (Ok tt), [Obs (ClientNack false) (Ok tt)], [Obs ClientAck (Ok tt)]. split; [done|].
  split; [|by exists (Ok tt), []].
  apply exec_on_outcome. exists (Err (KeyError "x-cx-signature")), [], [Obs (ClientNack false) (Ok tt)].
  split; [done|]. split; [|by apply (exec_call (Resp:=sarif_client_resp) (ClientNack false))].
  unfold dindex. by rewrite H.
Qed.
End theorems.
